(* ===== verification/_CoqProject ===== *)
-Q . S2P
Prelude.v
BlockHash.v
Sha256.v
Md5.v
Crypto.v
Wire.v
Json.v
Shard.v
ShardFacts.v
ShardQueryFacts.v
Manager.v
ManagerFacts.v
EngineFacts.v
Store.v
MapStore.v
Config.v
ConfigFacts.v
StoreFacts.v
EqlScan.v
EqlScanFacts.v
Cluster.v
ClusterPlacement.v
Repl.v
Doubles.v
Mesh.v
Gossip.v
Waves.v
ClusterGaps.v
ReplFacts.v
ReplRead.v
ReplReadFacts.v
ReplHandlers.v
World.v
WorldFacts.v
EqlExec.v
EqlFacts.v
EqlNode.v
Http.v
HttpFacts.v
Api.v
ApiAdmin.v
ApiFacts.v
ApiNode.v
Snap.v
SnapFacts.v
Analytics.v
AnalyticsFacts.v
Lua.v
ApiLua.v
LuaFacts.v
ApiCluster.v
BackupTool.v
ApiClusterFacts.v
NodeGuard.v
BackupFacts.v
BackupArchive.v
