(* ===== verification/Prelude.v ===== *)
(** * EpsilonDB, verified

    EpsilonDB is a distributed document store written in C. A node keeps each
    (partition, keyspace) in a SQLite file called a shard, keeps its own
    configuration in shards of a system database, gossips with its peers over
    encrypted TCP frames, and decides with them which node owns which part of
    the hash space. This library translates the program's own logic into Gallina,
    file by file, and proves what makes it correct; where the program falls
    short of its comments, that is proved too.

    ** Parts

    - Hashing and cryptography. [BlockHash] (the buffering shared by both
      hashes), [Sha256] (src/src/engine/sha256.c), [Md5] (md5.c), [Crypto]
      (epsilon_crypto.c: ChaCha20, HMAC, HKDF, the AEAD of mesh frames).
    - Frames. [Wire] (src/src/socket/estp_wire.c): [estp_send_frame_raw] and
      [estp_recv_frame_raw] over [send]/[recv] schedules that cut the stream
      anywhere, interrupt it or fail.
    - A shard. [Shard] (src/src/engine/shard.c): the table as a map from ids to
      rows, the cached statements, one definition per operation, the SQL text
      of structured filters; theorems in [ShardFacts] and [ShardQueryFacts].
    - The engine. [Manager] (src/src/engine/manager.c): handles with reference
      counts, inodes and directory entries, the critical sections under the
      manager's lock and the public operations composed of them; theorems in
      [ManagerFacts] (interleavings) and [EngineFacts] (refinement to tables).
    - The configuration. [Json] and [Store] are interfaces: documents as cJSON
      holds them with a codec class, and the class of record stores with its
      laws. [Config] (epsilon_config.c, epsilon_config_entities.c,
      epsilon_config_partitions.c) is a client of the class; [StoreFacts] proves
      that the engine of [Manager] is an instance and [MapStore] that a plain map
      is one; theorems in [ConfigFacts].
    - The cluster. [Cluster] (src/src/socket/epsilon_cluster.c and
      epsilon_cluster_rebalance.c): peers, the live table and the pending target,
      election, gossip, connections, rebalance waves, the maintainer. The
      definitions before the section [settings] are critical sections under the
      cluster's lock as functions on [edb_cluster]; those inside it also thread
      the record store. [ClusterPlacement] (slices, holders, leader), [Mesh]
      (the cluster as a network), [Gossip], [Waves] (operations over settings)
      and [ClusterGaps] hold the theorems; [Doubles] shows which integers
      survive a cJSON number.
    - Replication. [Repl] (src/src/socket/epsilon_repl.c, epsilon_repl_cache.c:
      quorum writes, the change cache, draining and flushing), [ReplRead]
      (epsilon_repl_read.c: quorum reads and merges) and [ReplHandlers] (the
      replication handlers of src/src/api/epsilon_api.c) work over classes for
      the engine ([DataEngine]) and the network ([Network]); [World] composes
      nodes of all of these into the network they talk over. Theorems in
      [ReplFacts], [ReplReadFacts] and [WorldFacts].
    - EQL, the SQL front end (src/src/eql/epsilon_eql.c). [EqlScan] scans,
      classifies and rewrites a statement; [EqlExec] checks permissions, builds
      the shadow tables, runs the statement in SQLite (a class) and writes the
      changed rows back. Theorems in [EqlScanFacts] and [EqlFacts]; [EqlNode]
      runs it on the engine of [Manager].
    - HTTP. [Http] is one connection of the server
      (src/src/httpd/epsilon_http.c): receiving, parsing, routing, static files,
      answering. [Api] is authentication, sessions and the data routes
      (src/src/api/epsilon_api.c, epsilon_api_data.c, epsilon_api_console.c);
      [ApiAdmin] the statements, the administration, the settings, the console
      and the table of routes (epsilon_api_eql.c, epsilon_api_admin.c,
      epsilon_api_settings.c, epsilon_api_console.c). A handler is a state
      passing function from a request to a response, over the same classes as
      EQL and replication; [Http]'s server takes such handlers. Theorems in
      [HttpFacts] and [ApiFacts]; [ApiNode] runs the routes on the engine of
      [Manager].
    - Copying shards. [Snap] is both ends of a snapshot transfer
      (src/src/socket/epsilon_snap.c) over frames that arrive or do not;
      theorems in [SnapFacts].
    - Analytics (src/src/engine/epsilon_analytics.c and its route): counting
      accesses, snapshots, the report over the snapshots of all nodes;
      theorems in [AnalyticsFacts].
    - Scripts. [Lua] (src/src/lua/epsilon_lua.c) converts documents to values
      of Lua and back, runs scripts, given as the calls they make (the
      interpreter is a class), over the store, and fires events; [ApiLua]
      (epsilon_api_lua.c) is the routes of code records. Theorems in [LuaFacts].
    - The node. [ApiCluster] (epsilon_api_cluster.c, with what it calls of
      src/src/socket) is the routes that show the cluster, join it, remove a
      node, copy, wipe and restore shard files, over a node with its data
      directory as a map from paths to contents, the route of the benchmark, and
      the table of all routes as the server of a node registers them. Theorems
      in [ApiClusterFacts]; [NodeGuard] says over the table who may administer.
    - The backup tool. [BackupTool] (src/src/epsilonbkup.c,
      epsilonbkup_http.c) is the client: requests as text, responses read back,
      the union of manifests, fetching, the archive, locking, wiping and
      pushing. [BackupFacts] runs it against the server of [ApiCluster];
      [BackupArchive] shows what a backup that succeeds has packed.

    Names are those of the C functions and fields; a definition that is a part
    of a function says so in its comment. C strings are [string], byte buffers
    lists of [Z]; machine integers are [Z] with their wrap-around written out.
    Clocks, random bytes and the outcomes of system calls and SQLite calls are
    arguments.

    ** Theorems

    - Storage: replicas that receive the same writes in any order hold the same
      rows, unless one origin writes a document twice in a second; a document is readable until its expiry second; cleanup removes only
      what no read can see; a public engine operation is the shard operation on
      the one table it names, whatever interleaves under the manager's lock, and
      survives a restart; the SQL of every valid filter fits its buffer with one
      placeholder per binding.
    - Transport: what is sent is received, with or without a mesh key, for any
      segmentation; under a key nothing is accepted that does not carry the HMAC;
      the hashes equal their standards for any way the input is fed.
    - Configuration: stored settings read back, groups keep distinct bits,
      passwords verify, deleting a database removes what belongs to it, all
      against the record store interface.
    - Cluster: slices partition the hash space and holders and leader depend on
      the membership alone; over all interleavings of the nodes' critical
      sections with messages lost, repeated and reordered, tables stay
      partitions and versions never fall; merging is idempotent; a wave is
      promoted exactly when everybody who must be is compliant; a restart
      resumes; garbage collection tries to remove redundant shards only.
    - Replication: an acknowledged write is held by a majority, every member has
      it or is owed it in the cache, the cache drains in order, and a quorum read
      never returns anything older than an acknowledged write, whatever links
      are cut, when reader and writer agree on the holders.
    - EQL: on a node of its own statements write only to the shards they name
      (or to a keyspace of their partitions that garbage names) and only what
      their first word declares; the permission decision; queries write nothing;
      rewriting replaces the references its matcher finds and nothing else; the
      way of a document through its shadow table; a statement is all or nothing up to the
      write-back.
    - HTTP and its API: requests come out of the stream as they went in,
      whatever the segments, and are answered in order - but for the headers of
      those of more than 4096 bytes with a body, which can be read from a buffer
      that was freed ([large_request_loses_headers]); what is accepted is within
      the limits and so is the buffer; a caller is who the records and sessions
      say, others administer nothing by any route of the table, and what is
      refused writes nothing but what a vetoing script wrote; on a node of its
      own a document that was put is read back until its expiry.
    - Snapshots: a transfer changes nothing or installs the copy of the sender,
      whatever breaks; an undisturbed one succeeds; a heartbeat ends it.
    - Analytics: the report over the snapshots of all nodes is that of one
      recorder that saw everything, and its tables count exactly the events.
    - Scripts: whatever they do, they change only what their caller may write;
      a write goes on only past handlers that ran and let it; a document that
      is handed back unchanged stays as it is, if it is one Lua can hold.
    - Joining, backup and restore: who is told that it joined has every shard
      the target gives it; an upload touches one shard, under the lock, for an
      administrator; a file the tool pushes is installed byte by byte; a backup
      that succeeds packed every listed shard; a restore through the admin
      socket of a single node leaves nothing behind.
    - What fails: the theorems whose names say so ([throttle_never_locks],
      [system_records_open], [json_path_overflows],
      [gc_race_loses_write], [get_blocks_vacuum], [set_groups_erases_password],
      [rpc_voids_wave], ...) exhibit runs in which the code does not do what it
      is meant to.

    ** Bounds and fuel

    Decimal printing recurses on 20 digits, enough for 64 bits; HKDF on its 255
    blocks; the padding and block loops on the data. Generations, ports and times
    are proved to travel exactly below 2^53. The peer table holds at most 64
    entries besides the node's own. Loops that receive data recurse on the
    schedule of the socket. Draining has the code's own bounds (64 rounds of 256
    changes); the network of [World] recurses on a depth, of which 2 is enough
    for a flush answered by a drain. The EQL scanners take the length of the text
    plus one, which [scanners_terminate] shows is never what stops them; the
    loops of an HTTP connection the bytes still to come plus one, which
    [connection_in_order] shows is enough.

    ** Not modelled

    Allocation failure; the text of JSON (cJSON is vendored: printing and
    parsing are a class with the laws relied on); SQLite's file format and
    query planner (a statement is its effect on the table, its result codes
    are inputs); threads as such (critical sections interleave freely in
    [ManagerFacts] and [Mesh]; a critical section itself is atomic); sockets,
    dialling and the accept loop; logging; the work of
    the benchmark (its route is), accepting connections and the worker threads
    of the HTTP server, the functions of [date] and the log of scripts, the
    options and printing of the backup tool, zip and unzip, the other
    command line tools and the admin console. *)

From stdpp Require Export base list strings gmap sorting.
From Stdlib Require Export ZArith Lia.
From Stdlib Require Ascii.
Export (notations) Stdlib.Strings.Ascii.
#[export] Set Default Goal Selector "!".

Open Scope Z_scope.

Declare Scope edb_scope.
Delimit Scope edb_scope with edb.

(** * Machine integers *)

(** A [uint8_t] is a [Z] in [0, 256); the two abbreviations only document
    intent, the ranges are stated by [byte_ok] and [bytes_ok]. *)
Abbreviation byte := Z (only parsing).
Abbreviation bytes := (list Z) (only parsing).

Definition u8 (z : Z) : Z := z mod 2 ^ 8.
Definition u16 (z : Z) : Z := z mod 2 ^ 16.
Definition u32 (z : Z) : Z := z mod 2 ^ 32.
Definition u64 (z : Z) : Z := z mod 2 ^ 64.

Definition byte_ok (b : byte) : Prop := 0 <= b < 2 ^ 8.
Definition bytes_ok (l : bytes) : Prop := Forall byte_ok l.
Definition word_ok (w : Z) : Prop := 0 <= w < 2 ^ 32.

Create HintDb edb.
Create Rewrite HintDb edb.

Lemma u8_range z : byte_ok (u8 z).
Proof. unfold byte_ok, u8. apply Z.mod_pos_bound. lia. Qed.

Lemma u32_range z : word_ok (u32 z).
Proof. unfold word_ok, u32. apply Z.mod_pos_bound. lia. Qed.

Lemma u64_range z : 0 <= u64 z < 2 ^ 64.
Proof. apply Z.mod_pos_bound. lia. Qed.

Lemma u32_id z : word_ok z -> u32 z = z.
Proof. intros H. apply Z.mod_small. exact H. Qed.

Lemma u8_id z : byte_ok z -> u8 z = z.
Proof. intros H. apply Z.mod_small. exact H. Qed.

#[export] Hint Resolve u8_range u32_range u64_range : edb.
#[export] Hint Rewrite u32_id u8_id using (solve [auto with edb]) : edb.

(** Rotations of a 32-bit word, as the ROTL32/ROTR macros write them: the
    left shift is truncated to 32 bits by the [uint32_t] type. *)
Definition rotl32 (v n : Z) : Z :=
  Z.lor (u32 (Z.shiftl v n)) (Z.shiftr v (32 - n)).
Definition rotr32 (v n : Z) : Z :=
  Z.lor (Z.shiftr v n) (u32 (Z.shiftl v (32 - n))).

Definition add32 (a b : Z) : Z := u32 (a + b).
(** [~x] on a [uint32_t]. *)
Definition not32 (x : Z) : Z := u32 (Z.lnot x).

(** * Byte order *)

Definition load32_be (p : bytes) : Z :=
  match p with
  | b0 :: b1 :: b2 :: b3 :: _ =>
      Z.lor (Z.lor (Z.lor (Z.shiftl b0 24) (Z.shiftl b1 16)) (Z.shiftl b2 8)) b3
  | _ => 0
  end.

Definition store32_be (v : Z) : bytes :=
  [u8 (Z.shiftr v 24); u8 (Z.shiftr v 16); u8 (Z.shiftr v 8); u8 v].

Definition load32_le (p : bytes) : Z :=
  match p with
  | b0 :: b1 :: b2 :: b3 :: _ =>
      Z.lor (Z.lor (Z.lor b0 (Z.shiftl b1 8)) (Z.shiftl b2 16)) (Z.shiftl b3 24)
  | _ => 0
  end.

Definition store32_le (v : Z) : bytes :=
  [u8 v; u8 (Z.shiftr v 8); u8 (Z.shiftr v 16); u8 (Z.shiftr v 24)].

(** Decide an equation between bit-twiddled integers position by position:
    every [testbit] of a shift, mask or truncation is pushed to the leaves. *)
Lemma u8_testbit z i : 0 <= i -> Z.testbit (u8 z) i = (i <? 8) && Z.testbit z i.
Proof.
  intros Hi. unfold u8. destruct (Z.ltb_spec i 8).
  - by rewrite Z.mod_pow2_bits_low.
  - by rewrite Z.mod_pow2_bits_high by lia.
Qed.

Lemma u32_testbit z i : 0 <= i -> Z.testbit (u32 z) i = (i <? 32) && Z.testbit z i.
Proof.
  intros Hi. unfold u32. destruct (Z.ltb_spec i 32).
  - by rewrite Z.mod_pow2_bits_low.
  - by rewrite Z.mod_pow2_bits_high by lia.
Qed.

Lemma testbit_high n z i : 0 <= n -> 0 <= z < 2 ^ n -> n <= i -> Z.testbit z i = false.
Proof.
  intros Hn [H1 H2] Hi. destruct (decide (z = 0)) as [->|Hz]; [apply Z.bits_0|].
  apply Z.bits_above_log2; [done|]. apply Z.log2_lt_pow2; [lia|].
  eapply Z.lt_le_trans; [done|]. apply Z.pow_le_mono_r; lia.
Qed.

Ltac push_bits :=
  repeat first
    [ rewrite Z.lor_spec | rewrite Z.lxor_spec | rewrite Z.land_spec
    | rewrite u8_testbit by lia | rewrite u32_testbit by lia
    | rewrite Z.shiftr_spec by lia
    | rewrite Z.shiftl_spec by lia ].

Ltac split_ltb :=
  repeat match goal with
         | |- context [Z.ltb ?a ?b] => destruct (Z.ltb_spec a b); simpl
         end.

Ltac byte_cases i :=
  destruct (decide (i < 8)) as [?|?]; [|destruct (decide (i < 16)) as [?|?];
    [|destruct (decide (i < 24)) as [?|?]; [|destruct (decide (i < 32)) as [?|?]]]].

(** Closes [load (store v) = v] once the bit index is fixed. *)
Ltac solve_word_bits i :=
  rewrite ?(Z.testbit_neg_r _ (i - 24)), ?(Z.testbit_neg_r _ (i - 16)),
    ?(Z.testbit_neg_r _ (i - 8)) by lia;
  rewrite ?u8_testbit by lia;
  rewrite ?Z.shiftr_spec by lia;
  split_ltb; try lia; rewrite ?andb_false_r, ?orb_false_r; simpl; try (f_equal; lia).

(** In-range words survive a store/load round trip in either byte order. *)
Lemma load_store32_be v rest : word_ok v -> load32_be (store32_be v ++ rest) = v.
Proof.
  intros Hv. cbn [store32_be load32_be app]. apply Z.bits_inj'. intros i Hi. push_bits.
  byte_cases i. all: solve_word_bits i.
  symmetry. apply (testbit_high 32); [lia|apply Hv|lia].
Qed.

Lemma load_store32_le v rest : word_ok v -> load32_le (store32_le v ++ rest) = v.
Proof.
  intros Hv. cbn [store32_le load32_le app]. apply Z.bits_inj'. intros i Hi. push_bits.
  byte_cases i. all: solve_word_bits i.
  symmetry. apply (testbit_high 32); [lia|apply Hv|lia].
Qed.

Lemma store32_be_ok v : bytes_ok (store32_be v).
Proof. repeat constructor; apply u8_range. Qed.

Lemma store32_le_ok v : bytes_ok (store32_le v).
Proof. repeat constructor; apply u8_range. Qed.

(** * Memory and lists *)

(** [memcpy(buf + off, src, n)] on an array modelled as a list, for a copy
    that stays inside the array. *)
Definition memcpy {A} (buf : list A) (off : nat) (src : list A) : list A :=
  take off buf ++ src ++ drop (off + length src)%nat buf.

Lemma memcpy_length {A} (buf : list A) off src :
  (off + length src <= length buf)%nat -> length (memcpy buf off src) = length buf.
Proof. intros H. unfold memcpy. rewrite !length_app, length_take, length_drop. lia. Qed.

Lemma take_memcpy {A} (buf : list A) off src :
  (off <= length buf)%nat ->
  take (off + length src)%nat (memcpy buf off src) = take off buf ++ src.
Proof.
  intros H. unfold memcpy. rewrite app_assoc, take_app_le.
  - rewrite take_ge; [done|]. rewrite length_app, length_take. lia.
  - rewrite length_app, length_take. lia.
Qed.

(** Splitting a list into equal blocks, and its uniqueness. *)
Definition equal_blocks {A} (n : nat) (bs : list (list A)) : Prop :=
  Forall (fun b => length b = n) bs.

Definition split_blocks {A} (n : nat) (l : list A) : list (list A) :=
  reshape (replicate (length l / n)%nat n) l.

Lemma length_equal_blocks {A} n (bs : list (list A)) :
  equal_blocks n bs -> length (concat bs) = (length bs * n)%nat.
Proof.
  induction 1 as [|b bs Hb Hbs IH]; [done|]. simpl. rewrite length_app. lia.
Qed.

Lemma split_blocks_concat {A} n (bs : list (list A)) :
  (0 < n)%nat -> equal_blocks n bs -> split_blocks n (concat bs) = bs.
Proof.
  intros Hn H. unfold split_blocks. rewrite (length_equal_blocks n) by done.
  rewrite Nat.div_mul by lia.
  induction H as [|b bs Hb Hbs IH]; [done|]. simpl. subst n.
  rewrite take_app_length, drop_app_length. by f_equal.
Qed.

Lemma zip_with_length_r {A B C} (f : A -> B -> C) l k :
  (length l <= length k)%nat -> length (zip_with f l k) = length l.
Proof. intros. rewrite length_zip_with. lia. Qed.

(** * C strings *)

(** A NUL-terminated [char *] is a [string] without its terminator; its
    bytes as an unsigned array: *)
Fixpoint bytes_of_string (s : string) : bytes :=
  match s with
  | EmptyString => []
  | String c s => Z.of_N (Ascii.N_of_ascii c) :: bytes_of_string s
  end.

Fixpoint string_of_bytes (l : bytes) : string :=
  match l with
  | [] => EmptyString
  | b :: l => String (Ascii.ascii_of_N (Z.to_N b)) (string_of_bytes l)
  end.

Lemma string_of_bytes_of_string s : string_of_bytes (bytes_of_string s) = s.
Proof.
  induction s as [|c s IH]; [done|]. simpl. by rewrite N2Z.id, Ascii.ascii_N_embedding, IH.
Qed.

Lemma bytes_of_string_ok s : bytes_ok (bytes_of_string s).
Proof.
  induction s as [|c s IH]; [constructor|]. simpl. constructor; [|done].
  pose proof (Ascii.N_ascii_bounded c). unfold byte_ok. lia.
Qed.

Lemma bytes_of_string_app s t :
  bytes_of_string (s +:+ t) = bytes_of_string s ++ bytes_of_string t.
Proof.
  induction s as [|c s IH]; [done|]. change (String c s +:+ t) with (String c (s +:+ t)).
  cbn. by rewrite IH.
Qed.

Lemma bytes_of_string_inj s t : bytes_of_string s = bytes_of_string t -> s = t.
Proof.
  intros H. by rewrite <-(string_of_bytes_of_string s), H, string_of_bytes_of_string.
Qed.

Lemma length_bytes_of_string s : length (bytes_of_string s) = String.length s.
Proof. induction s as [|c s IH]; [done|]. cbn. by f_equal. Qed.

(** [tolower], [isalnum] and [isspace] of the C locale. *)
Definition char_in (c : Ascii.ascii) (lo hi : N) : bool :=
  let n := Ascii.N_of_ascii c in (lo <=? n)%N && (n <=? hi)%N.

Definition lower_char (c : Ascii.ascii) : Ascii.ascii :=
  if char_in c 65 90 then Ascii.ascii_of_N (Ascii.N_of_ascii c + 32) else c.
Fixpoint lower (s : string) : string :=
  match s with EmptyString => s | String c s => String (lower_char c) (lower s) end.
Definition is_alnum (c : Ascii.ascii) : bool := char_in c 48 57 || char_in c 65 90 || char_in c 97 122.
Definition is_space (c : Ascii.ascii) : bool := char_in c 9 13 || char_in c 32 32.

(** Texts: joining, cutting. *)
Lemma append_assoc a b c : (a +:+ b) +:+ c = a +:+ (b +:+ c).
Proof. induction a as [|x a IH]; [done|]. exact (f_equal (String x) IH). Qed.

Lemma length_append a b : String.length (a +:+ b) = (String.length a + String.length b)%nat.
Proof. induction a as [|x a IH]; [done|]. exact (f_equal S IH). Qed.

Lemma append_nil a : a +:+ "" = a.
Proof. induction a as [|x a IH]; [done|]. exact (f_equal (String x) IH). Qed.

Lemma substring_short n s : (String.length s <= n)%nat -> String.substring 0 n s = s.
Proof.
  revert n. induction s as [|c s IH]; intros [|n] Hn; try done; simpl in *; [lia|]. by rewrite IH by lia.
Qed.

(** The longest prefix whose characters satisfy [f], and the rest. *)
Fixpoint span (f : Ascii.ascii -> bool) (s : string) : string * string :=
  match s with
  | EmptyString => (EmptyString, EmptyString)
  | String c s' => if f c then let '(w, r) := span f s' in (String c w, r) else (EmptyString, s)
  end.

Lemma span_app f s : (span f s).1 +:+ (span f s).2 = s.
Proof.
  induction s as [|c s IH]; [done|]. cbn. destruct (f c); [|done].
  destruct (span f s) as [w r]. cbn [fst snd] in *. by rewrite <-IH.
Qed.

(** [strcmp]: the sign of the first differing byte, as unsigned chars. *)
Definition strcmp (a b : string) : comparison := String.compare a b.

Lemma string_compare_refl a : String.compare a a = Eq.
Proof.
  induction a as [|c a IH]; [done|]. cbn. unfold Ascii.compare. by rewrite N.compare_refl.
Qed.

Lemma strcmp_eq a b : strcmp a b = Eq <-> a = b.
Proof. unfold strcmp. split; [apply String.compare_eq_iff|]. intros <-. by rewrite string_compare_refl. Qed.

(** The lowercase hexadecimal rendering used by every digest. *)
Definition hex_digit (n : Z) : Ascii.ascii :=
  Ascii.ascii_of_N (Z.to_N (if n <? 10 then 48 + n else 87 + n)).

Fixpoint hex_of_bytes (l : bytes) : string :=
  match l with
  | [] => EmptyString
  | b :: l => String (hex_digit (Z.shiftr b 4))
                (String (hex_digit (Z.land b 15)) (hex_of_bytes l))
  end.

Lemma length_hex_of_bytes l : String.length (hex_of_bytes l) = (2 * length l)%nat.
Proof. induction l as [|b l IH]; [done|]. cbn. rewrite IH. lia. Qed.
