(* ===== verification/BlockHash.v ===== *)
(** The 64-byte block buffering shared by src/engine/sha256.c and
    src/engine/md5.c: the context, [*_update], [*_final], and the proof that
    feeding the data in any pieces computes the padded Merkle-Damgard hash.
    The two hash files instantiate the section with their own compression
    function, length encoding and output encoding. *)

From S2P Require Import Prelude.

Local Open Scope nat_scope.

Section block_hash.
Context {St : Type} (block : St -> bytes -> St).
Context (lenbuf : Z -> bytes) (lenbuf_length : forall n, length (lenbuf n) = 8).

(** [sha256_ctx] / [md5_ctx]. *)
Record hash_ctx := {
  state : St;
  bitlen : Z;       (* uint64_t *)
  buffer : bytes;   (* uint8_t[64] *)
  buflen : nat;
}.

(** One turn of the [while (len > 0)] loop of [*_update]: the context after
    it and the unread data. *)
Definition update_turn (ctx : hash_ctx) (data : bytes) : hash_ctx * bytes :=
  let tk := Nat.min (64 - buflen ctx) (length data) in
  let buf := memcpy (buffer ctx) (buflen ctx) (take tk data) in
  let n := buflen ctx + tk in
  if decide (n = 64)
  then ({| state := block (state ctx) buf; bitlen := bitlen ctx;
           buffer := buf; buflen := 0 |}, drop tk data)
  else ({| state := state ctx; bitlen := bitlen ctx;
           buffer := buf; buflen := n |}, drop tk data).

(** The loop; every turn reads at least one byte, so [length data] turns
    are enough (see [absorbed_update]). *)
Fixpoint update_loop (fuel : nat) (ctx : hash_ctx) (data : bytes) : hash_ctx :=
  match fuel, data with
  | _, [] => ctx
  | O, _ => ctx
  | S fuel, _ => let '(ctx, data) := update_turn ctx data in update_loop fuel ctx data
  end.

Definition update (ctx : hash_ctx) (data : bytes) : hash_ctx :=
  update_loop (length data)
    {| state := state ctx; bitlen := u64 (bitlen ctx + Z.of_nat (length data) * 8);
       buffer := buffer ctx; buflen := buflen ctx |} data.

(** [while (ctx->buflen != 56) update(ctx, &zero, 1)]. *)
Fixpoint pad_loop (fuel : nat) (ctx : hash_ctx) : hash_ctx :=
  if decide (buflen ctx = 56) then ctx
  else match fuel with
       | O => ctx
       | S fuel => pad_loop fuel (update ctx [0%Z])
       end.

(** [*_final] up to the encoding of the state words. *)
Definition final_state (ctx : hash_ctx) : St :=
  let len := bitlen ctx in
  let ctx := update ctx [128%Z] in
  let ctx := pad_loop 64 ctx in
  state (update ctx (lenbuf len)).

(** ** What a context has absorbed *)

(** [ctx] is the state reached from [init] by absorbing the message [m]:
    all full blocks are compressed and the buffer holds the rest. *)
Definition absorbed (init : St) (ctx : hash_ctx) (m : bytes) : Prop :=
  exists bs tl, m = concat bs ++ tl /\ equal_blocks 64 bs /\ length tl < 64 /\
    length (buffer ctx) = 64 /\ take (buflen ctx) (buffer ctx) = tl /\
    buflen ctx = length tl /\ state ctx = foldl block init bs.

Lemma absorbed_start init garbage n :
  length garbage = 64 ->
  absorbed init {| state := init; bitlen := n; buffer := garbage; buflen := 0 |} [].
Proof. intros H. exists [], []. simpl. repeat split; try done; [constructor|lia]. Qed.

Lemma absorbed_buflen init ctx m : absorbed init ctx m -> buflen ctx < 64.
Proof. intros (bs & tl & _ & _ & H & _ & _ & -> & _). done. Qed.

Lemma absorbed_bitlen init ctx m n :
  absorbed init ctx m ->
  absorbed init {| state := state ctx; bitlen := n; buffer := buffer ctx;
                   buflen := buflen ctx |} m.
Proof. done. Qed.

Lemma absorbed_turn init ctx m data :
  absorbed init ctx m -> data <> [] ->
  let '(ctx', rest) := update_turn ctx data in
  exists k, 0 < k /\ rest = drop k data /\ k <= length data /\
            absorbed init ctx' (m ++ take k data) /\ bitlen ctx' = bitlen ctx.
Proof.
  intros (bs & tl & -> & Hbs & Htl & Hbuf & Htk & Hlen & Hst) Hne.
  unfold update_turn. set (k := Nat.min (64 - buflen ctx) (length data)).
  assert (Hk : 0 < k).
  { destruct data as [|b data]; [done|]. cbn [length] in k. unfold k. lia. }
  assert (Hkd : length (take k data) = k) by (rewrite length_take; lia).
  pose proof (take_memcpy (buffer ctx) (buflen ctx) (take k data) ltac:(lia)) as Hmem.
  rewrite Hkd, Htk in Hmem.
  assert (Hml : length (memcpy (buffer ctx) (buflen ctx) (take k data)) = 64).
  { rewrite memcpy_length; [done|]. rewrite Hkd. lia. }
  case_decide as Hfull.
  - exists k. split_and!; [done|done|lia| |done].
    rewrite Hfull in Hmem. rewrite take_ge in Hmem by lia.
    exists (bs ++ [tl ++ take k data]), []. cbn. split_and!; [..|done|done|].
    + by rewrite concat_app, app_nil_r, <-!app_assoc; cbn; rewrite app_nil_r.
    + apply Forall_app. split; [done|]. constructor; [|constructor].
      rewrite length_app, Hkd. lia.
    + lia.
    + done.
    + rewrite foldl_snoc, Hst. by rewrite Hmem.
  - exists k. split_and!; [done|done|lia| |done].
    exists bs, (tl ++ take k data). cbn. rewrite !length_app, Hkd.
    split_and!; [by rewrite app_assoc|done|lia|done|done|lia|done].
Qed.

Lemma absorbed_update_loop init fuel ctx m data :
  absorbed init ctx m -> length data <= fuel ->
  absorbed init (update_loop fuel ctx data) (m ++ data) /\
  bitlen (update_loop fuel ctx data) = bitlen ctx.
Proof.
  revert ctx m data. induction fuel as [|fuel IH]; intros ctx m data H Hf.
  - destruct data; [|simpl in Hf; lia]. rewrite app_nil_r. done.
  - destruct data as [|b data]; [by rewrite app_nil_r|].
    pose proof (absorbed_turn init ctx m (b :: data) H ltac:(done)) as Ht.
    cbn [update_loop]. destruct (update_turn ctx (b :: data)) as [ctx' rest].
    destruct Ht as (k & Hk & -> & Hkl & Ha & Hb).
    destruct (IH ctx' _ (drop k (b :: data)) Ha) as [IH1 IH2].
    { rewrite length_drop. simpl in *. lia. }
    rewrite <-app_assoc, take_drop in IH1. by rewrite IH2.
Qed.

(** [update] absorbs exactly its data, whatever the chunking so far. *)
Lemma absorbed_update init ctx m data :
  absorbed init ctx m -> absorbed init (update ctx data) (m ++ data).
Proof.
  intros H. apply absorbed_update_loop; [|done]. by apply absorbed_bitlen.
Qed.

Lemma update_bitlen init ctx m data :
  absorbed init ctx m ->
  bitlen (update ctx data) = u64 (bitlen ctx + Z.of_nat (length data) * 8).
Proof.
  intros H. unfold update.
  destruct (absorbed_update_loop init (length data)
    {| state := state ctx; bitlen := u64 (bitlen ctx + Z.of_nat (length data) * 8);
       buffer := buffer ctx; buflen := buflen ctx |} m data) as [_ ->]; try done.
Qed.

(** ** Padding *)

(** Number of zero bytes between the 0x80 marker and the length field. *)
Definition pad_zeros (n : nat) : nat := (119 - n mod 64) mod 64.

Definition padded (m : bytes) (len : Z) : bytes :=
  m ++ [128%Z] ++ replicate (pad_zeros (length m)) 0%Z ++ lenbuf len.

Lemma absorbed_pos init ctx m : absorbed init ctx m -> buflen ctx = length m mod 64.
Proof.
  intros (bs & tl & -> & Hbs & Htl & _ & _ & -> & _).
  rewrite length_app, (length_equal_blocks 64) by done.
  rewrite Nat.add_comm, Nat.Div0.mod_add, Nat.mod_small; lia.
Qed.

(** Zero bytes still to come when the buffer holds [n mod 64] bytes. *)
Definition zeros_to_56 (n : nat) : nat := (120 - n mod 64) mod 64.

Lemma zeros_to_56_cases n :
  let k := n mod 64 in zeros_to_56 n = if decide (k <= 56) then 56 - k else 120 - k.
Proof.
  unfold zeros_to_56. pose proof (Nat.mod_upper_bound n 64 ltac:(done)). cbv zeta.
  set (k := n mod 64) in *. clearbody k. case_decide.
  - replace (120 - k) with (56 - k + 1 * 64) by lia. rewrite Nat.Div0.mod_add.
    apply Nat.mod_small. lia.
  - apply Nat.mod_small. lia.
Qed.

Lemma mod64_succ n :
  (n + 1) mod 64 = if decide (n mod 64 = 63) then 0 else n mod 64 + 1.
Proof.
  rewrite Nat.Div0.add_mod. change (1 mod 64) with 1.
  pose proof (Nat.mod_upper_bound n 64 ltac:(done)).
  case_decide as H1; [by rewrite H1|]. apply Nat.mod_small. lia.
Qed.

Lemma zeros_to_56_done n : n mod 64 = 56 -> zeros_to_56 n = 0.
Proof. intros H. unfold zeros_to_56. by rewrite H. Qed.

Lemma zeros_to_56_step n : n mod 64 <> 56 -> zeros_to_56 n = S (zeros_to_56 (n + 1)).
Proof.
  intros H. rewrite !zeros_to_56_cases, mod64_succ.
  pose proof (Nat.mod_upper_bound n 64 ltac:(done)).
  repeat case_decide; lia.
Qed.

Lemma pad_zeros_succ n : pad_zeros n = zeros_to_56 (n + 1).
Proof.
  rewrite zeros_to_56_cases, mod64_succ. unfold pad_zeros.
  pose proof (Nat.mod_upper_bound n 64 ltac:(done)).
  set (k := n mod 64) in *. clearbody k.
  destruct (decide (k <= 55)).
  - replace (119 - k) with (55 - k + 1 * 64) by lia.
    rewrite Nat.Div0.mod_add, Nat.mod_small by lia. repeat case_decide; lia.
  - rewrite Nat.mod_small by lia. repeat case_decide; lia.
Qed.

Lemma pad_loop_exit init fuel ctx m :
  absorbed init ctx m -> zeros_to_56 (length m) <= fuel ->
  absorbed init (pad_loop fuel ctx) (m ++ replicate (zeros_to_56 (length m)) 0%Z) /\
  buflen (pad_loop fuel ctx) = 56.
Proof.
  revert ctx m. induction fuel as [|fuel IH]; intros ctx m H Hf;
    pose proof (absorbed_pos _ _ _ H) as Hpos; cbn [pad_loop]; case_decide as Hd.
  1, 3: rewrite zeros_to_56_done by congruence; simpl; rewrite app_nil_r; done.
  - rewrite zeros_to_56_step in Hf by congruence. lia.
  - pose proof (absorbed_update _ _ _ [0%Z] H) as Hu.
    rewrite zeros_to_56_step in Hf |- * by congruence.
    destruct (IH (update ctx [0%Z]) (m ++ [0%Z]) Hu) as [IH1 IH2].
    + rewrite length_app. simpl. lia.
    + rewrite length_app in IH1. simpl in IH1. by rewrite <-app_assoc in IH1.
Qed.

(** 64 turns of the padding loop always suffice. *)
Lemma zeros_to_56_bound n : zeros_to_56 n <= 64.
Proof. rewrite zeros_to_56_cases. cbv zeta. case_decide; lia. Qed.

Lemma length_padded m len : exists k, length (padded m len) = k * 64.
Proof.
  unfold padded. rewrite !length_app, length_replicate, lenbuf_length, pad_zeros_succ.
  rewrite zeros_to_56_cases, mod64_succ. simpl length.
  pose proof (Nat.div_mod_eq (length m) 64) as Hdm.
  pose proof (Nat.mod_upper_bound (length m) 64 ltac:(done)).
  set (k := length m mod 64) in *. set (q := length m / 64) in *. clearbody k q.
  destruct (decide (k <= 55)).
  - exists (q + 1). repeat case_decide; lia.
  - exists (q + 2). repeat case_decide; lia.
Qed.

(** ** The reference definition *)

(** Merkle-Damgard: fold the compression function over the 64-byte blocks
    of the padded message. *)
Definition reference (init : St) (m : bytes) : St :=
  foldl block init (split_blocks 64 (padded m (u64 (Z.of_nat (length m) * 8)))).

Lemma absorbed_reference init ctx m :
  absorbed init ctx m -> length m mod 64 = 0 ->
  state ctx = foldl block init (split_blocks 64 m).
Proof.
  intros (bs & tl & -> & Hbs & Htl & _ & _ & _ & Hst) Hm.
  rewrite length_app, (length_equal_blocks 64), Nat.add_comm, Nat.Div0.mod_add,
    Nat.mod_small in Hm by done.
  destruct tl; [|done]. by rewrite app_nil_r, split_blocks_concat.
Qed.

Lemma final_state_reference init ctx m :
  absorbed init ctx m -> bitlen ctx = u64 (Z.of_nat (length m) * 8) ->
  final_state ctx = reference init m.
Proof.
  intros H Hlen. unfold final_state, reference.
  pose proof (absorbed_update _ _ _ [128%Z] H) as H1.
  destruct (pad_loop_exit init 64 _ _ H1 (zeros_to_56_bound _)) as [H2 _].
  pose proof (absorbed_update _ _ _ (lenbuf (bitlen ctx)) H2) as H3.
  rewrite Hlen in *.
  assert (Heq : ((m ++ [128%Z]) ++ replicate (zeros_to_56 (length (m ++ [128%Z]))) 0%Z) ++
                  lenbuf (u64 (Z.of_nat (length m) * 8))
                = padded m (u64 (Z.of_nat (length m) * 8))).
  { unfold padded. by rewrite <-!app_assoc, length_app, pad_zeros_succ. }
  rewrite Heq in H3. apply absorbed_reference; [done|].
  destruct (length_padded m (u64 (Z.of_nat (length m) * 8))) as [k ->].
  apply Nat.Div0.mod_mul.
Qed.
End block_hash.
