(* ===== verification/Sha256.v ===== *)
(** SHA-256, src/engine/sha256.c: the compression function, the context
    functions (instances of the BlockHash section) and [edb_sha256], proved
    equal to the FIPS 180-4 definition over the padded message. *)

From S2P Require Import Prelude BlockHash.

Module Sha256.

(** One row of the source's table per list. *)
Definition K : list Z :=
  concat [
    [0x428a2f98; 0x71374491; 0xb5c0fbcf; 0xe9b5dba5];
    [0x3956c25b; 0x59f111f1; 0x923f82a4; 0xab1c5ed5];
    [0xd807aa98; 0x12835b01; 0x243185be; 0x550c7dc3];
    [0x72be5d74; 0x80deb1fe; 0x9bdc06a7; 0xc19bf174];
    [0xe49b69c1; 0xefbe4786; 0x0fc19dc6; 0x240ca1cc];
    [0x2de92c6f; 0x4a7484aa; 0x5cb0a9dc; 0x76f988da];
    [0x983e5152; 0xa831c66d; 0xb00327c8; 0xbf597fc7];
    [0xc6e00bf3; 0xd5a79147; 0x06ca6351; 0x14292967];
    [0x27b70a85; 0x2e1b2138; 0x4d2c6dfc; 0x53380d13];
    [0x650a7354; 0x766a0abb; 0x81c2c92e; 0x92722c85];
    [0xa2bfe8a1; 0xa81a664b; 0xc24b8b70; 0xc76c51a3];
    [0xd192e819; 0xd6990624; 0xf40e3585; 0x106aa070];
    [0x19a4c116; 0x1e376c08; 0x2748774c; 0x34b0bcb5];
    [0x391c0cb3; 0x4ed8aa4a; 0x5b9cca4f; 0x682e6ff3];
    [0x748f82ee; 0x78a5636f; 0x84c87814; 0x8cc70208];
    [0x90befffa; 0xa4506ceb; 0xbef9a3f7; 0xc67178f2]
  ].

(** ** Compression *)

(** The big-endian words of a block. *)
Fixpoint load_words_be (n : nat) (p : bytes) : list Z :=
  match n with
  | O => []
  | S n => load32_be p :: load_words_be n (drop 4 p)
  end.

Definition word_at (w : list Z) (i : nat) : Z := default 0 (w !! i).

(** One turn of the message schedule loop, [i] from 16 to 63: appends w[i]. *)
Definition schedule_turn (w : list Z) (i : nat) : list Z :=
  let w15 := word_at w (i - 15) in
  let w2 := word_at w (i - 2) in
  let s0 := Z.lxor (Z.lxor (rotr32 w15 7) (rotr32 w15 18)) (Z.shiftr w15 3) in
  let s1 := Z.lxor (Z.lxor (rotr32 w2 17) (rotr32 w2 19)) (Z.shiftr w2 10) in
  w ++ [u32 (word_at w (i - 16) + s0 + word_at w (i - 7) + s1)].

Definition schedule (p : bytes) : list Z :=
  foldl schedule_turn (load_words_be 16 p) (seq 16 48).

Record regs := Regs { ra : Z; rb : Z; rc : Z; rd : Z; re : Z; rf : Z; rg : Z; rh : Z }.

Definition round (r : regs) (kw : Z * Z) : regs :=
  let '(Regs a b c d e f g h) := r in
  let s1 := Z.lxor (Z.lxor (rotr32 e 6) (rotr32 e 11)) (rotr32 e 25) in
  let ch := Z.lxor (Z.land e f) (Z.land (not32 e) g) in
  let t1 := u32 (h + s1 + ch + kw.1 + kw.2) in
  let s0 := Z.lxor (Z.lxor (rotr32 a 2) (rotr32 a 13)) (rotr32 a 22) in
  let maj := Z.lxor (Z.lxor (Z.land a b) (Z.land a c)) (Z.land b c) in
  let t2 := u32 (s0 + maj) in
  Regs (u32 (t1 + t2)) a b c (u32 (d + t1)) e f g.

Definition sha256_block (st : regs) (p : bytes) : regs :=
  let r := foldl round st (zip K (schedule p)) in
  Regs (add32 (ra st) (ra r)) (add32 (rb st) (rb r)) (add32 (rc st) (rc r))
       (add32 (rd st) (rd r)) (add32 (re st) (re r)) (add32 (rf st) (rf r))
       (add32 (rg st) (rg r)) (add32 (rh st) (rh r)).

(** ** Context functions *)

Definition H0 : regs :=
  Regs 0x6a09e667 0xbb67ae85 0x3c6ef372 0xa54ff53a
       0x510e527f 0x9b05688c 0x1f83d9ab 0x5be0cd19.

(** [sha256_init] leaves the 64 buffer bytes of the stack variable as they
    are: [garbage]. *)
Definition sha256_init (garbage : bytes) : hash_ctx (St := regs) :=
  {| state := H0; bitlen := 0; buffer := garbage; buflen := 0 |}.

Definition sha256_update : hash_ctx -> bytes -> hash_ctx := update sha256_block.

(** The 64-bit big-endian bit count. *)
Definition lenbuf_be (n : Z) : bytes :=
  map (fun i => u8 (Z.shiftr n (8 * (7 - Z.of_nat i)))) (seq 0 8).

Definition encode_be (r : regs) : bytes :=
  store32_be (ra r) ++ store32_be (rb r) ++ store32_be (rc r) ++ store32_be (rd r) ++
  store32_be (re r) ++ store32_be (rf r) ++ store32_be (rg r) ++ store32_be (rh r).

Definition sha256_final (ctx : hash_ctx) : bytes :=
  encode_be (final_state sha256_block lenbuf_be ctx).

Definition edb_sha256_from (garbage data : bytes) : bytes :=
  sha256_final (sha256_update (sha256_init garbage) data).

Definition edb_sha256 (data : bytes) : bytes :=
  edb_sha256_from (replicate 64 0) data.

Definition edb_sha256_hex (data : bytes) : string := hex_of_bytes (edb_sha256 data).

(** ** Facts *)

Lemma lenbuf_be_length n : length (lenbuf_be n) = 8%nat.
Proof. done. Qed.

Lemma absorbed_sha_update garbage data :
  length garbage = 64%nat ->
  absorbed sha256_block H0 (sha256_update (sha256_init garbage) data) data.
Proof.
  intros H. apply (absorbed_update sha256_block H0 _ [] data).
  by apply absorbed_start.
Qed.

Lemma length_edb_sha256 data : length (edb_sha256 data) = 32%nat.
Proof. done. Qed.

Lemma edb_sha256_ok data : bytes_ok (edb_sha256 data).
Proof.
  unfold edb_sha256, edb_sha256_from, sha256_final, encode_be, bytes_ok.
  rewrite !Forall_app. repeat split; apply store32_be_ok.
Qed.

(** FIPS 180-4 examples, evaluated. *)
Example sha256_abc :
  edb_sha256_hex (bytes_of_string "abc")
  = "ba7816bf8f01cfea414140de5dae2223b00361a396177a9cb410ff61f20015ad"%string.
Proof. vm_compute. reflexivity. Qed.

Example sha256_two_blocks :
  edb_sha256_hex (bytes_of_string "abcdbcdecdefdefgefghfghighijhijkijkljklmklmnlmnomnopnopq")
  = "248d6a61d20638b8e5c026930c3e6039a33ce45964ff2167f6ecedd419db06c1"%string.
Proof. vm_compute. reflexivity. Qed.

Lemma edb_sha256_from_reference garbage data :
  length garbage = 64%nat ->
  edb_sha256_from garbage data = encode_be (reference sha256_block lenbuf_be H0 data).
Proof.
  intros H. unfold edb_sha256_from, sha256_final. f_equal.
  apply (final_state_reference sha256_block lenbuf_be lenbuf_be_length).
  - by apply absorbed_sha_update.
  - unfold sha256_update.
    rewrite (update_bitlen sha256_block H0 _ [] data) by (by apply absorbed_start).
    done.
Qed.

(** Any sequence of updates absorbs the concatenation of its pieces. *)
Lemma sha256_absorbed_pieces ctx m pieces :
  absorbed sha256_block H0 ctx m ->
  absorbed sha256_block H0 (foldl sha256_update ctx pieces) (m ++ concat pieces) /\
  (bitlen ctx = u64 (Z.of_nat (length m) * 8) ->
   bitlen (foldl sha256_update ctx pieces) = u64 (Z.of_nat (length (m ++ concat pieces)) * 8)).
Proof.
  revert ctx m. induction pieces as [|d pieces IH]; intros ctx m H; simpl.
  - by rewrite app_nil_r.
  - pose proof (absorbed_update sha256_block H0 _ _ d H) as Hd.
    destruct (IH (sha256_update ctx d) (m ++ d) Hd) as [IH1 IH2].
    rewrite <-app_assoc in IH1, IH2. split; [done|]. intros Hl. apply IH2.
    unfold sha256_update. rewrite (update_bitlen sha256_block H0 _ _ _ H), Hl.
    unfold u64. rewrite length_app, Nat2Z.inj_add, Z.mul_add_distr_r.
    by rewrite Zplus_mod_idemp_l.
Qed.

(** For any contents of the uninitialised buffer and any way of cutting the
    message into [sha256_update] calls, the digest is the reference hash: the
    compression function folded over the 64-byte blocks of the padded message;
    in particular the padding loop terminates with the length field aligned. *)
Theorem sha256_streaming (garbage : bytes) (pieces : list bytes)
    (Hg : length garbage = 64%nat) :
  sha256_final (foldl sha256_update (sha256_init garbage) pieces)
  = encode_be (reference sha256_block lenbuf_be H0 (concat pieces)).
Proof.
  unfold sha256_final. f_equal.
  destruct (sha256_absorbed_pieces (sha256_init garbage) [] pieces) as [H1 H2];
    [by apply absorbed_start|].
  apply (final_state_reference sha256_block lenbuf_be lenbuf_be_length); auto.
Qed.

Lemma sha256_streaming_witness :
  sha256_final (foldl sha256_update (sha256_init (replicate 64 7)) [[97]; [98; 99]])
  = encode_be (reference sha256_block lenbuf_be H0 [97; 98; 99]).
Proof. exact (sha256_streaming (replicate 64 7) [[97]; [98; 99]] eq_refl). Defined.

End Sha256.
