(* ===== verification/Md5.v ===== *)
(** MD5, src/engine/md5.c: the second instance of the BlockHash section, used
    for shard keys (src/engine/manager.c) and row fingerprints
    (src/socket/epsilon_repl_read.c). *)

From S2P Require Import Prelude BlockHash.

Module Md5.

Definition K : list Z :=
  [
   0xd76aa478; 0xe8c7b756; 0x242070db; 0xc1bdceee; 0xf57c0faf; 0x4787c62a; 0xa8304613; 
   0xfd469501; 0x698098d8; 0x8b44f7af; 0xffff5bb1; 0x895cd7be; 0x6b901122; 0xfd987193; 
   0xa679438e; 0x49b40821; 0xf61e2562; 0xc040b340; 0x265e5a51; 0xe9b6c7aa; 0xd62f105d; 
   0x02441453; 0xd8a1e681; 0xe7d3fbc8; 0x21e1cde6; 0xc33707d6; 0xf4d50d87; 0x455a14ed; 
   0xa9e3e905; 0xfcefa3f8; 0x676f02d9; 0x8d2a4c8a; 0xfffa3942; 0x8771f681; 0x6d9d6122; 
   0xfde5380c; 0xa4beea44; 0x4bdecfa9; 0xf6bb4b60; 0xbebfbc70; 0x289b7ec6; 0xeaa127fa; 
   0xd4ef3085; 0x04881d05; 0xd9d4d039; 0xe6db99e5; 0x1fa27cf8; 0xc4ac5665; 0xf4292244; 
   0x432aff97; 0xab9423a7; 0xfc93a039; 0x655b59c3; 0x8f0ccc92; 0xffeff47d; 0x85845dd1; 
   0x6fa87e4f; 0xfe2ce6e0; 0xa3014314; 0x4e0811a1; 0xf7537e82; 0xbd3af235; 0x2ad7d2bb; 
   0xeb86d391
  ].

Definition S : list Z :=
  concat (replicate 4 [7; 12; 17; 22]) ++ concat (replicate 4 [5; 9; 14; 20]) ++
  concat (replicate 4 [4; 11; 16; 23]) ++ concat (replicate 4 [6; 10; 15; 21]).

Fixpoint load_words_le (n : nat) (p : bytes) : list Z :=
  match n with
  | O => []
  | Datatypes.S n => load32_le p :: load_words_le n (drop 4 p)
  end.

Record regs := Regs { ra : Z; rb : Z; rc : Z; rd : Z }.

Definition round (m : list Z) (r : regs) (i : nat) : regs :=
  let '(Regs a b c d) := r in
  let '(f, g) :=
    if (i <? 16)%nat then (Z.lor (Z.land b c) (Z.land (not32 b) d), i)
    else if (i <? 32)%nat then (Z.lor (Z.land d b) (Z.land (not32 d) c), ((5 * i + 1) mod 16)%nat)
    else if (i <? 48)%nat then (Z.lxor (Z.lxor b c) d, ((3 * i + 5) mod 16)%nat)
    else (Z.lxor c (Z.lor b (not32 d)), ((7 * i) mod 16)%nat) in
  let sum := u32 (a + f + default 0 (K !! i) + default 0 (m !! g)) in
  Regs d (u32 (b + rotl32 sum (default 0 (S !! i)))) b c.

Definition md5_block (st : regs) (p : bytes) : regs :=
  let r := foldl (round (load_words_le 16 p)) st (seq 0 64) in
  Regs (add32 (ra st) (ra r)) (add32 (rb st) (rb r))
       (add32 (rc st) (rc r)) (add32 (rd st) (rd r)).

Definition H0 : regs := Regs 0x67452301 0xefcdab89 0x98badcfe 0x10325476.

Definition md5_init (garbage : bytes) : hash_ctx (St := regs) :=
  {| state := H0; bitlen := 0; buffer := garbage; buflen := 0 |}.

Definition md5_update : hash_ctx -> bytes -> hash_ctx := update md5_block.

(** The 64-bit little-endian bit count. *)
Definition lenbuf_le (n : Z) : bytes :=
  map (fun i => u8 (Z.shiftr n (8 * Z.of_nat i))) (seq 0 8).

Definition encode_le (r : regs) : bytes :=
  store32_le (ra r) ++ store32_le (rb r) ++ store32_le (rc r) ++ store32_le (rd r).

Definition md5_final (ctx : hash_ctx) : bytes :=
  encode_le (final_state md5_block lenbuf_le ctx).

Definition edb_md5_from (garbage data : bytes) : bytes :=
  md5_final (md5_update (md5_init garbage) data).

Definition edb_md5_hex (data : bytes) : string :=
  hex_of_bytes (edb_md5_from (replicate 64 0) data).

Lemma lenbuf_le_length n : length (lenbuf_le n) = 8%nat.
Proof. done. Qed.

Lemma length_edb_md5_hex data : String.length (edb_md5_hex data) = 32%nat.
Proof. done. Qed.

(** RFC 1321 test suite, evaluated. *)
Example md5_empty : edb_md5_hex [] = "d41d8cd98f00b204e9800998ecf8427e"%string.
Proof. vm_compute. reflexivity. Qed.

Example md5_abc :
  edb_md5_hex (bytes_of_string "abc") = "900150983cd24fb0d6963f7d28e17f72"%string.
Proof. vm_compute. reflexivity. Qed.

Example md5_digits :
  edb_md5_hex (bytes_of_string
    "12345678901234567890123456789012345678901234567890123456789012345678901234567890")
  = "57edf4a22be3c955ac49da2e2107b67a"%string.
Proof. vm_compute. reflexivity. Qed.

Lemma edb_md5_from_reference garbage data :
  length garbage = 64%nat ->
  edb_md5_from garbage data = encode_le (reference md5_block lenbuf_le H0 data).
Proof.
  intros H. unfold edb_md5_from, md5_final. f_equal.
  assert (Ha : absorbed md5_block H0 (md5_init garbage) []) by (by apply absorbed_start).
  apply (final_state_reference md5_block lenbuf_le lenbuf_le_length).
  - apply (absorbed_update md5_block H0 _ [] data Ha).
  - unfold md5_update. by rewrite (update_bitlen md5_block H0 _ [] data Ha).
Qed.

(** Any sequence of updates absorbs the concatenation of its pieces. *)
Lemma md5_absorbed_pieces ctx m pieces :
  absorbed md5_block H0 ctx m ->
  absorbed md5_block H0 (foldl md5_update ctx pieces) (m ++ concat pieces) /\
  (bitlen ctx = u64 (Z.of_nat (length m) * 8) ->
   bitlen (foldl md5_update ctx pieces) = u64 (Z.of_nat (length (m ++ concat pieces)) * 8)).
Proof.
  revert ctx m. induction pieces as [|d pieces IH]; intros ctx m H; simpl.
  - by rewrite app_nil_r.
  - pose proof (absorbed_update md5_block H0 _ _ d H) as Hd.
    destruct (IH (md5_update ctx d) (m ++ d) Hd) as [IH1 IH2].
    rewrite <-app_assoc in IH1, IH2. split; [done|]. intros Hl. apply IH2.
    unfold md5_update. rewrite (update_bitlen md5_block H0 _ _ _ H), Hl.
    unfold u64. rewrite length_app, Nat2Z.inj_add, Z.mul_add_distr_r.
    by rewrite Zplus_mod_idemp_l.
Qed.

(** For any contents of the uninitialised buffer and any way of cutting the
    message into [md5_update] calls, the digest is the reference hash: the
    compression function folded over the 64-byte blocks of the padded message;
    in particular the padding loop terminates with the length field aligned. *)
Theorem md5_streaming (garbage : bytes) (pieces : list bytes)
    (Hg : length garbage = 64%nat) :
  md5_final (foldl md5_update (md5_init garbage) pieces)
  = encode_le (reference md5_block lenbuf_le H0 (concat pieces)).
Proof.
  unfold md5_final. f_equal.
  destruct (md5_absorbed_pieces (md5_init garbage) [] pieces) as [H1 H2];
    [by apply absorbed_start|].
  apply (final_state_reference md5_block lenbuf_le lenbuf_le_length); auto.
Qed.

Lemma md5_streaming_witness :
  md5_final (foldl md5_update (md5_init (replicate 64 7)) [[97]; [98; 99]])
  = encode_le (reference md5_block lenbuf_le H0 [97; 98; 99]).
Proof. exact (md5_streaming (replicate 64 7) [[97]; [98; 99]] eq_refl). Defined.

End Md5.
