(* ===== verification/Crypto.v ===== *)
(** src/engine/epsilon_crypto.c: ChaCha20, HMAC-SHA256, HKDF-SHA256 and the
    encrypt-then-MAC AEAD that protects mesh frames. [malloc] is taken to
    succeed. *)

From S2P Require Import Prelude BlockHash Sha256.

Module Crypto.

Definition EDB_NONCE_LEN : nat := 12.
Definition EDB_TAG_LEN : nat := 32.

(** ** ChaCha20 *)

Definition get (x : list Z) (i : nat) : Z := default 0 (x !! i).

(** The QR macro on words [a b c d] of the state. *)
Definition quarter_round (x : list Z) (a b c d : nat) : list Z :=
  let x := <[a := add32 (get x a) (get x b)]> x in
  let x := <[d := rotl32 (Z.lxor (get x d) (get x a)) 16]> x in
  let x := <[c := add32 (get x c) (get x d)]> x in
  let x := <[b := rotl32 (Z.lxor (get x b) (get x c)) 12]> x in
  let x := <[a := add32 (get x a) (get x b)]> x in
  let x := <[d := rotl32 (Z.lxor (get x d) (get x a)) 8]> x in
  let x := <[c := add32 (get x c) (get x d)]> x in
  <[b := rotl32 (Z.lxor (get x b) (get x c)) 7]> x.

(** One turn of the ten-turn loop of [chacha20_block]. *)
Definition double_round (x : list Z) : list Z :=
  let x := quarter_round x 0 4 8 12 in
  let x := quarter_round x 1 5 9 13 in
  let x := quarter_round x 2 6 10 14 in
  let x := quarter_round x 3 7 11 15 in
  let x := quarter_round x 0 5 10 15 in
  let x := quarter_round x 1 6 11 12 in
  let x := quarter_round x 2 7 8 13 in
  quarter_round x 3 4 9 14.

Definition chacha20_block (inp : list Z) : list Z :=
  zip_with add32 (Nat.iter 10 double_round inp) inp.

Definition chacha20_init (key : bytes) (counter : Z) (nonce : bytes) : list Z :=
  [0x61707865; 0x3320646e; 0x79622d32; 0x6b206574] ++
  map (fun i => load32_le (drop (4 * i) key)) (seq 0 8) ++
  [counter] ++
  map (fun i => load32_le (drop (4 * i) nonce)) (seq 0 3).

(** The 64 keystream bytes of one block. *)
Definition keystream_block (key nonce : bytes) (counter : Z) : bytes :=
  concat (map store32_le (chacha20_block (chacha20_init key counter nonce))).

(** The [while (len > 0)] loop, 64 bytes a turn; [length inp] turns suffice
    ([chacha20_xor_blocks]). *)
Fixpoint chacha20_loop (fuel : nat) (key nonce : bytes) (counter : Z) (inp : bytes) : bytes :=
  match fuel, inp with
  | _, [] => []
  | O, _ => []
  | S fuel, _ =>
      let n := Nat.min (length inp) 64 in
      zip_with Z.lxor (take n inp) (keystream_block key nonce counter) ++
      chacha20_loop fuel key nonce (u32 (counter + 1)) (drop n inp)
  end.

Definition edb_chacha20_xor (inp key nonce : bytes) (counter : Z) : bytes :=
  chacha20_loop (length inp) key nonce counter inp.

(** ** HMAC-SHA256 *)

Definition hmac_key (key : bytes) : bytes :=
  if (64 <? length key)%nat
  then Sha256.edb_sha256 key ++ replicate 32 0
  else key ++ replicate (64 - length key) 0.

Definition edb_hmac_sha256 (key msg : bytes) : bytes :=
  let k := hmac_key key in
  let ipad := map (fun b => Z.lxor b 0x36) k in
  let opad := map (fun b => Z.lxor b 0x5c) k in
  let inner_hash := Sha256.edb_sha256 (ipad ++ msg) in
  Sha256.edb_sha256 (opad ++ inner_hash).

(** ** HKDF-SHA256 *)

(** The expand loop: [t] is the previous block ([] before the first), [need]
    the bytes still wanted, [counter] a [uint8_t]. *)
Fixpoint hkdf_loop (fuel : nat) (prk info t : bytes) (counter : Z) (need : nat) : bytes :=
  match fuel, need with
  | _, O => []
  | O, _ => []
  | S fuel, _ =>
      let t := edb_hmac_sha256 prk (t ++ info ++ [counter]) in
      let n := Nat.min need 32 in
      take n t ++ hkdf_loop fuel prk info t (u8 (counter + 1)) (need - n)
  end.

(** [None] is the -1 return. *)
Definition edb_hkdf_sha256 (ikm salt info : bytes) (okm_len : nat) : option bytes :=
  if (255 * 32 <? okm_len)%nat then None
  else
    let prk := edb_hmac_sha256 (if (length salt =? 0)%nat then replicate 32 0 else salt) ikm in
    Some (hkdf_loop okm_len prk info [] 1 okm_len).

(** ** AEAD *)

(** [diff |= a[i] ^ b[i]] over [n] bytes. *)
Definition ct_equal (a b : bytes) : bool :=
  foldl Z.lor 0 (zip_with Z.lxor a b) =? 0.

Definition edb_aead_seal (enc_key mac_key nonce aad plain : bytes) (out_cap : nat)
    : option bytes :=
  let total := (EDB_NONCE_LEN + length plain + EDB_TAG_LEN)%nat in
  if (out_cap <? total)%nat then None
  else
    let out := nonce ++ edb_chacha20_xor plain enc_key nonce 1 in
    Some (out ++ edb_hmac_sha256 mac_key (aad ++ out)).

(** [Some plain] for a non-negative return (its length), [None] for -1. *)
Definition edb_aead_open (enc_key mac_key aad inp : bytes) (out_cap : nat) : option bytes :=
  if (length inp <? EDB_NONCE_LEN + EDB_TAG_LEN)%nat then None
  else
    let plain_len := (length inp - EDB_NONCE_LEN - EDB_TAG_LEN)%nat in
    if (out_cap <? plain_len)%nat then None
    else
      let nonce := take EDB_NONCE_LEN inp in
      let cipher := take plain_len (drop EDB_NONCE_LEN inp) in
      let tag := drop (EDB_NONCE_LEN + plain_len) inp in
      let expected :=
        edb_hmac_sha256 mac_key (aad ++ take (EDB_NONCE_LEN + plain_len) inp) in
      if ct_equal expected tag
      then Some (edb_chacha20_xor cipher enc_key nonce 1)
      else None.

(** ** Self test *)

(** The vectors the file embeds: each test is the C comparison of a computed
    byte string with a hex literal. *)
Definition hex_eq (hex : string) (bs : bytes) : bool := bool_decide (hex_of_bytes bs = hex).

Definition test_chacha20 : bool :=
  let key := map Z.of_nat (seq 0 32) in
  let nonce := [0; 0; 0; 0; 0; 0; 0; 0x4a; 0; 0; 0; 0] in
  let plain := bytes_of_string
    ("Ladies and Gentlemen of the class of '99: If I could offer you " +:+
     "only one tip for the future, sunscreen would be it.") in
  hex_eq ("6e2e359a2568f98041ba0728dd0d6981" +:+ "e97e7aec1d4360c20a27afccfd9fae0b" +:+
          "f91b65c5524733ab8f593dabcd62b357" +:+ "1639d624e65152ab8f530c359f0861d8" +:+
          "07ca0dbf500d6a6156a38e088a22b65e" +:+ "52bc514d16ccf806818ce91ab7793736" +:+
          "5af90bbf74a35be6b40b8eedf2785e42" +:+ "874d")
    (edb_chacha20_xor plain key nonce 1).

Definition test_hmac : bool :=
  hex_eq ("b0344c61d8db38535ca8afceaf0bf12b" +:+ "881dc200c9833da726e9376c2e32cff7")
    (edb_hmac_sha256 (replicate 20 0x0b) (bytes_of_string "Hi There")).

Definition test_hkdf : bool :=
  match edb_hkdf_sha256 (replicate 22 0x0b) (map Z.of_nat (seq 0 13))
          (map (fun i => 0xf0 + Z.of_nat i) (seq 0 10)) 42 with
  | None => false
  | Some okm =>
      hex_eq ("3cb25f25faacd57a90434f64d0362f2a" +:+ "2d2d0a90cf1a5a4c5db02d56ecc4c5bf" +:+
              "34007208d5b887185865") okm
  end.

Definition test_aead : bool :=
  let enc_key := map (fun i => 0x40 + Z.of_nat i) (seq 0 32) in
  let mac_key := map (fun i => 0x80 + Z.of_nat i) (seq 0 32) in
  let nonce := map Z.of_nat (seq 1 12) in
  let plain := bytes_of_string "attack at dawn" in
  let aad := bytes_of_string "estp" in
  match edb_aead_seal enc_key mac_key nonce aad plain 128 with
  | None => false
  | Some sealed =>
      match edb_aead_open enc_key mac_key aad sealed 128 with
      | None => false
      | Some opened =>
          if negb (bool_decide (opened = plain)) then false
          else
            (* tampering must be rejected *)
            let sealed' := alter (fun b => Z.lxor b 1) EDB_NONCE_LEN sealed in
            match edb_aead_open enc_key mac_key aad sealed' 128 with
            | None => true
            | Some _ => false
            end
      end
  end.

Definition edb_crypto_selftest : Z :=
  if negb test_chacha20 then 1
  else if negb test_hmac then 2
  else if negb test_hkdf then 3
  else if negb test_aead then 4
  else 0.

(** The round functions are long terms: only the lemmas below open them. *)
Arguments quarter_round : simpl never.
Arguments double_round : simpl never.
Arguments chacha20_block : simpl never.
Arguments keystream_block : simpl never.
Arguments edb_hmac_sha256 : simpl never.

(** ** ChaCha20 facts *)

Lemma length_quarter_round x a b c d : length (quarter_round x a b c d) = length x.
Proof. unfold quarter_round. by rewrite !length_insert. Qed.

Lemma length_double_round x : length (double_round x) = length x.
Proof. unfold double_round. by rewrite !length_quarter_round. Qed.

Lemma length_chacha20_block x : length (chacha20_block x) = length x.
Proof.
  unfold chacha20_block. rewrite length_zip_with.
  assert (H : forall n, length (Nat.iter n double_round x) = length x).
  { induction n as [|n IH]; [done|].
    rewrite Nat.iter_succ, length_double_round. exact IH. }
  rewrite H. apply Nat.min_id.
Qed.

Lemma length_keystream_block key nonce c : length (keystream_block key nonce c) = 64%nat.
Proof.
  unfold keystream_block. rewrite (length_equal_blocks 4).
  - rewrite length_map, length_chacha20_block. reflexivity.
  - apply Forall_map, Forall_true. done.
Qed.

(** The keystream for [n] blocks from [counter], and the closed form of the
    cipher: the data xored with the keystream. *)
Fixpoint keystream (n : nat) (key nonce : bytes) (counter : Z) : bytes :=
  match n with
  | O => []
  | S n => keystream_block key nonce counter ++ keystream n key nonce (u32 (counter + 1))
  end.

Lemma zip_with_app_take {A B C} (f : A -> B -> C) l k1 k2 :
  (length k1 <= length l)%nat ->
  zip_with f l (k1 ++ k2)
  = zip_with f (take (length k1) l) k1 ++ zip_with f (drop (length k1) l) k2.
Proof.
  revert l. induction k1 as [|b k1 IH]; intros [|a l] H; simpl in *; try lia; try done.
  rewrite IH by lia. done.
Qed.

Lemma zip_with_short_r {A B C} (f : A -> B -> C) l k1 k2 :
  (length l <= length k1)%nat -> zip_with f l (k1 ++ k2) = zip_with f l k1.
Proof.
  revert l. induction k1 as [|b k1 IH]; intros [|a l] H; simpl in *; try lia; try done.
  rewrite IH by lia. done.
Qed.

Lemma chacha20_loop_keystream fuel key nonce c inp :
  (length inp <= fuel)%nat ->
  chacha20_loop fuel key nonce c inp = zip_with Z.lxor inp (keystream fuel key nonce c).
Proof.
  revert c inp. induction fuel as [|fuel IH]; intros c inp H.
  - destruct inp; [done|simpl in H; lia].
  - destruct inp as [|b inp]; [done|]. cbn [chacha20_loop keystream].
    set (l := b :: inp) in *. assert (Hl : (0 < length l)%nat) by (simpl; lia).
    rewrite IH by (rewrite length_drop; lia).
    destruct (Nat.le_gt_cases (length l) 64) as [Hs|Hs].
    + rewrite Nat.min_l by lia. rewrite (take_ge l), (drop_ge l) by done.
      simpl zip_with at 2. rewrite app_nil_r, zip_with_short_r; [done|].
      rewrite length_keystream_block. done.
    + rewrite Nat.min_r by lia. rewrite zip_with_app_take.
      * by rewrite length_keystream_block.
      * rewrite length_keystream_block. lia.
Qed.

Lemma length_keystream n key nonce c : length (keystream n key nonce c) = (64 * n)%nat.
Proof.
  revert c. induction n as [|n IH]; intros c; [done|]. cbn [keystream].
  rewrite length_app, length_keystream_block, IH. lia.
Qed.

Lemma length_edb_chacha20_xor inp key nonce c :
  length (edb_chacha20_xor inp key nonce c) = length inp.
Proof.
  unfold edb_chacha20_xor. rewrite chacha20_loop_keystream by done.
  rewrite length_zip_with, length_keystream. lia.
Qed.

Lemma zip_with_lxor_cancel l k :
  (length l <= length k)%nat -> zip_with Z.lxor (zip_with Z.lxor l k) k = l.
Proof.
  revert k. induction l as [|a l IH]; intros [|b k] H; simpl in *; try lia; try done.
  rewrite Z.lxor_assoc, Z.lxor_nilpotent, Z.lxor_0_r, IH by lia. done.
Qed.

Lemma edb_chacha20_xor_involutive inp key nonce c :
  edb_chacha20_xor (edb_chacha20_xor inp key nonce c) key nonce c = inp.
Proof.
  unfold edb_chacha20_xor at 1. rewrite length_edb_chacha20_xor.
  rewrite chacha20_loop_keystream by (by rewrite length_edb_chacha20_xor).
  unfold edb_chacha20_xor. rewrite chacha20_loop_keystream by done.
  apply zip_with_lxor_cancel. rewrite length_keystream. lia.
Qed.
#[export] Hint Rewrite length_edb_chacha20_xor edb_chacha20_xor_involutive : edb.

(** ** HMAC and comparison facts *)

Lemma length_edb_hmac_sha256 k m : length (edb_hmac_sha256 k m) = 32%nat.
Proof. apply Sha256.length_edb_sha256. Qed.

Lemma length_hmac_key key : length (hmac_key key) = 64%nat.
Proof.
  unfold hmac_key. destruct (Nat.ltb_spec 64 (length key)).
  - by rewrite length_app, Sha256.length_edb_sha256.
  - rewrite length_app, length_replicate. lia.
Qed.

Lemma foldl_lor_zero acc l : foldl Z.lor acc l = 0 <-> acc = 0 /\ Forall (eq 0) l.
Proof.
  revert acc. induction l as [|a l IH]; intros acc; simpl.
  - split; [intros ->; done|]. by intros [-> _].
  - rewrite IH, Z.lor_eq_0_iff, Forall_cons. intuition.
Qed.

Lemma zip_with_lxor_zero a b :
  length a = length b -> Forall (eq 0) (zip_with Z.lxor a b) <-> a = b.
Proof.
  revert b. induction a as [|x a IH]; intros [|y b] H; simpl in *; try lia.
  - by split.
  - rewrite Forall_cons, IH by lia. split.
    + intros [Hx ->]. f_equal. symmetry in Hx. by apply Z.lxor_eq.
    + intros [= -> ->]. by rewrite Z.lxor_nilpotent.
Qed.

Lemma ct_equal_spec a b : length a = length b -> ct_equal a b = true <-> a = b.
Proof.
  intros H. unfold ct_equal. rewrite Z.eqb_eq, foldl_lor_zero, zip_with_lxor_zero by done.
  tauto.
Qed.

(** Sealing into a large enough buffer never fails and adds 44 bytes. *)
Lemma edb_aead_seal_some ek mk nonce aad plain cap :
  (44 + length plain <= cap)%nat ->
  edb_aead_seal ek mk nonce aad plain cap =
  Some ((nonce ++ edb_chacha20_xor plain ek nonce 1) ++
        edb_hmac_sha256 mk (aad ++ nonce ++ edb_chacha20_xor plain ek nonce 1)).
Proof.
  intros H. unfold edb_aead_seal. destruct (Nat.ltb_spec cap
    (EDB_NONCE_LEN + length plain + EDB_TAG_LEN)) as [Hc|Hc]; [|done].
  unfold EDB_NONCE_LEN, EDB_TAG_LEN in Hc. lia.
Qed.

Lemma edb_aead_open_parts ek mk aad nonce cipher tag cap :
  length nonce = EDB_NONCE_LEN -> length tag = EDB_TAG_LEN ->
  (length cipher <= cap)%nat ->
  edb_aead_open ek mk aad (nonce ++ cipher ++ tag) cap
  = if ct_equal (edb_hmac_sha256 mk (aad ++ nonce ++ cipher)) tag
    then Some (edb_chacha20_xor cipher ek nonce 1) else None.
Proof.
  intros Hn Ht Hc. unfold edb_aead_open.
  assert (Hlen : length (nonce ++ cipher ++ tag)
                 = (EDB_NONCE_LEN + length cipher + EDB_TAG_LEN)%nat).
  { rewrite !length_app. lia. }
  rewrite Hlen.
  replace (EDB_NONCE_LEN + length cipher + EDB_TAG_LEN - EDB_NONCE_LEN - EDB_TAG_LEN)%nat
    with (length cipher) by lia.
  destruct (Nat.ltb_spec (EDB_NONCE_LEN + length cipher + EDB_TAG_LEN)
    (EDB_NONCE_LEN + EDB_TAG_LEN)); [lia|].
  destruct (Nat.ltb_spec cap (length cipher)); [lia|].
  rewrite (app_assoc nonce), <-Hn, <-length_app, take_app_length, drop_app_length.
  by rewrite <-app_assoc, take_app_length, drop_app_length, take_app_length.
Qed.

(** The packaged form both ends of the wire use. *)
Lemma open_sealed ek mk nonce aad plain cap cap' sealed :
  length nonce = EDB_NONCE_LEN -> (length plain <= cap')%nat ->
  edb_aead_seal ek mk nonce aad plain cap = Some sealed ->
  length sealed = (EDB_NONCE_LEN + length plain + EDB_TAG_LEN)%nat /\
  edb_aead_open ek mk aad sealed cap' = Some plain.
Proof.
  intros Hn Hc Hs. unfold edb_aead_seal in Hs.
  destruct (Nat.ltb_spec cap (EDB_NONCE_LEN + length plain + EDB_TAG_LEN)); [done|].
  injection Hs as <-. rewrite <-app_assoc. split.
  - rewrite !length_app, length_edb_hmac_sha256, length_edb_chacha20_xor.
    unfold EDB_TAG_LEN. lia.
  - rewrite edb_aead_open_parts; [|done|apply length_edb_hmac_sha256
                                  |by rewrite length_edb_chacha20_xor].
    rewrite (proj2 (ct_equal_spec _ _ eq_refl) eq_refl).
    by rewrite edb_chacha20_xor_involutive.
Qed.

Lemma length_hkdf_loop fuel prk info t c need :
  (need <= fuel)%nat -> length (hkdf_loop fuel prk info t c need) = need.
Proof.
  revert t c need. induction fuel as [|fuel IH]; intros t c need H.
  - destruct need; [done|lia].
  - destruct need as [|need]; [done|]. cbn [hkdf_loop]. set (n := S need) in *.
    rewrite length_app, length_take, length_edb_hmac_sha256, IH; lia.
Qed.

(** What an accepted input looks like. *)
Lemma open_parts_inv ek mk aad inp plain cap :
  edb_aead_open ek mk aad inp cap = Some plain ->
  exists nonce cipher,
    length nonce = EDB_NONCE_LEN /\ (length cipher <= cap)%nat /\
    inp = nonce ++ cipher ++ edb_hmac_sha256 mk (aad ++ nonce ++ cipher) /\
    plain = edb_chacha20_xor cipher ek nonce 1.
Proof.
  intros H. unfold edb_aead_open in H.
  destruct (Nat.ltb_spec (length inp) (EDB_NONCE_LEN + EDB_TAG_LEN)) as [|Hl]; [done|].
  set (n := (length inp - EDB_NONCE_LEN - EDB_TAG_LEN)%nat) in *.
  destruct (Nat.ltb_spec cap n) as [|Hc]; [done|].
  destruct (ct_equal _ _) eqn:Hct; [|done]. injection H as <-.
  rewrite ct_equal_spec in Hct.
  2: { rewrite length_edb_hmac_sha256, length_drop. unfold EDB_NONCE_LEN, EDB_TAG_LEN in *. lia. }
  exists (take EDB_NONCE_LEN inp), (take n (drop EDB_NONCE_LEN inp)).
  assert (Hsplit : take EDB_NONCE_LEN inp ++ take n (drop EDB_NONCE_LEN inp)
                   = take (EDB_NONCE_LEN + n) inp) by (by rewrite take_take_drop).
  rewrite Hsplit, Hct, app_assoc, Hsplit, take_drop.
  split_and!; [rewrite length_take; lia|rewrite length_take; lia|done|done].
Qed.

(** ** RFC 5869 expansion *)

(** T(1) T(2) ... with an unbounded block counter. *)
Fixpoint hkdf_blocks (n : nat) (prk info t : bytes) (counter : Z) : bytes :=
  match n with
  | O => []
  | S n =>
      let t := edb_hmac_sha256 prk (t ++ info ++ [counter]) in
      t ++ hkdf_blocks n prk info t (counter + 1)
  end.

Lemma hkdf_loop_blocks fuel n prk info t c need :
  (need <= fuel)%nat -> (need <= 32 * n)%nat -> 0 <= c ->
  Z.of_nat need <= 32 * (256 - c) ->
  hkdf_loop fuel prk info t c need = take need (hkdf_blocks n prk info t c).
Proof.
  revert n t c need. induction fuel as [|fuel IH]; intros n t c need Hf Hn Hc Hb.
  - destruct need; [done|lia].
  - destruct need as [|need]; [done|]. destruct n as [|n]; [lia|].
    cbn [hkdf_loop hkdf_blocks]. set (k := S need) in *. assert (Hk : (0 < k)%nat) by lia.
    set (t' := edb_hmac_sha256 prk (t ++ info ++ [c])).
    assert (Ht : length t' = 32%nat) by apply length_edb_hmac_sha256.
    clearbody t'. destruct (Nat.le_gt_cases k 32) as [Hs|Hs].
    + rewrite Nat.min_l by done. rewrite Nat.sub_diag.
      rewrite take_app_le by lia. destruct fuel; cbn [hkdf_loop]; apply app_nil_r.
    + rewrite Nat.min_r by lia. rewrite take_ge by lia.
      rewrite take_app_ge, Ht by lia. f_equal.
      rewrite (u8_id (c + 1)) by (unfold byte_ok; lia).
      apply IH; lia.
Qed.

(** A sealed message opens to the plaintext it was sealed from, for every
    key, nonce, associated data and plaintext, and is exactly 44 bytes longer. *)
Theorem aead_seal_open (ek mk nonce aad plain : bytes) (cap : nat)
    (Hn : length nonce = EDB_NONCE_LEN)
    (Hcap : (EDB_NONCE_LEN + length plain + EDB_TAG_LEN <= cap)%nat) :
  exists sealed, edb_aead_seal ek mk nonce aad plain cap = Some sealed /\
    length sealed = (EDB_NONCE_LEN + length plain + EDB_TAG_LEN)%nat /\
    edb_aead_open ek mk aad sealed (length plain) = Some plain.
Proof.
  eexists. split; [apply edb_aead_seal_some; unfold EDB_NONCE_LEN, EDB_TAG_LEN in Hcap; lia|].
  apply (open_sealed ek mk nonce aad plain cap); [done|done|].
  apply edb_aead_seal_some. unfold EDB_NONCE_LEN, EDB_TAG_LEN in Hcap. lia.
Qed.

Lemma aead_seal_open_witness :
  exists sealed, edb_aead_seal [1] [2] (replicate 12 0) [3] [104; 105] 46 = Some sealed /\
    length sealed = (EDB_NONCE_LEN + 2 + EDB_TAG_LEN)%nat /\
    edb_aead_open [1] [2] [3] sealed 2 = Some [104; 105].
Proof.
  exact (aead_seal_open [1] [2] (replicate 12 0) [3] [104; 105] 46 eq_refl (le_n 46)).
Defined.

(** [edb_aead_open] accepts exactly the authentic inputs: it returns a
    plaintext iff the input is nonce, ciphertext and tag with the tag equal to
    the HMAC of (aad, nonce, ciphertext) and the plaintext fits the output
    buffer; so any change of nonce, ciphertext, tag or aad that changes that
    equation is rejected. *)
Theorem aead_open_authentic (ek mk aad inp plain : bytes) (cap : nat) :
  edb_aead_open ek mk aad inp cap = Some plain <->
  exists nonce cipher,
    length nonce = EDB_NONCE_LEN /\ (length cipher <= cap)%nat /\
    inp = nonce ++ cipher ++ edb_hmac_sha256 mk (aad ++ nonce ++ cipher) /\
    plain = edb_chacha20_xor cipher ek nonce 1.
Proof.
  split; [apply open_parts_inv|].
  intros (nonce & cipher & Hn & Hc & -> & ->).
  rewrite edb_aead_open_parts; [|done|apply length_edb_hmac_sha256|done].
  by rewrite (proj2 (ct_equal_spec _ _ eq_refl) eq_refl).
Qed.

(** Key derivation fails exactly beyond 255 blocks and otherwise yields the
    RFC 5869 output: the first [okm_len] bytes of T(1) T(2) ..., so the
    [uint8_t] block counter never wraps while it is used. *)
Theorem hkdf_rfc5869 (ikm salt info : bytes) (okm_len : nat) :
  edb_hkdf_sha256 ikm salt info okm_len =
  if (255 * 32 <? okm_len)%nat then None
  else Some (take okm_len (hkdf_blocks 255
         (edb_hmac_sha256 (if (length salt =? 0)%nat then replicate 32 0 else salt) ikm)
         info [] 1)).
Proof.
  unfold edb_hkdf_sha256. destruct (Nat.ltb_spec (255 * 32) okm_len) as [H|H]; [done|].
  f_equal. apply hkdf_loop_blocks; lia.
Qed.

(** The self test of the module returns 0: the model reproduces the RFC
    8439, 4231 and 5869 vectors and rejects the tampered ciphertext. *)
Theorem crypto_selftest_passes : edb_crypto_selftest = 0.
Proof. vm_compute. reflexivity. Qed.

End Crypto.
