(* ===== verification/Wire.v ===== *)
(** src/socket/estp_wire.c: the ESTP frame codec over a TCP socket. The
    kernel's [send]/[recv] are schedules of responses (short counts, EINTR,
    errors), so the loops [write_full]/[read_full] are proved for every way
    the byte stream is cut. Locks around one socket's writes are not
    modelled (a frame is written by one call); [malloc] succeeds. *)

From S2P Require Import Prelude BlockHash Sha256 Crypto.

Module Wire.

Definition ESTP_VERSION : Z := 1.
Definition ESTP_HEADER_SIZE : nat := 10.
Definition ESTP_MAX_PAYLOAD : Z := 4 * 1024 * 1024.

(** [estp_type]. *)
Definition ESTP_HELLO : Z := 1.
Definition ESTP_STATE : Z := 2.
Definition ESTP_REPL : Z := 3.
Definition ESTP_ACK : Z := 4.
Definition ESTP_QUERY : Z := 5.
Definition ESTP_RESULT : Z := 6.
Definition ESTP_SNAP_REQ : Z := 7.
Definition ESTP_SNAP_DATA : Z := 8.
Definition ESTP_SNAP_ACK : Z := 9.
Definition ESTP_FLUSH : Z := 10.
Definition ESTP_VOID : Z := 11.

Definition estp_type_valid (type : Z) : bool :=
  (ESTP_HELLO <=? type) && (type <=? ESTP_VOID).

(** ** Sockets *)

(** 0, -1, or the call still waits when the schedule ends. *)
Inductive io_rc := RcOk | RcErr | RcBlocked.

(** What [send] does next: accept up to [n] bytes, fail with EINTR, fail. *)
Inductive tx_event := TxAccept (n : nat) | TxIntr | TxFail.

(** Result, bytes put on the wire, remaining schedule. *)
Fixpoint write_full (txs : list tx_event) (buf : bytes) : io_rc * bytes * list tx_event :=
  match buf with
  | [] => (RcOk, [], txs)
  | _ =>
      match txs with
      | [] => (RcBlocked, [], [])
      | TxIntr :: txs => write_full txs buf
      | TxFail :: txs => (RcErr, [], txs)
      | TxAccept O :: txs => (RcErr, [], txs)
      | TxAccept n :: txs =>
          let w := Nat.min n (length buf) in
          let '(rc, sent, txs) := write_full txs (drop w buf) in
          (rc, take w buf ++ sent, txs)
      end
  end.

(** What [recv] delivers next: a segment (empty for EOF), EINTR, an error. A
    segment longer than the request stays queued. *)
Inductive rx_event := RxSeg (s : bytes) | RxIntr | RxFail.

Fixpoint read_full (rxs : list rx_event) (len : nat) : io_rc * bytes * list rx_event :=
  match len with
  | O => (RcOk, [], rxs)
  | _ =>
      match rxs with
      | [] => (RcBlocked, [], [])
      | RxIntr :: rxs => read_full rxs len
      | RxFail :: rxs => (RcErr, [], rxs)
      | RxSeg [] :: rxs => (RcErr, [], rxs)
      | RxSeg s :: rxs =>
          if (length s <=? len)%nat then
            let '(rc, got, rxs) := read_full rxs (len - length s) in (rc, s ++ got, rxs)
          else (RcOk, take len s, RxSeg (drop len s) :: rxs)
      end
  end.

(** ** Mesh key *)

(** [g_mesh_key]: the encryption and MAC keys when active. *)
Definition mesh_key := option (bytes * bytes).

Definition estp_set_mesh_key (enc_key mac_key : option bytes) : mesh_key :=
  match enc_key, mac_key with
  | Some e, Some m => Some (e, m)
  | _, _ => None
  end.

(** ** Sending *)

Definition frame_header (type body_len : Z) : bytes :=
  [90; 83; 84; 80; ESTP_VERSION; u8 type] ++ store32_be (u32 body_len).

(** [hdr + 4], 2 bytes: what the tag authenticates besides the payload. *)
Definition frame_aad (type : Z) : bytes := [ESTP_VERSION; u8 type].

(** The body: the payload, or nonce, ciphertext and tag under a mesh key. *)
Definition frame_body (key : mesh_key) (nonce : bytes) (type : Z) (data : bytes)
    : option bytes :=
  match key with
  | None => Some data
  | Some (ek, mk) =>
      Crypto.edb_aead_seal ek mk nonce (frame_aad type) data
        (Crypto.EDB_NONCE_LEN + length data + Crypto.EDB_TAG_LEN)
  end.

(** [nonce] is what [edb_random_bytes] returned. *)
Definition estp_send_frame_raw (key : mesh_key) (nonce : bytes) (txs : list tx_event)
    (type : Z) (data : bytes) : io_rc * bytes * list tx_event :=
  if negb (estp_type_valid type) || (ESTP_MAX_PAYLOAD <? Z.of_nat (length data))
  then (RcErr, [], txs)
  else
    match frame_body key nonce type data with
    | None => (RcErr, [], txs)
    | Some body =>
        match write_full txs (frame_header type (Z.of_nat (length body))) with
        | (RcOk, sent, txs) =>
            if (length body =? 0)%nat then (RcOk, sent, txs)
            else let '(rc, sent', txs) := write_full txs body in (rc, sent ++ sent', txs)
        | r => r
        end
    end.

(** JSON frames: [strlen] of a string, 0 for NULL. *)
Definition estp_send_frame (key : mesh_key) (nonce : bytes) (txs : list tx_event)
    (type : Z) (json : option string) : io_rc * bytes * list tx_event :=
  estp_send_frame_raw key nonce txs type
    (match json with Some s => bytes_of_string s | None => [] end).

(** ** Receiving *)

(** The message type, [*payload_out] ([None] is NULL) and [*plen_out]. *)
Inductive recv_result :=
| RecvOk (type : Z) (payload : option bytes) (plen : Z)
| RecvErr
| RecvBlocked.

Definition recv_fail (rc : io_rc) : recv_result :=
  match rc with RcBlocked => RecvBlocked | _ => RecvErr end.

Definition byte_at (p : bytes) (i : nat) : Z := default 0 (p !! i).

Definition header_ok (hdr : bytes) : bool :=
  (byte_at hdr 0 =? 90) && (byte_at hdr 1 =? 83) && (byte_at hdr 2 =? 84) &&
  (byte_at hdr 3 =? 80) && (byte_at hdr 4 =? ESTP_VERSION) &&
  estp_type_valid (byte_at hdr 5).

(** From the body to the payload handed to the caller. *)
Definition open_body (key : mesh_key) (hdr body : bytes) : recv_result :=
  let body_len := Z.of_nat (length body) in
  match key with
  | Some (ek, mk) =>
      if body_len <? Z.of_nat (Crypto.EDB_NONCE_LEN + Crypto.EDB_TAG_LEN) then RecvErr
      else
        let plen := (length body - Crypto.EDB_NONCE_LEN - Crypto.EDB_TAG_LEN)%nat in
        match Crypto.edb_aead_open ek mk (take 2 (drop 4 hdr)) body plen with
        | None => RecvErr
        | Some plain => RecvOk (byte_at hdr 5) (Some plain) (Z.of_nat plen)
        end
  | None =>
      RecvOk (byte_at hdr 5) (if body_len =? 0 then None else Some body) body_len
  end.

Definition estp_recv_frame_raw (key : mesh_key) (rxs : list rx_event)
    : recv_result * list rx_event :=
  match read_full rxs ESTP_HEADER_SIZE with
  | (RcOk, hdr, rxs) =>
      if negb (header_ok hdr) then (RecvErr, rxs)
      else
        let body_len := load32_be (drop 6 hdr) in
        if ESTP_MAX_PAYLOAD + Z.of_nat (Crypto.EDB_NONCE_LEN + Crypto.EDB_TAG_LEN) <? body_len
        then (RecvErr, rxs)
        else
          match read_full rxs (Z.to_nat body_len) with
          | (RcOk, body, rxs) => (open_body key hdr body, rxs)
          | (rc, _, rxs) => (recv_fail rc, rxs)
          end
  | (rc, _, rxs) => (recv_fail rc, rxs)
  end.

(** ** The loops *)

Lemma write_full_prefix txs buf rc sent txs' :
  write_full txs buf = (rc, sent, txs') ->
  sent `prefix_of` buf /\ (rc = RcOk -> sent = buf).
Proof.
  revert buf rc sent txs'.
  induction txs as [|[n| |] txs IH]; intros [|b buf] rc sent txs' H;
    try (simplify_eq/=; split; [apply prefix_nil|done]); [|by apply IH in H].
  destruct n as [|n]; [simplify_eq/=; split; [apply prefix_nil|done]|].
  cbn [write_full] in H. set (l := b :: buf) in *.
  destruct (write_full txs (drop (Nat.min (S n) (length l)) l)) as [[rc1 s1] t1] eqn:E.
  simplify_eq. destruct (IH _ _ _ _ E) as [[r Hr] H2]. split.
  - exists r. rewrite <-app_assoc, <-Hr. by rewrite take_drop.
  - intros ->. rewrite H2 by done. by rewrite take_drop.
Qed.

(** The bytes a schedule still delivers, and schedules without failures. *)
Definition rx_bytes (e : rx_event) : bytes := match e with RxSeg s => s | _ => [] end.
Definition stream (rxs : list rx_event) : bytes := concat (map rx_bytes rxs).
Definition benign_event (e : rx_event) : Prop :=
  match e with RxSeg s => s <> [] | RxIntr => True | RxFail => False end.
Definition benign (rxs : list rx_event) : Prop := Forall benign_event rxs.

Lemma read_full_benign rxs len :
  benign rxs -> (len <= length (stream rxs))%nat ->
  exists rxs', read_full rxs len = (RcOk, take len (stream rxs), rxs') /\
               benign rxs' /\ stream rxs' = drop len (stream rxs).
Proof.
  intros Hb. revert len. induction Hb as [|e rxs He Hb IH]; intros len Hl.
  - simpl in Hl. destruct len; [|lia]. exists []. repeat split. constructor.
  - destruct len as [|len].
    { exists (e :: rxs). rewrite take_0, drop_0. repeat split. by constructor. }
    destruct e as [s| |]; [|by apply IH|done].
    destruct s as [|b s]; [done|]. cbn [read_full].
    change (stream (RxSeg (b :: s) :: rxs)) with ((b :: s) ++ stream rxs) in *.
    remember (b :: s) as l eqn:El. remember (S len) as n eqn:En.
    rewrite length_app in Hl. destruct (Nat.leb_spec (length l) n) as [Hs|Hs].
    + destruct (IH (n - length l)%nat) as (rxs' & Hr & Hb' & Hst); [lia|].
      rewrite Hr. exists rxs'. rewrite take_app_ge, drop_app_ge by lia. done.
    + exists (RxSeg (drop n l) :: rxs). rewrite take_app_le by lia.
      rewrite drop_app_le by lia. split_and!; [done| |done].
      constructor; [|done]. simpl. intros Hd. apply (f_equal length) in Hd.
      rewrite length_drop in Hd. simpl in Hd. lia.
Qed.

(** Whatever the schedule, a completed read consumes exactly [len] bytes. *)
Lemma read_full_ok rxs len got rxs' :
  read_full rxs len = (RcOk, got, rxs') ->
  length got = len /\ stream rxs = got ++ stream rxs'.
Proof.
  revert len got rxs'. induction rxs as [|e rxs IH]; intros len got rxs' H.
  - destruct len; by simplify_eq/=.
  - destruct len as [|len]; [by simplify_eq/=|]. cbn [read_full] in H.
    destruct e as [s| |]; [|apply (IH _ _ _ H)|done].
    destruct s as [|b s]; [done|].
    change (stream (RxSeg (b :: s) :: rxs)) with ((b :: s) ++ stream rxs).
    set (l := b :: s) in *. set (n := S len) in *.
    destruct (Nat.leb_spec (length l) n) as [Hs|Hs].
    + destruct (read_full rxs (n - length l)) as [[rc1 g1] r1] eqn:E. simplify_eq.
      destruct (IH _ _ _ E) as [Hg ->]. split; [rewrite length_app; lia|by rewrite app_assoc].
    + simplify_eq. split; [rewrite length_take; lia|].
      change (stream (RxSeg (drop n l) :: rxs)) with (drop n l ++ stream rxs).
      by rewrite app_assoc, take_drop.
Qed.

(** ** Frames *)

(** The bytes of one frame. *)
Definition frame (type : Z) (body : bytes) : bytes :=
  frame_header type (Z.of_nat (length body)) ++ body.

Lemma send_frame_ok key nonce txs type data sent txs' :
  estp_send_frame_raw key nonce txs type data = (RcOk, sent, txs') ->
  estp_type_valid type = true /\ Z.of_nat (length data) <= ESTP_MAX_PAYLOAD /\
  exists body, frame_body key nonce type data = Some body /\ sent = frame type body.
Proof.
  unfold estp_send_frame_raw. intros H.
  destruct (estp_type_valid type) eqn:Ht; [|done].
  destruct (Z.ltb_spec ESTP_MAX_PAYLOAD (Z.of_nat (length data))) as [|Hlen]; [done|].
  cbn [negb orb] in H. split_and!; [done|done|].
  destruct (frame_body key nonce type data) as [body|]; [|done].
  exists body. split; [done|]. unfold frame.
  destruct (write_full txs _) as [[rc s1] t1] eqn:E1. destruct rc; try done.
  destruct (write_full_prefix _ _ _ _ _ E1) as [_ Hs1]. specialize (Hs1 eq_refl). subst s1.
  destruct (Nat.eqb_spec (length body) 0) as [Hz|Hz].
  - destruct body; [|done]. simplify_eq. by rewrite app_nil_r.
  - destruct (write_full t1 body) as [[rc2 s2] t2] eqn:E2. simplify_eq.
    destruct (write_full_prefix _ _ _ _ _ E2) as [_ Hs2]. by rewrite (Hs2 eq_refl).
Qed.

Lemma frame_body_length key nonce type data body :
  length nonce = Crypto.EDB_NONCE_LEN -> frame_body key nonce type data = Some body ->
  length body = (length data + match key with Some _ => 44 | None => 0 end)%nat.
Proof.
  intros Hn H. destruct key as [[ek mk]|]; simpl in H.
  - destruct (Crypto.open_sealed ek mk nonce (frame_aad type) data _ (length data) body
      Hn (le_n _) H) as [-> _]. unfold Crypto.EDB_NONCE_LEN, Crypto.EDB_TAG_LEN. lia.
  - simplify_eq. lia.
Qed.

Lemma length_frame_header type n : length (frame_header type n) = ESTP_HEADER_SIZE.
Proof. done. Qed.

Lemma estp_type_valid_byte type : estp_type_valid type = true -> u8 type = type.
Proof.
  unfold estp_type_valid, ESTP_HELLO, ESTP_VOID. rewrite andb_true_iff, !Z.leb_le.
  intros H. apply u8_id. unfold byte_ok. lia.
Qed.

Lemma frame_header_ok type n :
  estp_type_valid type = true -> header_ok (frame_header type n) = true.
Proof.
  intros H. unfold header_ok, frame_header, byte_at. simpl.
  by rewrite (estp_type_valid_byte _ H), H.
Qed.

Lemma frame_header_length_field type n :
  0 <= n < 2 ^ 32 -> load32_be (drop 6 (frame_header type n)) = n.
Proof.
  intros H. unfold frame_header. rewrite u32_id by done.
  change (load32_be (store32_be n) = n). rewrite <-(app_nil_r (store32_be n)).
  by apply load_store32_be.
Qed.

(** The payload the receiver hands out for [data]. *)
Definition delivered (key : mesh_key) (data : bytes) : option bytes :=
  match key, data with None, [] => None | _, _ => Some data end.

Lemma open_body_sent key nonce type data body n :
  estp_type_valid type = true -> length nonce = Crypto.EDB_NONCE_LEN ->
  frame_body key nonce type data = Some body ->
  open_body key (frame_header type n) body
  = RecvOk type (delivered key data) (Z.of_nat (length data)).
Proof.
  intros Ht Hn H. unfold open_body.
  assert (Hb5 : byte_at (frame_header type n) 5 = type).
  { exact (estp_type_valid_byte _ Ht). }
  assert (Haad : take 2 (drop 4 (frame_header type n)) = frame_aad type) by done.
  rewrite Hb5, Haad. destruct key as [[ek mk]|].
  - pose proof (frame_body_length _ _ _ _ _ Hn H) as Hl. cbn beta iota in Hl.
    change Crypto.EDB_NONCE_LEN with 12%nat. change Crypto.EDB_TAG_LEN with 32%nat.
    destruct (Z.ltb_spec (Z.of_nat (length body)) (Z.of_nat (12 + 32))); [lia|].
    replace (length body - 12 - 32)%nat with (length data) by lia.
    destruct (Crypto.open_sealed ek mk nonce (frame_aad type) data _ (length data) body
      Hn (le_n _) H) as [_ ->]. done.
  - injection H as <-. destruct data as [|z data]; [done|].
    by destruct (Z.eqb_spec (Z.of_nat (length (z :: data))) 0).
Qed.

(** C33: Round trip: a frame whose send succeeded, whatever the short writes and
    interrupts, is received as the same type and payload from any
    failure-free segmentation of a stream that starts with it, and the
    receiver consumes exactly that frame. Holds with and without a mesh key. *)
Theorem send_recv_roundtrip key nonce txs type data sent txs' rxs rest
    (Hn : length nonce = Crypto.EDB_NONCE_LEN)
    (Hsend : estp_send_frame_raw key nonce txs type data = (RcOk, sent, txs'))
    (Hb : benign rxs) (Hs : stream rxs = sent ++ rest) :
  exists rxs', estp_recv_frame_raw key rxs
               = (RecvOk type (delivered key data) (Z.of_nat (length data)), rxs') /\
               benign rxs' /\ stream rxs' = rest.
Proof.
  destruct (send_frame_ok _ _ _ _ _ _ _ Hsend) as (Ht & Hmax & body & Hbody & ->).
  pose proof (frame_body_length _ _ _ _ _ Hn Hbody) as Hl.
  change ESTP_MAX_PAYLOAD with 4194304 in *. unfold frame in Hs. rewrite <-app_assoc in Hs.
  unfold estp_recv_frame_raw.
  destruct (read_full_benign rxs ESTP_HEADER_SIZE Hb) as (r1 & -> & Hb1 & Hs1).
  { rewrite Hs, length_app. apply Nat.le_add_r. }
  rewrite Hs in Hs1 |- *. rewrite take_app_length' by exact (length_frame_header type (Z.of_nat (length body))).
  rewrite drop_app_length' in Hs1 by exact (length_frame_header type (Z.of_nat (length body))).
  rewrite (frame_header_ok _ _ Ht). cbn [negb].
  assert (Hbl32 : Z.of_nat (length body) <= 4194348) by (destruct key; lia).
  rewrite frame_header_length_field by lia.
  change (Z.of_nat (Crypto.EDB_NONCE_LEN + Crypto.EDB_TAG_LEN)) with 44.
  change ESTP_MAX_PAYLOAD with 4194304.
  rewrite (proj2 (Z.ltb_ge (4194304 + 44) (Z.of_nat (length body)))) by lia.
  rewrite Nat2Z.id.
  destruct (read_full_benign r1 (length body) Hb1) as (r2 & -> & Hb2 & Hs2).
  { rewrite Hs1, length_app. lia. }
  rewrite Hs1, take_app_length in *. rewrite drop_app_length in Hs2.
  exists r2. by rewrite (open_body_sent _ _ _ _ _ _ Ht Hn Hbody).
Qed.

Lemma send_recv_roundtrip_witness :
  exists rxs', estp_recv_frame_raw None
      [RxSeg [90; 83]; RxIntr; RxSeg [84; 80; 1; 4; 0; 0; 0; 2; 123]; RxSeg [125; 90]]
    = (RecvOk 4 (Some [123; 125]) 2, rxs') /\ benign rxs' /\ stream rxs' = [90].
Proof.
  apply (send_recv_roundtrip None (replicate 12 0) [TxAccept 3; TxIntr; TxAccept 99; TxAccept 2]
    4 [123; 125] [90; 83; 84; 80; 1; 4; 0; 0; 0; 2; 123; 125] [] _ [90]).
  - reflexivity.
  - vm_compute. reflexivity.
  - repeat constructor; discriminate.
  - reflexivity.
Defined.

Lemma recv_ok_inv key rxs type payload plen rxs' :
  estp_recv_frame_raw key rxs = (RecvOk type payload plen, rxs') ->
  exists hdr body, stream rxs = hdr ++ body ++ stream rxs' /\
    length hdr = ESTP_HEADER_SIZE /\ header_ok hdr = true /\
    load32_be (drop 6 hdr) <= ESTP_MAX_PAYLOAD + 44 /\
    length body = Z.to_nat (load32_be (drop 6 hdr)) /\
    open_body key hdr body = RecvOk type payload plen.
Proof.
  unfold estp_recv_frame_raw. intros H.
  destruct (read_full rxs ESTP_HEADER_SIZE) as [[rc1 hdr] r1] eqn:E1.
  destruct rc1; [|done..]. destruct (header_ok hdr) eqn:Hh; [|done]. cbn [negb] in H.
  destruct (Z.ltb_spec (ESTP_MAX_PAYLOAD +
    Z.of_nat (Crypto.EDB_NONCE_LEN + Crypto.EDB_TAG_LEN)) (load32_be (drop 6 hdr)))
    as [|Hx]; [done|].
  destruct (read_full r1 _) as [[rc2 body] r2] eqn:E2.
  destruct rc2; [|done..]. injection H as Hopen <-.
  destruct (read_full_ok _ _ _ _ E1) as [Hl1 Hs1].
  destruct (read_full_ok _ _ _ _ E2) as [Hl2 Hs2].
  exists hdr, body. rewrite Hs1, Hs2. split_and!; try done.
Qed.

(** C34: With a mesh key every accepted frame is authentic: its body is
    nonce, ciphertext and tag, the tag is the HMAC of version, message type,
    nonce and ciphertext, and the payload is the decryption; a plaintext frame
    or one whose type byte was changed in flight is rejected unless it forges
    that HMAC. *)
Theorem recv_authenticated ek mk rxs type payload plen rxs'
    (H : estp_recv_frame_raw (Some (ek, mk)) rxs = (RecvOk type payload plen, rxs')) :
  exists nonce cipher hdr,
    length nonce = Crypto.EDB_NONCE_LEN /\ length hdr = ESTP_HEADER_SIZE /\
    header_ok hdr = true /\ byte_at hdr 5 = type /\
    stream rxs = hdr ++ (nonce ++ cipher ++ Crypto.edb_hmac_sha256 mk
        ([ESTP_VERSION; type] ++ nonce ++ cipher)) ++ stream rxs' /\
    payload = Some (Crypto.edb_chacha20_xor cipher ek nonce 1) /\
    plen = Z.of_nat (length cipher).
Proof.
  destruct (recv_ok_inv _ _ _ _ _ _ H) as (hdr & body & Hs & Hl & Hh & _ & _ & Ho).
  unfold open_body in Ho. destruct (Z.ltb_spec (Z.of_nat (length body))
    (Z.of_nat (Crypto.EDB_NONCE_LEN + Crypto.EDB_TAG_LEN))); [done|].
  destruct (Crypto.edb_aead_open _ _ _ _ _) as [plain|] eqn:E; [|done].
  injection Ho as <- <- <-.
  assert (Haad : take 2 (drop 4 hdr) = [ESTP_VERSION; byte_at hdr 5]).
  { unfold header_ok in Hh. rewrite !andb_true_iff, !Z.eqb_eq in Hh.
    destruct Hh as [[_ H4] _]. unfold ESTP_HEADER_SIZE in Hl.
    do 10 (destruct hdr as [|? hdr]; [done|]). cbn in H4 |- *. by rewrite H4. }
  rewrite Haad in E.
  pose proof (Crypto.open_parts_inv _ _ _ _ _ _ E) as (nonce & cipher & Hn & Hc & -> & ->).
  exists nonce, cipher, hdr. rewrite !length_app in *.
  rewrite Crypto.length_edb_hmac_sha256, Hn in *.
  split_and!; try done. unfold Crypto.EDB_TAG_LEN. f_equal. lia.
Qed.

(** An accepted encrypted frame of one byte. *)
Definition sealed_sample : bytes :=
  (estp_send_frame_raw (Some (replicate 32 1, replicate 32 2)) (replicate 12 3) [TxAccept 100; TxAccept 100]
     ESTP_HELLO [65]).1.2.

Lemma recv_authenticated_witness :
  exists nonce cipher hdr,
    length nonce = Crypto.EDB_NONCE_LEN /\ length hdr = ESTP_HEADER_SIZE /\
    header_ok hdr = true /\ byte_at hdr 5 = ESTP_HELLO /\
    stream [RxSeg sealed_sample] = hdr ++ (nonce ++ cipher ++ Crypto.edb_hmac_sha256 (replicate 32 2)
        ([ESTP_VERSION; ESTP_HELLO] ++ nonce ++ cipher)) ++ stream [] /\
    Some [65] = Some (Crypto.edb_chacha20_xor cipher (replicate 32 1) nonce 1).
Proof.
  destruct (recv_authenticated (replicate 32 1) (replicate 32 2) [RxSeg sealed_sample]
              ESTP_HELLO (Some [65]) 1 []) as (nonce & cipher & hdr & H1 & H2 & H3 & H4 & H5 & H6 & _).
  { vm_cast_no_check (@eq_refl (recv_result * list rx_event) (RecvOk ESTP_HELLO (Some [65]) 1, [])). }
  exists nonce, cipher, hdr. split; [exact H1|]. split; [exact H2|]. split; [exact H3|].
  split; [exact H4|]. split; [exact H5|exact H6].
Defined.

Lemma frame_body_some km nonce type data :
  is_Some (frame_body (Some km) nonce type data).
Proof.
  destruct km as [ek mk]. unfold frame_body, Crypto.edb_aead_seal.
  rewrite Nat.ltb_irrefl. by eexists.
Qed.

(** The header says an empty payload is NULL; under a mesh key it is not. *)
Lemma empty_payload_not_null ek mk nonce type rest :
  length nonce = Crypto.EDB_NONCE_LEN -> estp_type_valid type = true ->
  delivered (Some (ek, mk)) [] = Some [] /\ delivered None [] = None /\
  exists body, frame_body (Some (ek, mk)) nonce type [] = Some body /\
    open_body (Some (ek, mk)) (frame_header type rest) body = RecvOk type (Some []) 0.
Proof.
  intros Hn Ht. split; [done|]. split; [done|].
  destruct (frame_body_some (ek, mk) nonce type []) as [body E].
  exists body. split; [done|]. exact (open_body_sent _ _ _ _ _ rest Ht Hn E).
Qed.

End Wire.
