(* ===== verification/Json.v ===== *)
(** JSON documents as cJSON represents them (vendor/cjson is a library the
    program calls): objects are ordered member lists in which a name may
    repeat, numbers are IEEE doubles ([spec_float], 53 bits of precision).
    Parsing and printing are not modelled here: they are the operations of
    the [JsonCodec] interface. *)

From S2P Require Import Prelude.
From Stdlib Require Import SpecFloat.

Module Json.

#[local] Set Warnings "-register-all".

Inductive json :=
| JNull
| JBool (b : bool)
| JNumber (d : spec_float)
| JString (s : string)
| JArray (l : list json)
| JObject (ms : list (string * json)).

Definition is_object (j : json) : bool := match j with JObject _ => true | _ => false end.
Definition is_array (j : json) : bool := match j with JArray _ => true | _ => false end.
Definition is_string (j : json) : bool := match j with JString _ => true | _ => false end.
Definition is_number (j : json) : bool := match j with JNumber _ => true | _ => false end.

(** [cJSON_GetObjectItemCaseSensitive]: the first member of that name, NULL
    when there is none or [j] is not an object. *)
Definition get_item (j : json) (name : string) : option json :=
  match j with
  | JObject ms => (fun p => p.2.2) <$> list_find (fun m => m.1 = name) ms
  | _ => None
  end.

Definition get_string (j : json) (name : string) : option string :=
  match get_item j name with Some (JString s) => Some s | _ => None end.

(** [(double)z] for an integer and [(long long)d] for a double in range:
    rounding to nearest and truncation towards zero. *)
Definition double_of_Z (z : Z) : spec_float := binary_normalize 53 1024 z 0 false.

Definition Z_of_double (d : spec_float) : Z :=
  match d with
  | S754_finite s m e =>
      let a := if 0 <=? e then Z.pos m * 2 ^ e else Z.pos m / 2 ^ (- e) in
      if s then - a else a
  | _ => 0
  end.

(** Documents without infinities and NaNs, which JSON cannot express. *)
Fixpoint finite_json (j : json) : bool :=
  match j with
  | JNumber (S754_infinity _) | JNumber S754_nan => false
  | JArray l => forallb finite_json l
  | JObject ms => forallb (fun m => finite_json m.2) ms
  | _ => true
  end.

(** cJSON_ParseWithLength and cJSON_PrintUnformatted. *)
Class JsonCodec := {
  json_parse : string -> option json;
  json_print : json -> string;
}.

(** What the program relies on: a printed document parses back, and no
    document prints as the empty string. *)
Class JsonCodecLaws (C : JsonCodec) := {
  json_parse_print j : finite_json j = true -> json_parse (json_print j) = Some j;
  json_print_nonempty j : json_print j <> ""%string;
}.

End Json.
