(* ===== verification/Shard.v ===== *)
(** src/engine/shard.c: one shard, a SQLite table [Data] behind a mutex. The
    table is the state; each SQL statement the file issues is translated to
    its effect on it. SQLite itself is a library: whether a statement can be
    prepared and stepped to completion is an input ([sql_outcome]), the order
    in which a full scan yields rows and the JSON1 functions are parameters. *)

From S2P Require Import Prelude Json.

Module Shard.

Import Json.

Definition EDB_CLEANUP_GRACE_SECONDS : Z := 7200.
Definition EDB_STMT_CACHE_SIZE : nat := 8.
Definition EDB_VACUUM_THRESHOLD : Z := 10000.

(** ** State *)

(** A row of [Data]; [None] is SQL NULL. The id is the table key. *)
Record row := Row {
  r_value : option string;
  r_ttl : option Z;
  r_timestamp : option Z;
  r_origin : option string;
}.

Abbreviation table := (gmap string row).

(** [edb_cached_stmt]: the (truncated) SQL text it is looked up by, and the
    prepared statement, identified with the SQL it was prepared from;
    [c_active] while it stands on a row and has not been reset. *)
Record cached_stmt := Cached { c_sql : string; c_stmt : string; c_active : bool }.

(** [edb_shard], less the mutex and the file path. [in_txn]: the connection
    has an open transaction (after a COMMIT that failed). *)
Record edb_shard := Shard {
  key : string;
  partition : string;
  keyspace : string;
  data : table;
  cache : list cached_stmt;
  expired_since_vacuum : Z;
  in_txn : bool;
}.

Definition with_data (d : table) (sh : edb_shard) : edb_shard :=
  Shard (key sh) (partition sh) (keyspace sh) d (cache sh) (expired_since_vacuum sh) (in_txn sh).
Definition with_cache (c : list cached_stmt) (sh : edb_shard) : edb_shard :=
  Shard (key sh) (partition sh) (keyspace sh) (data sh) c (expired_since_vacuum sh) (in_txn sh).
Definition with_expired (n : Z) (sh : edb_shard) : edb_shard :=
  Shard (key sh) (partition sh) (keyspace sh) (data sh) (cache sh) n (in_txn sh).
Definition with_txn (b : bool) (sh : edb_shard) : edb_shard :=
  Shard (key sh) (partition sh) (keyspace sh) (data sh) (cache sh) (expired_since_vacuum sh) b.

(** How SQLite answers: the statement completes, [sqlite3_prepare_v2] fails,
    or [sqlite3_step] fails (and leaves the table unchanged). A cached
    statement is not prepared again. *)
Inductive sql_outcome := SqlOk | SqlPrepareFail | SqlStepFail.

#[export] Instance sql_outcome_eq_dec : EqDecision sql_outcome.
Proof. solve_decision. Defined.

(** ** Prepared statement cache *)

(** [snprintf(slot->sql, 192, "%s", sql)]. *)
Definition truncate_sql (sql : string) : string := String.substring 0 191 sql.

Definition find_cached (c : list cached_stmt) (sql : string) : option (nat * cached_stmt) :=
  list_find (fun e => c_sql e = sql) c.

Definition set_active (b : bool) (e : cached_stmt) : cached_stmt :=
  Cached (c_sql e) (c_stmt e) b.

(** The statement for [sql] and the cache after the call: a hit is reset; a
    miss on a full cache finalises the oldest entry. *)
Definition stmt_for (c : list cached_stmt) (sql : string) (o : sql_outcome)
    : option string * list cached_stmt :=
  match find_cached c sql with
  | Some (i, e) => (Some (c_stmt e), alter (set_active false) i c)
  | None =>
      let c := if decide (length c = EDB_STMT_CACHE_SIZE) then drop 1 c else c in
      if decide (o = SqlPrepareFail) then (None, c)
      else (Some sql, c ++ [Cached (truncate_sql sql) sql false])
  end.

(** Whether the statement for [sql] was obtained, and the shard after it. *)
Definition prepare (sh : edb_shard) (sql : string) (o : sql_outcome) : bool * edb_shard :=
  let '(stmt, c) := stmt_for (cache sh) sql o in
  (bool_decide (is_Some stmt), with_cache c sh).

(** [sqlite3_step] returned SQLITE_ROW for [sql] and nobody resets it. *)
Definition step_row (sql : string) (sh : edb_shard) : edb_shard :=
  with_cache (map (fun e => if String.eqb (c_stmt e) sql then set_active true e else e)
                  (cache sh)) sh.

(** The SQL texts that go through the cache. *)
Definition SQL_PUT : string :=
  "INSERT OR REPLACE INTO Data (id, value, ttl, timestamp, origin) VALUES (?, ?, ?, ?, ?)".
Definition SQL_VERSION : string :=
  "SELECT timestamp, COALESCE(origin, '') FROM Data WHERE id = ?".
Definition SQL_TOMBSTONE : string :=
  "INSERT INTO Data (id,value,ttl,timestamp,origin) VALUES (?,NULL,?,?,?)" +:+
  " ON CONFLICT(id) DO UPDATE SET value=NULL,ttl=excluded.ttl," +:+
  " timestamp=excluded.timestamp, origin=excluded.origin".
Definition SQL_GET_TS : string :=
  "SELECT value, timestamp FROM Data WHERE id = ? AND (ttl IS NULL OR ttl >= ?)".
Definition SQL_GET : string :=
  "SELECT value FROM Data WHERE id = ? AND (ttl IS NULL OR ttl >= ?)".
Definition SQL_DELETE : string := "UPDATE Data SET ttl = ?, timestamp = ? WHERE id = ?".
Definition SQL_CLEANUP : string := "DELETE FROM Data WHERE ttl IS NOT NULL AND ttl < ?".

(** ** Writes *)

(** [origin ? origin : ""]. *)
Definition origin_text (origin : option string) : string := default "" origin.

(** [do_put_locked]. A negative [ttl_absolute] is stored as NULL. *)
Definition put_row (json_value : string) (ttl_absolute timestamp : Z) (origin : option string)
    : row :=
  Row (Some json_value) (if 0 <=? ttl_absolute then Some ttl_absolute else None)
      (Some timestamp) (Some (origin_text origin)).

Definition do_put_locked (sh : edb_shard) (o : sql_outcome) (id json_value : string)
    (ttl_absolute timestamp : Z) (origin : option string) : bool * edb_shard :=
  let '(ok, sh) := prepare sh SQL_PUT o in
  if negb ok then (false, sh)
  else if decide (o = SqlStepFail) then (false, sh)
  else (true, with_data (<[id := put_row json_value ttl_absolute timestamp origin]> (data sh)) sh).

(** [stored_version_locked]: timestamp and origin of the stored row, the
    origin cut to the 63 characters of [origin_out]. [None] (the false
    return) is no row, a NULL timestamp, or a failed statement. *)
Definition row_version (r : row) : option (Z * string) :=
  match r_timestamp r with
  | None => None
  | Some ts => Some (ts, String.substring 0 63 (default "" (r_origin r)))
  end.

Definition stored_version_locked (sh : edb_shard) (o : sql_outcome) (id : string)
    : option (Z * string) * edb_shard :=
  let '(ok, sh) := prepare sh SQL_VERSION o in
  if negb ok then (None, sh)
  else if decide (o = SqlStepFail) then (None, sh)
  else
    match data sh !! id with
    | None => (None, sh)
    | Some r => (row_version r, step_row SQL_VERSION sh)
    end.

(** The last-write-wins test of both replica operations: the stored version
    is strictly newer than (timestamp, origin). *)
Definition stored_newer (stored : option (Z * string)) (timestamp : Z) (origin : string) : bool :=
  match stored with
  | None => false
  | Some (ts, o) =>
      (timestamp <? ts) ||
      ((ts =? timestamp) && match strcmp o origin with Gt => true | _ => false end)
  end.

(** [edb_shard_put]; [now] is the clock. *)
Definition edb_shard_put (sh : edb_shard) (o : sql_outcome) (now : Z)
    (id json_value : string) (ttl_seconds : Z) : bool * edb_shard :=
  let absolute_ttl := if 0 <=? ttl_seconds then now + ttl_seconds else -1 in
  do_put_locked sh o id json_value absolute_ttl now (Some "").

Definition edb_shard_replica_put (sh : edb_shard) (o1 o2 : sql_outcome)
    (id json_value : string) (ttl_absolute timestamp : Z) (origin : option string)
    : bool * edb_shard :=
  let '(stored, sh) := stored_version_locked sh o1 id in
  if stored_newer stored timestamp (origin_text origin) then (true, sh)
  else do_put_locked sh o2 id json_value ttl_absolute timestamp origin.

(** The row a tombstone leaves. *)
Definition tombstone_row (timestamp : Z) (origin : option string) : row :=
  Row None (Some (timestamp - 5)) (Some timestamp) (Some (origin_text origin)).

Definition edb_shard_replica_delete (sh : edb_shard) (o1 o2 : sql_outcome)
    (id : string) (timestamp : Z) (origin : option string) : bool * edb_shard :=
  let '(stored, sh) := stored_version_locked sh o1 id in
  if stored_newer stored timestamp (origin_text origin) then (true, sh)
  else
    let '(ok, sh) := prepare sh SQL_TOMBSTONE o2 in
    if negb ok then (false, sh)
    else if decide (o2 = SqlStepFail) then (false, sh)
    else (true, with_data (<[id := tombstone_row timestamp origin]> (data sh)) sh).

(** [edb_shard_delete]: UPDATE touches the row only if it exists. *)
Definition soft_delete (now : Z) (r : row) : row :=
  Row (r_value r) (Some (now - 5)) (Some now) (r_origin r).

Definition edb_shard_delete (sh : edb_shard) (o : sql_outcome) (now : Z) (id : string)
    : bool * edb_shard :=
  let '(ok, sh) := prepare sh SQL_DELETE o in
  if negb ok then (false, sh)
  else if decide (o = SqlStepFail) then (false, sh)
  else (true, with_data (alter (soft_delete now) id (data sh)) sh).

(** ** Reads *)

(** [ttl IS NULL OR ttl >= ?]. *)
Definition live (now : Z) (r : row) : bool :=
  match r_ttl r with None => true | Some t => now <=? t end.

Section reads.
Context `{JsonCodec}.

(** [json && len > 0], then the parse. *)
Definition row_document (r : row) : option json :=
  match r_value r with
  | Some v => if String.eqb v "" then None else json_parse v
  | None => None
  end.

(** The row a point lookup selects. *)
Definition select_live (sh : edb_shard) (now : Z) (id : string) : option row :=
  data sh !! id ≫= fun r => if live now r then Some r else None.

Definition edb_shard_get (sh : edb_shard) (o : sql_outcome) (now : Z) (id : string)
    : option json * edb_shard :=
  let '(ok, sh) := prepare sh SQL_GET o in
  if negb ok then (None, sh)
  else if decide (o = SqlStepFail) then (None, sh)
  else
    match select_live sh now id with
    | None => (None, sh)
    | Some r => (row_document r, step_row SQL_GET sh)
    end.

(** [*timestamp_out] keeps [ts0] unless the row has a value and a
    timestamp. *)
Definition row_timestamp (ts0 : Z) (r : row) : Z :=
  match r_value r, r_timestamp r with
  | Some v, Some ts => if String.eqb v "" then ts0 else ts
  | _, _ => ts0
  end.

Definition edb_shard_get_ts (sh : edb_shard) (o : sql_outcome) (now : Z) (id : string)
    (ts0 : Z) : option json * Z * edb_shard :=
  let '(ok, sh) := prepare sh SQL_GET_TS o in
  if negb ok then (None, ts0, sh)
  else if decide (o = SqlStepFail) then (None, ts0, sh)
  else
    match select_live sh now id with
    | None => (None, ts0, sh)
    | Some r => (row_document r, row_timestamp ts0 r, step_row SQL_GET_TS sh)
    end.
End reads.

(** ** Maintenance *)

(** What COMMIT does: succeed, fail and roll back, or fail with the
    transaction still open (SQLITE_BUSY). *)
Inductive commit_outcome := CommitOk | CommitRolledBack | CommitPending.

(** The outcomes of the steps of a cleanup pass. *)
Record cleanup_outcome := {
  o_begin : bool; o_delete : sql_outcome; o_commit : commit_outcome; o_vacuum : bool
}.

Definition expired_before (t : Z) (r : row) : bool :=
  match r_ttl r with None => false | Some ttl => ttl <? t end.

Definition keep_rows (t : Z) (d : table) : table :=
  filter (fun p => expired_before t p.2 = false) d.

(** VACUUM is refused inside a transaction and while a statement of the
    connection is active. *)
Definition vacuum_possible (sh : edb_shard) : bool :=
  negb (in_txn sh) && forallb (fun e => negb (c_active e)) (cache sh).

Definition edb_shard_cleanup (sh : edb_shard) (o : cleanup_outcome) (now : Z)
    : bool * edb_shard :=
  (* BEGIN IMMEDIATE also fails inside a transaction *)
  if negb (o_begin o) || in_txn sh then (false, sh)
  else
    let '(ok, sh) := prepare sh SQL_CLEANUP (o_delete o) in
    if negb ok || bool_decide (o_delete o = SqlStepFail) then (false, sh)
    else
      let kept := keep_rows (now - EDB_CLEANUP_GRACE_SECONDS) (data sh) in
      let changes := Z.of_nat (size (data sh)) - Z.of_nat (size kept) in
      let n := expired_since_vacuum sh + changes in
      match o_commit o with
      | CommitRolledBack => (false, with_expired n sh)
      | CommitPending => (false, with_txn true (with_expired n (with_data kept sh)))
      | CommitOk =>
          let sh := with_expired n (with_data kept sh) in
          if (EDB_VACUUM_THRESHOLD <=? n) && o_vacuum o && vacuum_possible sh
          then (true, with_expired 0 sh) else (true, sh)
      end.

(** [edb_shard_vacuum] and [edb_shard_reindex]: [o] is what SQLite answers;
    both refuse a shard whose partition is not yet known. *)
Definition edb_shard_vacuum (o : bool) (sh : edb_shard) : bool * edb_shard :=
  if String.eqb (partition sh) "" then (false, sh)
  else
    let ok := o && vacuum_possible sh in
    (ok, if ok then with_expired 0 sh else sh).

Definition edb_shard_reindex (o : bool) (sh : edb_shard) : bool * edb_shard :=
  if String.eqb (partition sh) "" then (false, sh) else (o, sh).

(** [edb_shard_open] on a file holding [d]; names are cut to their buffers.
    [None] when the file cannot be opened or set up. *)
Definition edb_shard_open (ok : bool) (d : table) (key partition keyspace : string)
    : option edb_shard :=
  if ok then
    Some (Shard (String.substring 0 32 key) (String.substring 0 255 partition)
                (String.substring 0 127 keyspace) d [] 0 false)
  else None.

(** ** Structured filters *)

(** [filter_count] and [filter_at]; NULL filters are [None]. *)
Definition filter_list (filters : option json) : list json :=
  match filters with
  | None => []
  | Some (JArray l) => l
  | Some j => [j]
  end.

Definition filter_operator_valid (operator_name : string) : bool :=
  bool_decide (operator_name ∈ ["eq"; "ne"; "gt"; "gte"; "lt"; "lte"]).

Definition DOT : Ascii.ascii := "."%char.
Definition QUOTE : Ascii.ascii := Ascii.ascii_of_nat 34.
Definition BACKSLASH : Ascii.ascii := Ascii.ascii_of_nat 92.

(** The character loop of [filter_key_valid]; [segment]: the current segment
    is not empty. *)
Fixpoint key_segments_valid (segment : bool) (s : string) : bool :=
  match s with
  | EmptyString => segment
  | String c s =>
      if Ascii.eqb c DOT then segment && key_segments_valid false s
      else negb (Ascii.N_of_ascii c <? 32)%N && key_segments_valid true s
  end.

Fixpoint last_char (s : string) : option Ascii.ascii :=
  match s with
  | EmptyString => None
  | String c EmptyString => Some c
  | String _ s => last_char s
  end.

Definition filter_key_valid (key : string) : bool :=
  match key with
  | EmptyString => false
  | String c _ =>
      (String.length key <=? 512)%nat && negb (Ascii.eqb c DOT) &&
      negb (bool_decide (last_char key = Some DOT)) && key_segments_valid false key
  end.

Definition filter_valid (filter : json) : bool :=
  is_object filter &&
  match get_item filter "key", get_item filter "operator", get_item filter "value" with
  | Some (JString key), Some (JString operator_name), Some value =>
      filter_key_valid key && filter_operator_valid operator_name &&
      (String.eqb operator_name "eq" || String.eqb operator_name "ne" || is_number value)
  | _, _, _ => false
  end.

Definition edb_filters_valid (filters : option json) : bool :=
  match filters with
  | None => true
  | Some j => (is_array j || is_object j) && forallb filter_valid (filter_list filters)
  end.

(** A filter taken apart. *)
Record filter_spec := { f_key : string; f_operator : string; f_value : json }.

Definition filter_parts (filter : json) : filter_spec :=
  {| f_key := default "" (get_string filter "key");
     f_operator := default "" (get_string filter "operator");
     f_value := default JNull (get_item filter "value") |}.

(** ** JSON paths *)

Definition escape_char (c : Ascii.ascii) : string :=
  if Ascii.eqb c QUOTE || Ascii.eqb c BACKSLASH
  then String BACKSLASH (String c EmptyString) else String c EmptyString.

(** The body of the segment loop: dots close and reopen the quotes. *)
Fixpoint path_chars (s : string) : string :=
  match s with
  | EmptyString => String QUOTE EmptyString
  | String c s =>
      if Ascii.eqb c DOT
      then String QUOTE (String DOT (String QUOTE (path_chars s)))
      else escape_char c +:+ path_chars s
  end.

(** What [json_path_for_key] writes, without the terminating NUL, and the
    size of the buffer it allocates for it. *)
Definition json_path_for_key (key : string) : string :=
  String "$"%char (String DOT (String QUOTE (path_chars key))).

Definition json_path_capacity (key : string) : nat := (String.length key * 2 + 4)%nat.

(** ** Query text *)

Definition sql_operator (operator_name : string) : string :=
  if String.eqb operator_name "eq" then "="
  else if String.eqb operator_name "ne" then "<>"
  else if String.eqb operator_name "gt" then ">"
  else if String.eqb operator_name "gte" then ">="
  else if String.eqb operator_name "lt" then "<"
  else "<=".

Definition filter_fragment (operator_name : string) : string :=
  if String.eqb operator_name "eq" then
    " AND json_type(value, ?) IS json_type(?, '$')" +:+
    " AND json_extract(value, ?) IS json_extract(?, '$')"
  else if String.eqb operator_name "ne" then
    " AND json_type(value, ?) IS NOT NULL" +:+
    " AND (json_type(value, ?) IS NOT json_type(?, '$')" +:+
    " OR json_extract(value, ?) IS NOT json_extract(?, '$'))"
  else
    " AND json_type(value, ?) IN ('integer','real')" +:+
    " AND json_extract(value, ?) " +:+ sql_operator operator_name +:+ " json_extract(?, '$')".

(** Appends the fragments; [None] when one does not fit in the buffer. *)
Fixpoint append_fragments (capacity : nat) (sql : string) (fs : list filter_spec)
    : option string :=
  match fs with
  | [] => Some sql
  | f :: fs =>
      let fragment := filter_fragment (f_operator f) in
      if (capacity - String.length sql <=? String.length fragment)%nat then None
      else append_fragments capacity (sql +:+ fragment) fs
  end.

Definition ORDER_BY : string := " ORDER BY timestamp ASC".

(** The SQL of [prepare_live_query]; the ORDER BY is cut to the buffer as
    [snprintf] does. The [SIZE_MAX] test on the filter count cannot fail for a
    list that fits in memory. *)
Definition live_query_sql (select : string) (fs : list filter_spec) (order_by_timestamp : bool)
    : option string :=
  let capacity := (String.length select + length fs * 256 + 96)%nat in
  let start := String.substring 0 (capacity - 1) (select +:+ " (ttl IS NULL OR ttl >= ?)") in
  match append_fragments capacity start fs with
  | None => None
  | Some sql =>
      if order_by_timestamp
      then Some (sql +:+ String.substring 0 (capacity - String.length sql - 1) ORDER_BY)
      else Some sql
  end.

(** The bound parameters after the clock: paths and encoded values. *)
Definition filter_bindings `{JsonCodec} (f : filter_spec) : list string :=
  let path := json_path_for_key (f_key f) in
  let value := json_print (f_value f) in
  if String.eqb (f_operator f) "eq" then [path; value; path; value]
  else if String.eqb (f_operator f) "ne" then [path; path; value; path; value]
  else [path; path; value].

Fixpoint count_placeholders (s : string) : nat :=
  match s with
  | EmptyString => O
  | String c s => ((if Ascii.eqb c "?"%char then 1 else 0) + count_placeholders s)%nat
  end.

(** ** Query evaluation *)

(** SQLite's JSON1 functions on the stored text and its comparison
    operators; [None] is NULL. *)
Class JsonSql := {
  sqlval : Type;
  json_type : option string -> string -> option string;
  json_extract : option string -> string -> sqlval;
  sql_is : sqlval -> sqlval -> bool;
  sql_compare : string -> sqlval -> sqlval -> bool;
}.

Section queries.
Context `{C : JsonCodec} `{S : JsonSql}.
(* the order in which a scan of the table yields its rows *)
Context (scan : table -> list (string * row)).

(** The condition one filter adds to the WHERE clause. *)
Definition filter_matches (f : filter_spec) (r : row) : bool :=
  let path := json_path_for_key (f_key f) in
  let value := Some (json_print (f_value f)) in
  let ty := json_type (r_value r) path in
  let same_type := bool_decide (ty = json_type value "$") in
  let same_value := sql_is (json_extract (r_value r) path) (json_extract value "$") in
  if String.eqb (f_operator f) "eq" then same_type && same_value
  else if String.eqb (f_operator f) "ne" then
    bool_decide (is_Some ty) && (negb same_type || negb same_value)
  else
    bool_decide (ty = Some "integer" \/ ty = Some "real") &&
    sql_compare (sql_operator (f_operator f)) (json_extract (r_value r) path)
      (json_extract value "$").

Definition row_selected (now : Z) (fs : list filter_spec) (r : row) : bool :=
  live now r && forallb (fun f => filter_matches f r) fs.

(** [prepare_live_query] and the scan it drives; [ok] is the outcome of
    [sqlite3_prepare_v2]. [None] for a NULL statement. *)
Definition live_query (sh : edb_shard) (ok : bool) (now : Z) (select : string)
    (filters : option json) (order_by_timestamp : bool) : option (list (string * row)) :=
  if negb (edb_filters_valid filters) then None
  else
    let fs := map filter_parts (filter_list filters) in
    match live_query_sql select fs order_by_timestamp with
    | None => None
    | Some _ =>
        if negb ok then None
        else Some (List.filter (fun p => row_selected now fs p.2) (scan (data sh)))
    end.

(** ORDER BY timestamp ASC: NULLs first. *)
Definition timestamp_le (a b : string * row) : Prop :=
  match r_timestamp a.2, r_timestamp b.2 with
  | None, _ => True
  | Some _, None => False
  | Some x, Some y => x <= y
  end.

#[export] Instance timestamp_le_dec : RelDecision timestamp_le.
Proof.
  intros a b. unfold timestamp_le.
  destruct (r_timestamp a.2), (r_timestamp b.2); apply _.
Defined.

Definition edb_shard_ids (sh : edb_shard) (ok : bool) (now : Z) (filters : option json)
    : option (list string) :=
  rows ← live_query sh ok now "SELECT id FROM Data WHERE" filters true;
  Some (map fst (merge_sort timestamp_le rows)).

(** [collect_values]: rows without a parseable document are skipped. *)
Definition value_item (p : string * row) : option json := row_document p.2.

Definition meta_item (p : string * row) : option json :=
  doc ← row_document p.2;
  Some (JObject [("id", JString p.1);
                 ("timestamp", JNumber (double_of_Z (default 0 (r_timestamp p.2))));
                 ("value", doc)]).

Definition collect_values (sh : edb_shard) (ok : bool) (now : Z) (filters : option json)
    (meta : bool) : option json :=
  rows ← live_query sh ok now
    (if meta then "SELECT id, value, timestamp FROM Data WHERE"
     else "SELECT value FROM Data WHERE") filters false;
  Some (JArray (omap (if meta then meta_item else value_item) rows)).

Definition edb_shard_all (sh : edb_shard) (ok : bool) (now : Z) (filters : option json) :=
  collect_values sh ok now filters false.
Definition edb_shard_query (sh : edb_shard) (ok : bool) (now : Z) (filters : option json) :=
  collect_values sh ok now filters false.
Definition edb_shard_all_ts (sh : edb_shard) (ok : bool) (now : Z) (filters : option json) :=
  collect_values sh ok now filters true.
Definition edb_shard_query_ts (sh : edb_shard) (ok : bool) (now : Z) (filters : option json) :=
  collect_values sh ok now filters true.
End queries.

End Shard.
