(* ===== verification/ShardFacts.v ===== *)
(** Theorems about one shard (Shard.v): the prepared statement cache, point
    reads and writes, last-write-wins convergence, cleanup, filters. *)

From S2P Require Import Prelude Json Shard.

Module ShardFacts.

Import Json Shard.

(** ** The statement cache *)

(** Every cached statement was prepared from the text it is found by, and
    the array never overflows. *)
Definition coherent (c : list cached_stmt) : Prop :=
  (length c <= EDB_STMT_CACHE_SIZE)%nat /\
  Forall (fun e => c_sql e = truncate_sql (c_stmt e)) c /\
  Forall (fun e => (String.length (c_stmt e) < 192)%nat) c.

Lemma substring_full s n : (String.length s <= n)%nat -> String.substring 0 n s = s.
Proof.
  revert n. induction s as [|c s IH]; intros [|n] H; simpl in *; try lia; try done.
  rewrite IH by lia. done.
Qed.

Lemma truncate_short sql : (String.length sql < 192)%nat -> truncate_sql sql = sql.
Proof. intros H. apply substring_full. lia. Qed.

Lemma coherent_alter_active c b i : coherent c -> coherent (alter (set_active b) i c).
Proof.
  intros (H1 & H2 & H3). split_and!; [by rewrite length_alter|apply Forall_alter; auto..].
Qed.

Lemma stmt_for_coherent c sql o :
  coherent c -> (String.length sql < 192)%nat ->
  let '(stmt, c') := stmt_for c sql o in
  coherent c' /\ (stmt = Some sql \/ stmt = None /\ o = SqlPrepareFail) /\
  (stmt = Some sql -> exists e, e ∈ c' /\ c_stmt e = sql).
Proof.
  intros (H1 & H2 & H3) Hs. unfold stmt_for, find_cached.
  destruct (list_find (fun e => c_sql e = sql) c) as [[i e]|] eqn:E.
  - apply list_find_Some in E as (Hi & He & _).
    pose proof (proj1 (Forall_lookup _ _) H2 _ _ Hi) as He2.
    pose proof (proj1 (Forall_lookup _ _) H3 _ _ Hi) as He3. simpl in *.
    assert (Hst : c_stmt e = sql) by (rewrite <-He, He2; symmetry; by apply truncate_short).
    split_and!; [by apply coherent_alter_active|left; by rewrite Hst|].
    intros _. exists (set_active false e). split; [|done].
    apply list_elem_of_lookup. exists i. by rewrite list_lookup_alter_eq, Hi.
  - set (c1 := if decide (length c = EDB_STMT_CACHE_SIZE) then drop 1 c else c).
    assert (Hc1 : (length c1 < EDB_STMT_CACHE_SIZE)%nat /\
      Forall (fun e => c_sql e = truncate_sql (c_stmt e)) c1 /\
      Forall (fun e => (String.length (c_stmt e) < 192)%nat) c1).
    { unfold c1. case_decide; [|split_and!; auto; lia].
      split_and!; [rewrite length_drop; unfold EDB_STMT_CACHE_SIZE in *; lia|by apply Forall_drop..]. }
    destruct Hc1 as (Hl & Hf & Hn). case_decide as Ho.
    + split_and!; [split_and!; auto; lia|by right|done].
    + split_and!.
      * split_and!; [rewrite length_app; simpl; lia|(apply Forall_app_2; [done|constructor; [done|constructor]])..].
      * by left.
      * intros _. exists (Cached (truncate_sql sql) sql false). split; [|done].
        apply elem_of_app. right. by apply list_elem_of_singleton.
Qed.

(** The texts the file uses are short enough not to be truncated. *)
Definition cached_sql : list string :=
  [SQL_PUT; SQL_VERSION; SQL_TOMBSTONE; SQL_GET_TS; SQL_GET; SQL_DELETE; SQL_CLEANUP].

Lemma cached_sql_short : Forall (fun s => (String.length s < 192)%nat) cached_sql.
Proof. repeat constructor; vm_compute; lia. Qed.

Lemma cached_sql_elem sql : sql ∈ cached_sql -> (String.length sql < 192)%nat.
Proof. intros H. pose proof cached_sql_short as Hf. rewrite Forall_forall in Hf. by apply Hf. Qed.

(** What [prepare] leaves unchanged. *)
Lemma prepare_data sh sql o : data (prepare sh sql o).2 = data sh.
Proof. unfold prepare. by destruct (stmt_for _ _ _). Qed.

Lemma prepare_partition sh sql o : partition (prepare sh sql o).2 = partition sh.
Proof. unfold prepare. by destruct (stmt_for _ _ _). Qed.

Lemma prepare_in_txn sh sql o : in_txn (prepare sh sql o).2 = in_txn sh.
Proof. unfold prepare. by destruct (stmt_for _ _ _). Qed.

Lemma prepare_ok sh sql o : o <> SqlPrepareFail -> (prepare sh sql o).1 = true.
Proof.
  intros Ho. unfold prepare, stmt_for. destruct (find_cached _ _) as [[i e]|]; [done|].
  by rewrite decide_False.
Qed.

Lemma step_row_data sql sh : data (step_row sql sh) = data sh.
Proof. done. Qed.

Lemma prepare_step_active sh sql o :
  coherent (cache sh) -> sql ∈ cached_sql -> o <> SqlPrepareFail ->
  vacuum_possible (step_row sql (prepare sh sql o).2) = false.
Proof.
  intros Hc Hsql Ho. pose proof (cached_sql_elem _ Hsql) as Hs.
  pose proof (stmt_for_coherent _ _ o Hc Hs) as Hst. unfold prepare.
  destruct (stmt_for (cache sh) sql o) as [stmt c']. destruct Hst as (_ & Hst & Hex).
  destruct Hst as [->|[_ ?]]; [|done]. destruct (Hex eq_refl) as (e & He & Hes).
  unfold vacuum_possible. apply andb_false_iff. right. simpl.
  apply not_true_iff_false. rewrite forallb_forall. intros Hall.
  assert (Hin : In (set_active true e)
    (map (fun e => if String.eqb (c_stmt e) sql then set_active true e else e) c')).
  { apply in_map_iff. exists e. rewrite Hes, String.eqb_refl. split; [done|].
    by apply list_elem_of_In. }
  apply Hall in Hin. done.
Qed.

(** ** Point operations on the table *)

Ltac run_prepare :=
  match goal with
  | |- context [prepare ?sh ?sql ?o] =>
      let ok := fresh "ok" in let sh' := fresh "sh" in let E := fresh "E" in
      pose proof (prepare_data sh sql o) as ?;
      pose proof (prepare_ok sh sql o) as ?;
      destruct (prepare sh sql o) as [ok sh'] eqn:E; simpl in *
  end.

(** The effect of a successful operation on the table, as a function. *)
Definition lww_row (stored : option row) (timestamp : Z) (origin : option string) (r : row)
    : option row :=
  if stored_newer (stored ≫= row_version) timestamp (origin_text origin) then stored else Some r.

Lemma insert_same (d : table) id r stored :
  d !! id = stored -> stored = Some r -> <[id := r]> d = d.
Proof. intros <- H. by apply insert_id. Qed.

Lemma stored_version_ok sh id :
  (stored_version_locked sh SqlOk id).1 = data sh !! id ≫= row_version /\
  data (stored_version_locked sh SqlOk id).2 = data sh.
Proof.
  unfold stored_version_locked. run_prepare. rewrite H0 by done. simpl.
  rewrite H. destruct (data sh !! id) as [r|]; simpl; auto.
Qed.

Lemma replica_put_data sh id v ttl ts origin :
  (edb_shard_replica_put sh SqlOk SqlOk id v ttl ts origin).1 = true /\
  forall j, data (edb_shard_replica_put sh SqlOk SqlOk id v ttl ts origin).2 !! j =
    if decide (id = j) then lww_row (data sh !! j) ts origin (put_row v ttl ts origin)
    else data sh !! j.
Proof.
  unfold edb_shard_replica_put. destruct (stored_version_ok sh id) as [Hv Hd].
  destruct (stored_version_locked sh SqlOk id) as [stored sh1]. simpl in Hv, Hd. subst stored.
  unfold lww_row. destruct (stored_newer _ _ _) eqn:E.
  - split; [done|]. intros j. simpl. rewrite Hd. case_decide as Hj; [|done]. subst j. by rewrite E.
  - unfold do_put_locked. run_prepare. rewrite H0 by done. simpl. split; [done|].
    intros j. rewrite H, Hd, lookup_insert. case_decide; [|done]. subst j. by rewrite E.
Qed.

Lemma replica_delete_data sh id ts origin :
  (edb_shard_replica_delete sh SqlOk SqlOk id ts origin).1 = true /\
  forall j, data (edb_shard_replica_delete sh SqlOk SqlOk id ts origin).2 !! j =
    if decide (id = j) then lww_row (data sh !! j) ts origin (tombstone_row ts origin)
    else data sh !! j.
Proof.
  unfold edb_shard_replica_delete. destruct (stored_version_ok sh id) as [Hv Hd].
  destruct (stored_version_locked sh SqlOk id) as [stored sh1]. simpl in Hv, Hd. subst stored.
  unfold lww_row. destruct (stored_newer _ _ _) eqn:E.
  - split; [done|]. intros j. simpl. rewrite Hd. case_decide as Hj; [|done]. subst j. by rewrite E.
  - run_prepare. rewrite H0 by done. simpl. split; [done|].
    intros j. rewrite H, Hd, lookup_insert. case_decide; [|done]. subst j. by rewrite E.
Qed.

Lemma put_data sh now id v ttl :
  (edb_shard_put sh SqlOk now id v ttl).1 = true /\
  data (edb_shard_put sh SqlOk now id v ttl).2 =
    <[id := put_row v (if 0 <=? ttl then now + ttl else -1) now (Some "")]> (data sh).
Proof.
  unfold edb_shard_put, do_put_locked. run_prepare. rewrite H0 by done. simpl. by rewrite H.
Qed.

Lemma delete_data sh now id :
  (edb_shard_delete sh SqlOk now id).1 = true /\
  data (edb_shard_delete sh SqlOk now id).2 = alter (soft_delete now) id (data sh).
Proof. unfold edb_shard_delete. run_prepare. rewrite H0 by done. simpl. by rewrite H. Qed.

Lemma get_result `{JsonCodec} sh now id :
  (edb_shard_get sh SqlOk now id).1 = select_live sh now id ≫= row_document.
Proof.
  unfold edb_shard_get. run_prepare. rewrite H1 by done. simpl.
  unfold select_live. rewrite H0. by destruct (data sh !! id ≫= _).
Qed.

(** ** Versions are totally ordered *)

Abbreviation version := (Z * string)%type.

Definition version_le (a b : version) : Prop :=
  a.1 < b.1 \/ a.1 = b.1 /\ String.le a.2 b.2.

Lemma strcmp_not_gt a b : strcmp a b <> Gt <-> String.le a b.
Proof.
  unfold strcmp, String.le, String.leb. destruct (String.compare a b); simpl; intuition done.
Qed.

Lemma stored_newer_spec v ts o :
  stored_newer (Some v) ts o = false <-> version_le v (ts, o).
Proof.
  destruct v as [vt vo]. unfold stored_newer, version_le. simpl. rewrite <-strcmp_not_gt.
  destruct (Z.ltb_spec ts vt); simpl; [split; [done|intros [?|[? ?]]; lia]|].
  destruct (Z.eqb_spec vt ts) as [->|Hne]; simpl.
  - destruct (strcmp vo o); split; try done; auto; intros [?|[_ ?]]; try lia; done.
  - split; [intros _; left; lia|done].
Qed.

Lemma version_le_refl v : version_le v v.
Proof. right. split; [done|reflexivity]. Qed.

Lemma version_le_trans a b c : version_le a b -> version_le b c -> version_le a c.
Proof.
  unfold version_le. intros [?|[? ?]] [?|[? ?]]; [left; lia..|].
  right. split; [lia|]. by transitivity b.2.
Qed.

Lemma version_le_antisym a b : version_le a b -> version_le b a -> a = b.
Proof.
  destruct a as [ta oa], b as [tb ob]. unfold version_le. simpl.
  intros [?|[-> ?]] [?|[? ?]]; try lia. f_equal. by apply (anti_symm String.le).
Qed.

Lemma version_le_total a b : version_le a b \/ version_le b a.
Proof.
  unfold version_le. destruct (Z.lt_trichotomy a.1 b.1) as [?|[?|?]]; auto.
  destruct (total String.le a.2 b.2); auto.
Qed.

(** ** Last write wins *)

(** A replicated write as it reaches a shard. *)
Inductive replica_op :=
| RPut (id value : string) (ttl ts : Z) (origin : option string)
| RDelete (id : string) (ts : Z) (origin : option string).

Definition op_id (op : replica_op) : string :=
  match op with RPut id _ _ _ _ => id | RDelete id _ _ => id end.
Definition op_origin (op : replica_op) : string :=
  match op with RPut _ _ _ _ o => origin_text o | RDelete _ _ o => origin_text o end.
Definition op_version (op : replica_op) : version :=
  (match op with RPut _ _ _ ts _ => ts | RDelete _ ts _ => ts end, op_origin op).
Definition op_row (op : replica_op) : row :=
  match op with
  | RPut _ v ttl ts o => put_row v ttl ts o
  | RDelete _ ts o => tombstone_row ts o
  end.

Definition apply_op (sh : edb_shard) (op : replica_op) : edb_shard :=
  match op with
  | RPut id v ttl ts o => (edb_shard_replica_put sh SqlOk SqlOk id v ttl ts o).2
  | RDelete id ts o => (edb_shard_replica_delete sh SqlOk SqlOk id ts o).2
  end.

Definition lww_step (stored : option row) (op : replica_op) : option row :=
  lww_row stored (op_version op).1 (Some (op_origin op)) (op_row op).

Lemma apply_op_data sh op j :
  data (apply_op sh op) !! j =
  if decide (op_id op = j) then lww_step (data sh !! j) op else data sh !! j.
Proof. destruct op; simpl; [apply replica_put_data|apply replica_delete_data]. Qed.

Lemma apply_ops_data ops sh j :
  data (foldl apply_op sh ops) !! j =
  foldl lww_step (data sh !! j) (filter (fun op => op_id op = j) ops).
Proof.
  revert sh. induction ops as [|op ops IH]; intros sh; [done|]. simpl.
  rewrite IH, apply_op_data, filter_cons. by case_decide.
Qed.

(** The origins a node id buffer of 64 bytes can hold. *)
Definition op_short (op : replica_op) : Prop := (String.length (op_origin op) < 64)%nat.

Lemma op_row_version op : op_short op -> row_version (op_row op) = Some (op_version op).
Proof.
  intros H. unfold op_short in H.
  destruct op; unfold row_version, op_version; simpl in *; (rewrite substring_full; [done|lia]).
Qed.

Lemma lww_step_cases stored op :
  (exists v, stored ≫= row_version = Some v /\ ~ version_le v (op_version op) /\
             lww_step stored op = stored) \/
  ((forall v, stored ≫= row_version = Some v -> version_le v (op_version op)) /\
   lww_step stored op = Some (op_row op)).
Proof.
  unfold lww_step, lww_row. change (origin_text (Some (op_origin op))) with (op_origin op).
  destruct (stored ≫= row_version) as [v|].
  - destruct (stored_newer (Some v) (op_version op).1 (op_origin op)) eqn:E.
    + left. exists v. split_and!; [done| |done].
      intros Hle. apply not_false_iff_true in E. apply E.
      apply stored_newer_spec. exact Hle.
    + right. split; [|done]. intros v' [= <-].
      apply stored_newer_spec in E. exact E.
  - right. simpl. done.
Qed.

Lemma fold_lww ops stored :
  Forall op_short ops ->
  (foldl lww_step stored ops = stored /\
   forall op, op ∈ ops -> exists v, stored ≫= row_version = Some v /\
                                  ~ version_le v (op_version op)) \/
  (exists op, op ∈ ops /\ foldl lww_step stored ops = Some (op_row op) /\
     (forall op', op' ∈ ops -> version_le (op_version op') (op_version op)) /\
     (forall v, stored ≫= row_version = Some v -> version_le v (op_version op))).
Proof.
  intros H. revert stored. induction H as [|op ops Hop Hops IH]; intros stored; simpl.
  { left. split; [done|]. by intros op ?%elem_of_nil. }
  destruct (lww_step_cases stored op) as [(v & Hv & Hn & ->)|[Hle ->]].
  - destruct (IH stored) as [[-> Hall]|(op1 & Hin & -> & Hmax & Hst)].
    + left. split; [done|]. intros op1 [->|?]%elem_of_cons; eauto.
    + right. exists op1. split_and!; [by right|done| |done].
      intros op' [->|?]%elem_of_cons; [|by apply Hmax].
      eapply version_le_trans; [|by apply Hst].
      by destruct (version_le_total v (op_version op)).
  - destruct (IH (Some (op_row op))) as [[-> Hall]|(op1 & Hin & -> & Hmax & Hst)].
    + right. exists op. split_and!; [by left|done| |done].
      intros op' [->|Hin]%elem_of_cons; [apply version_le_refl|].
      destruct (Hall op' Hin) as (v & Hv & Hn). simpl in Hv. rewrite op_row_version in Hv by done.
      simplify_eq. by destruct (version_le_total (op_version op') (op_version op)).
    + right. specialize (Hst (op_version op)). simpl in Hst. rewrite op_row_version in Hst by done.
      specialize (Hst eq_refl). exists op1. split_and!; [by right|done| |].
      * intros op' [->|?]%elem_of_cons; [done|by apply Hmax].
      * intros v Hv. eapply version_le_trans; [by apply Hle|done].
Qed.

Lemma Forall_filter_sub {A} (Q P : A -> Prop) `{!forall x, Decision (P x)} l :
  Forall Q l -> Forall Q (filter P l).
Proof. rewrite !Forall_forall. intros Hl x [_ Hx]%list_elem_of_filter. by apply Hl. Qed.

(** Two writes of one version of one document carry the same contents. *)
Definition consistent (ops : list replica_op) : Prop :=
  forall a b, a ∈ ops -> b ∈ ops -> op_id a = op_id b -> op_version a = op_version b ->
              op_row a = op_row b.

Lemma fold_lww_same ops1 ops2 stored :
  Forall op_short ops1 -> Forall op_short ops2 ->
  (forall a b, a ∈ ops1 -> b ∈ ops1 -> op_version a = op_version b -> op_row a = op_row b) ->
  (forall op, op ∈ ops1 <-> op ∈ ops2) ->
  foldl lww_step stored ops1 = foldl lww_step stored ops2.
Proof.
  intros H1 H2 Hc Hio.
  destruct (fold_lww ops1 stored H1) as [[-> A1]|(o1 & I1 & -> & M1 & S1)];
    destruct (fold_lww ops2 stored H2) as [[-> A2]|(o2 & I2 & -> & M2 & S2)].
  - done.
  - destruct (A1 o2) as (v & Hv & Hn); [by apply Hio|]. destruct Hn. by apply S2.
  - destruct (A2 o1) as (v & Hv & Hn); [by apply Hio|]. destruct Hn. by apply S1.
  - f_equal. apply Hc; [done|by apply Hio|].
    apply version_le_antisym; [apply M2, Hio, I1|apply M1, Hio, I2].
Qed.

(** C1: Convergence: starting from the same shard, two nodes that receive the same
    set of replicated writes, in any order and with any repetitions, end with
    the same table, provided two writes carrying the same version of a
    document agree. (timestamp, origin) is the version; origins fit the
    64-byte buffer the code compares them in. Timestamps are seconds, so the
    proviso is that one origin writes a document once in a second; without it
    replicas diverge ([same_second_writes_diverge]). *)
Theorem replica_ops_converge sh ops1 ops2
    (Hshort : Forall op_short ops1)
    (Hc : consistent ops1)
    (Hsame : forall op, op ∈ ops1 <-> op ∈ ops2) :
  data (foldl apply_op sh ops1) = data (foldl apply_op sh ops2).
Proof.
  apply map_eq. intros j. rewrite !apply_ops_data.
  assert (Hshort2 : Forall op_short ops2).
  { apply Forall_forall. intros op Hin. rewrite Forall_forall in Hshort. by apply Hshort, Hsame. }
  apply fold_lww_same; [by apply Forall_filter_sub..| |].
  - intros a b [Ha1 Ha2]%list_elem_of_filter [Hb1 Hb2]%list_elem_of_filter.
    apply Hc; congruence.
  - intros op. rewrite !list_elem_of_filter, Hsame. done.
Qed.

(** A shard with no rows, for concrete runs. *)
Definition shard0 : edb_shard := Shard "k" "p" "s" ∅ [] 0 false.

Lemma replica_ops_converge_witness :
  let a := RPut "x" "1" (-1) 10 (Some "n1") in
  let b := RPut "x" "2" (-1) 10 (Some "n2") in
  let c := RDelete "x" 9 (Some "n3") in
  data (foldl apply_op shard0 [a; b; c]) = data (foldl apply_op shard0 [c; b; b; a]).
Proof.
  cbv zeta. apply replica_ops_converge.
  - repeat constructor; vm_compute; lia.
  - intros a b Ha Hb. rewrite !elem_of_cons, !elem_of_nil in Ha, Hb.
    destruct_or!; subst; done.
  - intros op. rewrite !elem_of_cons, !elem_of_nil. tauto.
Defined.

(** Two writes of one origin in the same second: the replicas that get them in
    different orders keep different documents. *)
Lemma same_second_writes_diverge :
  let a := RPut "x" "1" (-1) 10 (Some "n1") in
  let b := RPut "x" "2" (-1) 10 (Some "n1") in
  ~ consistent [a; b] /\ data (foldl apply_op shard0 [a; b]) <> data (foldl apply_op shard0 [b; a]).
Proof.
  cbv zeta. split; [|intros H; apply (f_equal (fun d => d !! "x"%string)) in H; by vm_compute in H].
  intros H. assert (Hr := H (RPut "x" "1" (-1) 10 (Some "n1")) (RPut "x" "2" (-1) 10 (Some "n1"))
    ltac:(by left) ltac:(by right; left)). by specialize (Hr eq_refl eq_refl).
Qed.

(** ** Visibility *)

(** A trivial codec for concrete runs: every text is the string it holds. *)
#[local] Instance text_codec : JsonCodec :=
  {| json_parse := fun s => Some (JString s);
     json_print := fun j => match j with JString s => s | _ => "x" end |}.

(** A stored document is returned by reads up to and including its
    expiry second (forever without a ttl) and by none after it, and storing it
    changes no other document. *)
Theorem put_get_window `{JsonCodec} sh now id v ttl doc
    (Hv : v <> ""%string) (Hdoc : json_parse v = Some doc) :
  let '(ok, sh') := edb_shard_put sh SqlOk now id v ttl in
  ok = true /\
  (forall t, (edb_shard_get sh' SqlOk t id).1
             = if (ttl <? 0) || (now + ttl <? 0) || (t <=? now + ttl) then Some doc else None) /\
  (forall t id', id' <> id ->
     (edb_shard_get sh' SqlOk t id').1 = (edb_shard_get sh SqlOk t id').1).
Proof.
  destruct (put_data sh now id v ttl) as [Hok Hd].
  destruct (edb_shard_put sh SqlOk now id v ttl) as [ok sh']. simpl in Hok, Hd.
  split_and!; [done| |].
  - intros t. rewrite get_result. unfold select_live. rewrite Hd, lookup_insert_eq. simpl.
    unfold live, put_row, row_document. simpl.
    assert (Hne : String.eqb v "" = false) by (by apply String.eqb_neq).
    destruct (Z.leb_spec 0 ttl); destruct (Z.ltb_spec ttl 0); try lia; simpl.
    + destruct (Z.leb_spec 0 (now + ttl)); destruct (Z.ltb_spec (now + ttl) 0); try lia; simpl.
      * destruct (Z.leb_spec t (now + ttl)); simpl; [|done]. by rewrite Hne.
      * by rewrite Hne.
    + by rewrite Hne.
  - intros t id' Hid. rewrite !get_result. unfold select_live.
    by rewrite Hd, lookup_insert_ne by done.
Qed.

Lemma put_get_window_witness :
  let '(ok, sh') := edb_shard_put shard0 SqlOk 100 "a" "1" 5 in
  ok = true /\
  (forall t, (edb_shard_get sh' SqlOk t "a").1
             = if (5 <? 0) || (100 + 5 <? 0) || (t <=? 100 + 5)
               then Some (JString "1") else None) /\
  (forall t id', id' <> "a"%string ->
     (edb_shard_get sh' SqlOk t id').1 = (edb_shard_get shard0 SqlOk t id').1).
Proof. apply (put_get_window shard0 100 "a" "1" 5 (JString "1")); [discriminate|reflexivity]. Defined.

(** A deleted document is invisible from four seconds before the delete
    on, whether it existed or not, until somebody writes it again; a replicated
    delete that wins is invisible at every time, since its row has no value. *)
Theorem delete_hides `{JsonCodec} sh now id :
  let '(ok, sh') := edb_shard_delete sh SqlOk now id in
  ok = true /\ (forall t, now - 5 < t -> (edb_shard_get sh' SqlOk t id).1 = None) /\
  forall ts origin,
    stored_newer (data sh !! id ≫= row_version) ts (origin_text origin) = false ->
    let '(ok2, sh2) := edb_shard_replica_delete sh SqlOk SqlOk id ts origin in
    ok2 = true /\ forall t, (edb_shard_get sh2 SqlOk t id).1 = None.
Proof.
  destruct (delete_data sh now id) as [Hok Hd].
  destruct (edb_shard_delete sh SqlOk now id) as [ok sh']. simpl in Hok, Hd.
  split_and!; [done| |].
  - intros t Ht. rewrite get_result. unfold select_live. rewrite Hd, lookup_alter_eq.
    destruct (data sh !! id) as [r|]; [|done]. simpl. unfold live. simpl.
    by destruct (Z.leb_spec t (now - 5)); [lia|].
  - intros ts origin Hn. destruct (replica_delete_data sh id ts origin) as [Hok2 Hd2].
    destruct (edb_shard_replica_delete sh SqlOk SqlOk id ts origin) as [ok2 sh2]. simpl in *.
    split; [done|]. intros t. rewrite get_result. unfold select_live. rewrite Hd2.
    rewrite decide_True by done. unfold lww_row. rewrite Hn. simpl.
    by destruct (live _ _).
Qed.

(** ** Cleanup *)

Lemma keep_rows_lookup t d id :
  keep_rows t d !! id = d !! id ≫= fun r => if expired_before t r then None else Some r.
Proof.
  unfold keep_rows. destruct (d !! id) as [r|] eqn:E; simpl.
  - destruct (expired_before t r) eqn:Ex.
    + apply map_lookup_filter_None. right. intros r' Hr'. simplify_eq. simpl. congruence.
    + by apply map_lookup_filter_Some.
  - apply map_lookup_filter_None. by left.
Qed.

(** A cleanup pass that reports success removes exactly the rows whose
    ttl lies more than the two-hour grace window in the past, so every read at
    a time the window still covers answers as before; one that reports failure
    because BEGIN, the DELETE or a rolled back COMMIT failed removes nothing. *)
Theorem cleanup_invisible `{JsonCodec} sh o now :
  let '(ok, sh') := edb_shard_cleanup sh o now in
  (ok = true ->
   (forall id, data sh' !! id = data sh !! id ≫= fun r =>
      if expired_before (now - EDB_CLEANUP_GRACE_SECONDS) r then None else Some r) /\
   (forall id t, now - EDB_CLEANUP_GRACE_SECONDS <= t ->
      (edb_shard_get sh' SqlOk t id).1 = (edb_shard_get sh SqlOk t id).1)) /\
  (ok = false -> o_commit o <> CommitPending -> data sh' = data sh).
Proof.
  unfold edb_shard_cleanup. destruct (negb (o_begin o) || in_txn sh); [done|].
  run_prepare. rename H0 into Hdata. clear H1.
  destruct (negb ok || bool_decide (o_delete o = SqlStepFail)); [done|].
  rewrite <-Hdata. set (T := now - EDB_CLEANUP_GRACE_SECONDS).
  assert (Hrows : forall sh', data sh' = keep_rows T (data sh0) ->
    (forall id, data sh' !! id = data sh0 !! id ≫= fun r =>
        if expired_before T r then None else Some r) /\
    (forall id t, T <= t ->
       (edb_shard_get sh' SqlOk t id).1 = (edb_shard_get sh SqlOk t id).1)).
  { intros sh' Hsh. split.
    - intros id. rewrite Hsh. apply keep_rows_lookup.
    - intros id t Ht. rewrite !get_result. unfold select_live.
      rewrite Hsh, keep_rows_lookup, <-Hdata. destruct (data sh0 !! id) as [r|]; [|done]. simpl.
      destruct (expired_before T r) eqn:Ex; [|done]. unfold expired_before in Ex. unfold live.
      destruct (r_ttl r) as [x|]; [|done]. apply Z.ltb_lt in Ex. simpl.
      by destruct (Z.leb_spec t x); [lia|]. }
  destruct (o_commit o); [|done..].
  destruct (_ && _ && _); (split; [|done]); intros _; by apply Hrows.
Qed.

(** ** Defects the model shows *)

(** A replicated write whose version lookup fails (a busy or failing
    SELECT) is treated as if no row were stored: it overwrites a newer row and
    reports success. *)
Theorem failed_lookup_overwrites_newer sh o1 id v ttl ts origin
    (Ho : o1 <> SqlOk) (Hp : o1 = SqlPrepareFail -> find_cached (cache sh) SQL_VERSION = None) :
  let '(ok, sh') := edb_shard_replica_put sh o1 SqlOk id v ttl ts origin in
  ok = true /\ data sh' !! id = Some (put_row v ttl ts origin).
Proof.
  unfold edb_shard_replica_put.
  assert (Hs : (stored_version_locked sh o1 id).1 = None).
  { unfold stored_version_locked. destruct (prepare sh SQL_VERSION o1) as [ok1 sh1] eqn:E.
    destruct o1; [done| |]; simpl; [|by destruct ok1].
    unfold prepare, stmt_for in E. rewrite Hp in E by done. rewrite decide_True in E by done.
    by simplify_eq/=. }
  destruct (stored_version_locked sh o1 id) as [stored sh1]. simpl in Hs. subst stored.
  cbn [stored_newer]. unfold do_put_locked. run_prepare. rewrite H0 by done. simpl.
  split; [done|]. apply lookup_insert_eq.
Qed.

Lemma failed_lookup_overwrites_newer_witness :
  let sh := with_data {["a" := put_row "new" (-1) 200 (Some "n")]} shard0 in
  let '(ok, sh') := edb_shard_replica_put sh SqlStepFail SqlOk "a" "old" (-1) 100 None in
  ok = true /\ data sh' !! "a" = Some (put_row "old" (-1) 100 None).
Proof.
  cbv zeta. apply failed_lookup_overwrites_newer; [discriminate|discriminate].
Defined.

(** A successful read leaves its SELECT standing on the row, and SQLite
    refuses VACUUM while a statement is active: after a read that found a live
    row, [edb_shard_vacuum] fails whatever SQLite would otherwise answer. *)
Theorem get_blocks_vacuum `{JsonCodec} sh now id r o
    (Hc : coherent (cache sh)) (Hr : select_live sh now id = Some r) :
  (edb_shard_vacuum o (edb_shard_get sh SqlOk now id).2).1 = false.
Proof.
  unfold edb_shard_get.
  pose proof (prepare_step_active sh SQL_GET SqlOk Hc ltac:(repeat constructor) ltac:(done)) as Hv.
  pose proof (prepare_data sh SQL_GET SqlOk) as Hd.
  pose proof (prepare_ok sh SQL_GET SqlOk ltac:(done)) as Hok.
  destruct (prepare sh SQL_GET SqlOk) as [ok sh1]. simpl in *. rewrite Hok. simpl.
  unfold select_live in *. rewrite Hd, Hr. simpl. unfold edb_shard_vacuum.
  destruct (String.eqb _ _); [done|]. simpl. rewrite Hv. by rewrite andb_false_r.
Qed.

Lemma get_blocks_vacuum_witness :
  let sh := with_data {["a" := put_row "1" (-1) 5 None]} shard0 in
  (edb_shard_vacuum true (edb_shard_get sh SqlOk 7 "a").2).1 = false.
Proof.
  cbv zeta. apply (get_blocks_vacuum _ 7 "a" (put_row "1" (-1) 5 None)).
  - repeat split; [vm_compute; lia|constructor..].
  - vm_compute. reflexivity.
Defined.

(** A COMMIT that fails with the transaction still open is not rolled back:
    from then on every cleanup pass of the shard fails. *)
Theorem pending_commit_blocks_cleanup sh o now o' now'
    (Hb : o_begin o = true) (Hd : o_delete o = SqlOk) (Hc : o_commit o = CommitPending) :
  let sh' := (edb_shard_cleanup sh o now).2 in
  in_txn sh = false -> in_txn sh' = true /\ edb_shard_cleanup sh' o' now' = (false, sh').
Proof.
  intros sh' Ht.
  assert (Hp : in_txn sh' = true).
  { unfold sh', edb_shard_cleanup. rewrite Hb, Ht, Hd. simpl. run_prepare.
    rewrite H0 by done. simpl. by rewrite Hc. }
  split; [done|]. unfold edb_shard_cleanup at 1. rewrite Hp. by rewrite orb_true_r.
Qed.

Lemma pending_commit_blocks_cleanup_witness :
  let o := {| o_begin := true; o_delete := SqlOk; o_commit := CommitPending; o_vacuum := true |} in
  let sh' := (edb_shard_cleanup shard0 o 0).2 in
  in_txn sh' = true /\ edb_shard_cleanup sh' o 60 = (false, sh').
Proof. cbv zeta. by apply pending_commit_blocks_cleanup. Defined.

End ShardFacts.
