(* ===== verification/ShardQueryFacts.v ===== *)
(** Theorems about structured queries on a shard (Shard.v): filter keys and
    JSON paths, the generated SQL and its parameters, row selection, [ids]. *)

From S2P Require Import Prelude Json Shard.

Module ShardQueryFacts.

Import Json Shard.

(** ** Strings *)

Lemma length_string_app s t : String.length (s +:+ t) = (String.length s + String.length t)%nat.
Proof.
  induction s as [|c s IH]; [done|].
  change (String c s +:+ t) with (String c (s +:+ t)). simpl. by rewrite IH.
Qed.

Lemma count_placeholders_app s t :
  count_placeholders (s +:+ t) = (count_placeholders s + count_placeholders t)%nat.
Proof.
  induction s as [|c s IH]; [done|].
  change (String c s +:+ t) with (String c (s +:+ t)). simpl. rewrite IH. lia.
Qed.
#[export] Hint Rewrite length_string_app count_placeholders_app : edb.

(** ** JSON paths *)

(** Characters of a key by what they cost: dots, escaped, plain. *)
Fixpoint count_char (p : Ascii.ascii -> bool) (s : string) : nat :=
  match s with
  | EmptyString => O
  | String c s => ((if p c then 1 else 0) + count_char p s)%nat
  end.

Definition is_dot (c : Ascii.ascii) : bool := Ascii.eqb c DOT.
Definition is_escaped (c : Ascii.ascii) : bool := Ascii.eqb c QUOTE || Ascii.eqb c BACKSLASH.

Lemma length_path_chars s :
  String.length (path_chars s) =
  (String.length s + 2 * count_char is_dot s + count_char is_escaped s + 1)%nat.
Proof.
  induction s as [|c s IH]; [done|]. cbn [path_chars count_char String.length].
  unfold is_dot at 1, is_escaped at 1, escape_char. destruct (Ascii.eqb_spec c DOT) as [->|Hd].
  - change (Ascii.eqb DOT QUOTE || Ascii.eqb DOT BACKSLASH) with false.
    cbn [String.length]. rewrite IH. lia.
  - destruct (Ascii.eqb c QUOTE || Ascii.eqb c BACKSLASH);
      rewrite length_string_app; cbn [String.length]; rewrite IH; lia.
Qed.

(** The path of a key, with its NUL, fits in the buffer
    [json_path_for_key] allocates exactly when the key has at least as many
    non-dot characters as it has segments and escaped characters together. *)
Theorem json_path_fits key :
  (String.length (json_path_for_key key) + 1 <= json_path_capacity key)%nat <->
  (count_char is_dot key + 1 + count_char is_escaped key
   <= String.length key - count_char is_dot key)%nat.
Proof.
  unfold json_path_for_key, json_path_capacity. cbn [String.length].
  rewrite length_path_chars.
  assert (Hle : (count_char is_dot key <= String.length key)%nat).
  { induction key as [|c s IH]; [done|]. simpl. destruct (is_dot c); lia. }
  lia.
Qed.

(** A one-character filter key that is a double quote passes
    [edb_filters_valid] and its path overruns the heap buffer by one byte; a
    key of [n] quoted segments overruns it by [n] bytes. *)
Theorem json_path_overflows (n : nat) (Hn : (n < 256)%nat) :
  let fix quotes n := match n with
                      | O => String QUOTE EmptyString
                      | S n => String QUOTE (String DOT (quotes n))
                      end in
  filter_key_valid (quotes n) = true /\
  (String.length (json_path_for_key (quotes n)) + 1
   = json_path_capacity (quotes n) + S n)%nat.
Proof.
  intros quotes.
  assert (Hlen : String.length (quotes n) = (2 * n + 1)%nat /\
                 count_char is_dot (quotes n) = n /\
                 count_char is_escaped (quotes n) = S n /\
                 (forall b, key_segments_valid b (quotes n) = true) /\
                 last_char (quotes n) = Some QUOTE /\
                 exists s, quotes n = String QUOTE s).
  { clear Hn. induction n as [|n (H1 & H2 & H3 & H4 & H5 & s & H6)].
    - split_and!; try done. by exists EmptyString.
    - cbn [quotes]. fold quotes. cbn [String.length count_char key_segments_valid].
      rewrite H1, H2, H3, H4. split_and!; try done; [simpl; lia| |by eexists].
      rewrite H6 in *. exact H5. }
  destruct Hlen as (H1 & H2 & H3 & H4 & H5 & s & H6). split.
  - unfold filter_key_valid. rewrite H6, <-H6, H1, H4, H5.
    destruct (Nat.leb_spec (2 * n + 1) 512); [done|lia].
  - unfold json_path_for_key, json_path_capacity. cbn [String.length].
    rewrite length_path_chars, H1, H2, H3. lia.
Qed.

Lemma json_path_overflows_witness :
  filter_key_valid (String QUOTE EmptyString) = true /\
  (String.length (json_path_for_key (String QUOTE EmptyString)) + 1
   = json_path_capacity (String QUOTE EmptyString) + 1)%nat.
Proof. exact (json_path_overflows 0 ltac:(lia)). Defined.

(** ** Generated SQL *)

Lemma filter_fragment_length op :
  op ∈ ["eq"; "ne"; "gt"; "gte"; "lt"; "lte"]%string ->
  (String.length (filter_fragment op) < 256)%nat /\
  count_placeholders (filter_fragment op) =
    (if String.eqb op "eq" then 4 else if String.eqb op "ne" then 5 else 3)%nat.
Proof.
  rewrite !elem_of_cons, elem_of_nil. intros H. destruct_or!; subst; try done;
    (split; [apply Nat.ltb_lt|]); vm_compute; reflexivity.
Qed.

Definition fragments (fs : list filter_spec) : string :=
  foldr (fun f s => filter_fragment (f_operator f) +:+ s) EmptyString fs.

Definition operators_ok (fs : list filter_spec) : Prop :=
  Forall (fun f => f_operator f ∈ ["eq"; "ne"; "gt"; "gte"; "lt"; "lte"]%string) fs.

Lemma string_app_nil_r s : s +:+ EmptyString = s.
Proof.
  induction s as [|c s IH]; [done|].
  change (String c s +:+ "") with (String c (s +:+ "")). by rewrite IH.
Qed.

Lemma string_app_assoc s t u : (s +:+ t) +:+ u = s +:+ (t +:+ u).
Proof.
  induction s as [|c s IH]; [done|].
  change (String c s +:+ t) with (String c (s +:+ t)).
  change (String c (s +:+ t) +:+ u) with (String c ((s +:+ t) +:+ u)).
  change (String c s +:+ (t +:+ u)) with (String c (s +:+ (t +:+ u))). by rewrite IH.
Qed.

Lemma append_fragments_fit capacity sql fs :
  operators_ok fs -> (String.length sql + length fs * 256 < capacity)%nat ->
  append_fragments capacity sql fs = Some (sql +:+ fragments fs) /\
  (String.length (fragments fs) <= length fs * 256)%nat.
Proof.
  intros H. revert sql. induction H as [|f fs Hf Hfs IH]; intros sql Hc; simpl in *.
  - by rewrite string_app_nil_r.
  - destruct (filter_fragment_length _ Hf) as [Hl _].
    destruct (Nat.leb_spec (capacity - String.length sql)
      (String.length (filter_fragment (f_operator f)))); [lia|].
    destruct (IH (sql +:+ filter_fragment (f_operator f))) as [-> Hlen].
    { rewrite length_string_app. lia. }
    rewrite length_string_app, string_app_assoc. split; [done|lia].
Qed.

Lemma filter_valid_operator filter :
  filter_valid filter = true ->
  f_operator (filter_parts filter) ∈ ["eq"; "ne"; "gt"; "gte"; "lt"; "lte"]%string.
Proof.
  unfold filter_valid, filter_parts, get_string. rewrite andb_true_iff. intros [_ H].
  destruct (get_item filter "key") as [[]|]; try done.
  destruct (get_item filter "operator") as [[]|]; try done.
  destruct (get_item filter "value"); [|done]. simpl.
  rewrite !andb_true_iff in H. destruct H as [[_ H] _].
  unfold filter_operator_valid in H. by apply bool_decide_eq_true in H.
Qed.

Lemma filters_valid_operators filters :
  edb_filters_valid filters = true ->
  operators_ok (map filter_parts (filter_list filters)).
Proof.
  destruct filters as [j|]; [|constructor]. unfold edb_filters_valid. rewrite andb_true_iff.
  intros [_ H]. apply Forall_map. rewrite forallb_forall in H. apply Forall_forall.
  intros f Hf. by apply filter_valid_operator, H, list_elem_of_In.
Qed.

Lemma bindings_placeholders `{JsonCodec} fs :
  operators_ok fs ->
  count_placeholders (fragments fs) = length (concat (map filter_bindings fs)).
Proof.
  induction 1 as [|f fs Hf Hfs IH]; [done|]. simpl.
  rewrite count_placeholders_app, length_app, IH. f_equal.
  destruct (filter_fragment_length _ Hf) as [_ ->]. unfold filter_bindings.
  by destruct (String.eqb (f_operator f) "eq"), (String.eqb (f_operator f) "ne").
Qed.

(** The query text: the selection, the fragments and the order, never cut. *)
Definition full_sql (select : string) (filters : option json) (order : bool) : string :=
  select +:+ " (ttl IS NULL OR ttl >= ?)" +:+ fragments (map filter_parts (filter_list filters)) +:+
  (if order then ORDER_BY else EmptyString).

Lemma live_query_sql_full select filters order :
  edb_filters_valid filters = true ->
  live_query_sql select (map filter_parts (filter_list filters)) order
  = Some (full_sql select filters order).
Proof.
  intros Hv. pose proof (filters_valid_operators _ Hv) as Hops. unfold full_sql.
  set (fs := map filter_parts (filter_list filters)) in *.
  unfold live_query_sql. rewrite substring_short.
  2: { rewrite length_string_app. simpl String.length. lia. }
  destruct (append_fragments_fit (String.length select + length fs * 256 + 96)
    (select +:+ " (ttl IS NULL OR ttl >= ?)") fs Hops) as [-> Hlen].
  { rewrite length_string_app. simpl String.length. lia. }
  destruct order; rewrite <-!string_app_assoc; [|by rewrite string_app_nil_r].
  rewrite substring_short; [done|]. rewrite !length_string_app. simpl String.length. lia.
Qed.

(** For every valid filter document the query text is built in full:
    neither a fragment nor the ORDER BY is dropped for lack of room, and the
    text has one placeholder for the clock and one for each bound parameter. *)
Theorem live_query_complete `{JsonCodec} select filters order
    (Hv : edb_filters_valid filters = true) :
  let fs := map filter_parts (filter_list filters) in
  live_query_sql select fs order = Some (full_sql select filters order) /\
  count_placeholders (full_sql select filters order) =
    (count_placeholders select + 1 + length (concat (map filter_bindings fs)))%nat.
Proof.
  intros fs. split; [by apply live_query_sql_full|]. unfold full_sql. fold fs.
  rewrite !count_placeholders_app, bindings_placeholders by by apply filters_valid_operators.
  destruct order; simpl count_placeholders; lia.
Qed.

(** ** Row selection *)

Section selection.
Context `{C : JsonCodec} `{S : JsonSql}.

(** "ne" selects exactly the rows that have a value at the key and that
    "eq" does not select. *)
Theorem ne_complements_eq key v r :
  filter_matches {| f_key := key; f_operator := "ne"; f_value := v |} r =
  bool_decide (is_Some (json_type (r_value r) (json_path_for_key key))) &&
  negb (filter_matches {| f_key := key; f_operator := "eq"; f_value := v |} r).
Proof. unfold filter_matches. simpl. by rewrite negb_andb. Qed.

Context (scan : table -> list (string * row)).
Hypothesis scan_rows : forall d, scan d ≡ₚ map_to_list d.

#[local] Instance timestamp_le_total : Total timestamp_le.
Proof.
  intros a b. unfold timestamp_le.
  destruct (r_timestamp a.2), (r_timestamp b.2); auto. lia.
Qed.

#[local] Instance timestamp_le_trans : Transitive timestamp_le.
Proof.
  intros a b c. unfold timestamp_le.
  destruct (r_timestamp a.2), (r_timestamp b.2), (r_timestamp c.2); try done. lia.
Qed.

(** The rows a live query yields, whatever the scan order. *)
Lemma live_query_rows sh now select filters order :
  edb_filters_valid filters = true ->
  exists rows, live_query scan sh true now select filters order = Some rows /\
    NoDup rows.*1 /\
    forall id r, (id, r) ∈ rows <-> data sh !! id = Some r /\
      row_selected now (map filter_parts (filter_list filters)) r = true.
Proof.
  intros Hv. unfold live_query. rewrite Hv. cbn [negb].
  rewrite (live_query_sql_full select filters order Hv).
  eexists. split; [done|]. split.
  - pose proof (NoDup_fst_map_to_list (data sh)) as Hnd. rewrite <-scan_rows in Hnd.
    induction (scan (data sh)) as [|p l IH]; [constructor|]. simpl in *.
    apply NoDup_cons in Hnd as [Hp Hnd].
    destruct (row_selected _ _ _); [|by apply IH]. simpl. constructor; [|by apply IH].
    intros Hin. apply Hp. apply list_elem_of_fmap in Hin as (q & -> & Hq).
    apply list_elem_of_In, filter_In in Hq as [Hq _]. apply list_elem_of_fmap.
    exists q. split; [done|by apply list_elem_of_In].
  - intros id r. rewrite list_elem_of_In, filter_In, <-list_elem_of_In, scan_rows.
    by rewrite elem_of_map_to_list.
Qed.

(** [ids] lists each selected document exactly once, ordered by its
    timestamp, whatever order SQLite scans the table in; an invalid filter
    document or a failed statement yields NULL. *)
Theorem ids_exact_and_sorted sh ok now filters :
  match edb_shard_ids scan sh ok now filters with
  | None => edb_filters_valid filters = false \/ ok = false
  | Some ids =>
      exists rows, ids = rows.*1 /\ NoDup ids /\ Sorted timestamp_le rows /\
        forall id r, (id, r) ∈ rows <-> data sh !! id = Some r /\
          row_selected now (map filter_parts (filter_list filters)) r = true
  end.
Proof.
  unfold edb_shard_ids. destruct (edb_filters_valid filters) eqn:Hv.
  2: { unfold live_query. rewrite Hv. by left. }
  destruct ok.
  2: { unfold live_query. rewrite Hv. cbn [negb].
       destruct (live_query_sql _ _ _); by right. }
  destruct (live_query_rows sh now "SELECT id FROM Data WHERE" filters true Hv)
    as (rows & -> & Hnd & Hrows). cbn [mbind option_bind].
  exists (merge_sort timestamp_le rows). split_and!.
  - done.
  - rewrite merge_sort_Permutation. done.
  - apply Sorted_merge_sort, _.
  - intros id r. rewrite merge_sort_Permutation. apply Hrows.
Qed.
End selection.

(** [ids_exact_and_sorted] with the map's own enumeration as the scan. *)
#[local] Instance ids_codec : JsonCodec :=
  {| json_parse := fun s => Some (JString s); json_print := fun _ => "x" |}.
#[local] Instance ids_sql : JsonSql :=
  {| sqlval := Z; json_type := fun _ _ => Some "integer"; json_extract := fun _ _ => 0;
     sql_is := Z.eqb; sql_compare := fun _ a b => a <? b |}.

Lemma ids_exact_and_sorted_witness :
  match edb_shard_ids map_to_list
          (Shard "k" "p" "s" {["a" := put_row "1" (-1) 9 None]} [] 0 false) true 5 None with
  | None => edb_filters_valid None = false \/ true = false
  | Some ids =>
      exists rows, ids = rows.*1 /\ NoDup ids /\ Sorted timestamp_le rows /\
        forall id r, (id, r) ∈ rows <->
          ({["a" := put_row "1" (-1) 9 None]} : table) !! id = Some r /\
          row_selected 5 (map filter_parts (filter_list None)) r = true
  end.
Proof. apply (ids_exact_and_sorted map_to_list (fun d => reflexivity _)). Defined.

Lemma live_query_complete_witness :
  let filters := Some (JObject [("key", JString "a.b"); ("operator", JString "ne");
                                ("value", JNull)]) in
  let fs := map filter_parts (filter_list filters) in
  let sql := "SELECT id FROM Data WHERE" +:+ " (ttl IS NULL OR ttl >= ?)" +:+
             fragments fs +:+ ORDER_BY in
  live_query_sql "SELECT id FROM Data WHERE" fs true = Some sql /\
  count_placeholders sql = 6%nat.
Proof.
  cbv zeta. apply (live_query_complete "SELECT id FROM Data WHERE"
    (Some (JObject [("key", JString "a.b"); ("operator", JString "ne"); ("value", JNull)])) true).
  reflexivity.
Defined.

End ShardQueryFacts.
