(* ===== verification/Manager.v ===== *)
(** src/engine/manager.c: the shard manager. Open shards are reference
    counted handles in a 512-bucket table; the files of the data directory
    are inodes, so a handle keeps reading its file after it was unlinked or
    replaced, as an open SQLite connection does. Each definition is one
    critical section under [mgr->lock] or one shard operation; the public
    functions compose them. SQLite and file system failures are arguments. *)

From S2P Require Import Prelude BlockHash Md5 Json Shard.

Module Manager.

Import Json Shard.

Definition EDB_SHARD_BUCKETS : nat := 512.

(** ** Keys *)

(** A [char] is signed: [key[i]], converted to [unsigned int] after the
    subtraction. *)
Definition signed_char (c : Ascii.ascii) : Z :=
  let b := Z.of_N (Ascii.N_of_ascii c) in if b <? 128 then b else b - 256.

Definition nth_char (s : string) (i : nat) : Ascii.ascii :=
  default Ascii.zero (String.get i s).

Definition bucket_digit (c : Ascii.ascii) : Z :=
  u32 (if signed_char c <=? 57 then signed_char c - 48 else signed_char c - 97 + 10).

Definition bucket_for (key : string) : nat :=
  let hi := bucket_digit (nth_char key 0) in
  let lo := bucket_digit (nth_char key 1) in
  Z.to_nat (Z.land (Z.lor (u32 (Z.shiftl hi 4)) lo) (Z.of_nat EDB_SHARD_BUCKETS - 1)).

Definition md5_of_string (s : string) : string := Md5.edb_md5_hex (bytes_of_string s).

Definition shard_key (partition keyspace : string) : string :=
  md5_of_string (md5_of_string partition +:+ ":" +:+ md5_of_string keyspace).

Definition shard_file (key : string) : string := key +:+ ".sqlite".

(** The [strlen]/[strcmp] test on a directory entry, and the key it holds. *)
Definition shard_file_key (name : string) : option string :=
  if (String.length name =? 39)%nat && String.eqb (String.substring 32 7 name) ".sqlite"
  then Some (String.substring 0 32 name) else None.

(** ** State *)

Record handle := Handle {
  h_shard : edb_shard;
  h_inode : nat;
  h_refs : nat;
  h_retired : bool;
}.

(** [edb_shard_manager] (handles are addresses into [heap]) together with the
    files of its directory. *)
Record engine := Engine {
  heap : gmap nat handle;
  buckets : list (list nat);
  directory : gmap string nat;
  inodes : gmap nat table;
}.

Definition with_heap (h : gmap nat handle) (e : engine) : engine :=
  Engine h (buckets e) (directory e) (inodes e).
Definition with_buckets (b : list (list nat)) (e : engine) : engine :=
  Engine (heap e) b (directory e) (inodes e).

Definition bucket (e : engine) (i : nat) : list nat := default [] (buckets e !! i).

Definition handle_key (e : engine) (a : nat) : option string :=
  (fun h => key (h_shard h)) <$> heap e !! a.

(** [find_locked]: the first handle of the bucket with that key. *)
Definition find_locked (e : engine) (k : string) : option nat :=
  snd <$> list_find (fun a => handle_key e a = Some k) (bucket e (bucket_for k)).

Definition add_ref (h : handle) : handle :=
  Handle (h_shard h) (h_inode h) (S (h_refs h)) (h_retired h).
Definition set_refs (n : nat) (h : handle) : handle :=
  Handle (h_shard h) (h_inode h) n (h_retired h).
Definition retire (h : handle) : handle :=
  Handle (h_shard h) (h_inode h) (S (h_refs h)) true.
Definition with_shard (sh : edb_shard) (h : handle) : handle :=
  Handle sh (h_inode h) (h_refs h) (h_retired h).

(** [edb_shard_free]: the address is invalid afterwards. *)
Definition free_handle (a : nat) (e : engine) : engine := with_heap (delete a (heap e)) e.

(** [edb_shard_open] allocating the handle at the fresh address: the file is
    created if it does not exist. [None] if SQLite refuses. *)
Definition open_handle (e : engine) (ok : bool) (k partition keyspace : string)
    : option (nat * engine) :=
  let name := shard_file k in
  let '(ino, e) :=
    match directory e !! name with
    | Some ino => (ino, e)
    | None =>
        let ino := fresh (dom (inodes e)) in
        (ino, Engine (heap e) (buckets e) (<[name := ino]> (directory e))
                (<[ino := ∅]> (inodes e)))
    end in
  sh ← edb_shard_open ok (default ∅ (inodes e !! ino)) k partition keyspace;
  let a := fresh (dom (heap e)) in
  Some (a, with_heap (<[a := Handle sh ino 0 false]> (heap e)) e).

(** [insert_shard]: links the freshly opened handle [a], or frees it and
    returns the one that was inserted meanwhile. *)
Definition insert_shard (e : engine) (a : nat) (acquire : bool) : option nat * engine :=
  match heap e !! a with
  | None => (None, e)
  | Some h =>
      let k := key (h_shard h) in
      match find_locked e k with
      | Some existing =>
          let e := if acquire then with_heap (alter add_ref existing (heap e)) e else e in
          (Some existing, free_handle a e)
      | None =>
          let b := bucket_for k in
          (Some a, with_buckets (<[b := a :: bucket e b]> (buckets e))
                     (with_heap (alter (set_refs (if acquire then 1 else 0)%nat) a (heap e)) e))
      end
  end.

(** The first critical section of [shard_for]: look up and take a reference. *)
Definition acquire_cached (e : engine) (k : string) : option nat * engine :=
  match find_locked e k with
  | Some a => (Some a, with_heap (alter add_ref a (heap e)) e)
  | None => (None, e)
  end.

(** Adopting the now known names on a cached handle. *)
Definition adopt_names (partition' keyspace' : string) (sh : edb_shard) : edb_shard :=
  if String.eqb (partition sh) "" then
    Shard (key sh) (String.substring 0 255 partition') (String.substring 0 127 keyspace')
      (data sh) (cache sh) (expired_since_vacuum sh) (in_txn sh)
  else sh.

Definition shard_for (e : engine) (ok : bool) (partition keyspace : string)
    : option nat * engine :=
  let k := shard_key partition keyspace in
  match acquire_cached e k with
  | (Some a, e) =>
      (Some a, with_heap (alter (fun h => with_shard (adopt_names partition keyspace (h_shard h)) h)
                            a (heap e)) e)
  | (None, e) =>
      match open_handle e ok k partition keyspace with
      | None => (None, e)
      | Some (a, e) => insert_shard e a true
      end
  end.

(** [shard_release]: drops one reference, frees a retired handle at zero. *)
Definition shard_release (e : engine) (a : nat) : engine :=
  match heap e !! a with
  | None => e
  | Some h =>
      let h := set_refs (pred (h_refs h)) h in
      if h_retired h && (h_refs h =? 0)%nat then free_handle a e
      else with_heap (<[a := h]> (heap e)) e
  end.

(** Runs a shard operation on the file behind handle [a]. *)
Definition run_shard {A} (e : engine) (a : nat) (fail : A) (f : edb_shard -> A * edb_shard)
    : A * engine :=
  match heap e !! a with
  | None => (fail, e)
  | Some h =>
      let '(r, sh) := f (with_data (default ∅ (inodes e !! h_inode h)) (h_shard h)) in
      (r, Engine (<[a := with_shard sh h]> (heap e)) (buckets e) (directory e)
            (<[h_inode h := data sh]> (inodes e)))
  end.

(** The shape every public operation has: [shard_for], the shard operation,
    [shard_release]; [fail] when the shard cannot be opened. *)
Definition on_shard {A} (e : engine) (ok : bool) (partition keyspace : string) (fail : A)
    (f : edb_shard -> A * edb_shard) : A * engine :=
  match shard_for e ok partition keyspace with
  | (None, e) => (fail, e)
  | (Some a, e) =>
      let '(r, e) := run_shard e a fail f in
      (r, shard_release e a)
  end.

(** ** Public operations *)

Definition edb_put (e : engine) (ok : bool) (o : sql_outcome) (now : Z)
    (partition keyspace id json_value : string) (ttl_seconds : Z) : bool * engine :=
  on_shard e ok partition keyspace false (fun sh => edb_shard_put sh o now id json_value ttl_seconds).

Definition edb_delete (e : engine) (ok : bool) (o : sql_outcome) (now : Z)
    (partition keyspace id : string) : bool * engine :=
  on_shard e ok partition keyspace false (fun sh => edb_shard_delete sh o now id).

Definition edb_force_cleanup (e : engine) (ok : bool) (o : cleanup_outcome) (now : Z)
    (partition keyspace : string) : bool * engine :=
  on_shard e ok partition keyspace false (fun sh => edb_shard_cleanup sh o now).

Definition edb_replica_put_origin (e : engine) (ok : bool) (o1 o2 : sql_outcome)
    (partition keyspace id json_value : string) (ttl_absolute timestamp : Z)
    (origin : option string) : bool * engine :=
  on_shard e ok partition keyspace false
    (fun sh => edb_shard_replica_put sh o1 o2 id json_value ttl_absolute timestamp origin).

Definition edb_replica_put (e : engine) (ok : bool) (o1 o2 : sql_outcome)
    (partition keyspace id json_value : string) (ttl_absolute timestamp : Z) : bool * engine :=
  edb_replica_put_origin e ok o1 o2 partition keyspace id json_value ttl_absolute timestamp (Some "").

Definition edb_replica_delete_origin (e : engine) (ok : bool) (o1 o2 : sql_outcome)
    (partition keyspace id : string) (timestamp : Z) (origin : option string) : bool * engine :=
  on_shard e ok partition keyspace false
    (fun sh => edb_shard_replica_delete sh o1 o2 id timestamp origin).

Definition edb_replica_delete (e : engine) (ok : bool) (o1 o2 : sql_outcome)
    (partition keyspace id : string) (timestamp : Z) : bool * engine :=
  edb_replica_delete_origin e ok o1 o2 partition keyspace id timestamp (Some "").

Section engine_reads.
Context `{JsonCodec} `{JsonSql}.
Context (scan : table -> list (string * row)).

Definition edb_get (e : engine) (ok : bool) (o : sql_outcome) (now : Z)
    (partition keyspace id : string) : option json * engine :=
  on_shard e ok partition keyspace None (fun sh => edb_shard_get sh o now id).

Definition edb_get_ts (e : engine) (ok : bool) (o : sql_outcome) (now : Z)
    (partition keyspace id : string) (ts0 : Z) : option json * Z * engine :=
  on_shard e ok partition keyspace (None, ts0) (fun sh => edb_shard_get_ts sh o now id ts0).

Definition edb_ids (e : engine) (ok qok : bool) (now : Z) (partition keyspace : string)
    (filters : option json) : option (list string) * engine :=
  on_shard e ok partition keyspace None (fun sh => (edb_shard_ids scan sh qok now filters, sh)).

Definition edb_all (e : engine) (ok qok : bool) (now : Z) (partition keyspace : string)
    (filters : option json) : option json * engine :=
  on_shard e ok partition keyspace None (fun sh => (edb_shard_all scan sh qok now filters, sh)).

Definition edb_query (e : engine) (ok qok : bool) (now : Z) (partition keyspace : string)
    (filters : option json) : option json * engine :=
  on_shard e ok partition keyspace None (fun sh => (edb_shard_query scan sh qok now filters, sh)).

Definition edb_all_ts (e : engine) (ok qok : bool) (now : Z) (partition keyspace : string)
    (filters : option json) : option json * engine :=
  on_shard e ok partition keyspace None (fun sh => (edb_shard_all_ts scan sh qok now filters, sh)).

Definition edb_query_ts (e : engine) (ok qok : bool) (now : Z) (partition keyspace : string)
    (filters : option json) : option json * engine :=
  on_shard e ok partition keyspace None
    (fun sh => (edb_shard_query_ts scan sh qok now filters, sh)).
End engine_reads.

(** ** Garbage collection and maintenance *)

(** The critical section of [edb_shard_gc]: unlink the handle from its
    bucket, retire it and take a reference. *)
Definition gc_detach (e : engine) (k : string) : option nat * engine :=
  let b := bucket_for k in
  match list_find (fun a => handle_key e a = Some k) (bucket e b) with
  | None => (None, e)
  | Some (i, a) =>
      (Some a, with_buckets (<[b := delete i (bucket e b)]> (buckets e))
                 (with_heap (alter retire a (heap e)) e))
  end.

(** [unlink]: [ok] false for an error other than ENOENT. *)
Definition unlink_file (e : engine) (ok : bool) (k : string) : bool * engine :=
  if ok then (true, Engine (heap e) (buckets e) (delete (shard_file k) (directory e)) (inodes e))
  else (bool_decide (directory e !! shard_file k = None), e).

Definition edb_shard_gc (e : engine) (ok : bool) (k : string) : bool * engine :=
  if negb (String.length k =? 32)%nat then (false, e)
  else
    let '(a, e) := gc_detach e k in
    let '(r, e) := unlink_file e ok k in
    (r, match a with Some a => shard_release e a | None => e end).

(** The handles of the table in bucket order. *)
Definition all_handles (e : engine) : list nat := concat (buckets e).

Definition acquire_all (e : engine) (l : list nat) : engine :=
  foldl (fun e a => with_heap (alter add_ref a (heap e)) e) e l.

(** [cleanup_all_shards]; [o] answers for each handle. *)
Definition cleanup_all_shards (e : engine) (o : nat -> cleanup_outcome) (now : Z) : engine :=
  let l := all_handles e in
  foldl (fun e a =>
           let '(_, e) := run_shard e a false (fun sh => edb_shard_cleanup sh (o a) now) in
           shard_release e a)
        (acquire_all e l) l.

(** [maintain_partition] for [edb_shard_vacuum]/[edb_shard_reindex]; [None] is
    the -1 return. *)
Definition maintain_partition (e : engine) (partition' : string)
    (f : nat -> edb_shard -> bool * edb_shard) : option nat * engine :=
  if String.eqb partition' "" then (None, e)
  else
    let matching a := bool_decide ((fun h => partition (h_shard h)) <$> heap e !! a
                                   = Some partition') in
    let l := List.filter matching (all_handles e) in
    let '(n, e) :=
      foldl (fun '(n, e) a =>
               let '(ok, e) := run_shard e a false (f a) in
               ((if ok : bool then S n else n), shard_release e a))
            (O, acquire_all e l) l in
    (Some n, e).

Definition edb_engine_vacuum_partition (e : engine) (partition : string) (o : nat -> bool) :=
  maintain_partition e partition (fun a => edb_shard_vacuum (o a)).
Definition edb_engine_reindex_partition (e : engine) (partition : string) (o : nat -> bool) :=
  maintain_partition e partition (fun a => edb_shard_reindex (o a)).

(** ** Opening, closing, paths *)

(** [close_all]. *)
Definition close_all (e : engine) : engine :=
  Engine (foldr delete (heap e) (all_handles e)) (replicate EDB_SHARD_BUCKETS [])
    (directory e) (inodes e).

(** [edb_engine_open] on a directory: [entries] in readdir order, [ok] which
    files SQLite opens. *)
Definition edb_engine_open (directory : gmap string nat) (inodes : gmap nat table)
    (entries : list string) (ok : string -> bool) : engine :=
  foldl (fun e name =>
           match shard_file_key name with
           | None => e
           | Some k =>
               match open_handle e (ok name) k "" "" with
               | None => e
               | Some (a, e) => (insert_shard e a false).2
               end
           end)
        (Engine ∅ (replicate EDB_SHARD_BUCKETS []) directory inodes) entries.

(** [edb_engine_shard_keys]: up to [cap] keys, in readdir order. *)
Definition edb_engine_shard_keys (entries : list string) (cap : nat) : list string :=
  take cap (omap shard_file_key entries).

(** [edb_shard_path]: path and key, unless the path does not fit in [cap]. *)
Definition edb_shard_path (path partition keyspace : string) (cap : nat)
    : option (string * string) :=
  let k := shard_key partition keyspace in
  let full := path +:+ "/" +:+ shard_file k in
  if (cap <=? String.length full)%nat then None else Some (full, k).

Definition edb_shard_is_open (e : engine) (partition keyspace : string) : bool :=
  bool_decide (is_Some (find_locked e (shard_key partition keyspace))).

(** [edb_shard_invalidate]: reopen the file under a cached handle; [ok] and
    [intact] are the open and the integrity check. *)
Definition edb_shard_invalidate (e : engine) (ok intact : bool) (partition keyspace : string)
    : bool * engine :=
  let k := shard_key partition keyspace in
  match open_handle e ok k partition keyspace with
  | None => (false, e)
  | Some (fresh_a, e) =>
      let e' :=
        match find_locked e k, heap e !! fresh_a with
        | Some a, Some f =>
            if intact then
              with_heap (alter (fun h => Handle
                (Shard (key (h_shard h)) (String.substring 0 255 partition)
                   (String.substring 0 127 keyspace) (data (h_shard f)) [] 0 false)
                (h_inode f) (h_refs h) (h_retired h)) a (heap e)) e
            else e
        | _, _ => e
        end in
      (intact, free_handle fresh_a e')
  end.

End Manager.
