(* ===== verification/ManagerFacts.v ===== *)
(** Theorems about the shard manager (Manager.v): the reference counting
    protocol as a step relation over all interleavings of its critical
    sections, and the refinement of the public operations to a map from
    (partition, keyspace) to tables. *)

From S2P Require Import Prelude BlockHash Md5 Json Shard ShardFacts Manager.

Module ManagerFacts.

Import Json Shard Manager.

Local Open Scope nat_scope.

(** ** Buckets *)

Lemma bucket_for_bound k : bucket_for k < EDB_SHARD_BUCKETS.
Proof.
  unfold bucket_for, EDB_SHARD_BUCKETS.
  set (x := Z.lor _ _). change (Z.of_nat 512 - 1)%Z with (Z.ones 9).
  rewrite Z.land_ones by lia. pose proof (Z.mod_pos_bound x (2 ^ 9) ltac:(lia)).
  change (2 ^ 9)%Z with 512%Z in *. lia.
Qed.

Lemma bucket_update e b l i :
  b < length (buckets e) ->
  bucket (with_buckets (<[b := l]> (buckets e)) e) i = if decide (i = b) then l else bucket e i.
Proof.
  intros H. unfold bucket. simpl. case_decide as Hi.
  - subst i. by rewrite list_lookup_insert_eq.
  - by rewrite list_lookup_insert_ne.
Qed.

Lemma handle_key_alter e f a b :
  (forall h, key (h_shard (f h)) = key (h_shard h)) ->
  handle_key (with_heap (alter f a (heap e)) e) b = handle_key e b.
Proof.
  intros Hf. unfold handle_key. simpl. rewrite lookup_alter. case_decide as Hab; [|done].
  subst b. destruct (heap e !! a) as [h|]; simpl; [|done]. by rewrite Hf.
Qed.

(** ** Concurrent executions *)

(** The manager, the references threads hold (a list with repetitions) and
    the handles opened but not yet inserted. *)
Record sys := Sys { eng : engine; held : list nat; opening : list nat }.

Fixpoint remove_one (a : nat) (l : list nat) : list nat :=
  match l with
  | [] => []
  | b :: l => if decide (a = b) then l else b :: remove_one a l
  end.

Inductive step : sys -> sys -> Prop :=
| step_hit e e' k a hd op :
    acquire_cached e k = (Some a, e') -> step (Sys e hd op) (Sys e' (a :: hd) op)
| step_open e e' ok k p ks a hd op :
    open_handle e ok k p ks = Some (a, e') -> step (Sys e hd op) (Sys e' hd (a :: op))
| step_insert e e' a b hd op :
    a ∈ op -> insert_shard e a true = (Some b, e') ->
    step (Sys e hd op) (Sys e' (b :: hd) (remove_one a op))
| step_insert_startup e e' a b hd op :
    a ∈ op -> insert_shard e a false = (Some b, e') ->
    step (Sys e hd op) (Sys e' hd (remove_one a op))
| step_acquire e a hd op :
    a ∈ all_handles e -> step (Sys e hd op) (Sys (acquire_all e [a]) (a :: hd) op)
| step_run e A (r fail : A) e' a f hd op :
    a ∈ hd -> (forall sh, key (f sh).2 = key sh) ->
    run_shard e a fail f = (r, e') -> step (Sys e hd op) (Sys e' hd op)
| step_release e a hd op :
    a ∈ hd -> step (Sys e hd op) (Sys (shard_release e a) (remove_one a hd) op)
| step_gc e e' k a hd op :
    gc_detach e k = (Some a, e') -> step (Sys e hd op) (Sys e' (a :: hd) op)
| step_unlink e e' r ok k hd op :
    unlink_file e ok k = (r, e') -> step (Sys e hd op) (Sys e' hd op).

Definition in_table (e : engine) (a : nat) : Prop := exists i, a ∈ bucket e i.

Definition refs_of (hd : list nat) (a : nat) : nat := count_occ Nat.eq_dec hd a.
#[global] Arguments refs_of : simpl never.

(** The invariant: buckets hold live, unretired handles with distinct keys;
    the counter of a handle is the number of references held on it; every
    held handle is live; and a live handle is reachable: in the table, being
    opened, or retired and still referenced. *)
Record Inv (s : sys) : Prop := {
  inv_len : length (buckets (eng s)) = EDB_SHARD_BUCKETS;
  inv_bucket : forall i a, a ∈ bucket (eng s) i ->
    exists h, heap (eng s) !! a = Some h /\ bucket_for (key (h_shard h)) = i /\
              h_retired h = false /\ a ∉ opening s;
  inv_keys : forall i, NoDup (handle_key (eng s) <$> bucket (eng s) i);
  inv_refs : forall a h, heap (eng s) !! a = Some h -> h_refs h = refs_of (held s) a;
  inv_held : forall a, a ∈ held s -> is_Some (heap (eng s) !! a);
  inv_opening : NoDup (opening s) /\ forall a, a ∈ opening s ->
    (a ∉ held s) /\ exists h, heap (eng s) !! a = Some h /\ h_retired h = false;
  inv_owned : forall a h, heap (eng s) !! a = Some h ->
    in_table (eng s) a \/ a ∈ opening s \/ (h_retired h = true /\ a ∈ held s);
}.

(** ** Lists of references *)

Lemma refs_of_cons a b hd :
  refs_of (a :: hd) b = ((if decide (a = b) then 1 else 0) + refs_of hd b)%nat.
Proof. unfold refs_of. simpl. destruct (Nat.eq_dec a b); case_decide; congruence || lia. Qed.

Lemma refs_of_remove a hd b :
  a ∈ hd -> refs_of hd b = ((if decide (a = b) then 1 else 0) + refs_of (remove_one a hd) b)%nat.
Proof.
  induction hd as [|c hd IH]; [by intros ?%elem_of_nil|]. intros Hin. simpl remove_one.
  destruct (decide (a = c)) as [->|Hac]; [apply refs_of_cons|].
  rewrite !refs_of_cons. apply elem_of_cons in Hin as [?|Hin]; [done|].
  rewrite (IH Hin). lia.
Qed.

Lemma refs_of_pos hd a : a ∈ hd <-> 0 < refs_of hd a.
Proof. unfold refs_of. rewrite list_elem_of_In, (count_occ_In Nat.eq_dec). done. Qed.

Lemma refs_of_zero hd a : a ∉ hd -> refs_of hd a = 0.
Proof. rewrite refs_of_pos. lia. Qed.

Lemma elem_of_remove_one a b l : b ∈ remove_one a l -> b ∈ l.
Proof.
  induction l as [|c l IH]; [done|]. simpl. case_decide; [by right|].
  rewrite !elem_of_cons. tauto.
Qed.

Lemma remove_one_NoDup a l : NoDup l -> NoDup (remove_one a l) /\ a ∉ remove_one a l.
Proof.
  induction 1 as [|c l Hc Hl [IH1 IH2]]; [split; [constructor|by apply not_elem_of_nil]|].
  simpl. destruct (decide (a = c)) as [->|Hac]; [done|]. split.
  - constructor; [|done]. intros Hin. by apply elem_of_remove_one in Hin.
  - by apply not_elem_of_cons.
Qed.

Lemma elem_of_remove_one_ne a b l : a <> b -> b ∈ l -> b ∈ remove_one a l.
Proof.
  intros Hab. induction l as [|c l IH]; [by intros ?%elem_of_nil|]. simpl.
  rewrite elem_of_cons. destruct (decide (a = c)) as [->|Hac].
  - intros [->|?]; done.
  - rewrite elem_of_cons. intros [->|?]; auto.
Qed.

(** ** Preservation *)

Lemma find_locked_Some e k a :
  find_locked e k = Some a -> a ∈ bucket e (bucket_for k) /\ handle_key e a = Some k.
Proof.
  unfold find_locked. intros H.
  destruct (list_find _ _) as [[i b]|] eqn:E; [|done]. simpl in H. injection H as ->.
  apply list_find_Some in E as (Hi & Hk & _). split; [|done]. by eapply list_elem_of_lookup_2.
Qed.

Lemma find_locked_None e k a :
  find_locked e k = None -> a ∈ bucket e (bucket_for k) -> handle_key e a <> Some k.
Proof.
  unfold find_locked. intros H Ha.
  destruct (list_find _ _) as [[i b]|] eqn:E; [done|].
  apply list_find_None in E. rewrite Forall_forall in E. by apply E.
Qed.

Lemma bucket_buckets e e' i : buckets e' = buckets e -> bucket e' i = bucket e i.
Proof. unfold bucket. by intros ->. Qed.

Lemma handle_key_insert e e' a h h' b :
  heap e !! a = Some h -> heap e' = <[a := h']> (heap e) ->
  key (h_shard h') = key (h_shard h) -> handle_key e' b = handle_key e b.
Proof.
  intros Ha He Hk. unfold handle_key. rewrite He, lookup_insert. case_decide as Hab; [|done].
  subst b. rewrite Ha. simpl. by rewrite Hk.
Qed.

(** Changing the handle [a] but not its key or its retirement, while the
    references held on it change accordingly. *)
Lemma inv_update e e' hd hd' op a h h' :
  Inv (Sys e hd op) -> heap e !! a = Some h ->
  heap e' = <[a := h']> (heap e) -> buckets e' = buckets e ->
  key (h_shard h') = key (h_shard h) -> h_retired h' = h_retired h ->
  (forall b, b <> a -> refs_of hd' b = refs_of hd b) ->
  h_refs h' = refs_of hd' a -> (h_retired h = true -> a ∈ hd') -> (a ∈ op -> a ∉ hd') ->
  Inv (Sys e' hd' op).
Proof.
  intros [Hlen Hb Hk Hr Hh [Ho1 Ho2] Hw] Ha He Hbk Hkey Hret Hrefs Hra Hown Hop. simpl in *.
  assert (Hmem : forall b, b <> a -> b ∈ hd' <-> b ∈ hd)
    by (intros b Hba; by rewrite !refs_of_pos, Hrefs).
  split; simpl; rewrite ?Hbk; [done|..].
  - intros j b. rewrite (bucket_buckets e) by done. intros Hj.
    destruct (Hb j b Hj) as (h2 & Hbh & ? & ? & ?). rewrite He, lookup_insert.
    case_decide; [|by exists h2]. subst b. simplify_eq. exists h'. split_and!; congruence.
  - intros j. rewrite (bucket_buckets e) by done.
    rewrite <-(list_fmap_ext (handle_key e)); [apply Hk|].
    intros ? b _. symmetry. by eapply handle_key_insert.
  - intros b h2. rewrite He, lookup_insert. case_decide; [by subst b; intros [= <-]|].
    intros Hbh. rewrite Hrefs by done. by apply Hr.
  - intros b Hb'. rewrite He, lookup_insert. case_decide as Hab; [done|].
    apply Hh. by apply Hmem in Hb'; [|congruence].
  - split; [done|]. intros b Hbo. destruct (Ho2 b Hbo) as (Hnh & h2 & Hbh & ?).
    rewrite He, lookup_insert. case_decide as Hab.
    + subst b. split; [by apply Hop|]. simplify_eq. exists h'. split; congruence.
    + split; [|by exists h2]. rewrite Hmem by congruence. done.
  - intros b h2. rewrite He, lookup_insert. unfold in_table.
    setoid_rewrite (bucket_buckets e); [|done..]. case_decide as Hab.
    + subst b. intros [= <-]. destruct (Hw a h Ha) as [?|[?|[Hrt ?]]]; auto.
      right. right. split; [congruence|auto].
    + intros Hbh. destruct (Hw b h2 Hbh) as [?|[?|[? ?]]]; auto.
      right. right. split; [done|]. by apply Hmem; [congruence|].
Qed.

(** Freeing a handle that is in no bucket and on which nothing is held. *)
Lemma inv_free e hd hd' op a h :
  Inv (Sys e hd op) -> heap e !! a = Some h -> a ∈ op \/ h_retired h = true ->
  a ∉ hd' -> (forall b, b <> a -> refs_of hd' b = refs_of hd b) ->
  Inv (Sys (free_handle a e) hd' (remove_one a op)).
Proof.
  intros [Hlen Hb Hk Hr Hh [Ho1 Ho2] Hw] Ha Hout Hna Hrefs. simpl in *.
  assert (Hmem : forall b, b <> a -> b ∈ hd' <-> b ∈ hd)
    by (intros b Hba; by rewrite !refs_of_pos, Hrefs).
  assert (Hnb : forall i b, b ∈ bucket e i -> b <> a).
  { intros i b Hi ->. destruct (Hb i a Hi) as (h2 & Ha2 & _ & Hr2 & Hno). simplify_eq.
    destruct Hout; congruence. }
  destruct (remove_one_NoDup a op Ho1) as [Hnd Hnin].
  split; simpl; [done|..].
  - intros j b Hj. destruct (Hb j b Hj) as (h2 & Hbh & ? & ? & Hno). exists h2.
    rewrite lookup_delete_ne by (apply not_eq_sym; by eapply Hnb). split_and!; try done.
    intros Hin%elem_of_remove_one. done.
  - intros j. rewrite <-(list_fmap_ext (handle_key e)); [apply Hk|].
    intros ? b Hbl. apply list_elem_of_lookup_2 in Hbl. unfold handle_key. simpl.
    rewrite lookup_delete_ne; [done|]. apply not_eq_sym. by eapply Hnb.
  - intros b h2 Hbh. apply lookup_delete_Some in Hbh as [Hab Hbh].
    rewrite Hrefs by congruence. by apply Hr.
  - intros b Hb'. assert (b <> a) by congruence. rewrite lookup_delete_ne by congruence.
    apply Hh. by apply Hmem.
  - split; [done|]. intros b Hbo. assert (b <> a) by congruence.
    destruct (Ho2 b) as (Hnh & h2 & Hbh & ?); [by eapply elem_of_remove_one|].
    rewrite Hmem, lookup_delete_ne by congruence. eauto.
  - intros b h2 Hbh. apply lookup_delete_Some in Hbh as [Hab Hbh].
    destruct (Hw b h2 Hbh) as [?|[?|[? ?]]]; [by left|right; left|right; right].
    + by apply elem_of_remove_one_ne.
    + split; [done|]. apply Hmem; [congruence|done].
Qed.

Lemma inv_ne_held e hd op a : Inv (Sys e hd op) -> in_table e a -> exists h,
  heap e !! a = Some h /\ h_retired h = false /\ a ∉ op.
Proof. intros [_ Hb _ _ _ _ _] [i Hi]. destruct (Hb i a Hi) as (h & ? & ? & ? & ?). eauto. Qed.

Lemma refs_of_cons_ne a hd b : b <> a -> refs_of (a :: hd) b = refs_of hd b.
Proof. intros. rewrite refs_of_cons, decide_False by congruence. done. Qed.

Lemma refs_of_remove_ne a hd b : b <> a -> refs_of (remove_one a hd) b = refs_of hd b.
Proof.
  intros Hab. destruct (decide (a ∈ hd)) as [Hin|Hin].
  - rewrite (refs_of_remove a hd b Hin), decide_False by congruence. done.
  - f_equal. clear Hab. induction hd as [|c hd IH]; [done|]. simpl.
    apply not_elem_of_cons in Hin as [? ?]. rewrite decide_False by done. f_equal. auto.
Qed.

(** Taking a reference on a handle of the table. *)
Lemma inv_add_ref e hd op a :
  Inv (Sys e hd op) -> in_table e a ->
  Inv (Sys (with_heap (alter add_ref a (heap e)) e) (a :: hd) op).
Proof.
  intros HI Ht. destruct (inv_ne_held _ _ _ _ HI Ht) as (h & Ha & Hret & Hno).
  eapply (inv_update _ _ _ _ _ a h (add_ref h)); [exact HI|exact Ha|cbn [heap with_heap]..]; try done.
  - by apply alter_alt_Some.
  - intros b Hb. by apply refs_of_cons_ne.
  - rewrite refs_of_cons, decide_True by done. simpl. f_equal. by apply HI.
  - intros _. left.
Qed.

(** A fresh handle of the file of [k] is being opened. *)
Lemma inv_open e e' ok k p ks a hd op :
  Inv (Sys e hd op) -> open_handle e ok k p ks = Some (a, e') -> Inv (Sys e' hd (a :: op)).
Proof.
  intros [Hlen Hb Hk Hr Hh [Ho1 Ho2] Hw] Hopen. simpl in *.
  assert (exists sh ino, heap e' = <[a := Handle sh ino 0 false]> (heap e) /\
            buckets e' = buckets e /\ heap e !! a = None) as (sh & ino & He & Hbk & Ha).
  { unfold open_handle in Hopen.
    destruct (directory e !! shard_file k) as [ino|]; cbn zeta in Hopen;
      destruct (edb_shard_open _ _ _ _ _) as [sh|]; try done; simpl in Hopen;
      injection Hopen as <- <-; simpl; eexists sh, _; (split_and!; [reflexivity|done|]);
      apply not_elem_of_dom, is_fresh. }
  clear Hopen.
  assert (Hna : a ∉ hd) by (intros Hin; apply Hh in Hin as [? ?]; congruence).
  assert (Hnop : a ∉ op) by (intros Hin; apply Ho2 in Hin as (_ & ? & ? & _); congruence).
  assert (Hnb : forall i b, b ∈ bucket e i -> b <> a)
    by (intros i b Hi ->; destruct (Hb i a Hi) as (? & ? & _); congruence).
  split; simpl; rewrite ?Hbk; [done|..].
  - intros j b. rewrite (bucket_buckets e) by done. intros Hj.
    destruct (Hb j b Hj) as (h2 & Hbh & ? & ? & Hno). exists h2.
    pose proof (Hnb j b Hj). rewrite He, lookup_insert_ne by congruence.
    split_and!; try done. by apply not_elem_of_cons.
  - intros j. rewrite (bucket_buckets e) by done.
    rewrite <-(list_fmap_ext (handle_key e)); [apply Hk|].
    intros ? b Hbl. apply list_elem_of_lookup_2, Hnb in Hbl. unfold handle_key.
    rewrite He, lookup_insert_ne by congruence. done.
  - intros b h2. rewrite He, lookup_insert. case_decide; [|by apply Hr].
    subst b. intros [= <-]. simpl. symmetry. by apply refs_of_zero.
  - intros b Hb'. rewrite He, lookup_insert. case_decide; [done|by apply Hh].
  - split; [by constructor|]. intros b [->|Hbo]%elem_of_cons; rewrite He, lookup_insert.
    + rewrite decide_True by done. eauto.
    + case_decide; [congruence|by apply Ho2].
  - intros b h2. rewrite He, lookup_insert. unfold in_table.
    setoid_rewrite (bucket_buckets e); [|done..]. rewrite elem_of_cons. case_decide.
    + subst b. auto.
    + intros Hbh. destruct (Hw b h2 Hbh) as [?|[?|[? ?]]]; auto.
Qed.

(** Linking an opened handle whose key is not in the table. *)
Lemma inv_link e hd hd' op a h n :
  Inv (Sys e hd op) -> heap e !! a = Some h -> a ∈ op ->
  find_locked e (key (h_shard h)) = None ->
  (forall b, b <> a -> refs_of hd' b = refs_of hd b) -> refs_of hd' a = n ->
  Inv (Sys (with_buckets (<[bucket_for (key (h_shard h)) := a :: bucket e (bucket_for (key (h_shard h)))]>
                            (buckets e))
              (with_heap (alter (set_refs n) a (heap e)) e)) hd' (remove_one a op)).
Proof.
  intros [Hlen Hb Hk Hr Hh [Ho1 Ho2] Hw] Ha Hop Hfind Hrefs Hn. simpl in *.
  set (k := key (h_shard h)) in *.
  rewrite (alter_alt_Some _ _ _ h) by done.
  assert (Hmem : forall b, b <> a -> b ∈ hd' <-> b ∈ hd)
    by (intros b Hba; by rewrite !refs_of_pos, Hrefs).
  destruct (remove_one_NoDup a op Ho1) as [Hnd Hnin].
  destruct (Ho2 a Hop) as (Hah & h0 & Ha0 & Hret). simplify_eq.
  set (e' := with_buckets _ _).
  assert (Hbu : forall i, bucket e' i = if decide (i = bucket_for k)
                          then a :: bucket e (bucket_for k) else bucket e i).
  { intros i. subst e'. 
    rewrite <-(bucket_update (with_heap (<[a:=set_refs (refs_of hd' a) h]> (heap e)) e));
      [done|]. simpl. rewrite Hlen. apply bucket_for_bound. }
  assert (Hhk : forall b, handle_key e' b = handle_key e b)
    by (intros b; by apply (handle_key_insert e e' a h (set_refs (refs_of hd' a) h))).
  assert (Hlk : forall b, heap e' !! b = if decide (a = b) then Some (set_refs (refs_of hd' a) h)
                          else heap e !! b) by (intros b; apply lookup_insert).
  assert (Hnb : forall i, a ∉ bucket e i)
    by (intros i Hi; destruct (Hb i a Hi) as (? & ? & ? & ? & ?); done).
  split; simpl.
  - by rewrite length_insert.
  - intros j b. rewrite Hbu, Hlk. intros Hj.
    assert (b = a /\ j = bucket_for k \/ b ∈ bucket e j) as [[-> ->]|Hj'].
    { case_decide; [|by right]. subst j. apply elem_of_cons in Hj as [?|?]; auto. }
    + rewrite decide_True by done. eexists. split; [done|]. done.
    + rewrite decide_False by (intros ->; by eapply Hnb).
      destruct (Hb j b Hj') as (h2 & ? & ? & ? & Hno). exists h2. split_and!; try done.
      intros Hin%elem_of_remove_one. done.
  - intros j. rewrite (list_fmap_ext _ (handle_key e)) by (intros; apply Hhk).
    rewrite Hbu. case_decide; [|apply Hk]. simpl. constructor; [|apply Hk].
    unfold handle_key at 1. rewrite Ha. simpl. intros (b & Hbk & Hbin)%list_elem_of_fmap.
    by eapply find_locked_None in Hfind; [|exact Hbin].
  - intros b h2. rewrite Hlk. case_decide; [subst b; by intros [= <-]|].
    intros Hbh. rewrite Hrefs by done. by apply Hr.
  - intros b Hb'. rewrite Hlk. case_decide; [done|]. apply Hh. by apply Hmem; [congruence|].
  - split; [done|]. intros b Hbo. assert (b <> a) by congruence.
    rewrite Hlk, decide_False, Hmem by congruence. apply Ho2. by eapply elem_of_remove_one.
  - intros b h2. rewrite Hlk. case_decide as Hab.
    + subst b. intros _. left. exists (bucket_for k). rewrite Hbu, decide_True by done. left.
    + intros Hbh. destruct (Hw b h2 Hbh) as [[i Hi]|[?|[? ?]]]; [left|right; left|right; right].
      * exists i. rewrite Hbu. case_decide; [subst i; by right|done].
      * by apply elem_of_remove_one_ne.
      * split; [done|]. apply Hmem; [congruence|done].
Qed.

Lemma NoDup_delete {A} (l : list A) i : NoDup l -> NoDup (delete i l).
Proof. intros. eapply sublist_NoDup; [done|]. apply sublist_delete. Qed.

Lemma elem_of_delete {A} (l : list A) i x : x ∈ delete i l -> x ∈ l.
Proof. intros. eapply elem_of_sublist; [done|]. apply sublist_delete. Qed.

Lemma NoDup_delete_self {A} (l : list A) i x : NoDup l -> l !! i = Some x -> x ∉ delete i l.
Proof.
  intros Hnd Hi Hin. rewrite delete_take_drop in Hin.
  rewrite <-(take_drop_middle l i x Hi) in Hnd.
  apply NoDup_app in Hnd as (_ & H1 & H2). apply NoDup_cons in H2 as [H2 _].
  apply elem_of_app in Hin as [Hin|Hin]; [|done]. eapply H1; [exact Hin|left].
Qed.

(** [edb_shard_gc] detaching a handle and keeping a reference on it. *)
Lemma inv_detach e e' hd op k a :
  Inv (Sys e hd op) -> gc_detach e k = (Some a, e') -> Inv (Sys e' (a :: hd) op).
Proof.
  intros HI Hd. unfold gc_detach in Hd. set (bk := bucket_for k) in *.
  destruct (list_find _ _) as [[i a']|] eqn:Ef; [|done]. injection Hd as -> <-.
  apply list_find_Some in Ef as (Hi & Hka & _).
  assert (Hin : a ∈ bucket e bk) by by eapply list_elem_of_lookup_2.
  pose proof HI as [Hlen Hb Hk Hr Hh [Ho1 Ho2] Hw]. simpl in *.
  destruct (Hb bk a Hin) as (h & Ha & Hbk & Hret & Hno).
  rewrite (alter_alt_Some _ _ _ h) by done. set (e' := with_buckets _ _).
  assert (Hbu : forall j, bucket e' j = if decide (j = bk) then delete i (bucket e bk)
                                        else bucket e j).
  { intros j. subst e'. rewrite <-(bucket_update (with_heap (<[a:=retire h]> (heap e)) e)); [done|].
    simpl. rewrite Hlen. apply bucket_for_bound. }
  assert (Hsub : forall j b, b ∈ bucket e' j -> b ∈ bucket e j /\ b <> a).
  { intros j b. rewrite Hbu. case_decide as Hj.
    - subst j. intros Hbin. split; [by eapply elem_of_delete|]. intros ->.
      eapply NoDup_delete_self; [|exact Hi|exact Hbin]. by eapply NoDup_fmap_1.
    - intros Hbin. split; [done|]. intros ->.
      destruct (Hb j a Hbin) as (? & ? & ? & _). simplify_eq. }
  assert (Hhk : forall b, handle_key e' b = handle_key e b)
    by (intros b; by apply (handle_key_insert e e' a h (retire h))).
  assert (Hlk : forall b, heap e' !! b = if decide (a = b) then Some (retire h)
                          else heap e !! b) by (intros b; apply lookup_insert).
  split; simpl.
  - by rewrite length_insert.
  - intros j b Hj. destruct (Hsub j b Hj) as [Hj' Hne].
    rewrite Hlk, decide_False by congruence. by apply Hb.
  - intros j. rewrite (list_fmap_ext _ (handle_key e)) by (intros; apply Hhk).
    rewrite Hbu. case_decide; [|apply Hk]. rewrite list_fmap_delete. by apply NoDup_delete.
  - intros b h2. rewrite Hlk, refs_of_cons. case_decide; [|by apply Hr].
    subst b. intros [= <-]. simpl. f_equal. by apply Hr.
  - intros b Hb'. rewrite Hlk. case_decide; [done|]. apply Hh.
    apply elem_of_cons in Hb' as [?|?]; [congruence|done].
  - split; [done|]. intros b Hbo. assert (b <> a) by congruence.
    rewrite Hlk, decide_False by congruence. destruct (Ho2 b Hbo). split; [|done].
    by apply not_elem_of_cons.
  - intros b h2. rewrite Hlk. case_decide as Hab.
    + subst b. intros [= <-]. right. right. split; [done|left].
    + intros Hbh. destruct (Hw b h2 Hbh) as [[j Hj]|[?|[? ?]]]; [left|right; left|right; right].
      * exists j. rewrite Hbu. case_decide; [|done]. subst j.
        apply list_elem_of_lookup in Hj as [n Hn]. rewrite delete_take_drop.
        rewrite <-(take_drop_middle (bucket e bk) i a Hi) in Hn.
        apply list_elem_of_lookup_2 in Hn. rewrite elem_of_app, elem_of_cons in Hn. rewrite elem_of_app.
        destruct Hn as [Hn|[Hn|Hn]]; [by left|congruence|by right].
      * done.
      * split; [done|by right].
Qed.

(** Dropping a held reference. *)
Lemma inv_release e hd op a :
  Inv (Sys e hd op) -> a ∈ hd -> Inv (Sys (shard_release e a) (remove_one a hd) op).
Proof.
  intros HI Hin. pose proof HI as [Hlen Hb Hk Hr Hh [Ho1 Ho2] Hw]. simpl in *.
  destruct (Hh a Hin) as [h Ha]. unfold shard_release. rewrite Ha.
  pose proof (Hr a h Ha) as Hrefs. rewrite (refs_of_remove a hd a), decide_True in Hrefs by done.
  assert (Hno : a ∉ op) by (intros Hop; by apply Ho2 in Hop as [? _]).
  assert (Hrm : remove_one a op = op).
  { clear -Hno. induction op as [|b op IH]; [done|]. apply not_elem_of_cons in Hno as [? ?].
    simpl. rewrite decide_False by done. f_equal. auto. }
  destruct (h_retired _ && _) eqn:E.
  - apply andb_true_iff in E as [E1 E2]. simpl in E1, E2. apply Nat.eqb_eq in E2.
    rewrite <-Hrm. eapply inv_free; [exact HI|exact Ha|by right|..].
    + rewrite refs_of_pos. lia.
    + intros b Hne. by apply refs_of_remove_ne.
  - eapply (inv_update _ _ _ _ _ a h (set_refs (pred (h_refs h)) h)); [exact HI|exact Ha|done..|
      | | |done].
    + intros b Hne. by apply refs_of_remove_ne.
    + simpl. lia.
    + intros Hrt. apply refs_of_pos. simpl in E. rewrite Hrt in E. simpl in E.
      apply Nat.eqb_neq in E. lia.
Qed.

(** [insert_shard] linking a handle, or freeing it for the one already there. *)
Lemma inv_insert e e' hd op a b acq :
  Inv (Sys e hd op) -> a ∈ op -> insert_shard e a acq = (Some b, e') ->
  Inv (Sys e' (if acq : bool then b :: hd else hd) (remove_one a op)).
Proof.
  intros HI Hop Hins. pose proof HI as [_ _ _ Hr _ [_ Ho2] _]. simpl in *.
  destruct (Ho2 a Hop) as (Hna & h & Ha & Hret). unfold insert_shard in Hins.
  rewrite Ha in Hins. destruct (find_locked _ _) as [c|] eqn:Ef.
  - injection Hins as -> <-. apply find_locked_Some in Ef as [Hb _].
    assert (Ht : in_table e b) by by eexists.
    destruct (inv_ne_held _ _ _ _ HI Ht) as (hb & Hhb & _ & Hbop).
    assert (Hab : a <> b) by congruence. destruct acq.
    + eapply (inv_free _ (b :: hd)); [by apply inv_add_ref| |by left| |done].
      * simpl. rewrite lookup_alter_ne by congruence. exact Ha.
      * by apply not_elem_of_cons.
    + eapply inv_free; [exact HI|exact Ha|by left|done|done].
  - injection Hins as -> <-. destruct acq.
    + apply (inv_link _ hd); [done..| |].
      * intros c Hne. by apply refs_of_cons_ne.
      * rewrite refs_of_cons, decide_True by done. by rewrite refs_of_zero.
    + apply (inv_link _ hd); [done..|]. by apply refs_of_zero.
Qed.

Lemma step_inv s s' : Inv s -> step s s' -> Inv s'.
Proof.
  intros HI Hs. destruct Hs as [e e' k a hd op Hs|e e' ok k p ks a hd op Hs|e e' a b hd op Hop Hs
    |e e' a b hd op Hop Hs|e a hd op Hin|e A r fail e' a f hd op Hin Hf Hs|e a hd op Hin
    |e e' k a hd op Hs|e e' r ok k hd op Hs].
  - unfold acquire_cached in Hs. destruct (find_locked e k) eqn:E; [|done].
    injection Hs as -> <-. apply inv_add_ref; [done|]. apply find_locked_Some in E as [? _].
    by eexists.
  - by eapply inv_open.
  - by eapply (inv_insert _ _ _ _ _ _ true).
  - by eapply (inv_insert _ _ _ _ _ _ false).
  - apply inv_add_ref; [done|]. unfold all_handles in Hin.
    apply list_elem_of_In, in_concat in Hin as (l & Hl & Hin).
    apply list_elem_of_In, list_elem_of_lookup in Hl as [i Hi]. exists i.
    unfold bucket. rewrite Hi. by apply list_elem_of_In.
  - pose proof HI as [_ _ _ Hr Hh [_ Ho2] _]. destruct (Hh a Hin) as [h Ha]. simpl in Ha.
    unfold run_shard in Hs. rewrite Ha in Hs.
    pose proof (Hf (with_data (default ∅ (inodes e !! h_inode h)) (h_shard h))) as Hkey.
    destruct (f _) as [r2 sh]. simpl in Hkey. injection Hs as _ <-.
    eapply (inv_update _ _ _ _ _ a h (with_shard sh h)); [exact HI|exact Ha|try done..].
    + simpl. by apply Hr.
    + intros Hop. by apply Ho2 in Hop as [? _].
  - by apply inv_release.
  - by eapply inv_detach.
  - unfold unlink_file in Hs. destruct ok; injection Hs as _ <-; [|done].
    by destruct HI.
Qed.

Lemma steps_inv s s' : Inv s -> rtc step s s' -> Inv s'.
Proof. intros HI Hs. induction Hs as [|s s1 s2 H1 _ IH]; [done|]. by eapply IH, step_inv. Qed.

Lemma put_key sh o now id v ttl : key (edb_shard_put sh o now id v ttl).2 = key sh.
Proof.
  unfold edb_shard_put, do_put_locked, prepare. destruct (stmt_for _ _ _) as [st c]. simpl.
  repeat case_match; done.
Qed.

(** The manager [edb_engine_open] allocates, before it reads the directory. *)
Definition empty_manager (dir : gmap string nat) (files : gmap nat table) : engine :=
  Engine ∅ (replicate EDB_SHARD_BUCKETS []) dir files.

Lemma bucket_empty dir files i : bucket (empty_manager dir files) i = [].
Proof.
  unfold bucket, empty_manager. cbn [buckets].
  destruct (replicate EDB_SHARD_BUCKETS [] !! i) as [l|] eqn:E; [|done].
  by apply lookup_replicate in E as [-> _].
Qed.

Lemma inv_empty dir files : Inv (Sys (empty_manager dir files) [] []).
Proof.
  split; cbn [eng held opening].
  - apply length_replicate.
  - intros i a. rewrite bucket_empty. by intros ?%elem_of_nil.
  - intros i. rewrite bucket_empty. constructor.
  - done.
  - by intros a ?%elem_of_nil.
  - split; [constructor|]. by intros a ?%elem_of_nil.
  - done.
Qed.

(** Two handles of the table with one key are the same handle. *)
Lemma inv_unique s a b k :
  Inv s -> in_table (eng s) a -> in_table (eng s) b ->
  handle_key (eng s) a = Some k -> handle_key (eng s) b = Some k -> a = b.
Proof.
  intros [_ Hb Hk _ _ _ _] [i Hi] [j Hj] Ha Hb'.
  destruct (Hb i a Hi) as (ha & Hha & Hbi & _), (Hb j b Hj) as (hb & Hhb & Hbj & _).
  unfold handle_key in Ha, Hb'. rewrite Hha in Ha. rewrite Hhb in Hb'. simpl in *.
  assert (Hij : j = i) by congruence. rewrite Hij in *. clear Hij Hbi Hbj.
  apply list_elem_of_lookup in Hi as [m Hm]. apply list_elem_of_lookup in Hj as [n Hn].
  assert (m = n); [|congruence]. eapply (NoDup_lookup _ _ _ (handle_key (eng s) a)); [apply (Hk i)|..];
    rewrite list_lookup_fmap; [by rewrite Hm|rewrite Hn; simpl; f_equal].
  unfold handle_key. rewrite Hha, Hhb. simpl. congruence.
Qed.

(** C2: In every interleaving of the critical sections of the shard
    manager (lookups, opens, inserts, operations, releases, garbage
    collections) a handle somebody holds a reference on has not been freed, the
    counter of every handle is the number of references held, two cached
    handles never have the same key, and when nothing is held or being opened
    every allocated handle is in the table: nothing dangles and nothing leaks. *)
Theorem manager_safe dir files s
    (Hs : rtc step (Sys (empty_manager dir files) [] []) s) :
  (forall a, a ∈ held s -> is_Some (heap (eng s) !! a)) /\
  (forall a h, heap (eng s) !! a = Some h -> h_refs h = refs_of (held s) a) /\
  (forall a b k, in_table (eng s) a -> in_table (eng s) b ->
     handle_key (eng s) a = Some k -> handle_key (eng s) b = Some k -> a = b) /\
  (held s = [] -> opening s = [] ->
   forall a, is_Some (heap (eng s) !! a) -> in_table (eng s) a).
Proof.
  pose proof (steps_inv _ _ (inv_empty dir files) Hs) as HI. split; [apply HI|].
  split; [apply HI|]. split; [intros; by eapply inv_unique|].
  intros Hh Ho a [h Ha]. destruct (inv_owned _ HI a h Ha) as [?|[Hin|[_ Hin]]]; [done|..].
  - rewrite Ho in Hin. by apply elem_of_nil in Hin.
  - rewrite Hh in Hin. by apply elem_of_nil in Hin.
Qed.

(** A thread opens a shard, another one collects it, the first one writes and
    both let go of it. *)
Lemma manager_safe_witness :
  exists s, rtc step (Sys (empty_manager ∅ ∅) [] []) s /\ heap (eng s) = ∅ /\
    forall a, is_Some (heap (eng s) !! a) -> in_table (eng s) a.
Proof.
  set (k := "00000000000000000000000000000000").
  eassert (rtc step (Sys (empty_manager ∅ ∅) [] []) _) as Hs.
  { eapply rtc_l; [eapply (step_open _ _ true k "p" "ks" 0 [] []); vm_compute; reflexivity|].
    eapply rtc_l; [eapply (step_insert _ _ 0 0); [left|vm_compute; reflexivity]|].
    eapply rtc_l; [eapply (step_gc _ _ k 0); vm_compute; reflexivity|].
    eapply rtc_l; [eapply (step_unlink _ _ true true k); reflexivity|].
    eapply rtc_l; [eapply (step_run _ bool true false _ 0
                            (fun sh => edb_shard_put sh SqlOk 1 "a" "1" (-1)));
                   [left|intros; apply put_key|vm_compute; reflexivity]|].
    eapply rtc_l; [eapply (step_release _ 0); left|].
    eapply rtc_l; [eapply (step_release _ 0); left|]. apply rtc_refl. }
  eexists. split; [exact Hs|]. split; [vm_compute; reflexivity|].
  apply (manager_safe ∅ ∅ _ Hs); reflexivity.
Defined.

End ManagerFacts.
