(* ===== verification/EngineFacts.v ===== *)
(** The shard manager as a map from (partition, keyspace) to tables: the
    public operations refine the shard operations on those tables, a restart
    keeps them, and what a race with garbage collection loses. *)

From S2P Require Import Prelude BlockHash Md5 Json Shard ShardFacts Manager ManagerFacts.

Module EngineFacts.

Import Json Shard Manager ManagerFacts.

Local Open Scope nat_scope.

(** ** Tables by key *)

Lemma append_inj_r (s : string) a b : a +:+ s = b +:+ s -> a = b.
Proof.
  revert b. induction a as [|c a IH]; intros [|d b] Hab.
  - done.
  - apply (f_equal String.length) in Hab. rewrite !length_append in Hab. simpl in Hab. lia.
  - apply (f_equal String.length) in Hab. rewrite !length_append in Hab. simpl in Hab. lia.
  - injection Hab as -> Hab. f_equal. by apply IH.
Qed.

Lemma shard_file_inj a b : shard_file a = shard_file b -> a = b.
Proof. apply append_inj_r. Qed.

Lemma length_shard_key p ks : String.length (shard_key p ks) = 32.
Proof. apply Md5.length_edb_md5_hex. Qed.

(** What is stored under a key: the rows of its file. *)
Definition engine_table (e : engine) (k : string) : table :=
  default ∅ (directory e !! shard_file k ≫= fun ino => inodes e !! ino).

(** Directory entries name distinct allocated files, and every handle has the
    file its key names. *)
Record Files (e : engine) : Prop := {
  files_alloc : forall n ino, directory e !! n = Some ino -> is_Some (inodes e !! ino);
  files_inj : forall n m ino, directory e !! n = Some ino -> directory e !! m = Some ino -> n = m;
  files_open : forall a h, heap e !! a = Some h ->
    directory e !! shard_file (key (h_shard h)) = Some (h_inode h);
}.

(** A manager nobody is using. *)
Definition quiescent (e : engine) : Prop := Inv (Sys e [] []) /\ Files e.

Lemma files_empty dir files :
  (forall n ino, dir !! n = Some ino -> is_Some (files !! ino)) ->
  (forall n m ino, dir !! n = Some ino -> dir !! m = Some ino -> n = m) ->
  quiescent (empty_manager dir files).
Proof. intros. split; [apply inv_empty|]. by split. Qed.

Lemma open_handle_files e k p ks a e' :
  Files e -> String.length k = 32 -> open_handle e true k p ks = Some (a, e') ->
  Files e' /\ (forall k', engine_table e' k' = engine_table e k') /\
  exists sh ino, heap e !! a = None /\ heap e' = <[a := Handle sh ino 0 false]> (heap e) /\
    buckets e' = buckets e /\ key sh = k /\ (dom (directory e) ⊆ dom (directory e')) /\
    (is_Some (directory e !! shard_file k) -> directory e' = directory e /\ inodes e' = inodes e).
Proof.
  intros [Ha Hi Hh] Hk Hopen. unfold open_handle in Hopen.
  set (r := match directory e !! shard_file k with Some _ => _ | None => _ end) in Hopen.
  destruct r as [ino e1] eqn:Hr. subst r.
  assert (He1 : heap e1 = heap e /\ buckets e1 = buckets e /\
    directory e1 !! shard_file k = Some ino /\
    (forall n j, directory e1 !! n = Some j -> is_Some (inodes e1 !! j)) /\
    (forall n m j, directory e1 !! n = Some j -> directory e1 !! m = Some j -> n = m) /\
    (forall n j, directory e !! n = Some j -> directory e1 !! n = Some j) /\
    (forall k', engine_table e1 k' = engine_table e k') /\
    (is_Some (directory e !! shard_file k) -> directory e1 = directory e /\ inodes e1 = inodes e)).
  { destruct (directory e !! shard_file k) as [j|] eqn:Ed; cbn zeta in Hr;
      injection Hr as <- <-; [by split_and!|].
    set (ino := fresh (dom (inodes e))).
    assert (Hfresh : inodes e !! ino = None) by apply not_elem_of_dom, is_fresh.
    assert (Hnew : forall n, directory e !! n <> Some ino)
      by (intros n Hn; apply Ha in Hn as [? ?]; congruence).
    cbn [heap buckets directory inodes]. split_and!; [done..|by rewrite lookup_insert_eq| | | | |].
    - intros n j. rewrite !lookup_insert. repeat case_decide; try done; try congruence.
      intros Hn. by eapply Ha.
    - intros n m j. rewrite (lookup_insert _ _ n), (lookup_insert _ _ m).
      destruct (decide (_ = n)) as [<-|?], (decide (_ = m)) as [<-|?]; [done|..|apply Hi].
      + intros [= <-] Hm. by apply Hnew in Hm.
      + intros Hn [= <-]. by apply Hnew in Hn.
    - intros n j Hn. rewrite lookup_insert_ne; [done|]. intros Heq. congruence.
    - intros k'. unfold engine_table. cbn [directory inodes].
      destruct (decide (shard_file k = shard_file k')) as [Hkk|Hkk].
      + rewrite <-Hkk, Ed, lookup_insert_eq. simpl. by rewrite lookup_insert_eq.
      + rewrite lookup_insert_ne by done. destruct (directory e !! shard_file k') as [j|] eqn:Ej; [|done]. simpl.
        rewrite lookup_insert_ne; [done|]. intros <-. by apply Hnew in Ej.
    - by intros [? ?]. }
  destruct He1 as (Hheap & Hbk & Hd & Ha1 & Hi1 & Hsub & Ht & Hsame). clear Hr.
  simpl in Hopen. injection Hopen as <- <-. split; [|split; [done|]].
  - split; cbn [heap directory inodes with_heap]; [done..|].
    intros a h. rewrite Hheap, lookup_insert. case_decide.
    + intros [= <-]. simpl. by rewrite ShardFacts.substring_full by lia.
    + intros Hah. by eapply Hsub, Hh.
  - eexists _, ino. cbn [heap buckets directory inodes with_heap]. rewrite Hheap.
    split_and!; [apply not_elem_of_dom, is_fresh|reflexivity|done| | |done].
    + simpl. apply ShardFacts.substring_full. lia.
    + intros n. rewrite !elem_of_dom. intros [j Hj]. eauto.
Qed.

(** ** Sequential refinement *)

(** A change of the manager that only concerns handles and the table. *)
Lemma files_same e e' :
  Files e -> directory e' = directory e -> inodes e' = inodes e ->
  (forall a h', heap e' !! a = Some h' -> exists h, heap e !! a = Some h /\
     key (h_shard h') = key (h_shard h) /\ h_inode h' = h_inode h) ->
  Files e' /\ forall k, engine_table e' k = engine_table e k.
Proof.
  intros [Ha Hi Hh] Hd Hino Hheap. split; [|intros k; unfold engine_table; by rewrite Hd, Hino].
  split; rewrite ?Hd, ?Hino; [done..|]. intros a h' Hah.
  destruct (Hheap a h' Hah) as (h & Hah2 & -> & ->). by eapply Hh.
Qed.

Lemma alter_handle e f a b h' :
  (forall h, key (h_shard (f h)) = key (h_shard h) /\ h_inode (f h) = h_inode h) ->
  alter f a (heap e) !! b = Some h' -> exists h, heap e !! b = Some h /\
     key (h_shard h') = key (h_shard h) /\ h_inode h' = h_inode h.
Proof.
  intros Hf. rewrite lookup_alter. case_decide.
  - subst b. destruct (heap e !! a) as [h|]; [|done]. intros [= <-]. exists h. split; [done|apply Hf].
  - intros Hb. by exists h'.
Qed.

Lemma remove_one_same a : remove_one a [a] = [].
Proof. simpl. by rewrite decide_True. Qed.

(** [shard_for] returns a handle of the right file, with one reference. *)
Lemma shard_for_ok e p ks a e' :
  quiescent e -> shard_for e true p ks = (Some a, e') ->
  Inv (Sys e' [a] []) /\ Files e' /\ (forall k, engine_table e' k = engine_table e k) /\
  exists h, heap e' !! a = Some h /\ key (h_shard h) = shard_key p ks.
Proof.
  intros [HI HF] Hs. unfold shard_for in Hs. pose proof (length_shard_key p ks) as Hlen.
  generalize dependent (shard_key p ks). intros k Hs Hlen. cbn zeta in Hs.
  destruct (acquire_cached e k) as [[b|] e1] eqn:Hac.
  - injection Hs as -> <-.
    pose proof (step_inv _ _ HI (step_hit _ _ _ _ [] [] Hac)) as HI1.
    unfold acquire_cached in Hac. destruct (find_locked e k) as [c|] eqn:Hf; [|done].
    injection Hac as -> <-. apply find_locked_Some in Hf as [_ Hk].
    unfold handle_key in Hk. destruct (heap e !! a) as [h|] eqn:Ha; [|done]. injection Hk as Hk.
    destruct (files_same e (with_heap (alter add_ref a (heap e)) e) HF) as [HF1 Ht1];
      [done..|intros ? ?; by apply alter_handle|].
    set (g := fun h => with_shard (adopt_names p ks (h_shard h)) h).
    assert (Hg : forall h, key (h_shard (g h)) = key (h_shard h) /\ h_inode (g h) = h_inode h).
    { intros h0. split; [|done]. subst g. simpl. unfold adopt_names. by case_match. }
    destruct (files_same _ (with_heap (alter g a (heap (with_heap (alter add_ref a (heap e)) e)))
       (with_heap (alter add_ref a (heap e)) e)) HF1) as [HF2 Ht2];
      [done..|intros ? ?; by apply alter_handle|].
    split_and!; [|done|intros k'; rewrite Ht2; apply Ht1|].
    + eapply (inv_update _ _ [a] [a] [] a (add_ref h) (g (add_ref h)));
        [exact HI1| | |done|apply Hg|done|done| | |by intros ?%elem_of_nil].
      * simpl. by rewrite lookup_alter_eq, Ha.
      * simpl. apply alter_alt_Some. by rewrite lookup_alter_eq, Ha.
      * simpl. rewrite refs_of_cons, decide_True by done. simpl. f_equal.
        by apply (inv_refs _ HI a h Ha).
      * intros _. left.
    + exists (g (add_ref h)). split; [|by rewrite (proj1 (Hg _))].
      simpl. by rewrite !lookup_alter_eq, Ha.
  - unfold acquire_cached in Hac. destruct (find_locked e k) as [c|] eqn:Hf; [done|].
    injection Hac as <-. destruct (open_handle e true k p ks) as [[b e1]|] eqn:Ho; [|done].
    pose proof (inv_open _ _ _ _ _ _ _ _ _ HI Ho) as HI1.
    destruct (open_handle_files _ _ _ _ _ _ HF Hlen Ho)
      as (HF1 & Ht1 & sh & ino & Hb & Hh1 & Hbk & Hk & _ & _).
    assert (Hin : b ∈ [b]) by left. pose proof (inv_insert _ _ _ _ _ _ true HI1 Hin Hs) as HI2.
    rewrite remove_one_same in HI2.
    assert (Hb1 : heap e1 !! b = Some (Handle sh ino 0 false)) by (by rewrite Hh1, lookup_insert_eq).
    unfold insert_shard in Hs. rewrite Hb1 in Hs. cbn [h_shard] in Hs. rewrite Hk in Hs.
    destruct (find_locked e1 k) as [c|] eqn:Hf1.
    { apply find_locked_Some in Hf1 as [Hc1 Hc2]. rewrite (bucket_buckets e) in Hc1 by done.
      exfalso. eapply find_locked_None; [exact Hf|exact Hc1|].
      destruct (inv_bucket _ HI _ _ Hc1) as (hc & Hhc & _). unfold handle_key in *. simpl in Hhc.
      rewrite Hh1, lookup_insert_ne in Hc2; [done|]. intros ->. congruence. }
    cbn zeta in Hs. injection Hs as -> <-.
    destruct (files_same e1 (with_buckets (<[bucket_for k:=a :: bucket e1 (bucket_for k)]> (buckets e1))
                (with_heap (alter (set_refs 1) a (heap e1)) e1)) HF1) as [HF2 Ht2];
      [done..|intros ? ?; by apply alter_handle|].
    split_and!; [done|done|intros k'; rewrite Ht2; apply Ht1|].
    eexists. simpl. rewrite lookup_alter_eq, Hb1. split; [reflexivity|done].
Qed.

(** It does return one. *)
Lemma shard_for_some e p ks e' : shard_for e true p ks <> (None, e').
Proof.
  unfold shard_for. generalize (shard_key p ks). intros k. cbn zeta.
  destruct (acquire_cached e _) as [[a|] e1]; [done|].
  unfold open_handle. destruct (directory e1 !! _) as [ino|]; cbn beta iota zeta;
    unfold edb_shard_open; cbn [mbind option_bind]; unfold insert_shard;
    cbn [with_heap heap]; rewrite lookup_insert_eq; by destruct (find_locked _ _).
Qed.

(** What a public operation does to the tables. *)
Lemma on_shard_table {A} e p ks (fail : A) (f : edb_shard -> A * edb_shard) :
  quiescent e -> (forall sh, key (f sh).2 = key sh) ->
  quiescent (on_shard e true p ks fail f).2 /\
  exists sh, data sh = engine_table e (shard_key p ks) /\
    (on_shard e true p ks fail f).1 = (f sh).1 /\
    engine_table (on_shard e true p ks fail f).2 (shard_key p ks) = data (f sh).2 /\
    forall k, k <> shard_key p ks -> engine_table (on_shard e true p ks fail f).2 k = engine_table e k.
Proof.
  intros Hq Hf. destruct (on_shard e true p ks fail f) as [r e'] eqn:Hrun. cbn [fst snd].
  unfold on_shard in Hrun. destruct (shard_for e true p ks) as [[a|] e1] eqn:Hs.
  2: { exfalso. by eapply shard_for_some. }
  destruct (shard_for_ok _ _ _ _ _ Hq Hs) as (HI1 & HF1 & Ht1 & h & Ha & Hk).
  unfold run_shard in Hrun. rewrite Ha in Hrun. set (sh := with_data _ _) in Hrun.
  destruct (f sh) as [r' sh'] eqn:Ef. injection Hrun as <- <-.
  pose proof (Hf sh) as Hkey. rewrite Ef in Hkey. simpl in Hkey.
  set (e2 := Engine _ _ _ _).
  assert (HI2 : Inv (Sys e2 [a] [])).
  { eapply (inv_update _ _ [a] [a] [] a h (with_shard sh' h));
      [exact HI1|exact Ha|done|done|done|done|done| |by left|by intros ?%elem_of_nil].
    by apply (inv_refs _ HI1 a h Ha). }
  pose proof (files_open _ HF1 a h Ha) as Hdir. rewrite Hk in Hdir.
  destruct HF1 as [Hal Hinj Hop].
  assert (HF2 : Files e2).
  { split; cbn [directory inodes heap e2].
    - intros n i Hn. rewrite lookup_insert. case_decide; [done|by eapply Hal].
    - done.
    - intros b h2. rewrite lookup_insert. case_decide; [|apply Hop].
      subst b. intros [= <-]. simpl. rewrite Hkey, Hk. done. }
  destruct (files_same e2 (shard_release e2 a) HF2) as [HF3 Ht3].
  1,2: unfold shard_release, free_handle; by repeat case_match.
  { intros b hb. unfold shard_release. destruct (heap e2 !! a) as [h2|] eqn:Ha2; [|by eauto].
    case_match; simpl.
    - intros [_ Hb]%lookup_delete_Some. by eauto.
    - rewrite lookup_insert. case_decide; [|by eauto]. subst b. intros [= <-]. by eauto. }
  split.
  - split; [|done]. assert (Hin : a ∈ [a]) by left.
    pose proof (inv_release _ _ _ _ HI2 Hin) as HI3. by rewrite remove_one_same in HI3.
  - exists sh. split_and!; [|by rewrite Ef| |].
    + simpl. rewrite <-Ht1. unfold engine_table. by rewrite Hdir.
    + rewrite Ht3, Ef. unfold engine_table. simpl. rewrite Hdir. simpl.
      by rewrite lookup_insert_eq.
    + intros k Hne. rewrite Ht3, <-Ht1. unfold engine_table. simpl.
      destruct (directory e1 !! shard_file k) as [i|] eqn:Ei; [|done]. simpl.
      rewrite lookup_insert_ne; [done|]. intros <-.
      apply Hne, shard_file_inj. by eapply Hinj.
Qed.

(** C13: A public operation on an idle manager is the shard operation
    on the table of its (partition, keyspace): it sees the rows stored
    there whether the shard was open or not, its result is the operation's
    result, the operation's rows are stored there, no other table changes and
    the manager is idle and well formed again. *)
Theorem on_shard_refines {A} e p ks (fail : A) (f : edb_shard -> A * edb_shard) r e'
    (Hq : quiescent e) (Hf : forall sh, key (f sh).2 = key sh)
    (Hrun : on_shard e true p ks fail f = (r, e')) :
  quiescent e' /\
  exists sh, data sh = engine_table e (shard_key p ks) /\ r = (f sh).1 /\
    engine_table e' (shard_key p ks) = data (f sh).2 /\
    forall k, k <> shard_key p ks -> engine_table e' k = engine_table e k.
Proof.
  destruct (on_shard_table e p ks fail f Hq Hf) as (Hq' & sh & Hd & Hr & Ht & Ho).
  rewrite Hrun in *. split; [done|]. by exists sh.
Qed.

Lemma on_shard_refines_witness :
  let f := fun sh => edb_shard_put sh SqlOk 7 "a" "1" (-1) in
  let r := on_shard (empty_manager ∅ ∅) true "p" "ks" false f in
  quiescent r.2 /\ r.1 = true /\
  engine_table r.2 (shard_key "p" "ks") = {["a"%string := put_row "1" (-1) 7 (Some "")]}.
Proof.
  intros f r.
  destruct (on_shard_refines (empty_manager ∅ ∅) "p" "ks" false f r.1 r.2)
    as (Hq & sh & Hd & Hr & Ht & _);
    [apply files_empty; done|intros; apply put_key|apply surjective_pairing|].
  split; [exact Hq|]. clearbody r. split.
  - rewrite Hr. by apply ShardFacts.put_data.
  - rewrite Ht. unfold f. rewrite (proj2 (ShardFacts.put_data _ _ _ _ _)), Hd. reflexivity.
Defined.

(** ** A write that races with garbage collection *)

(** A thread that obtained a shard before [edb_shard_gc] detached it
    writes to the unlinked file: its [put] reports success, and the document
    is in no table of the directory. *)
Theorem gc_race_loses_write e k a e1 e2 e3 now id v ttl
    (Hget : acquire_cached e k = (Some a, e1)) (Hgc : gc_detach e1 k = (Some a, e2))
    (Hrm : unlink_file e2 true k = (true, e3)) :
  let '(ok, e4) := run_shard e3 a false (fun sh => edb_shard_put sh SqlOk now id v ttl) in
  ok = true /\ engine_table (shard_release (shard_release e4 a) a) k = ∅.
Proof.
  unfold acquire_cached in Hget. destruct (find_locked e k) as [c|] eqn:Hf; [|done].
  injection Hget as -> <-. apply find_locked_Some in Hf as [_ Hk].
  unfold handle_key in Hk. destruct (heap e !! a) as [h|] eqn:Ha; [|done]. clear Hk.
  unfold gc_detach in Hgc. destruct (list_find _ _) as [[i c]|]; [|done]. injection Hgc as -> <-.
  unfold unlink_file in Hrm. injection Hrm as <-. unfold run_shard. simpl.
  rewrite !lookup_alter_eq, Ha. simpl.
  destruct (ShardFacts.put_data (with_data (default ∅ (inodes e !! h_inode h)) (h_shard h))
              now id v ttl) as [Hok _].
  destruct (edb_shard_put _ _ _ _ _ _) as [ok sh]. split; [exact Hok|].
  assert (Hdir : forall e', directory (shard_release e' a) = directory e').
  { intros e'. unfold shard_release. by repeat case_match. }
  unfold engine_table. rewrite !Hdir. simpl. by rewrite lookup_delete_eq.
Qed.

(** One shard, open in the table and idle. *)
Definition one_shard (k : string) (rows : table) : engine :=
  default (empty_manager ∅ ∅) (open_handle (empty_manager {[shard_file k := 0]} {[0 := rows]}) true k "p" "ks"
     ≫= fun '(a, e) => Some (insert_shard e a false).2).

Lemma gc_race_loses_write_witness :
  let k := "00000000000000000000000000000000" in
  exists e1 e2 e3, acquire_cached (one_shard k ∅) k = (Some 0, e1) /\
    gc_detach e1 k = (Some 0, e2) /\ unlink_file e2 true k = (true, e3) /\
    let '(ok, e4) := run_shard e3 0 false (fun sh => edb_shard_put sh SqlOk 8 "b" "2" (-1)) in
    ok = true /\ engine_table (shard_release (shard_release e4 0) 0) k = ∅.
Proof.
  intros k. eassert (acquire_cached (one_shard k ∅) k = (Some 0, _)) as H1; [vm_compute; reflexivity|].
  eassert (gc_detach (snd (acquire_cached (one_shard k ∅) k)) k = (Some 0, _)) as H2; [vm_compute; reflexivity|].
  rewrite H1 in H2. cbn [snd] in H2. do 3 eexists. split; [exact H1|]. split; [exact H2|]. split; [reflexivity|].
  apply (gc_race_loses_write _ _ _ _ _ _ 8 "b" "2" (-1) H1 H2 eq_refl).
Defined.

(** ** Restart *)

Lemma substring_split n m (s : string) :
  String.length s = n + m -> String.substring 0 n s +:+ String.substring n m s = s.
Proof.
  revert s. induction n as [|n IH]; intros s Hlen.
  - assert (String.substring 0 0 s = "") as -> by (by destruct s).
    apply ShardFacts.substring_full. lia.
  - destruct s as [|c s]; [done|]. simpl in Hlen.
    exact (f_equal (String c) (IH s ltac:(lia))).
Qed.

Lemma length_substring n (s : string) :
  n <= String.length s -> String.length (String.substring 0 n s) = n.
Proof.
  revert s. induction n as [|n IH]; intros [|c s] Hn; simpl in *; try done; try lia.
  rewrite IH; lia.
Qed.

Lemma shard_file_key_Some name k :
  shard_file_key name = Some k -> name = shard_file k /\ String.length k = 32.
Proof.
  unfold shard_file_key. destruct (_ && _) eqn:E; [|done]. intros [= <-].
  apply andb_true_iff in E as [E1 E2]. apply Nat.eqb_eq in E1. apply String.eqb_eq in E2. split.
  - unfold shard_file. rewrite <-E2. symmetry. apply (substring_split 32 7). done.
  - apply length_substring. lia.
Qed.

Lemma shard_file_key_file k : String.length k = 32 -> shard_file_key (shard_file k) = Some k.
Proof.
  intros Hk. unfold shard_file_key.
  assert (Hlen : String.length (shard_file k) = 39)
    by (unfold shard_file; rewrite length_append, Hk; done).
  pose proof (substring_split 32 7 (shard_file k) Hlen) as Hs. rewrite Hlen.
  assert (Hpre : String.substring 0 32 (shard_file k) = k).
  { clear Hs Hlen. unfold shard_file. generalize ".sqlite". revert Hk. generalize 32.
    induction k as [|c k IH]; intros n <- s; [by destruct s|]. simpl. f_equal. by apply IH. }
  rewrite Hpre in Hs. apply String.app_inj in Hs. by rewrite Hs, Hpre.
Qed.

Definition cached (e : engine) (k : string) : Prop := is_Some (find_locked e k).

Lemma cached_spec e k :
  cached e k <-> exists a, a ∈ bucket e (bucket_for k) /\ handle_key e a = Some k.
Proof.
  unfold cached. destruct (find_locked e k) as [a|] eqn:E.
  - split; [|by eauto]. intros _. exists a. by apply find_locked_Some.
  - split; [by intros [? ?]|]. intros (a & Ha & Hk). exfalso.
    by eapply find_locked_None.
Qed.

Lemma cached_mono e e' :
  (forall i a, a ∈ bucket e i -> a ∈ bucket e' i) ->
  (forall i a, a ∈ bucket e i -> handle_key e' a = handle_key e a) ->
  forall k, cached e k -> cached e' k.
Proof.
  intros Hb Hk k. rewrite !cached_spec. intros (a & Ha & Hka). exists a.
  split; [by apply Hb|]. by rewrite (Hk _ _ Ha).
Qed.

(** Opening one file of the directory at startup. *)
Lemma open_one e k a e1 :
  quiescent e -> is_Some (directory e !! shard_file k) -> String.length k = 32 ->
  open_handle e true k "" "" = Some (a, e1) ->
  let e2 := (insert_shard e1 a false).2 in
  quiescent e2 /\ directory e2 = directory e /\ inodes e2 = inodes e /\
  (forall k', cached e k' -> cached e2 k') /\ cached e2 k.
Proof.
  intros [HI HF] Hd Hlen Ho.
  destruct (open_handle_files _ _ _ _ _ _ HF Hlen Ho)
    as (HF1 & Ht1 & sh & ino & Hna & Hh1 & Hbk & Hk & _ & Hsame).
  destruct (Hsame Hd) as [Hd1 Hi1].
  pose proof (inv_open _ _ _ _ _ _ _ _ _ HI Ho) as HI1.
  assert (Hin : a ∈ [a]) by left.
  assert (Ha1 : heap e1 !! a = Some (Handle sh ino 0 false)) by (by rewrite Hh1, lookup_insert_eq).
  assert (Hbu : forall i b, b ∈ bucket e i -> b <> a).
  { intros i b Hb ->. destruct (inv_bucket _ HI _ _ Hb) as (? & Hb2 & _). simpl in Hb2. congruence. }
  assert (Hkey : forall i b, b ∈ bucket e i -> handle_key e1 b = handle_key e b).
  { intros i b Hb. unfold handle_key. rewrite Hh1, lookup_insert_ne; [done|].
    apply not_eq_sym. by eapply Hbu. }
  destruct (insert_shard e1 a false) as [ro e2] eqn:Hins. cbn zeta. cbn [snd].
  assert (exists b, ro = Some b) as [b ->].
  { unfold insert_shard in Hins. rewrite Ha1 in Hins. destruct (find_locked _ _); simplify_eq; eauto. }
  pose proof (inv_insert _ _ _ _ _ _ false HI1 Hin Hins) as HI2. cbn iota in HI2.
  rewrite remove_one_same in HI2.
  unfold insert_shard in Hins. rewrite Ha1 in Hins. cbn [h_shard] in Hins. rewrite Hk in Hins.
  destruct (find_locked e1 k) as [c|] eqn:Hf; injection Hins as <- <-.
  - assert (HF2 : Files (free_handle a e1)).
    { eapply files_same; [exact HF1|done|done|]. intros x hx Hx. simpl in Hx.
      apply lookup_delete_Some in Hx as [_ Hx]. by eauto. }
    assert (Hmono : forall k', cached e1 k' -> k' = k \/ cached e k' -> cached (free_handle a e1) k').
    { intros k' Hc1 Hor. apply cached_spec in Hc1 as (x & Hx & Hkx). apply cached_spec.
      exists x. split; [done|]. rewrite (bucket_buckets e) in Hx by done.
      unfold handle_key. simpl. rewrite lookup_delete_ne; [done|]. apply not_eq_sym. by eapply Hbu. }
    split; [done|]. split; [done|]. split; [done|]. split.
    + intros k' Hc. apply Hmono; [|by right]. eapply (cached_mono e); [|exact Hkey|done].
      intros i x. by rewrite (bucket_buckets e e1).
    + apply Hmono; [|by left]. by eexists.
  - assert (Hlb : bucket_for k < length (buckets e1))
      by (rewrite Hbk; pose proof (inv_len _ HI) as Hl; simpl in Hl; rewrite Hl; apply bucket_for_bound).
    set (e2 := with_buckets _ _) in *.
    assert (Hbk2 : forall i, bucket e2 i = if decide (i = bucket_for k)
              then a :: bucket e1 (bucket_for k) else bucket e1 i).
    { intros i. by rewrite <-(bucket_update (with_heap (alter (set_refs 0) a (heap e1)) e1)). }
    assert (Hkey2 : forall x, handle_key e2 x = handle_key e1 x)
      by (intros x; by apply handle_key_alter).
    assert (HF2 : Files e2).
    { eapply files_same; [exact HF1|done|done|]. intros ? ?. by apply alter_handle. }
    split; [done|]. split; [done|]. split; [done|]. split.
    + apply cached_mono; intros i x Hx.
      * rewrite Hbk2. rewrite !(bucket_buckets e e1) by done. case_decide; [subst i; by right|done].
      * rewrite Hkey2. by eapply Hkey.
    + apply cached_spec. exists a. split; [rewrite Hbk2, decide_True by done; left|].
      rewrite Hkey2. unfold handle_key. rewrite Ha1. simpl. by rewrite Hk.
Qed.

(** The loop of [edb_engine_open] over the rest of the directory. *)
Lemma open_loop ok entries e e0 :
  quiescent e -> directory e = directory e0 -> inodes e = inodes e0 ->
  (forall n, n ∈ entries -> is_Some (directory e0 !! n)) ->
  let e' := foldl (fun e name =>
           match shard_file_key name with
           | None => e
           | Some k =>
               match open_handle e (ok name) k "" "" with
               | None => e
               | Some (a, e) => (insert_shard e a false).2
               end
           end) e entries in
  quiescent e' /\ directory e' = directory e0 /\ inodes e' = inodes e0 /\
  (forall k, cached e k -> cached e' k) /\
  (forall k, String.length k = 32 -> shard_file k ∈ entries -> ok (shard_file k) = true ->
     cached e' k).
Proof.
  revert e. induction entries as [|name entries IH]; intros e Hq Hd Hi Hent; cbn zeta.
  - simpl. split_and!; try done; [apply Hq..|]. by intros k _ ?%elem_of_nil.
  - cbn [foldl]. set (e1 := match shard_file_key name with Some _ => _ | None => _ end).
    assert (H1 : quiescent e1 /\ directory e1 = directory e /\ inodes e1 = inodes e /\
      (forall k, cached e k -> cached e1 k) /\
      (forall k, String.length k = 32 -> name = shard_file k -> ok name = true -> cached e1 k)).
    { subst e1. destruct (shard_file_key name) as [k|] eqn:Hk.
      2: { split_and!; try done; [apply Hq..|]. intros k Hlen -> _.
           by rewrite shard_file_key_file in Hk. }
      apply shard_file_key_Some in Hk as [-> Hlen].
      destruct (open_handle e (ok (shard_file k)) k "" "") as [[a e1]|] eqn:Ho.
      - destruct (ok (shard_file k)) eqn:Hok.
        2: { unfold open_handle in Ho. by destruct (directory e !! _). }
        assert (Hdk : is_Some (directory e !! shard_file k)) by (rewrite Hd; apply Hent; left).
        destruct (open_one e k a e1 Hq Hdk Hlen Ho) as (Hq2 & ? & ? & ? & ?).
        split; [done|]. split; [done|]. split; [done|]. split; [done|].
        intros k' _ Hkk _. apply shard_file_inj in Hkk. by rewrite <-Hkk.
      - split_and!; try done; [apply Hq..|]. intros k' _ _ Hok. rewrite Hok in Ho.
        unfold open_handle in Ho. by destruct (directory e !! _). }
    destruct H1 as (Hq1 & Hd1 & Hi1 & Hc1 & Hk1). clearbody e1.
    destruct (IH e1 Hq1) as (Hq2 & Hd2 & Hi2 & Hc2 & Hk2); [congruence..| |].
    + intros n Hn. apply Hent. by right.
    + split; [done|]. split; [done|]. split; [done|]. split; [by auto|].
      intros k Hlen Hin Hok. apply elem_of_cons in Hin as [Heq|Hin].
      * apply Hc2, Hk1; [done|by rewrite Heq|by rewrite <-Heq].
      * by apply Hk2.
Qed.

(** Closing the engine and opening it again over the same directory
    keeps every table, even those of files that fail to open; it ends well
    formed, and every shard file that opens is cached. *)
Theorem restart_preserves_tables e entries ok
    (Hq : quiescent e) (Hdir : forall n, n ∈ entries -> is_Some (directory e !! n)) :
  let e' := edb_engine_open (directory e) (inodes e) entries ok in
  quiescent e' /\ (forall k, engine_table e' k = engine_table e k) /\
  (forall k, String.length k = 32 -> shard_file k ∈ entries -> ok (shard_file k) = true ->
     cached e' k).
Proof.
  destruct (open_loop ok entries (empty_manager (directory e) (inodes e)) e)
    as (Hq' & Hd & Hi & _ & Hfind); [|done|done|done|].
  - apply files_empty; apply Hq.
  - split; [done|]. split; [|done]. intros k. unfold engine_table.
    unfold edb_engine_open. fold (empty_manager (directory e) (inodes e)). by rewrite Hd, Hi.
Qed.

Lemma restart_preserves_tables_witness :
  let k := "00000000000000000000000000000000" in
  let e' := edb_engine_open {[shard_file k := 0]} {[0 := {["a"%string := put_row "1" (-1) 7 (Some "")]}]}
              [shard_file k] (fun _ => true) in
  engine_table e' k = {["a"%string := put_row "1" (-1) 7 (Some "")]} /\ cached e' k.
Proof.
  intros k e'.
  set (e := empty_manager {[shard_file k := 0]} {[0 := {["a"%string := put_row "1" (-1) 7 (Some "")]}]}).
  destruct (restart_preserves_tables e [shard_file k] (fun _ => true)) as (_ & Ht & Hc).
  - apply files_empty.
    + intros n ino [_ <-]%lookup_singleton_Some. by eexists.
    + intros n m ino [<- _]%lookup_singleton_Some [<- _]%lookup_singleton_Some. done.
  - intros n ->%list_elem_of_singleton. by eexists.
  - split; [|by apply Hc; [|left|]]. etransitivity; [apply Ht|]. reflexivity.
Defined.

End EngineFacts.
