(* ===== verification/Store.v ===== *)
(** The interface between the configuration and what keeps its records: a
    store of JSON documents under (keyspace, id), as [edb_get], [edb_put],
    [edb_delete] and [edb_all] of the engine on the system database offer it,
    its laws, and the state monad of its clients. StoreFacts.v discharges the
    laws for the engine of Manager.v. *)

From S2P Require Import Prelude Json.

Module Store.

Import Json.

(** ** State passing *)

Definition st (S A : Type) : Type := S -> A * S.

#[export] Instance st_ret {S} : MRet (st S) := fun A a s => (a, s).
#[export] Instance st_bind {S} : MBind (st S) := fun A B f m s => let '(a, s) := m s in f a s.

Lemma st_bind_run {S A B} (m : st S A) (f : A -> st S B) s :
  (m ≫= f) s = f (m s).1 (m s).2.
Proof. unfold mbind, st_bind. by destruct (m s). Qed.

(** A computation moves along a preorder when each of its steps does. *)
Section within.
Context {S : Type} (Rl : S -> S -> Prop) `{!PreOrder Rl}.

Definition within {A} (m : st S A) : Prop := forall s, Rl s (m s).2.

Lemma within_ret {A} (a : A) : within (mret a).
Proof. intros s. reflexivity. Qed.

Lemma within_bind {A B} (m : st S A) (f : A -> st S B) :
  within m -> (forall a, within (f a)) -> within (m ≫= f).
Proof. intros Hm Hf s. rewrite st_bind_run. etransitivity; [apply Hm|apply Hf]. Qed.
End within.

(** Follows a computation to the operations it is made of. *)
Ltac follow :=
  repeat first
    [ exact _
    | apply within_ret
    | apply within_bind; [exact _| |intros ?]
    | match goal with |- within _ (match ?x with _ => _ end) => destruct x end
    | match goal with |- within _ (if ?x then _ else _) => destruct x end
    | assumption | solve [auto] ].

(** ** The interface *)

Class RecordStore (S : Type) := {
  rs_get : string -> string -> st S (option json);
  rs_put : string -> string -> string -> st S bool;
  rs_delete : string -> string -> st S bool;
  rs_all : string -> st S (option json);
}.

(** What a client relies on, for the keyspaces it uses: [rs_view] is the
    documents of a keyspace. Reads leave every view alone and return what is
    there; a write stores what its text parses to or, when it reports
    failure, changes nothing; writes touch one keyspace. *)
Class RecordStoreLaws (S : Type) `{RecordStore S} `{JsonCodec} := {
  rs_keyspaces : list string;
  rs_ok : S -> Prop;
  rs_view : S -> string -> gmap string json;
  rs_get_spec s ks id : rs_ok s -> ks ∈ rs_keyspaces ->
    (rs_get ks id s).1 = rs_view s ks !! id /\
    rs_ok (rs_get ks id s).2 /\
    forall ks', ks' ∈ rs_keyspaces -> rs_view (rs_get ks id s).2 ks' = rs_view s ks';
  rs_all_spec s ks : rs_ok s -> ks ∈ rs_keyspaces ->
    (exists l, (rs_all ks s).1 = Some (JArray l) /\ l ≡ₚ (map_to_list (rs_view s ks)).*2) /\
    rs_ok (rs_all ks s).2 /\
    forall ks', ks' ∈ rs_keyspaces -> rs_view (rs_all ks s).2 ks' = rs_view s ks';
  rs_put_spec s ks id text doc : rs_ok s -> ks ∈ rs_keyspaces ->
    text <> ""%string -> json_parse text = Some doc ->
    rs_ok (rs_put ks id text s).2 /\
    forall ks', ks' ∈ rs_keyspaces -> rs_view (rs_put ks id text s).2 ks' =
      if (rs_put ks id text s).1 && bool_decide (ks' = ks)
      then <[id := doc]> (rs_view s ks') else rs_view s ks';
  rs_delete_spec s ks id : rs_ok s -> ks ∈ rs_keyspaces ->
    rs_ok (rs_delete ks id s).2 /\
    forall ks', ks' ∈ rs_keyspaces -> rs_view (rs_delete ks id s).2 ks' =
      if (rs_delete ks id s).1 && bool_decide (ks' = ks)
      then delete id (rs_view s ks') else rs_view s ks';
}.

End Store.
