(* ===== verification/MapStore.v ===== *)
(** The simplest record store: a finite map from (keyspace, id) to documents,
    with a codec that prints a document as the binary digits of its code. It
    shows that the laws of Store.v and of the JSON codec can hold together,
    and the theorems about clients are instantiated with it. *)

From S2P Require Import Prelude Json Store.
From stdpp Require Import countable.
From Stdlib Require Import SpecFloat.

Module MapStore.

Import Json Store.

(** ** A code for documents *)

#[export] Instance spec_float_eq_dec : EqDecision spec_float.
Proof. solve_decision. Defined.

Definition float_code (d : spec_float) : bool + bool + unit + (bool * positive * Z) :=
  match d with
  | S754_zero s => inl (inl (inl s))
  | S754_infinity s => inl (inl (inr s))
  | S754_nan => inl (inr tt)
  | S754_finite s m e => inr (s, m, e)
  end.

Definition float_uncode (c : bool + bool + unit + (bool * positive * Z)) : spec_float :=
  match c with
  | inl (inl (inl s)) => S754_zero s
  | inl (inl (inr s)) => S754_infinity s
  | inl (inr tt) => S754_nan
  | inr (s, m, e) => S754_finite s m e
  end.

#[export] Instance spec_float_countable : Countable spec_float.
Proof. apply (inj_countable' float_code float_uncode). by intros []. Defined.

Abbreviation leaf := (unit + bool + spec_float + string)%type.

Fixpoint json_tree (j : json) : gen_tree leaf :=
  match j with
  | JNull => GenLeaf (inl (inl (inl tt)))
  | JBool b => GenLeaf (inl (inl (inr b)))
  | JNumber d => GenLeaf (inl (inr d))
  | JString s => GenLeaf (inr s)
  | JArray l => GenNode 0 (map json_tree l)
  | JObject ms => GenNode 1 (map (fun m => GenNode 0 [GenLeaf (inr m.1); json_tree m.2]) ms)
  end.

Fixpoint tree_json (t : gen_tree leaf) : json :=
  match t with
  | GenLeaf (inl (inl (inl tt))) => JNull
  | GenLeaf (inl (inl (inr b))) => JBool b
  | GenLeaf (inl (inr d)) => JNumber d
  | GenLeaf (inr s) => JString s
  | GenNode O l => JArray (map tree_json l)
  | GenNode _ l =>
      JObject (map (fun t => match t with
                             | GenNode _ [GenLeaf (inr n); t] => (n, tree_json t)
                             | _ => (""%string, JNull)
                             end) l)
  end.

(** Induction over nested documents. *)
Fixpoint json_nested_ind (P : json -> Prop) (Hnull : P JNull) (Hbool : forall b, P (JBool b))
    (Hnum : forall d, P (JNumber d)) (Hstr : forall s, P (JString s))
    (Harr : forall l, Forall P l -> P (JArray l))
    (Hobj : forall ms, Forall (fun m => P m.2) ms -> P (JObject ms)) (j : json) : P j :=
  let rec := json_nested_ind P Hnull Hbool Hnum Hstr Harr Hobj in
  match j with
  | JNull => Hnull
  | JBool b => Hbool b
  | JNumber d => Hnum d
  | JString s => Hstr s
  | JArray l => Harr l ((fix go l : Forall P l := match l with
                                     | [] => Forall_nil_2 _
                                     | j :: l => Forall_cons_2 _ _ _ (rec j) (go l)
                                     end) l)
  | JObject ms => Hobj ms ((fix go ms : Forall (fun m => P m.2) ms := match ms with
                                         | [] => Forall_nil_2 _
                                         | m :: ms => Forall_cons_2 _ _ _ (rec m.2) (go ms)
                                         end) ms)
  end.

Lemma tree_json_tree j : tree_json (json_tree j) = j.
Proof.
  induction j as [| | | |l IH|ms IH] using json_nested_ind; try done; simpl; f_equal.
  - induction IH as [|j l Hj _ IHl]; [done|]. simpl. by rewrite Hj, IHl.
  - induction IH as [|[n j] ms Hj _ IHm]; [done|]. simpl in *. by rewrite Hj, IHm.
Qed.

(** ** The codec *)

Fixpoint digits (p : positive) : string :=
  match p with
  | xI p => String "1"%char (digits p)
  | xO p => String "0"%char (digits p)
  | xH => String "!"%char EmptyString
  end.

Fixpoint undigits (s : string) : option positive :=
  match s with
  | String "1"%char s => xI <$> undigits s
  | String "0"%char s => xO <$> undigits s
  | String "!"%char EmptyString => Some xH
  | _ => None
  end.

Lemma undigits_digits p : undigits (digits p) = Some p.
Proof. induction p as [p IH|p IH|]; simpl; by rewrite ?IH. Qed.

#[export] Instance digit_codec : JsonCodec := {|
  json_parse s := p ← undigits s; t ← decode p; Some (tree_json t);
  json_print j := digits (encode (json_tree j));
|}.

#[export] Instance digit_codec_laws : JsonCodecLaws digit_codec.
Proof.
  split.
  - intros j _. simpl. rewrite undigits_digits. cbn [mbind option_bind].
    rewrite decode_encode. cbn [mbind option_bind]. by rewrite tree_json_tree.
  - intros j. simpl. by destruct (encode _).
Qed.

(** ** The store *)

Abbreviation map_store := (gmap string (gmap string json)).

Definition docs (s : map_store) (ks : string) : gmap string json := default ∅ (s !! ks).

(** Whatever the codec its texts are parsed with. *)
#[export] Instance map_record_store {C : JsonCodec} : RecordStore map_store := {|
  rs_get ks id s := (docs s ks !! id, s);
  rs_put ks id text s :=
    match json_parse text with
    | Some doc => (true, <[ks := <[id := doc]> (docs s ks)]> s)
    | None => (false, s)
    end;
  rs_delete ks id s := (true, <[ks := delete id (docs s ks)]> s);
  rs_all ks s := (Some (JArray (map_to_list (docs s ks)).*2), s);
|}.

Lemma docs_empty ks : docs ∅ ks = ∅.
Proof. unfold docs. by rewrite lookup_empty. Qed.

Lemma docs_insert s ks d ks' :
  docs (<[ks := d]> s) ks' = if decide (ks' = ks) then d else docs s ks'.
Proof.
  unfold docs. destruct (decide (ks' = ks)) as [->|Hne].
  - by rewrite lookup_insert_eq.
  - by rewrite lookup_insert_ne by done.
Qed.

(** Every list of keyspaces will do. *)
Definition map_store_laws {C : JsonCodec} (keyspaces : list string) : RecordStoreLaws map_store.
Proof.
  refine {| rs_keyspaces := keyspaces; rs_ok := fun _ => True; rs_view := docs |}.
  - done.
  - intros s ks _ _. split; [|done]. by eexists.
  - intros s ks id text doc _ _ _ Hd. cbn [rs_put map_record_store]. rewrite Hd. split; [done|].
    intros ks' _. cbn [fst snd andb]. rewrite docs_insert. case_decide.
    + subst ks'. by rewrite bool_decide_true.
    + by rewrite bool_decide_false.
  - intros s ks id _ _. cbn [rs_delete map_record_store]. split; [done|].
    intros ks' _. cbn [fst snd andb]. rewrite docs_insert. case_decide.
    + subst ks'. by rewrite bool_decide_true.
    + by rewrite bool_decide_false.
Defined.

End MapStore.
