(* ===== verification/Config.v ===== *)
(** src/engine/epsilon_config.c, epsilon_config_entities.c and
    epsilon_config_partitions.c: the system configuration (databases,
    security groups, users and passwords, partitions, keyspace registry,
    settings, code records), kept as JSON documents in a record store. NULL
    arguments and allocation failures are not modelled; the two locks are
    held around the operations that use them. *)

From S2P Require Import Prelude BlockHash Sha256 Json Store Manager.

Module Config.

Import Json Store.


Definition EDB_SYSTEM_DB : string := "__system__".
Definition EDB_MAX_GROUPS : nat := 63.
Definition EDB_MASK_ALLOW_ALL : Z := 0.
Definition EDB_PASSWORD_ITERATIONS : N := 100000.

Definition CFG_KEYSPACE_DATABASES : string := "config_databases".
Definition CFG_KEYSPACE_GROUPS : string := "config_groups".
Definition CFG_KEYSPACE_USERS : string := "config_users".
Definition CFG_KEYSPACE_PARTITIONS : string := "config_partitions".
Definition CFG_KEYSPACE_KEYSPACES : string := "config_keyspaces".
Definition CFG_KEYSPACE_SETTINGS : string := "config_settings".
Definition CFG_KEYSPACE_CODE : string := "config_code".

Definition system_keyspaces : list string :=
  [CFG_KEYSPACE_DATABASES; CFG_KEYSPACE_GROUPS; CFG_KEYSPACE_USERS; CFG_KEYSPACE_PARTITIONS;
   CFG_KEYSPACE_KEYSPACES; CFG_KEYSPACE_SETTINGS; CFG_KEYSPACE_CODE].

(** ** Decimal integers *)

Definition is_space (c : Ascii.ascii) : bool :=
  let n := Z.of_N (Ascii.N_of_ascii c) in (n =? 32) || ((9 <=? n) && (n <=? 13)).

Definition digit_of (c : Ascii.ascii) : option Z :=
  let n := Z.of_N (Ascii.N_of_ascii c) in
  if (48 <=? n) && (n <=? 57) then Some (n - 48) else None.

Fixpoint skip_space (s : string) : string :=
  match s with
  | EmptyString => s
  | String c s' => if is_space c then skip_space s' else s
  end.

(** The value of the leading digits after [acc], and the rest. *)
Fixpoint read_digits (acc : Z) (s : string) : Z * string :=
  match s with
  | EmptyString => (acc, s)
  | String c s' =>
      match digit_of c with
      | Some d => read_digits (acc * 10 + d) s'
      | None => (acc, s)
      end
  end.

(** Sign and magnitude as [strtol] and its family read them; [None] when there
    is no digit. *)
Definition read_number (s : string) : option (bool * Z * string) :=
  let s := skip_space s in
  let '(neg, s) :=
    match s with
    | String "-"%char s' => (true, s')
    | String "+"%char s' => (false, s')
    | _ => (false, s)
    end in
  match s with
  | String c _ =>
      match digit_of c with
      | Some _ => let '(v, rest) := read_digits 0 s in Some (neg, v, rest)
      | None => None
      end
  | EmptyString => None
  end.

(** [strtoull(s, &end, 10)]: the value, [*end], and whether errno is ERANGE. *)
Definition strtoull (s : string) : Z * string * bool :=
  match read_number s with
  | None => (0, s, false)
  | Some (neg, v, rest) =>
      if 2 ^ 64 <=? v then (2 ^ 64 - 1, rest, true)
      else (if neg then u64 (- v) else v, rest, false)
  end.

(** [strtoll(s, &end, 10)]. *)
Definition strtoll (s : string) : Z * string * bool :=
  match read_number s with
  | None => (0, s, false)
  | Some (true, v, rest) => if 2 ^ 63 <? v then (- 2 ^ 63, rest, true) else (- v, rest, false)
  | Some (false, v, rest) =>
      if 2 ^ 63 <=? v then (2 ^ 63 - 1, rest, true) else (v, rest, false)
  end.

Definition digit_char (d : Z) : Ascii.ascii := Ascii.ascii_of_N (Z.to_N (48 + d)).

(** The decimal digits of a number below 10^[fuel]; 20 are enough for 64 bits. *)
Fixpoint decimal (fuel : nat) (n : Z) (acc : string) : string :=
  match fuel with
  | O => acc
  | S fuel =>
      if n <? 10 then String (digit_char n) acc
      else decimal fuel (n / 10) (String (digit_char (n mod 10)) acc)
  end.

(** "%llu" and "%lld". *)
Definition print_u64 (v : Z) : string := decimal 20 v "".
Definition print_i64 (v : Z) : string :=
  if v <? 0 then String "-"%char (decimal 20 (- v) "") else decimal 20 v "".

Definition text_u64 (t : string) : option Z :=
  let '(value, rest, erange) := strtoull t in
  if negb erange && String.eqb rest "" then Some value else None.

Definition text_i64 (t : string) : option Z :=
  let '(value, rest, erange) := strtoll t in
  if negb erange && String.eqb rest "" then Some value else None.

(** [json_u64] and [json_i64]: a decimal string, or a number written by hand
    (a conversion out of range is undefined in C and arbitrary here). *)
Definition nonneg (d : SpecFloat.spec_float) : bool :=
  match d with
  | SpecFloat.S754_nan => false
  | SpecFloat.S754_finite s _ _ | SpecFloat.S754_infinity s => negb s
  | SpecFloat.S754_zero _ => true
  end.

Definition json_u64 (obj : json) (field : string) : Z :=
  match get_item obj field with
  | Some (JString t) => default 0 (text_u64 t)
  | Some (JNumber d) => if nonneg d then u64 (Z_of_double d) else 0
  | _ => 0
  end.

Definition json_i64 (obj : json) (field : string) : Z :=
  match get_item obj field with
  | Some (JString t) => default 0 (text_i64 t)
  | Some (JNumber d) => Z_of_double d
  | _ => 0
  end.

Definition member_u64 (field : string) (v : Z) : string * json := (field, JString (print_u64 v)).
Definition member_i64 (field : string) (v : Z) : string * json := (field, JString (print_i64 v)).

(** [copy_name] into a buffer of [cap] bytes. *)
Definition copy_name (cap : nat) (obj : json) (field : string) : string :=
  String.substring 0 (cap - 1) (default "" (get_string obj field)).

(** [NAME_OK]: not empty and short enough for its field. *)
Definition name_ok (cap : nat) (name : string) : bool :=
  negb (String.eqb name "") && (String.length name <? cap)%nat.

(** [snprintf] into a buffer of [cap] bytes. *)
Definition snprintf (cap : nat) (s : string) : string := String.substring 0 (cap - 1) s.

Definition array_items (j : option json) : list json :=
  match j with
  | Some (JArray l) => l
  | Some (JObject ms) => map snd ms
  | _ => []
  end.

(** ** Authorization *)

Definition edb_check_perm (mask user_groups : Z) : bool :=
  if mask =? EDB_MASK_ALLOW_ALL then true else negb (Z.land mask user_groups =? 0).

(** ** Passwords *)

Definition hex_value (c : Ascii.ascii) : option Z :=
  let n := Z.of_N (Ascii.N_of_ascii c) in
  if (48 <=? n) && (n <=? 57) then Some (n - 48)
  else if (97 <=? n) && (n <=? 102) then Some (n - 97 + 10)
  else if (65 <=? n) && (n <=? 70) then Some (n - 65 + 10)
  else None.

(** [hex_decode] of [out_len] bytes; a short string fails at its NUL. *)
Fixpoint hex_decode (hex : string) (out_len : nat) : option bytes :=
  match out_len with
  | O => Some []
  | S n =>
      match hex with
      | String c1 (String c2 hex) =>
          hi ← hex_value c1; lo ← hex_value c2;
          rest ← hex_decode hex n; Some (Z.lor (Z.shiftl hi 4) lo :: rest)
      | _ => None
      end
  end.

Definition hash_password (salt_hex password : string) : string :=
  let salt := default (replicate 16 0) (hex_decode salt_hex 16) in
  let input := salt ++ take 256 (bytes_of_string password) in
  let digest := N.iter (EDB_PASSWORD_ITERATIONS - 1) Sha256.edb_sha256 (Sha256.edb_sha256 input) in
  hex_of_bytes digest.

(** ** Keyspaces the system reserves *)

Definition edb_config_is_system_key (path key : string) : bool :=
  (String.length key =? 32)%nat &&
  existsb (fun ks =>
             match Manager.edb_shard_path path EDB_SYSTEM_DB ks 1024 with
             | Some (_, sys_key) => String.eqb sys_key key
             | None => false
             end) system_keyspaces.

(** The entries written to [out] and the returned count. *)
Definition edb_config_system_keyspaces (cap : nat) : list string * nat :=
  (take cap system_keyspaces, length system_keyspaces).

(** ** The configuration *)

(** [edb_config]: the replicator installed by the cluster, NULL in a single
    node. It is called with the JSON of the record, NULL to delete it. *)
Record edb_config (S : Type) := {
  replicate : option (string -> string -> option string -> st S bool);
}.
Arguments replicate {S}.

Definition edb_config_open {S} : edb_config S := {| replicate := None |}.

Definition edb_config_set_replicator {S} (cfg : edb_config S)
    (r : option (string -> string -> option string -> st S bool)) : edb_config S :=
  {| replicate := r |}.

Definition has_prefix (p s : string) : bool := String.prefix p s.

(** Settings that never leave the node. *)
Definition internal_cluster_setting (keyspace id : string) : bool :=
  String.eqb keyspace CFG_KEYSPACE_SETTINGS &&
  (has_prefix "cluster." id || has_prefix "rebalance." id).

Record edb_database_info := { d_name : string; d_replication_factor : Z }.
Record edb_group_info := { g_name : string; g_bit_position : Z }.
Record edb_user_info := { u_name : string; u_groups : Z }.
Record edb_partition_info := {
  p_database : string; p_name : string;
  p_create_mask : Z; p_update_mask : Z; p_read_mask : Z; p_delete_mask : Z;
}.
Record edb_keyspace_info := { k_database : string; k_partition : string; k_name : string }.

(** [valueint] of a number: the double truncated and clamped to [int]. *)
Definition valueint (d : SpecFloat.spec_float) : Z :=
  match d with
  | SpecFloat.S754_infinity s => if s then - 2 ^ 31 else 2 ^ 31 - 1
  | SpecFloat.S754_nan => - 2 ^ 31
  | _ => Z.max (- 2 ^ 31) (Z.min (2 ^ 31 - 1) (Z_of_double d))
  end.

Definition json_int (obj : json) (field : string) (dflt : Z) : Z :=
  match get_item obj field with Some (JNumber d) => valueint d | _ => dflt end.

(** The documents the operations write. *)
Definition database_record (name : string) (replication_factor : Z) : json :=
  JObject [("type", JString "database"); ("name", JString name);
           ("replication_factor", JNumber (double_of_Z replication_factor))].
Definition group_record (name : string) (bit : Z) : json :=
  JObject [("type", JString "group"); ("name", JString name); member_u64 "bit_position" bit].
Definition user_record (name : string) (groups : Z) : json :=
  JObject [("type", JString "user"); ("name", JString name); member_u64 "groups" groups].
Definition password_record (name : string) (groups : Z) (salt hash : string) : json :=
  JObject [("type", JString "user"); ("name", JString name); member_u64 "groups" groups;
           ("salt", JString salt); ("password_hash", JString hash)].
Definition partition_record (database name : string) (create update read del : Z) : json :=
  JObject [("type", JString "partition"); ("database", JString database); ("name", JString name);
           member_u64 "create_mask" create; member_u64 "update_mask" update;
           member_u64 "read_mask" read; member_u64 "delete_mask" del].
Definition keyspace_record (database partition keyspace : string) : json :=
  JObject [("type", JString "keyspace"); ("database", JString database);
           ("partition", JString partition); ("name", JString keyspace)].
Definition setting_record (name : string) (value : json) : json :=
  JObject [("type", JString "setting"); ("name", JString name); ("value", value)].

(** How the operations read them back. *)
Definition database_info (obj : json) : edb_database_info :=
  {| d_name := copy_name 128 obj "name"; d_replication_factor := json_int obj "replication_factor" 1 |}.
Definition group_info (obj : json) : edb_group_info :=
  {| g_name := copy_name 128 obj "name"; g_bit_position := json_u64 obj "bit_position" |}.
Definition user_info (obj : json) : edb_user_info :=
  {| u_name := copy_name 128 obj "name"; u_groups := json_u64 obj "groups" |}.
Definition partition_info (obj : json) : edb_partition_info :=
  {| p_database := copy_name 128 obj "database"; p_name := copy_name 256 obj "name";
     p_create_mask := json_u64 obj "create_mask"; p_update_mask := json_u64 obj "update_mask";
     p_read_mask := json_u64 obj "read_mask"; p_delete_mask := json_u64 obj "delete_mask" |}.
Definition keyspace_info (obj : json) : edb_keyspace_info :=
  {| k_database := copy_name 128 obj "database"; k_partition := copy_name 256 obj "partition";
     k_name := copy_name 128 obj "name" |}.

Definition partition_id (database name : string) : string :=
  snprintf 384 (database +:+ "/" +:+ name).
Definition keyspace_path (database partition keyspace : string) : string :=
  database +:+ "/" +:+ partition +:+ "/" +:+ keyspace.

(** [next_free_bit] on the listed groups: the lowest free position, 0 if none. *)
Definition used_bits (groups : list edb_group_info) : Z :=
  foldl (fun used g =>
           if (1 <=? g_bit_position g) && (g_bit_position g <=? Z.of_nat EDB_MAX_GROUPS)
           then Z.lor used (Z.shiftl 1 (g_bit_position g - 1)) else used) 0 groups.

Definition free_bit (groups : list edb_group_info) : Z :=
  default 0 (List.find (fun bit => Z.land (used_bits groups) (Z.shiftl 1 (bit - 1)) =? 0)
               (map Z.of_nat (seq 1 EDB_MAX_GROUPS))).

(** The first member of that name removed. *)
Definition delete_member (name : string) (ms : list (string * json)) : list (string * json) :=
  match list_find (fun m => m.1 = name) ms with
  | Some (i, _) => delete i ms
  | None => ms
  end.

(** [code_name_cmp]: [strcmp] of the names. *)
Definition code_name (j : json) : string := default "" (get_string j "name").
Definition code_name_le (a b : json) : Prop := String.le (code_name a) (code_name b).
#[export] Instance code_name_le_dec : RelDecision code_name_le := fun a b => String.le_dec _ _.

Section config.
Context {S : Type} `{RecordStore S} `{JsonCodec}.
Context (cfg : edb_config S).

Definition fetch (keyspace id : string) : st S (option json) := rs_get keyspace id.

Definition store (keyspace id : string) (obj : json) : st S bool :=
  match replicate cfg with
  | Some r =>
      if negb (internal_cluster_setting keyspace id) then r keyspace id (Some (json_print obj))
      else rs_put keyspace id (json_print obj)
  | None => rs_put keyspace id (json_print obj)
  end.

Definition remove_record (keyspace id : string) : st S bool :=
  match replicate cfg with
  | Some r =>
      if negb (internal_cluster_setting keyspace id) then r keyspace id None
      else rs_delete keyspace id
  | None => rs_delete keyspace id
  end.

Definition collect (keyspace : string) : st S (option json) := rs_all keyspace.

(** *** Settings *)

(** The value is stored as the text it prints to, and read back parsed. *)
Definition edb_setting_set (name json_value : string) : st S bool :=
  if String.eqb name "" then mret false
  else match json_parse json_value with
       | None => mret false
       | Some value => store CFG_KEYSPACE_SETTINGS name (setting_record name value)
       end.

Definition edb_setting_get (name : string) : st S (option string) :=
  obj ← fetch CFG_KEYSPACE_SETTINGS name;
  mret (o ← obj; json_print <$> get_item o "value").

Definition edb_setting_delete (name : string) : st S bool :=
  remove_record CFG_KEYSPACE_SETTINGS name.

Definition edb_setting_list : st S (list string) :=
  all ← collect CFG_KEYSPACE_SETTINGS;
  mret (omap (fun item => get_string item "name") (array_items all)).

(** *** Code records *)

Definition edb_code_save (name : string) (record : json) : st S bool :=
  match record with
  | JObject ms =>
      if String.eqb name "" then mret false
      else store CFG_KEYSPACE_CODE name
             (JObject (delete_member "name" ms ++ [("name", JString name)]))
  | _ => mret false
  end.

Definition edb_code_delete (name : string) : st S bool :=
  if String.eqb name "" then mret false
  else
    r ← fetch CFG_KEYSPACE_CODE name;
    match r with None => mret false | Some _ => remove_record CFG_KEYSPACE_CODE name end.

Definition edb_code_load (name : string) : st S (option json) :=
  if String.eqb name "" then mret None else fetch CFG_KEYSPACE_CODE name.

(** The order [qsort] gives records of equal names is not specified. *)
Definition edb_code_list : st S (list json) :=
  all ← collect CFG_KEYSPACE_CODE;
  mret (merge_sort code_name_le (array_items all)).

(** *** Databases *)

Definition edb_database_get (name : string) : st S (option edb_database_info) :=
  obj ← fetch CFG_KEYSPACE_DATABASES name;
  mret (o ← obj; let i := database_info o in if String.eqb (d_name i) "" then None else Some i).

Definition edb_database_create (name : string) (replication_factor : Z) : st S bool :=
  if negb (name_ok 128 name) || (replication_factor <? 1) then mret false
  else
    existing ← edb_database_get name;
    match existing with
    | Some _ => mret false
    | None => store CFG_KEYSPACE_DATABASES name (database_record name replication_factor)
    end.

Definition edb_database_list : st S (list edb_database_info) :=
  all ← collect CFG_KEYSPACE_DATABASES; mret (map database_info (array_items all)).

(** *** Groups *)

Definition edb_group_list : st S (list edb_group_info) :=
  all ← collect CFG_KEYSPACE_GROUPS; mret (map group_info (array_items all)).

Definition next_free_bit : st S Z := groups ← edb_group_list; mret (free_bit groups).

Definition edb_group_get (name : string) : st S (option edb_group_info) :=
  obj ← fetch CFG_KEYSPACE_GROUPS name;
  mret (o ← obj;
        let i := group_info o in
        if negb (String.eqb (g_name i) "") && (1 <=? g_bit_position i)
           && (g_bit_position i <=? Z.of_nat EDB_MAX_GROUPS)
        then Some i else None).

Definition edb_group_create (name : string) : st S bool :=
  if negb (name_ok 128 name) then mret false
  else
    existing ← edb_group_get name;
    match existing with
    | Some _ => mret false
    | None =>
        bit ← next_free_bit;
        if bit =? 0 then mret false
        else store CFG_KEYSPACE_GROUPS name (group_record name bit)
    end.

Definition edb_group_delete (name : string) : st S bool := remove_record CFG_KEYSPACE_GROUPS name.

(** *** Users *)

Definition edb_user_get (name : string) : st S (option edb_user_info) :=
  obj ← fetch CFG_KEYSPACE_USERS name;
  mret (o ← obj; let i := user_info o in if String.eqb (u_name i) "" then None else Some i).

Definition edb_user_create (name : string) (groups : Z) : st S bool :=
  if negb (name_ok 128 name) then mret false
  else
    existing ← edb_user_get name;
    match existing with
    | Some _ => mret false
    | None => store CFG_KEYSPACE_USERS name (user_record name groups)
    end.

Definition edb_user_delete (name : string) : st S bool := remove_record CFG_KEYSPACE_USERS name.

Definition user_update (name : string) (groups : Z) : st S bool :=
  store CFG_KEYSPACE_USERS name (user_record name groups).

Definition edb_user_set_groups (name : string) (groups : Z) : st S bool :=
  existing ← edb_user_get name;
  match existing with None => mret false | Some _ => user_update name groups end.

Definition edb_user_list : st S (list edb_user_info) :=
  all ← collect CFG_KEYSPACE_USERS; mret (map user_info (array_items all)).

(** [salt_hex] is what [edb_random_hex] wrote. *)
Definition edb_user_set_password (salt_hex name password : string) : st S bool :=
  if String.eqb password "" then mret false
  else
    existing ← edb_user_get name;
    match existing with
    | None => mret false
    | Some i =>
        store CFG_KEYSPACE_USERS name
          (password_record name (u_groups i) salt_hex (hash_password salt_hex password))
    end.

Definition password_matches (obj : json) (password : string) : bool :=
  match get_string obj "salt", get_string obj "password_hash" with
  | Some salt, Some hash =>
      (String.length salt =? 32)%nat && (String.length hash =? 64)%nat
      && String.eqb (hash_password salt password) hash
  | _, _ => false
  end.

Definition edb_user_verify_password (name password : string) : st S bool :=
  obj ← fetch CFG_KEYSPACE_USERS name;
  mret (match obj with None => false | Some o => password_matches o password end).

Definition edb_user_has_password (name : string) : st S bool :=
  obj ← fetch CFG_KEYSPACE_USERS name;
  mret (match obj ≫= fun o => get_string o "password_hash" with
        | Some hash => (String.length hash =? 64)%nat
        | None => false
        end).

Definition edb_admin_exists : st S bool :=
  users ← edb_user_list; mret (existsb (fun u => negb (Z.land (u_groups u) 1 =? 0)) users).

(** *** Partitions and keyspaces *)

Definition edb_partition_get (database name : string) : st S (option edb_partition_info) :=
  obj ← fetch CFG_KEYSPACE_PARTITIONS (partition_id database name);
  mret (o ← obj; let i := partition_info o in if String.eqb (p_name i) "" then None else Some i).

Definition edb_partition_create (database name : string) (create update read del : Z)
    : st S bool :=
  if negb (name_ok 128 database) || negb (name_ok 256 name) then mret false
  else
    existing ← edb_partition_get database name;
    match existing with
    | Some _ => mret false
    | None => store CFG_KEYSPACE_PARTITIONS (partition_id database name)
                (partition_record database name create update read del)
    end.

Definition edb_partition_set_masks (database name : string) (create update read del : Z)
    : st S bool :=
  existing ← edb_partition_get database name;
  match existing with
  | None => mret false
  | Some _ => store CFG_KEYSPACE_PARTITIONS (partition_id database name)
                (partition_record database name create update read del)
  end.

(** Whether a keyspace record belongs to the database (and partition). *)
Definition keyspace_selected (database : string) (partition : option string) (item : json)
    : option string :=
  match get_string item "database", get_string item "partition" with
  | Some db, Some part =>
      if String.eqb db database &&
         match partition with Some p => String.eqb part p | None => true end
      then Some part else None
  | _, _ => None
  end.

Fixpoint remove_keyspaces (database : string) (partition : option string) (items : list json)
    : st S bool :=
  match items with
  | [] => mret true
  | item :: items =>
      match keyspace_selected database partition item with
      | None => remove_keyspaces database partition items
      | Some part =>
          ok ← match get_string item "name" with
               | None => mret false
               | Some name =>
                   let id := keyspace_path database part name in
                   if (640 <=? String.length id)%nat then mret false
                   else remove_record CFG_KEYSPACE_KEYSPACES id
               end;
          ok' ← remove_keyspaces database partition items;
          mret (ok && ok')
      end
  end.

Definition remove_keyspaces_for (database : string) (partition : option string) : st S bool :=
  all ← collect CFG_KEYSPACE_KEYSPACES;
  remove_keyspaces database partition (array_items all).

Definition edb_partition_delete (database name : string) : st S bool :=
  ok ← remove_keyspaces_for database (Some name);
  if ok : bool then remove_record CFG_KEYSPACE_PARTITIONS (partition_id database name)
  else mret false.

Definition edb_partition_list (database : string) : st S (list edb_partition_info) :=
  all ← collect CFG_KEYSPACE_PARTITIONS;
  mret (map partition_info
          (List.filter (fun item => String.eqb (copy_name 128 item "database") database)
             (array_items all))).

Fixpoint delete_partitions (database : string) (parts : list edb_partition_info) : st S unit :=
  match parts with
  | [] => mret tt
  | p :: parts => _ ← edb_partition_delete database (p_name p); delete_partitions database parts
  end.

Definition edb_database_delete (name : string) : st S bool :=
  parts ← edb_partition_list name;
  _ ← delete_partitions name parts;
  keyspaces_ok ← remove_keyspaces_for name None;
  if keyspaces_ok : bool then remove_record CFG_KEYSPACE_DATABASES name else mret false.

(** The result and [*created_out]. *)
Definition edb_partition_ensure (database partition keyspace : string) : st S (bool * bool) :=
  if String.eqb keyspace "" || negb (name_ok 128 database) || negb (name_ok 256 partition)
  then mret (false, false)
  else
    existing ← edb_partition_get database partition;
    created ← match existing with
              | Some _ => mret (Some false)
              | None =>
                  ok ← edb_partition_create database partition EDB_MASK_ALLOW_ALL
                         EDB_MASK_ALLOW_ALL EDB_MASK_ALLOW_ALL EDB_MASK_ALLOW_ALL;
                  mret (if ok : bool then Some true else None)
              end;
    match created with
    | None => mret (false, false)
    | Some created =>
        let ks_id := snprintf 640 (keyspace_path database partition keyspace) in
        ks ← fetch CFG_KEYSPACE_KEYSPACES ks_id;
        match ks with
        | Some _ => mret (true, created)
        | None =>
            ok ← store CFG_KEYSPACE_KEYSPACES ks_id
                   (keyspace_record database partition keyspace);
            mret (ok, created)
        end
    end.

Definition edb_keyspace_list : st S (list edb_keyspace_info) :=
  all ← collect CFG_KEYSPACE_KEYSPACES;
  mret (List.filter (fun k => negb (String.eqb (k_name k) ""))
          (map keyspace_info (array_items all))).

End config.

End Config.
