(* ===== verification/ConfigFacts.v ===== *)
(** Theorems about the system configuration (Config.v), for any record store
    that satisfies the laws of Store.v and any replicator that, when it
    reports success, has the effect of a local write. *)

From S2P Require Import Prelude BlockHash Sha256 Json Store MapStore Config.

Module ConfigFacts.

Import Json Store Config.

(** ** Decimal round trips *)

Lemma digit_cases d : 0 <= d < 10 ->
  d = 0 \/ d = 1 \/ d = 2 \/ d = 3 \/ d = 4 \/ d = 5 \/ d = 6 \/ d = 7 \/ d = 8 \/ d = 9.
Proof. lia. Qed.

Lemma digit_char_spec d : 0 <= d < 10 ->
  digit_of (digit_char d) = Some d /\ is_space (digit_char d) = false /\
  digit_char d <> "-"%char /\ digit_char d <> "+"%char.
Proof.
  intros Hd. pose proof (digit_cases d Hd) as Hc.
  repeat destruct Hc as [->|Hc]; try subst d; split_and!; done.
Qed.

Lemma pow10_succ (f : nat) : 10 ^ Z.of_nat (S f) = 10 * 10 ^ Z.of_nat f.
Proof. rewrite Nat2Z.inj_succ, Z.pow_succ_r by lia. done. Qed.

Lemma read_decimal fuel n t :
  0 <= n < 10 ^ Z.of_nat fuel -> (0 < fuel)%nat ->
  read_digits 0 (decimal fuel n t) = read_digits n t.
Proof.
  revert n t. induction fuel as [|fuel IH]; intros n t Hn Hf; [lia|]. cbn [decimal].
  destruct (Z.ltb_spec n 10) as [Hlt|Hge].
  - cbn [read_digits]. by rewrite (proj1 (digit_char_spec n ltac:(lia))).
  - pose proof (Z.mod_pos_bound n 10 ltac:(lia)). pose proof (Z.div_mod n 10 ltac:(lia)).
    rewrite pow10_succ in Hn. rewrite IH.
    + cbn [read_digits]. rewrite (proj1 (digit_char_spec (n mod 10) ltac:(lia))). f_equal. lia.
    + split; [apply Z.div_pos; lia|apply Z.div_lt_upper_bound; lia].
    + destruct fuel; [simpl in Hn|]; lia.
Qed.

Lemma decimal_head fuel n t :
  0 <= n < 10 ^ Z.of_nat fuel -> (0 < fuel)%nat ->
  exists d s, 0 <= d < 10 /\ decimal fuel n t = String (digit_char d) s.
Proof.
  revert n t. induction fuel as [|fuel IH]; intros n t Hn Hf; [lia|]. cbn [decimal].
  destruct (Z.ltb_spec n 10) as [Hlt|Hge].
  - exists n, t. split; [lia|done].
  - rewrite pow10_succ in Hn. apply IH.
    + split; [apply Z.div_pos; lia|apply Z.div_lt_upper_bound; lia].
    + destruct fuel; [simpl in Hn|]; lia.
Qed.

Lemma read_number_decimal v :
  0 <= v < 10 ^ 20 ->
  read_number (decimal 20 v "") = Some (false, v, ""%string) /\
  read_number (String "-"%char (decimal 20 v "")) = Some (true, v, ""%string).
Proof.
  intros Hv. pose proof (read_decimal 20 v "" Hv ltac:(lia)) as Hr.
  destruct (decimal_head 20 v "" Hv ltac:(lia)) as (d & s & Hd & Hs). rewrite Hs in *.
  destruct (digit_char_spec d Hd) as (Hdig & Hsp & Hm & Hp).
  unfold read_number. cbn [skip_space].
  change (is_space "-"%char) with false. cbn iota. rewrite Hsp, Hdig.
  set (c := digit_char d) in *. clearbody c.
  rewrite Hr. split; [|done].
  destruct c as [[] [] [] [] [] [] [] []]; try (by exfalso); rewrite Hdig, Hr; done.
Qed.

Lemma text_print_u64 v : 0 <= v < 2 ^ 64 -> text_u64 (print_u64 v) = Some v.
Proof.
  intros Hv. unfold text_u64, strtoull, print_u64.
  rewrite (proj1 (read_number_decimal v ltac:(lia))).
  by destruct (Z.leb_spec (2 ^ 64) v); [lia|].
Qed.

Lemma text_print_i64 v : - 2 ^ 63 <= v < 2 ^ 63 -> text_i64 (print_i64 v) = Some v.
Proof.
  intros Hv. unfold text_i64, strtoll, print_i64. destruct (Z.ltb_spec v 0).
  - rewrite (proj2 (read_number_decimal (- v) ltac:(lia))).
    destruct (Z.ltb_spec (2 ^ 63) (- v)); [lia|]. by rewrite Z.opp_involutive.
  - rewrite (proj1 (read_number_decimal v ltac:(lia))).
    by destruct (Z.leb_spec (2 ^ 63) v); [lia|].
Qed.

(** ** Records *)

Lemma get_item_cons n v ms f :
  get_item (JObject ((n, v) :: ms)) f = if decide (n = f) then Some v else get_item (JObject ms) f.
Proof.
  unfold get_item. cbn [list_find fst]. destruct (decide (n = f)); [done|].
  by destruct (list_find _ ms) as [[i x]|].
Qed.

(** Reads a named member of a concrete record. *)
Ltac record_simpl :=
  unfold get_string, json_u64, json_int, database_record, group_record, user_record,
    password_record, partition_record, keyspace_record, setting_record, member_u64;
  repeat (rewrite get_item_cons; first [rewrite decide_True by reflexivity
                                       |rewrite decide_False by discriminate]);
  cbn [from_option id].

Lemma name_ok_spec cap name :
  name_ok cap name = true -> name <> ""%string /\ (String.length name < cap)%nat.
Proof.
  unfold name_ok. rewrite andb_true_iff, negb_true_iff, Nat.ltb_lt, String.eqb_neq. done.
Qed.

Lemma name_ok_copy cap name :
  name_ok cap name = true -> String.substring 0 (cap - 1) name = name /\ String.eqb name "" = false.
Proof.
  intros [Hne Hlen]%name_ok_spec. split; [apply substring_short; lia|by apply String.eqb_neq].
Qed.

(** ** Group bits *)

(** Groups as [edb_group_create] leaves them: the record under each name is
    that of the name and a bit from 1 to 63, and no bit is used twice. *)
Record groups_wf (G : gmap string json) : Prop := {
  groups_record : forall id doc, G !! id = Some doc -> name_ok 128 id = true /\
    exists bit, 1 <= bit <= 63 /\ doc = group_record id bit;
  groups_bits : forall id1 id2 bit, 1 <= bit <= 63 -> G !! id1 = Some (group_record id1 bit) ->
    G !! id2 = Some (group_record id2 bit) -> id1 = id2;
}.

Lemma group_info_record name bit :
  name_ok 128 name = true -> 1 <= bit <= 63 ->
  group_info (group_record name bit) = {| g_name := name; g_bit_position := bit |}.
Proof.
  intros Hn Hb. unfold group_info, copy_name. record_simpl.
  rewrite text_print_u64 by lia. cbn [from_option]. unfold id.
  by rewrite (proj1 (name_ok_copy 128 name Hn)).
Qed.

Lemma group_record_inj id bit1 bit2 :
  1 <= bit1 <= 63 -> 1 <= bit2 <= 63 -> group_record id bit1 = group_record id bit2 -> bit1 = bit2.
Proof.
  intros H1 H2 Heq. apply (f_equal (fun j => json_u64 j "bit_position")) in Heq.
  revert Heq. record_simpl. rewrite !text_print_u64 by lia. done.
Qed.

Lemma used_bits_spec groups bit :
  1 <= bit <= 63 ->
  Z.testbit (used_bits groups) (bit - 1) = true <->
  exists g, g ∈ groups /\ g_bit_position g = bit.
Proof.
  intros Hb. unfold used_bits. set (f := fun used g => _).
  assert (Hgen : forall acc, Z.testbit (foldl f acc groups) (bit - 1) = true <->
            Z.testbit acc (bit - 1) = true \/ exists g, g ∈ groups /\ g_bit_position g = bit).
  { induction groups as [|g groups IH]; intros acc; simpl.
    - split; [by left|]. intros [?|(g & ?%elem_of_nil & _)]; done.
    - rewrite IH. unfold f at 1. setoid_rewrite elem_of_cons.
      change (Z.of_nat EDB_MAX_GROUPS) with 63.
      destruct (Z.leb_spec 1 (g_bit_position g)), (Z.leb_spec (g_bit_position g) 63); simpl.
      2-4: split; [intros [?|(g' & ? & ?)]; eauto|intros [?|(g' & [->|?] & ?)]; eauto; lia].
      rewrite Z.lor_spec, orb_true_iff, Z.shiftl_spec by lia.
      assert (Htb : Z.testbit 1 (bit - 1 - (g_bit_position g - 1)) = (g_bit_position g =? bit)).
      { destruct (Z.eqb_spec (g_bit_position g) bit) as [->|Hne].
        - by rewrite Z.sub_diag.
        - destruct (Z.lt_total (bit - 1 - (g_bit_position g - 1)) 0) as [?|[?|?]]; [|lia|].
          + by apply Z.testbit_neg_r.
          + apply Z.bits_above_log2; simpl; lia. }
      rewrite Htb. split.
      + intros [[?|Hg%Z.eqb_eq]|(g' & ? & ?)]; eauto.
      + intros [?|(g' & [->|?] & Hg)]; eauto. left. right. by apply Z.eqb_eq. }
  rewrite Hgen, Z.testbit_0_l. split; [by intros [?|?]|by right].
Qed.

Lemma land_bit used bit :
  1 <= bit -> Z.land used (Z.shiftl 1 (bit - 1)) = 0 <-> Z.testbit used (bit - 1) = false.
Proof.
  intros Hb. rewrite Z.shiftl_1_l. split.
  - intros Hz. apply (f_equal (fun z => Z.testbit z (bit - 1))) in Hz.
    by rewrite Z.land_spec, Z.pow2_bits_true, andb_true_r, Z.testbit_0_l in Hz by lia.
  - intros Ht. apply Z.bits_inj'. intros n Hn. rewrite Z.land_spec, Z.testbit_0_l.
    destruct (Z.eq_dec n (bit - 1)) as [->|Hne]; [by rewrite Ht|].
    by rewrite Z.pow2_bits_false, andb_false_r by lia.
Qed.

Lemma find_seq (f : Z -> bool) start len :
  match List.find f (map Z.of_nat (seq start len)) with
  | Some x => Z.of_nat start <= x < Z.of_nat (start + len) /\ f x = true /\
              forall y, Z.of_nat start <= y < x -> f y = false
  | None => forall y, Z.of_nat start <= y < Z.of_nat (start + len) -> f y = false
  end.
Proof.
  revert start. induction len as [|len IH]; intros start; cbn [seq map List.find]; [lia|].
  destruct (f (Z.of_nat start)) eqn:E; [split_and!; [lia|lia|done|lia]|].
  specialize (IH (S start)). destruct (List.find f _) as [x|].
  - destruct IH as (? & ? & Hlow). split_and!; [lia|lia|done|]. intros y Hy.
    destruct (Z.eq_dec y (Z.of_nat start)) as [->|]; [done|apply Hlow; lia].
  - intros y Hy. destruct (Z.eq_dec y (Z.of_nat start)) as [->|]; [done|apply IH; lia].
Qed.

(** The bit [next_free_bit] picks: the lowest no listed group has, or 0 when
    all 63 are taken. *)
Lemma free_bit_spec groups :
  (1 <= free_bit groups <= 63 /\ (forall g, g ∈ groups -> g_bit_position g <> free_bit groups) /\
   (forall bit, 1 <= bit < free_bit groups -> exists g, g ∈ groups /\ g_bit_position g = bit)) \/
  (free_bit groups = 0 /\
   forall bit, 1 <= bit <= 63 -> exists g, g ∈ groups /\ g_bit_position g = bit).
Proof.
  unfold free_bit. set (f := fun bit => _).
  assert (Hf : forall bit, 1 <= bit <= 63 ->
    if f bit then forall g, g ∈ groups -> g_bit_position g <> bit
    else exists g, g ∈ groups /\ g_bit_position g = bit).
  { intros bit Hb. subst f. cbn beta.
    destruct (Z.eqb_spec (Z.land (used_bits groups) (Z.shiftl 1 (bit - 1))) 0) as [Hz|Hz].
    - intros g Hg Heq. apply land_bit in Hz; [|lia].
      assert (Z.testbit (used_bits groups) (bit - 1) = true); [|congruence].
      apply used_bits_spec; eauto.
    - apply used_bits_spec; [done|]. apply not_false_iff_true. by rewrite <-land_bit by lia. }
  pose proof (find_seq f 1 EDB_MAX_GROUPS) as Hfind. change EDB_MAX_GROUPS with 63%nat in *.
  destruct (List.find f _) as [bit|]; cbn [from_option]; unfold id.
  - left. destruct Hfind as (Hb & Ht & Hlow). split; [lia|]. split.
    + specialize (Hf bit ltac:(lia)). by rewrite Ht in Hf.
    + intros b Hbb. specialize (Hf b ltac:(lia)). by rewrite Hlow in Hf by lia.
  - right. split; [done|]. intros bit Hb. specialize (Hf bit Hb). by rewrite Hfind in Hf by lia.
Qed.

(** Inserting a group with a bit nobody has, and deleting one. *)
Lemma groups_wf_insert G name bit :
  groups_wf G -> name_ok 128 name = true -> 1 <= bit <= 63 ->
  (forall id, G !! id <> Some (group_record id bit)) ->
  groups_wf (<[name := group_record name bit]> G).
Proof.
  intros [Hr Hb] Hn Hbit Hfree. split.
  - intros id doc. rewrite lookup_insert. case_decide; [|apply Hr].
    subst id. intros [= <-]. eauto.
  - assert (Hone : forall id b, 1 <= b <= 63 ->
      <[name := group_record name bit]> G !! id = Some (group_record id b) ->
      (id = name <-> b = bit)).
    { intros id b Hb1. rewrite lookup_insert. case_decide as Hid.
      - subst id. intros [= Heq]. split; [|done]. intros _.
        by apply (group_record_inj name); [..|unfold group_record, member_u64; rewrite Heq].
      - intros Hg. split; [congruence|]. intros ->. by apply Hfree in Hg. }
    intros id1 id2 b Hb1 H1 H2. pose proof (Hone _ _ Hb1 H1). pose proof (Hone _ _ Hb1 H2).
    destruct (decide (b = bit)) as [->|Hne]; [transitivity name; [tauto|symmetry; tauto]|].
    assert (name <> id1 /\ name <> id2) as [? ?] by (split; intros <-; tauto).
    rewrite lookup_insert_ne in H1, H2 by done. by eapply (Hb id1 id2 b).
Qed.

Lemma groups_wf_delete G name : groups_wf G -> groups_wf (delete name G).
Proof.
  intros [Hr Hb]. split.
  - intros id doc [_ Hd]%lookup_delete_Some. by apply Hr.
  - intros id1 id2 b Hb1 [_ H1]%lookup_delete_Some [_ H2]%lookup_delete_Some. by eapply Hb.
Qed.

(** No more groups than bits. *)
Lemma groups_wf_size G : groups_wf G -> (size G <= EDB_MAX_GROUPS)%nat.
Proof.
  intros [Hr Hb]. rewrite <-length_map_to_list.
  set (bit_of := fun p : string * json => Z.to_nat (json_u64 p.2 "bit_position")).
  rewrite <-(length_fmap bit_of).
  assert (Hbit : forall id doc, (id, doc) ∈ map_to_list G -> exists bit,
            1 <= bit <= 63 /\ G !! id = Some (group_record id bit) /\ bit_of (id, doc) = Z.to_nat bit).
  { intros id doc Hin%elem_of_map_to_list. destruct (Hr _ _ Hin) as (_ & bit & Hbit & ->).
    exists bit. split_and!; try lia; [done|]. unfold bit_of. cbn [snd]. record_simpl.
    by rewrite text_print_u64 by lia. }
  transitivity (length (seq 1 EDB_MAX_GROUPS)); [|by rewrite length_seq].
  apply NoDup_incl_length.
  - apply NoDup_ListNoDup, NoDup_fmap_2_strong; [|apply NoDup_map_to_list].
    intros [id1 d1] [id2 d2] H1 H2 Heq.
    destruct (Hbit _ _ H1) as (b1 & ? & Hg1 & E1), (Hbit _ _ H2) as (b2 & ? & Hg2 & E2).
    rewrite E1, E2 in Heq. apply Z2Nat.inj in Heq; [|lia..]. subst b2.
    assert (id1 = id2) by by eapply Hb. subst id2.
    apply elem_of_map_to_list in H1, H2. congruence.
  - intros n Hn. apply list_elem_of_In, list_elem_of_fmap in Hn as ([id d] & -> & Hin).
    destruct (Hbit _ _ Hin) as (b & ? & _ & ->). apply in_seq.
    change EDB_MAX_GROUPS with 63%nat. lia.
Qed.

(** ** Records of one database *)

(** [G'] is [G] without some of the records of database [db]. *)
Definition trims (db : string) (G G' : gmap string json) : Prop :=
  G' ⊆ G /\
  forall id doc, G !! id = Some doc -> get_string doc "database" <> Some db -> G' !! id = Some doc.

(** [G] without the records of database [db]. *)
Definition without_database (db : string) (G : gmap string json) : gmap string json :=
  filter (fun p => get_string p.2 "database" <> Some db) G.

Lemma trims_refl db G : trims db G G.
Proof. by split. Qed.

Lemma trims_trans db G1 G2 G3 : trims db G1 G2 -> trims db G2 G3 -> trims db G1 G3.
Proof. intros [H1 H2] [H3 H4]. split; [by transitivity G2|]. auto. Qed.

Lemma trims_delete db G id :
  (forall doc, G !! id = Some doc -> get_string doc "database" = Some db) ->
  trims db G (delete id G).
Proof.
  intros Hid. split; [apply delete_subseteq|]. intros id' doc Hd Hne.
  rewrite lookup_delete_ne; [done|]. intros <-. by apply Hne, Hid.
Qed.

Lemma trims_all db G G' :
  trims db G G' -> (forall id doc, G' !! id = Some doc -> get_string doc "database" <> Some db) ->
  G' = without_database db G.
Proof.
  intros [Hsub Hkeep] Hno. apply map_eq. intros id. apply option_eq. intros doc.
  unfold without_database. rewrite map_lookup_filter_Some. cbn [snd]. split.
  - intros Hd. split; [by eapply lookup_weaken|by eapply Hno].
  - intros [Hd Hne]. by apply Hkeep.
Qed.

(** Partition and keyspace records as the operations write them. *)
Definition partitions_wf (G : gmap string json) : Prop :=
  forall id doc, G !! id = Some doc -> exists db name m1 m2 m3 m4,
    name_ok 128 db = true /\ name_ok 256 name = true /\ id = partition_id db name /\
    doc = partition_record db name m1 m2 m3 m4.

Definition keyspaces_wf (G : gmap string json) : Prop :=
  forall id doc, G !! id = Some doc -> exists db part ks,
    id = snprintf 640 (keyspace_path db part ks) /\ doc = keyspace_record db part ks.

(** The keyspaces of [db] have ids that were not cut. *)
Definition keyspaces_short (db : string) (G : gmap string json) : Prop :=
  forall id part ks, G !! id = Some (keyspace_record db part ks) ->
    (String.length (keyspace_path db part ks) < 640)%nat.

Lemma keyspaces_sub db G G' :
  G' ⊆ G -> keyspaces_wf G -> keyspaces_short db G -> keyspaces_wf G' /\ keyspaces_short db G'.
Proof.
  intros Hsub Hwf Hsh. split.
  - intros id doc Hd. eapply Hwf, lookup_weaken; done.
  - intros id part ks Hd. eapply Hsh, lookup_weaken; done.
Qed.

Lemma keyspace_found db G id part ks :
  keyspaces_wf G -> keyspaces_short db G -> G !! id = Some (keyspace_record db part ks) ->
  id = keyspace_path db part ks.
Proof.
  intros Hwf Hsh Hd. destruct (Hwf _ _ Hd) as (db' & part' & ks' & -> & [= <- <- <-]).
  unfold snprintf. apply substring_short. pose proof (Hsh _ _ _ Hd). lia.
Qed.

(** ** Store operations *)

Section facts.
Context {S : Type} {R : RecordStore S} {C : JsonCodec} {CL : JsonCodecLaws C}.
Context {RL : RecordStoreLaws S}.
Context (cfg : edb_config S).

Abbreviation view := (rs_view (S := S)).

(** The store covers the keyspaces of the system. *)
Hypothesis covers : forall ks, ks ∈ system_keyspaces -> ks ∈ rs_keyspaces (S := S).

(** [s'] is [s] with the documents of [ks] changed by [g]. *)
Definition updates (ks : string) (g : gmap string json -> gmap string json) (s s' : S) : Prop :=
  rs_ok s' /\
  forall ks', ks' ∈ system_keyspaces ->
    view s' ks' = if decide (ks' = ks) then g (view s ks') else view s ks'.

Definition unchanged (s s' : S) : Prop :=
  rs_ok s' /\ forall ks', ks' ∈ system_keyspaces -> view s' ks' = view s ks'.

(** A replicator acts like a local write when it reports success and like
    nothing when it reports failure. *)
Definition replicator_lawful : Prop :=
  forall r, replicate cfg = Some r -> forall s ks id, rs_ok s -> ks ∈ system_keyspaces ->
    (forall text doc, text <> ""%string -> json_parse text = Some doc ->
       let '(ok, s') := r ks id (Some text) s in
       if ok then updates ks <[id := doc]> s s' else unchanged s s') /\
    (let '(ok, s') := r ks id None s in
     if ok then updates ks (delete id) s s' else unchanged s s').

Hypothesis lawful : replicator_lawful.

Lemma unchanged_refl s : rs_ok s -> unchanged s s.
Proof. by split. Qed.

Lemma unchanged_trans s1 s2 s3 : unchanged s1 s2 -> unchanged s2 s3 -> unchanged s1 s3.
Proof. intros [_ H12] [H3 H23]. split; [done|]. intros ks Hks. rewrite H23, H12; done. Qed.

Lemma unchanged_updates ks g s1 s2 s3 :
  unchanged s1 s2 -> updates ks g s2 s3 -> updates ks g s1 s3.
Proof.
  intros [_ H12] [H3 H23]. split; [done|]. intros ks' Hks. by rewrite H23, H12 by done.
Qed.

Lemma updates_view ks g s s' : ks ∈ system_keyspaces -> updates ks g s s' -> view s' ks = g (view s ks).
Proof. intros Hks [_ Hu]. by rewrite Hu, decide_True by done. Qed.

Lemma updates_other ks g s s' ks' :
  ks' ∈ system_keyspaces -> ks' <> ks -> updates ks g s s' -> view s' ks' = view s ks'.
Proof. intros Hks Hne [_ Hu]. by rewrite Hu, decide_False by done. Qed.

Lemma local_put ks id text doc s :
  rs_ok s -> ks ∈ system_keyspaces -> text <> ""%string -> json_parse text = Some doc ->
  let '(ok, s') := rs_put ks id text s in
  if ok then updates ks <[id := doc]> s s' else unchanged s s'.
Proof.
  intros Hs Hks Ht Hd. destruct (rs_put_spec s ks id text doc Hs (covers _ Hks) Ht Hd) as [Hok Hv].
  destruct (rs_put ks id text s) as [ok s']. simpl in *.
  destruct ok; (split; [done|]); intros ks' Hks'; rewrite Hv by auto; simpl; [|done].
  by case_bool_decide; case_decide.
Qed.

Lemma local_delete ks id s :
  rs_ok s -> ks ∈ system_keyspaces ->
  let '(ok, s') := rs_delete ks id s in
  if ok then updates ks (delete id) s s' else unchanged s s'.
Proof.
  intros Hs Hks. destruct (rs_delete_spec s ks id Hs (covers _ Hks)) as [Hok Hv].
  destruct (rs_delete ks id s) as [ok s']. simpl in *.
  destruct ok; (split; [done|]); intros ks' Hks'; rewrite Hv by auto; simpl; [|done].
  by case_bool_decide; case_decide.
Qed.

Lemma store_spec ks id obj s :
  rs_ok s -> ks ∈ system_keyspaces -> finite_json obj = true ->
  let '(ok, s') := store cfg ks id obj s in
  if ok then updates ks <[id := obj]> s s' else unchanged s s'.
Proof.
  intros Hs Hks Hf. pose proof (json_parse_print obj Hf) as Hp.
  pose proof (json_print_nonempty obj) as Hn. unfold store.
  destruct (replicate cfg) as [r|] eqn:Hr; [destruct (negb _)|].
  - by apply (lawful r Hr).
  - by apply local_put.
  - by apply local_put.
Qed.

Lemma remove_spec ks id s :
  rs_ok s -> ks ∈ system_keyspaces ->
  let '(ok, s') := remove_record cfg ks id s in
  if ok then updates ks (delete id) s s' else unchanged s s'.
Proof.
  intros Hs Hks. unfold remove_record.
  destruct (replicate cfg) as [r|] eqn:Hr; [destruct (negb _)|].
  - by apply (lawful r Hr).
  - by apply local_delete.
  - by apply local_delete.
Qed.

Lemma fetch_spec ks id s :
  rs_ok s -> ks ∈ system_keyspaces ->
  exists s', fetch ks id s = (view s ks !! id, s') /\ unchanged s s'.
Proof.
  intros Hs Hks. destruct (rs_get_spec s ks id Hs (covers _ Hks)) as (Hg & Hok & Hv).
  unfold fetch. destruct (rs_get ks id s) as [o s']. simpl in *. subst o.
  exists s'. split; [done|]. split; [done|]. auto.
Qed.

Lemma collect_spec ks s :
  rs_ok s -> ks ∈ system_keyspaces ->
  exists l s', collect ks s = (Some (JArray l), s') /\ unchanged s s' /\
    l ≡ₚ (map_to_list (view s ks)).*2.
Proof.
  intros Hs Hks. destruct (rs_all_spec s ks Hs (covers _ Hks)) as ((l & Hl & Hp) & Hok & Hv).
  unfold collect. destruct (rs_all ks s) as [o s']. simpl in *. subst o.
  exists l, s'. split; [done|]. split; [|done]. split; [done|]. auto.
Qed.

#[local] Hint Extern 1 (_ ∈ system_keyspaces) => (repeat constructor) : core.

(** Runs the next read of a goal. *)
Lemma bind_run {A B} (m : st S A) (f : A -> st S B) s a s' :
  m s = (a, s') -> (m ≫= f) s = f a s'.
Proof. intros Hm. unfold mbind, st_bind. by rewrite Hm. Qed.

(** *** Settings *)

Lemma setting_get_spec name s :
  rs_ok s -> exists s', edb_setting_get name s =
    ((o ← view s CFG_KEYSPACE_SETTINGS !! name; json_print <$> get_item o "value"), s') /\ unchanged s s'.
Proof.
  intros Hs. destruct (fetch_spec CFG_KEYSPACE_SETTINGS name s) as (s' & Hf & Hu); [auto..|].
  exists s'. unfold edb_setting_get. by rewrite (bind_run _ _ _ _ _ Hf).
Qed.

(** A setting that was stored reads back as the canonical text of its
    JSON value; storing or deleting it changes no other setting and no other
    keyspace; a deleted setting is absent; an operation that reports failure
    changes nothing. *)
Theorem settings_roundtrip name text value s
    (Hs : rs_ok s) (Hname : name <> ""%string) (Hparse : json_parse text = Some value)
    (Hfin : finite_json value = true) :
  (let '(ok, s') := edb_setting_set cfg name text s in
   if ok then
     (edb_setting_get name s').1 = Some (json_print value) /\
     (forall other, other <> name -> (edb_setting_get other s').1 = (edb_setting_get other s).1) /\
     forall ks, ks ∈ system_keyspaces -> ks <> CFG_KEYSPACE_SETTINGS -> view s' ks = view s ks
   else unchanged s s') /\
  (let '(ok, s') := edb_setting_delete cfg name s in
   if ok then
     (edb_setting_get name s').1 = None /\
     forall other, other <> name -> (edb_setting_get other s').1 = (edb_setting_get other s).1
   else unchanged s s').
Proof.
  assert (Hget : forall n s1, rs_ok s1 -> (edb_setting_get n s1).1 =
    (o ← view s1 CFG_KEYSPACE_SETTINGS !! n; json_print <$> get_item o "value")).
  { intros n s1 H1. by destruct (setting_get_spec n s1 H1) as (s2 & -> & _). }
  split.
  - unfold edb_setting_set. rewrite (proj2 (String.eqb_neq _ _) Hname), Hparse.
    pose proof (store_spec CFG_KEYSPACE_SETTINGS name (setting_record name value) s Hs) as Hst.
    destruct (store _ _ _ _ _) as [ok s']. destruct ok; [|apply Hst; auto; simpl; by rewrite Hfin].
    destruct Hst as [Hs' Hv]; [auto|simpl; by rewrite Hfin|].
    split_and!.
    + rewrite Hget, Hv, decide_True, lookup_insert_eq by auto. simpl. record_simpl. done.
    + intros other Hne. rewrite !Hget, Hv, decide_True, lookup_insert_ne by auto. done.
    + intros ks Hks Hne. by rewrite Hv, decide_False by done.
  - unfold edb_setting_delete.
    pose proof (remove_spec CFG_KEYSPACE_SETTINGS name s Hs) as Hst.
    destruct (remove_record _ _ _ _) as [ok s']. destruct ok; [|by apply Hst; auto].
    destruct Hst as [Hs' Hv]; [auto|]. split.
    + by rewrite Hget, Hv, decide_True, lookup_delete_eq by auto.
    + intros other Hne. by rewrite !Hget, Hv, decide_True, lookup_delete_ne by auto.
Qed.

(** *** Groups *)

Lemma group_get_spec name s :
  rs_ok s -> groups_wf (view s CFG_KEYSPACE_GROUPS) ->
  exists s', unchanged s s' /\
    match view s CFG_KEYSPACE_GROUPS !! name with
    | None => edb_group_get name s = (None, s')
    | Some _ => exists bit, 1 <= bit <= 63 /\
        view s CFG_KEYSPACE_GROUPS !! name = Some (group_record name bit) /\
        edb_group_get name s = (Some {| g_name := name; g_bit_position := bit |}, s')
    end.
Proof.
  intros Hs [Hr _]. destruct (fetch_spec CFG_KEYSPACE_GROUPS name s) as (s' & Hf & Hu); [auto..|].
  exists s'. split; [done|]. unfold edb_group_get. rewrite (bind_run _ _ _ _ _ Hf).
  destruct (view s CFG_KEYSPACE_GROUPS !! name) as [doc|] eqn:E; [|done].
  destruct (Hr _ _ E) as (Hn & bit & Hb & ->). exists bit. split; [done|]. split; [done|].
  unfold mret, st_ret. cbn [mbind option_bind]. rewrite group_info_record by done.
  cbn [g_name g_bit_position]. rewrite (proj2 (name_ok_copy 128 name Hn)).
  change (Z.of_nat EDB_MAX_GROUPS) with 63.
  by rewrite (proj2 (Z.leb_le 1 bit)), (proj2 (Z.leb_le bit 63)) by lia.
Qed.

Lemma next_free_bit_spec s :
  rs_ok s -> groups_wf (view s CFG_KEYSPACE_GROUPS) ->
  exists bit s', next_free_bit s = (bit, s') /\ unchanged s s' /\
    let taken b := exists id, view s CFG_KEYSPACE_GROUPS !! id = Some (group_record id b) in
    (1 <= bit <= 63 /\ ~ taken bit /\ (forall b, 1 <= b < bit -> taken b)) \/
    (bit = 0 /\ forall b, 1 <= b <= 63 -> taken b).
Proof.
  intros Hs Hwf. pose proof Hwf as [Hr _].
  destruct (collect_spec CFG_KEYSPACE_GROUPS s) as (l & s' & Hc & Hu & Hl); [auto..|].
  unfold next_free_bit, edb_group_list, mbind, st_bind. rewrite Hc. unfold mret, st_ret.
  cbn [array_items]. set (groups := map group_info l).
  assert (Hiff : forall b, 1 <= b <= 63 -> (exists g, g ∈ groups /\ g_bit_position g = b) <->
            exists id, view s CFG_KEYSPACE_GROUPS !! id = Some (group_record id b)).
  { intros b Hb. split.
    - intros (g & Hg & Hgb). apply list_elem_of_fmap in Hg as (doc & -> & Hd).
      rewrite Hl in Hd. apply list_elem_of_fmap in Hd as ([id d] & -> & Hd%elem_of_map_to_list).
      destruct (Hr _ _ Hd) as (Hn & bit & Hbit & Heq). cbn [fst snd] in *. subst d. exists id.
      rewrite group_info_record in Hgb by done. cbn [g_bit_position] in Hgb. by subst b.
    - intros (id & Hid). destruct (Hr _ _ Hid) as (Hn & _).
      exists (group_info (group_record id b)). split; [|by rewrite group_info_record].
      apply list_elem_of_fmap. eexists. split; [done|]. rewrite Hl. apply list_elem_of_fmap.
      exists (id, group_record id b). split; [done|]. by apply elem_of_map_to_list. }
  exists (free_bit groups), s'. split; [done|]. split; [done|]. cbv zeta.
  destruct (free_bit_spec groups) as [(Hb & Hfree & Hlow)|(Hz & Hall)]; [left|right].
  - split; [done|]. split.
    + rewrite <-Hiff by done. intros (g & Hg & Heq). by eapply Hfree.
    + intros b Hbb. apply Hiff; [lia|]. by apply Hlow.
  - split; [done|]. intros b Hb. apply Hiff; auto.
Qed.

Lemma group_create_spec name s :
  rs_ok s -> groups_wf (view s CFG_KEYSPACE_GROUPS) ->
  let G := view s CFG_KEYSPACE_GROUPS in
  let '(ok, s') := edb_group_create cfg name s in
  if ok then
    name_ok 128 name = true /\ G !! name = None /\
    exists bit, 1 <= bit <= 63 /\ (forall id, G !! id <> Some (group_record id bit)) /\
      (forall b, 1 <= b < bit -> exists id, G !! id = Some (group_record id b)) /\
      updates CFG_KEYSPACE_GROUPS <[name := group_record name bit]> s s'
  else unchanged s s'.
Proof.
  intros Hs Hwf. cbv zeta. unfold edb_group_create.
  destruct (name_ok 128 name) eqn:Hn; cbn [negb]; [|by apply unchanged_refl].
  destruct (group_get_spec name s Hs Hwf) as (s1 & Hu1 & Hget).
  destruct (view s CFG_KEYSPACE_GROUPS !! name) as [doc|] eqn:E.
  { destruct Hget as (bit & _ & _ & Hget). by rewrite (bind_run _ _ _ _ _ Hget). }
  rewrite (bind_run _ _ _ _ _ Hget). destruct Hu1 as [Hs1 Hv1].
  assert (HG : view s1 CFG_KEYSPACE_GROUPS = view s CFG_KEYSPACE_GROUPS) by auto.
  destruct (next_free_bit_spec s1 Hs1) as (bit & s2 & Hnext & Hu2 & Hbit); [by rewrite HG|].
  cbv zeta in Hbit. rewrite HG in Hbit. rewrite (bind_run _ _ _ _ _ Hnext).
  assert (Hu : unchanged s s2) by (eapply unchanged_trans; [split; eauto|done]).
  destruct (Z.eqb_spec bit 0) as [->|Hne]; [done|].
  destruct Hbit as [(Hb & Hfree & Hlow)|[? _]]; [|done].
  pose proof (store_spec CFG_KEYSPACE_GROUPS name (group_record name bit) s2) as Hst.
  destruct (store _ _ _ _ _) as [ok s3]. destruct Hu2 as [Hs2 Hv2].
  destruct ok; [|by eapply unchanged_trans; [|by apply Hst; auto]].
  split; [done|]. split; [done|]. exists bit. split; [done|]. split; [by eauto|]. split; [done|].
  by eapply unchanged_updates; [|by apply Hst; auto].
Qed.

Inductive group_op := GroupCreate (name : string) | GroupDelete (name : string).

Definition run_group_op (o : group_op) : st S bool :=
  match o with
  | GroupCreate name => edb_group_create cfg name
  | GroupDelete name => edb_group_delete cfg name
  end.

Definition run_group_ops (ops : list group_op) (s : S) : S :=
  foldl (fun s o => (run_group_op o s).2) s ops.

Lemma run_group_op_wf o s :
  rs_ok s -> groups_wf (view s CFG_KEYSPACE_GROUPS) ->
  rs_ok (run_group_op o s).2 /\ groups_wf (view (run_group_op o s).2 CFG_KEYSPACE_GROUPS).
Proof.
  intros Hs Hwf. destruct o as [name|name]; simpl run_group_op.
  - pose proof (group_create_spec name s Hs Hwf) as Hc. cbv zeta in Hc.
    destruct (edb_group_create cfg name s) as [[] s']; simpl.
    + destruct Hc as (Hn & _ & bit & Hb & Hfree & _ & Hu).
      split; [apply Hu|]. rewrite (updates_view CFG_KEYSPACE_GROUPS _ s) by (auto; exact Hu).
      by apply groups_wf_insert.
    + destruct Hc as [? Hv]. split; [done|]. by rewrite Hv by auto.
  - unfold edb_group_delete. pose proof (remove_spec CFG_KEYSPACE_GROUPS name s Hs) as Hd.
    destruct (remove_record cfg CFG_KEYSPACE_GROUPS name s) as [[] s']; simpl in *.
    + specialize (Hd ltac:(auto)). split; [apply Hd|].
      rewrite (updates_view CFG_KEYSPACE_GROUPS _ s) by (auto; exact Hd).
      by apply groups_wf_delete.
    + destruct Hd as [? Hv]; [auto|]. split; [done|]. by rewrite Hv by auto.
Qed.

Lemma run_group_ops_wf ops s :
  rs_ok s -> groups_wf (view s CFG_KEYSPACE_GROUPS) ->
  rs_ok (run_group_ops ops s) /\ groups_wf (view (run_group_ops ops s) CFG_KEYSPACE_GROUPS).
Proof.
  revert s. induction ops as [|o ops IH]; intros s Hs Hwf; [done|].
  destruct (run_group_op_wf o s Hs Hwf). by apply IH.
Qed.

(** Whatever groups are created and deleted, starting from none: two
    groups never share a bit of the permission masks, every bit is between 1
    and 63, there are at most 63 groups, and looking a group up returns its
    record; a creation that succeeds gives the group the lowest bit no
    existing group has, and one that fails changes nothing. *)
Theorem groups_distinct_bits ops s
    (Hs : rs_ok s) (Hempty : view s CFG_KEYSPACE_GROUPS = ∅) :
  let s1 := run_group_ops ops s in
  let G := view s1 CFG_KEYSPACE_GROUPS in
  groups_wf G /\ (size G <= EDB_MAX_GROUPS)%nat /\
  forall name,
    let '(ok, s2) := edb_group_create cfg name s1 in
    if ok then
      G !! name = None /\
      exists bit, (edb_group_get name s2).1 = Some {| g_name := name; g_bit_position := bit |} /\
        (forall other, (edb_group_get other s1).1 <> Some {| g_name := other; g_bit_position := bit |}) /\
        forall b, 1 <= b < bit -> exists other,
          (edb_group_get other s1).1 = Some {| g_name := other; g_bit_position := b |}
    else unchanged s1 s2.
Proof.
  cbv zeta. destruct (run_group_ops_wf ops s Hs) as [Hs1 Hwf]; [rewrite Hempty; by split|].
  generalize dependent (run_group_ops ops s). intros s1 Hs1 Hwf.
  split; [done|]. split; [by apply groups_wf_size|]. intros name.
  assert (Hget : forall other s', rs_ok s' -> groups_wf (view s' CFG_KEYSPACE_GROUPS) ->
    forall b, 1 <= b <= 63 ->
    ((edb_group_get other s').1 = Some {| g_name := other; g_bit_position := b |} <->
     view s' CFG_KEYSPACE_GROUPS !! other = Some (group_record other b))).
  { intros other s' Hs' Hwf' b Hb. destruct (group_get_spec other s' Hs' Hwf') as (s2 & _ & Hg).
    destruct (view s' CFG_KEYSPACE_GROUPS !! other) as [doc|] eqn:E.
    - destruct Hg as (b2 & Hb2 & [= ->] & ->). split; [by intros [= ->]|].
      intros [= Heq]. cbn [fst]. do 2 f_equal.
      apply (group_record_inj other); [done..|]. unfold group_record, member_u64. by rewrite Heq.
    - rewrite Hg. done. }
  pose proof (group_create_spec name s1 Hs1 Hwf) as Hc. cbv zeta in Hc.
  destruct (edb_group_create cfg name s1) as [[] s2]; [|done].
  destruct Hc as (Hn & Hnone & bit & Hb & Hfree & Hlow & Hu). split; [done|]. exists bit.
  pose proof (updates_view CFG_KEYSPACE_GROUPS _ _ _ ltac:(auto) Hu) as Hv. split; [|split].
  - apply Hget; [apply Hu|rewrite Hv; by apply groups_wf_insert|done|].
    by rewrite Hv, lookup_insert_eq.
  - intros other Heq%Hget; [|done..]. by eapply Hfree.
  - intros b Hbb. destruct (Hlow b Hbb) as [other Ho]. exists other. apply Hget; auto. lia.
Qed.

(** Deleting a group leaves its bit in the users' masks, and the next
    group created gets the lowest free bit: when the lower bits are taken it
    is the bit of the deleted group, so that the users of the deleted group
    are members of the new one. *)
Theorem deleted_group_bit_is_reused old new bit user s s1 s2
    (Hs : rs_ok s) (Hwf : groups_wf (view s CFG_KEYSPACE_GROUPS))
    (Hold : view s CFG_KEYSPACE_GROUPS !! old = Some (group_record old bit)) (Hbit : 1 <= bit <= 63)
    (Hlow : forall b, 1 <= b < bit -> exists id,
       view s CFG_KEYSPACE_GROUPS !! id = Some (group_record id b))
    (Hdel : edb_group_delete cfg old s = (true, s1))
    (Hnew : edb_group_create cfg new s1 = (true, s2)) :
  view s2 CFG_KEYSPACE_GROUPS !! new = Some (group_record new bit) /\
  view s2 CFG_KEYSPACE_USERS !! user = view s CFG_KEYSPACE_USERS !! user.
Proof.
  unfold edb_group_delete in Hdel.
  pose proof (remove_spec CFG_KEYSPACE_GROUPS old s Hs ltac:(auto)) as Hd. rewrite Hdel in Hd.
  pose proof (updates_view CFG_KEYSPACE_GROUPS _ _ _ ltac:(auto) Hd) as Hv.
  assert (Hwf1 : groups_wf (view s1 CFG_KEYSPACE_GROUPS))
    by (rewrite Hv; by apply groups_wf_delete).
  pose proof (group_create_spec new s1 (proj1 Hd) Hwf1) as Hc. cbv zeta in Hc. rewrite Hnew in Hc.
  destruct Hc as (Hn & Hnone & b & Hb & Hfree & Hlowb & Hu). split.
  - rewrite (updates_view CFG_KEYSPACE_GROUPS _ _ _ ltac:(auto) Hu), lookup_insert_eq.
    do 2 f_equal. rewrite Hv in Hfree, Hlowb.
    destruct (Z.lt_trichotomy b bit) as [Hlt|[->|Hgt]]; [exfalso|done|exfalso].
    + destruct (Hlow b ltac:(lia)) as [id Hid]. apply (Hfree id).
      rewrite lookup_delete_ne; [done|]. intros <-. rewrite Hold in Hid. injection Hid as Hid.
      assert (bit = b); [|lia]. apply (group_record_inj old); [done..|].
      unfold group_record, member_u64. by rewrite Hid.
    + destruct (Hlowb bit ltac:(lia)) as [id [Hne Hid]%lookup_delete_Some].
      apply Hne. by eapply (groups_bits _ Hwf old id bit).
  - rewrite (updates_other CFG_KEYSPACE_GROUPS _ _ _ CFG_KEYSPACE_USERS ltac:(auto) ltac:(done) Hu).
    by rewrite (updates_other CFG_KEYSPACE_GROUPS _ _ _ CFG_KEYSPACE_USERS ltac:(auto) ltac:(done) Hd).
Qed.

(** *** Users *)


Lemma length_hash_password salt p : String.length (hash_password salt p) = 64%nat.
Proof.
  unfold hash_password. rewrite length_hex_of_bytes.
  generalize (EDB_PASSWORD_ITERATIONS - 1)%N as n. intros n.
  assert (Hl : forall start, length start = 32%nat -> length (N.iter n Sha256.edb_sha256 start) = 32%nat).
  { intros start Hs. induction n as [|n IH] using N.peano_ind; [done|].
    rewrite N.iter_succ. apply Sha256.length_edb_sha256. }
  by rewrite Hl by apply Sha256.length_edb_sha256.
Qed.

(** Only the first 256 bytes of a password count. *)
Lemma hash_password_prefix salt p q :
  take 256 (bytes_of_string p) = take 256 (bytes_of_string q) ->
  hash_password salt p = hash_password salt q.
Proof. intros Heq. unfold hash_password. by rewrite Heq. Qed.

#[local] Opaque hash_password.

Definition user_of (V : gmap string json) (name : string) : option edb_user_info :=
  o ← V !! name; let i := user_info o in if String.eqb (u_name i) "" then None else Some i.

Lemma user_get_spec name s :
  rs_ok s -> exists s', edb_user_get name s = (user_of (view s CFG_KEYSPACE_USERS) name, s') /\
    unchanged s s'.
Proof.
  intros Hs. destruct (fetch_spec CFG_KEYSPACE_USERS name s) as (s' & Hf & Hu); [auto..|].
  exists s'. unfold edb_user_get. by rewrite (bind_run _ _ _ _ _ Hf).
Qed.

Lemma verify_spec name p s :
  rs_ok s -> (edb_user_verify_password name p s).1 =
    match view s CFG_KEYSPACE_USERS !! name with None => false | Some o => password_matches o p end.
Proof.
  intros Hs. destruct (fetch_spec CFG_KEYSPACE_USERS name s) as (s' & Hf & Hu); [auto..|].
  unfold edb_user_verify_password. by rewrite (bind_run _ _ _ _ _ Hf).
Qed.

Lemma password_matches_record name groups salt hash p :
  String.length salt = 32%nat -> String.length hash = 64%nat ->
  password_matches (password_record name groups salt hash) p = String.eqb (hash_password salt p) hash.
Proof. intros Hs Hh. unfold password_matches. record_simpl. by rewrite Hs, Hh. Qed.

(** After a password was set the user verifies with exactly the
    passwords of the same salted hash, so with that password and with any that
    agrees on the first 256 bytes; the groups of the user and all other users
    are as before; a failed call changes nothing. *)
Theorem password_roundtrip salt name p i s
    (Hs : rs_ok s) (Hsalt : String.length salt = 32%nat) (Hp : p <> ""%string)
    (Huser : (edb_user_get name s).1 = Some i) (Hname : name_ok 128 name = true)
    (Hgroups : 0 <= u_groups i < 2 ^ 64) :
  let '(ok, s') := edb_user_set_password cfg salt name p s in
  if ok then
    (forall q, (edb_user_verify_password name q s').1
               = String.eqb (hash_password salt q) (hash_password salt p)) /\
    (forall q, take 256 (bytes_of_string q) = take 256 (bytes_of_string p) ->
       (edb_user_verify_password name q s').1 = true) /\
    (edb_user_has_password name s').1 = true /\
    (edb_user_get name s').1 = Some {| u_name := name; u_groups := u_groups i |} /\
    forall other q, other <> name ->
      (edb_user_get other s').1 = (edb_user_get other s).1 /\
      (edb_user_verify_password other q s').1 = (edb_user_verify_password other q s).1
  else unchanged s s'.
Proof.
  unfold edb_user_set_password. rewrite (proj2 (String.eqb_neq _ _) Hp).
  destruct (user_get_spec name s Hs) as (s1 & Hget & Hu1). rewrite Hget in Huser. cbn [fst] in Huser.
  rewrite (bind_run _ _ _ _ _ Hget), Huser.
  pose proof (length_hash_password salt p) as Hhl.
  destruct (hash_password salt p) as [|c h] eqn:Hhash; [discriminate Hhl|].
  set (hash := String c h) in *. clearbody hash.
  pose proof (store_spec CFG_KEYSPACE_USERS name (password_record name (u_groups i) salt hash) s1
    (proj1 Hu1) ltac:(auto) eq_refl) as Hst.
  destruct (store _ _ _ _ _) as [[] s']; [|by eapply unchanged_trans].
  pose proof (unchanged_updates _ _ _ _ _ Hu1 Hst) as Hu.
  pose proof (updates_view CFG_KEYSPACE_USERS _ _ _ ltac:(auto) Hu) as Hv. destruct Hu as [Hs' _].
  assert (Hver : forall q, (edb_user_verify_password name q s').1 = String.eqb (hash_password salt q) hash).
  { intros q. by rewrite verify_spec, Hv, lookup_insert_eq, password_matches_record by done. }
  split; [exact Hver|]. split; [|split; [|split]].
  - intros q Hq. rewrite Hver. apply String.eqb_eq. rewrite <-Hhash. by apply hash_password_prefix.
  - destruct (fetch_spec CFG_KEYSPACE_USERS name s') as (s2 & Hf & _); [auto..|].
    unfold edb_user_has_password. rewrite (bind_run _ _ _ _ _ Hf), Hv, lookup_insert_eq.
    unfold mret, st_ret. cbn [fst mbind option_bind]. record_simpl. by rewrite Hhl.
  - destruct (user_get_spec name s' Hs') as (s2 & -> & _). cbn [fst]. unfold user_of.
    rewrite Hv, lookup_insert_eq. cbn [mbind option_bind]. unfold user_info, copy_name. record_simpl.
    rewrite text_print_u64 by done. cbn [u_name from_option]. unfold id.
    destruct (name_ok_copy 128 name Hname) as [-> ->]. done.
  - intros other q Hne. rewrite !verify_spec, Hv, lookup_insert_ne by done. split; [|done].
    destruct (user_get_spec other s' Hs') as (s2 & -> & _).
    destruct (user_get_spec other s Hs) as (s3 & -> & _). cbn [fst]. unfold user_of.
    by rewrite Hv, lookup_insert_ne by done.
Qed.

(** Changing the groups of a user rewrites the record without its salt
    and hash: the password is gone, and no password verifies until a new one
    is set. *)
Theorem set_groups_erases_password name groups s s'
    (Hs : rs_ok s) (Hset : edb_user_set_groups cfg name groups s = (true, s')) :
  (edb_user_has_password name s').1 = false /\
  forall p, (edb_user_verify_password name p s').1 = false.
Proof.
  unfold edb_user_set_groups in Hset. destruct (user_get_spec name s Hs) as (s1 & Hget & Hu1).
  rewrite (bind_run _ _ _ _ _ Hget) in Hset. destruct (user_of _ _) as [i|]; [|done].
  unfold user_update in Hset.
  pose proof (store_spec CFG_KEYSPACE_USERS name (user_record name groups) s1
    (proj1 Hu1) ltac:(auto) eq_refl) as Hst. rewrite Hset in Hst.
  pose proof (updates_view CFG_KEYSPACE_USERS _ _ _ ltac:(auto) Hst) as Hv. destruct Hst as [Hs' _].
  split.
  - destruct (fetch_spec CFG_KEYSPACE_USERS name s') as (s2 & Hf & _); [auto..|].
    unfold edb_user_has_password. by rewrite (bind_run _ _ _ _ _ Hf), Hv, lookup_insert_eq.
  - intros p. by rewrite verify_spec, Hv, lookup_insert_eq.
Qed.

(** *** Partitions *)

Definition partition_of (V : gmap string json) (database name : string) : option edb_partition_info :=
  o ← V !! partition_id database name;
  let i := partition_info o in if String.eqb (p_name i) "" then None else Some i.

Lemma partition_get_spec db name s :
  rs_ok s -> exists s', edb_partition_get db name s =
    (partition_of (view s CFG_KEYSPACE_PARTITIONS) db name, s') /\ unchanged s s'.
Proof.
  intros Hs. destruct (fetch_spec CFG_KEYSPACE_PARTITIONS (partition_id db name) s) as (s' & Hf & Hu);
    [auto..|]. exists s'. unfold edb_partition_get. by rewrite (bind_run _ _ _ _ _ Hf).
Qed.

Definition mask_ok (m : Z) : Prop := 0 <= m < 2 ^ 64.

Lemma partition_info_record db name m1 m2 m3 m4 :
  name_ok 128 db = true -> name_ok 256 name = true ->
  mask_ok m1 -> mask_ok m2 -> mask_ok m3 -> mask_ok m4 ->
  partition_info (partition_record db name m1 m2 m3 m4) =
    {| p_database := db; p_name := name; p_create_mask := m1; p_update_mask := m2;
       p_read_mask := m3; p_delete_mask := m4 |}.
Proof.
  intros Hd Hn H1 H2 H3 H4. unfold partition_info, copy_name. record_simpl.
  rewrite !text_print_u64 by done. cbn [from_option]. unfold id.
  by rewrite (proj1 (name_ok_copy _ _ Hd)), (proj1 (name_ok_copy _ _ Hn)).
Qed.

(** Writing the record of a partition makes it the one that is found. *)
Lemma partition_of_insert V db name m1 m2 m3 m4 :
  name_ok 128 db = true -> name_ok 256 name = true ->
  mask_ok m1 -> mask_ok m2 -> mask_ok m3 -> mask_ok m4 ->
  partition_of (<[partition_id db name := partition_record db name m1 m2 m3 m4]> V) db name =
    Some {| p_database := db; p_name := name; p_create_mask := m1; p_update_mask := m2;
            p_read_mask := m3; p_delete_mask := m4 |}.
Proof.
  intros Hd Hn H1 H2 H3 H4. unfold partition_of. rewrite lookup_insert_eq. cbn [mbind option_bind].
  rewrite partition_info_record by done. cbn [p_name].
  by rewrite (proj2 (name_ok_copy 256 name Hn)).
Qed.

Lemma partition_create_spec db name m1 m2 m3 m4 s :
  rs_ok s -> partition_of (view s CFG_KEYSPACE_PARTITIONS) db name = None ->
  name_ok 128 db = true -> name_ok 256 name = true ->
  let '(ok, s') := edb_partition_create cfg db name m1 m2 m3 m4 s in
  if ok then updates CFG_KEYSPACE_PARTITIONS
               <[partition_id db name := partition_record db name m1 m2 m3 m4]> s s'
  else unchanged s s'.
Proof.
  intros Hs Hnone Hd Hn. unfold edb_partition_create. rewrite Hd, Hn. cbn [negb orb].
  destruct (partition_get_spec db name s Hs) as (s1 & Hget & Hu1). rewrite Hnone in Hget.
  rewrite (bind_run _ _ _ _ _ Hget).
  pose proof (store_spec CFG_KEYSPACE_PARTITIONS (partition_id db name)
    (partition_record db name m1 m2 m3 m4) s1 (proj1 Hu1) ltac:(auto) eq_refl) as Hst.
  destruct (store _ _ _ _ _) as [[] s2].
  - by eapply unchanged_updates.
  - by eapply unchanged_trans.
Qed.

(** The registration of a keyspace at the end of [edb_partition_ensure]. *)
Definition register_keyspace (db part ks : string) (created : bool) : st S (bool * bool) :=
  let ks_id := snprintf 640 (keyspace_path db part ks) in
  r ← fetch CFG_KEYSPACE_KEYSPACES ks_id;
  match r with
  | Some _ => mret (true, created)
  | None => ok ← store cfg CFG_KEYSPACE_KEYSPACES ks_id (keyspace_record db part ks);
            mret (ok, created)
  end.

Lemma register_keyspace_spec db part ks created s :
  rs_ok s -> let id := snprintf 640 (keyspace_path db part ks) in
  let '(ok, c, s') := register_keyspace db part ks created s in
  c = created /\ rs_ok s' /\
  (forall k, k ∈ system_keyspaces -> k <> CFG_KEYSPACE_KEYSPACES -> view s' k = view s k) /\
  (ok = true -> is_Some (view s' CFG_KEYSPACE_KEYSPACES !! id)) /\
  (is_Some (view s CFG_KEYSPACE_KEYSPACES !! id) -> ok = true /\ unchanged s s').
Proof.
  intros Hs id. unfold register_keyspace. fold id.
  destruct (fetch_spec CFG_KEYSPACE_KEYSPACES id s) as (s1 & Hf & Hu1); [auto..|].
  rewrite (bind_run _ _ _ _ _ Hf). pose proof Hu1 as [Hs1 Hv1].
  destruct (view s CFG_KEYSPACE_KEYSPACES !! id) as [doc|] eqn:E.
  - unfold mret, st_ret. split_and!; try done; [by auto|]. intros _. rewrite Hv1 by auto. by rewrite E.
  - pose proof (store_spec CFG_KEYSPACE_KEYSPACES id (keyspace_record db part ks) s1
      Hs1 ltac:(auto) eq_refl) as Hst.
    unfold mbind, st_bind. destruct (store _ _ _ _ _) as [[] s2]; unfold mret, st_ret.
    + split_and!; [done|apply Hst| | |by intros [? ?]].
      * intros k Hk Hne. rewrite (updates_other CFG_KEYSPACE_KEYSPACES _ s1) by done. auto.
      * intros _. rewrite (updates_view CFG_KEYSPACE_KEYSPACES _ s1) by (auto; exact Hst).
        by rewrite lookup_insert_eq.
    + destruct Hst as [Hs2 Hv2]. split_and!; [done|done| |done|by intros [? ?]].
      intros k Hk Hne. rewrite Hv2, Hv1 by done. done.
Qed.

Lemma ensure_unfold db part ks s :
  ks <> ""%string -> name_ok 128 db = true -> name_ok 256 part = true -> rs_ok s ->
  exists s1, unchanged s s1 /\
  edb_partition_ensure cfg db part ks s =
    match partition_of (view s CFG_KEYSPACE_PARTITIONS) db part with
    | Some _ => register_keyspace db part ks false s1
    | None =>
        let '(ok, s2) := edb_partition_create cfg db part EDB_MASK_ALLOW_ALL EDB_MASK_ALLOW_ALL
                           EDB_MASK_ALLOW_ALL EDB_MASK_ALLOW_ALL s1 in
        if ok : bool then register_keyspace db part ks true s2 else ((false, false), s2)
    end.
Proof.
  intros Hk Hd Hp Hs. destruct (partition_get_spec db part s Hs) as (s1 & Hget & Hu1).
  exists s1. split; [done|]. unfold edb_partition_ensure.
  rewrite (proj2 (String.eqb_neq _ _) Hk), Hd, Hp. cbn [negb orb].
  rewrite (bind_run _ _ _ _ _ Hget). destruct (partition_of _ _ _); [done|].
  unfold mbind, st_bind.
  by destruct (edb_partition_create _ _ _ _ _ _ _ _) as [[] s2].
Qed.

(** A write may proceed when [edb_partition_ensure] reports success: the
    partition then exists, with open masks exactly when it was created by
    the call and its own ones otherwise, the keyspace is registered, and a
    second call succeeds, creates nothing and changes nothing. *)
Theorem partition_ensure_idempotent db part ks s created s'
    (Hs : rs_ok s) (Hk : ks <> ""%string) (Hd : name_ok 128 db = true) (Hp : name_ok 256 part = true)
    (Hens : edb_partition_ensure cfg db part ks s = ((true, created), s')) :
  (exists i, (edb_partition_get db part s').1 = Some i /\
     (if created then (edb_partition_get db part s).1 = None /\
        forall groups, edb_check_perm (p_create_mask i) groups = true /\
          edb_check_perm (p_update_mask i) groups = true /\
          edb_check_perm (p_read_mask i) groups = true /\
          edb_check_perm (p_delete_mask i) groups = true
      else (edb_partition_get db part s).1 = Some i)) /\
  is_Some (view s' CFG_KEYSPACE_KEYSPACES !! snprintf 640 (keyspace_path db part ks)) /\
  exists s2, edb_partition_ensure cfg db part ks s' = ((true, false), s2) /\ unchanged s' s2.
Proof.
  destruct (partition_get_spec db part s Hs) as (s0 & Hget & _).
  destruct (ensure_unfold db part ks s Hk Hd Hp Hs) as (s1 & [Hs1 Hv1] & Heq). rewrite Hens in Heq.
  assert (Hmain : rs_ok s' /\ is_Some (view s' CFG_KEYSPACE_KEYSPACES !! snprintf 640 (keyspace_path db part ks)) /\
    exists i, partition_of (view s' CFG_KEYSPACE_PARTITIONS) db part = Some i /\
      partition_of (view s CFG_KEYSPACE_PARTITIONS) db part = (if created then None else Some i) /\
      (created = true -> i = {| p_database := db; p_name := part; p_create_mask := 0;
         p_update_mask := 0; p_read_mask := 0; p_delete_mask := 0 |})).
  { destruct (partition_of (view s CFG_KEYSPACE_PARTITIONS) db part) as [i|] eqn:E.
    - pose proof (register_keyspace_spec db part ks false s1 Hs1) as Hreg. cbv zeta in Hreg.
      rewrite <-Heq in Hreg. destruct Hreg as (-> & Hs' & Hoth & Hin & _).
      split; [done|]. split; [by apply Hin|]. exists i. by rewrite Hoth, Hv1, E by auto.
    - pose proof (partition_create_spec db part EDB_MASK_ALLOW_ALL EDB_MASK_ALLOW_ALL
        EDB_MASK_ALLOW_ALL EDB_MASK_ALLOW_ALL s1 Hs1) as Hc.
      rewrite Hv1, E in Hc by auto. specialize (Hc eq_refl Hd Hp).
      destruct (edb_partition_create _ _ _ _ _ _ _ _) as [[] s2]; [|done].
      pose proof (register_keyspace_spec db part ks true s2 (proj1 Hc)) as Hreg. cbv zeta in Hreg.
      rewrite <-Heq in Hreg. destruct Hreg as (-> & Hs' & Hoth & Hin & _).
      split; [done|]. split; [by apply Hin|]. eexists.
      rewrite Hoth, (updates_view CFG_KEYSPACE_PARTITIONS _ s1 s2) by (auto; exact Hc).
      split; [|split; [done|reflexivity]]. by apply partition_of_insert. }
  destruct Hmain as (Hs' & Hin & i & Hi & Hi0 & Hopen).
  destruct (partition_get_spec db part s' Hs') as (s3 & Hget' & _).
  split; [|split; [done|]].
  - exists i. rewrite Hget', Hget, Hi, Hi0. cbn [fst]. destruct created; [|done].
    by rewrite Hopen.
  - destruct (ensure_unfold db part ks s' Hk Hd Hp Hs') as (s4 & [Hs4 Hv4] & ->). rewrite Hi.
    pose proof (register_keyspace_spec db part ks false s4 Hs4) as Hreg. cbv zeta in Hreg.
    revert Hreg. destruct (register_keyspace db part ks false s4) as [[ok c] s5].
    intros (-> & _ & _ & _ & Hsame).
    rewrite Hv4 in Hsame by auto. destruct (Hsame Hin) as [-> Hu]. exists s5. split; [done|].
    by eapply unchanged_trans; [split|].
Qed.

(** *** Deleting a database *)

(** No removal fails. *)
Definition reliable : Prop :=
  forall ks id s, rs_ok s -> ks ∈ system_keyspaces -> (remove_record cfg ks id s).1 = true.

Lemma reliable_remove ks id s :
  reliable -> rs_ok s -> ks ∈ system_keyspaces ->
  exists s', remove_record cfg ks id s = (true, s') /\ updates ks (delete id) s s'.
Proof.
  intros Hrel Hs Hks. pose proof (remove_spec ks id s Hs Hks) as Hr.
  pose proof (Hrel ks id s Hs Hks) as Ht.
  destruct (remove_record cfg ks id s) as [ok s']. simpl in Ht. subst ok. eauto.
Qed.

Definition selects (partition : option string) (part : string) : bool :=
  match partition with Some p => String.eqb part p | None => true end.

Lemma keyspace_selected_record db partition db' part ks :
  keyspace_selected db partition (keyspace_record db' part ks) =
  if String.eqb db' db && selects partition part then Some part else None.
Proof. unfold keyspace_selected. record_simpl. done. Qed.

(** Only the keyspace registry changes, and only records of [db] go. *)
Definition trims_keyspaces (db : string) (s s' : S) : Prop :=
  rs_ok s' /\
  (forall k, k ∈ system_keyspaces -> k <> CFG_KEYSPACE_KEYSPACES -> view s' k = view s k) /\
  trims db (view s CFG_KEYSPACE_KEYSPACES) (view s' CFG_KEYSPACE_KEYSPACES).

Lemma remove_keyspaces_spec db partition items s :
  reliable -> rs_ok s ->
  (forall item, item ∈ items -> exists db' part ks, item = keyspace_record db' part ks /\
     (db' = db -> (String.length (keyspace_path db part ks) < 640)%nat /\
        forall doc, view s CFG_KEYSPACE_KEYSPACES !! keyspace_path db part ks = Some doc -> doc = item)) ->
  exists s', remove_keyspaces cfg db partition items s = (true, s') /\ trims_keyspaces db s s' /\
    forall part ks, keyspace_record db part ks ∈ items -> selects partition part = true ->
      view s' CFG_KEYSPACE_KEYSPACES !! keyspace_path db part ks = None.
Proof.
  intros Hrel. revert s. induction items as [|item items IH]; intros s Hs Hitems.
  { exists s. split; [done|]. split; [|by intros ? ? ?%elem_of_nil].
    split; [done|]. split; [done|apply trims_refl]. }
  destruct (Hitems item) as (db' & part & ks & -> & Hitem); [left|].
  cbn [remove_keyspaces]. rewrite keyspace_selected_record.
  destruct (String.eqb db' db && selects partition part) eqn:Hsel.
  - apply andb_true_iff in Hsel as [->%String.eqb_eq Hsel]. destruct (Hitem eq_refl) as [Hlen Hdoc].
    assert (get_string (keyspace_record db part ks) "name" = Some ks) as ->
      by (record_simpl; done).
    cbv zeta. rewrite (proj2 (Nat.leb_gt _ _) Hlen).
    destruct (reliable_remove CFG_KEYSPACE_KEYSPACES (keyspace_path db part ks) s Hrel Hs)
      as (s1 & Hrm & Hu); [auto|].
    pose proof (updates_view CFG_KEYSPACE_KEYSPACES _ _ _ ltac:(auto) Hu) as Hv.
    destruct (IH s1 (proj1 Hu)) as (s2 & Hrun & (Hs2 & Hoth & Htr) & Hgone).
    { intros item Hin. destruct (Hitems item) as (db1 & part1 & ks1 & -> & H1); [by right|].
      exists db1, part1, ks1. split; [done|]. intros Heq. destruct (H1 Heq) as [? Hd]. split; [done|].
      intros doc. rewrite Hv. intros [_ ?]%lookup_delete_Some. by apply Hd. }
    exists s2. rewrite (bind_run _ _ _ _ _ Hrm), (bind_run _ _ _ _ _ Hrun). split; [done|]. split.
    + split; [done|]. split.
      * intros k Hk Hne. rewrite Hoth by done. by eapply updates_other.
      * eapply trims_trans; [|exact Htr]. rewrite Hv. apply trims_delete.
        intros doc ->%Hdoc. record_simpl. done.
    + intros part1 ks1 Hin Hsel1. apply elem_of_cons in Hin as [Heq|Hin]; [|by apply Hgone].
      injection Heq as -> ->. rewrite Hv in Htr. destruct Htr as [Hsub _].
      destruct (view s2 CFG_KEYSPACE_KEYSPACES !! keyspace_path db part ks) as [doc|] eqn:E; [|done].
      apply (lookup_weaken _ _ _ _ E) in Hsub. by rewrite lookup_delete_eq in Hsub.
  - destruct (IH s Hs) as (s2 & Hrun & Htr & Hgone); [intros; apply Hitems; by right|].
    exists s2. split; [done|]. split; [done|]. intros part1 ks1 Hin Hsel1.
    apply elem_of_cons in Hin as [Heq|Hin]; [|by apply Hgone].
    injection Heq as <- <- <-. by rewrite String.eqb_refl, Hsel1 in Hsel.
Qed.

Lemma remove_keyspaces_for_spec db partition s :
  reliable -> rs_ok s -> keyspaces_wf (view s CFG_KEYSPACE_KEYSPACES) ->
  keyspaces_short db (view s CFG_KEYSPACE_KEYSPACES) ->
  exists s', remove_keyspaces_for cfg db partition s = (true, s') /\ trims_keyspaces db s s' /\
    forall id part ks, view s' CFG_KEYSPACE_KEYSPACES !! id = Some (keyspace_record db part ks) ->
      selects partition part = false.
Proof.
  intros Hrel Hs Hwf Hsh.
  destruct (collect_spec CFG_KEYSPACE_KEYSPACES s) as (l & s1 & Hc & [Hs1 Hv1] & Hl); [auto..|].
  assert (Hin : forall item, item ∈ l <-> exists id, view s CFG_KEYSPACE_KEYSPACES !! id = Some item).
  { intros item. rewrite Hl, list_elem_of_fmap. split.
    - intros ([id doc] & -> & Hd%elem_of_map_to_list). by exists id.
    - intros (id & Hd). exists (id, item). split; [done|]. by apply elem_of_map_to_list. }
  destruct (remove_keyspaces_spec db partition l s1 Hrel Hs1)
    as (s2 & Hrun & (Hs2 & Hoth & Htr) & Hgone).
  { intros item Hi. apply Hin in Hi as (id & Hd). destruct (Hwf _ _ Hd) as (db' & part & ks & Hid & ->).
    exists db', part, ks. split; [done|]. intros ->. split; [by eapply Hsh|].
    intros doc. rewrite Hv1 by auto. rewrite <-(keyspace_found db _ _ _ _ Hwf Hsh Hd). congruence. }
  rewrite Hv1 in Htr by auto.
  exists s2. unfold remove_keyspaces_for. rewrite (bind_run _ _ _ _ _ Hc). cbn [array_items].
  split; [done|]. split.
  - split; [done|]. split; [|done]. intros k Hk Hne. rewrite Hoth, Hv1 by done. done.
  - intros id part ks Hd. apply not_true_iff_false. intros Hsel.
    pose proof (lookup_weaken _ _ _ _ Hd (proj1 Htr)) as Hd0.
    rewrite (keyspace_found db _ _ _ _ Hwf Hsh Hd0) in Hd. rewrite Hgone in Hd; [done| |done].
    apply Hin. eauto.
Qed.

(** Partitions and keyspaces change, and only records of [db] go. *)
Definition trims_database (db : string) (s s' : S) : Prop :=
  rs_ok s' /\
  (forall k, k ∈ system_keyspaces -> k <> CFG_KEYSPACE_KEYSPACES -> k <> CFG_KEYSPACE_PARTITIONS ->
     view s' k = view s k) /\
  trims db (view s CFG_KEYSPACE_KEYSPACES) (view s' CFG_KEYSPACE_KEYSPACES) /\
  trims db (view s CFG_KEYSPACE_PARTITIONS) (view s' CFG_KEYSPACE_PARTITIONS).

Lemma trims_database_trans db s1 s2 s3 :
  trims_database db s1 s2 -> trims_database db s2 s3 -> trims_database db s1 s3.
Proof.
  intros (_ & Ho1 & Hk1 & Hp1) (Hs3 & Ho2 & Hk2 & Hp2). split; [done|]. split.
  - intros k Hk Hn1 Hn2. by rewrite Ho2, Ho1 by done.
  - split; by eapply trims_trans.
Qed.

Lemma partition_delete_spec db name s :
  reliable -> rs_ok s -> keyspaces_wf (view s CFG_KEYSPACE_KEYSPACES) ->
  keyspaces_short db (view s CFG_KEYSPACE_KEYSPACES) ->
  (forall doc, view s CFG_KEYSPACE_PARTITIONS !! partition_id db name = Some doc ->
     get_string doc "database" = Some db) ->
  exists s', edb_partition_delete cfg db name s = (true, s') /\ trims_database db s s' /\
    view s' CFG_KEYSPACE_PARTITIONS !! partition_id db name = None.
Proof.
  intros Hrel Hs Hwf Hsh Hdoc.
  destruct (remove_keyspaces_for_spec db (Some name) s Hrel Hs Hwf Hsh)
    as (s1 & Hrun & (Hs1 & Hoth & Htr) & _).
  destruct (reliable_remove CFG_KEYSPACE_PARTITIONS (partition_id db name) s1 Hrel Hs1)
    as (s2 & Hrm & Hu); [auto|].
  pose proof (updates_view CFG_KEYSPACE_PARTITIONS _ _ _ ltac:(auto) Hu) as Hv.
  exists s2. unfold edb_partition_delete. rewrite (bind_run _ _ _ _ _ Hrun). split; [done|].
  rewrite Hoth in Hv by (auto || done).
  split; [|by rewrite Hv, lookup_delete_eq]. split; [apply Hu|]. split.
  - intros k Hk Hn1 Hn2. rewrite (updates_other CFG_KEYSPACE_PARTITIONS _ s1) by done. auto.
  - split.
    + by rewrite (updates_other CFG_KEYSPACE_PARTITIONS _ s1 s2 CFG_KEYSPACE_KEYSPACES) by (auto || done).
    + rewrite Hv. by apply trims_delete.
Qed.

Lemma delete_partitions_spec db parts s :
  reliable -> rs_ok s -> keyspaces_wf (view s CFG_KEYSPACE_KEYSPACES) ->
  keyspaces_short db (view s CFG_KEYSPACE_KEYSPACES) ->
  (forall p, p ∈ parts -> forall doc,
     view s CFG_KEYSPACE_PARTITIONS !! partition_id db (p_name p) = Some doc ->
     get_string doc "database" = Some db) ->
  exists s', delete_partitions cfg db parts s = (tt, s') /\ trims_database db s s' /\
    forall p, p ∈ parts -> view s' CFG_KEYSPACE_PARTITIONS !! partition_id db (p_name p) = None.
Proof.
  intros Hrel. revert s. induction parts as [|p parts IH]; intros s Hs Hwf Hsh Hdoc.
  { exists s. split; [done|]. split; [|by intros ? ?%elem_of_nil].
    split; [done|]. split; [done|]. split; apply trims_refl. }
  destruct (partition_delete_spec db (p_name p) s Hrel Hs Hwf Hsh) as (s1 & Hrun & Htr & Hgone);
    [apply Hdoc; left|]. pose proof Htr as (Hs1 & _ & [Hksub _] & [Hpsub _]).
  destruct (keyspaces_sub db _ _ Hksub Hwf Hsh) as [Hwf1 Hsh1].
  destruct (IH s1 Hs1 Hwf1 Hsh1) as (s2 & Hrun2 & Htr2 & Hgone2).
  { intros q Hq doc Hd. eapply Hdoc; [by right|]. by eapply lookup_weaken. }
  exists s2. cbn [delete_partitions]. rewrite (bind_run _ _ _ _ _ Hrun). split; [done|].
  split; [by eapply trims_database_trans|]. intros q Hq. apply elem_of_cons in Hq as [->|Hq]; [|auto].
  destruct Htr2 as (_ & _ & _ & [Hsub _]).
  destruct (view s2 CFG_KEYSPACE_PARTITIONS !! _) as [doc|] eqn:E; [|done].
  apply (lookup_weaken _ _ _ _ E) in Hsub. congruence.
Qed.

(** A partition record of [db] is under the id its fields make. *)
Lemma partition_doc_id db G id doc :
  partitions_wf G -> G !! id = Some doc -> get_string doc "database" = Some db ->
  id = partition_id db (p_name (partition_info doc)).
Proof.
  intros Hwf Hd. destruct (Hwf _ _ Hd) as (db' & nm & m1 & m2 & m3 & m4 & _ & Hn & -> & ->).
  unfold partition_info, copy_name. cbn [p_name]. record_simpl. intros [= ->].
  by rewrite (proj1 (name_ok_copy 256 nm Hn)).
Qed.

Lemma partition_list_spec db s :
  rs_ok s -> partitions_wf (view s CFG_KEYSPACE_PARTITIONS) ->
  exists parts s1, edb_partition_list db s = (parts, s1) /\ unchanged s s1 /\
    forall p, p ∈ parts <-> exists id doc, view s CFG_KEYSPACE_PARTITIONS !! id = Some doc /\
      get_string doc "database" = Some db /\ p = partition_info doc.
Proof.
  intros Hs Hwf.
  destruct (collect_spec CFG_KEYSPACE_PARTITIONS s) as (l & s1 & Hc & Hu & Hl); [auto..|].
  eexists _, s1. unfold edb_partition_list. rewrite (bind_run _ _ _ _ _ Hc).
  split; [reflexivity|]. split; [done|]. intros p. cbn [array_items]. rewrite list_elem_of_fmap.
  setoid_rewrite list_elem_of_In. setoid_rewrite filter_In. setoid_rewrite <-list_elem_of_In.
  setoid_rewrite Hl. setoid_rewrite list_elem_of_fmap.
  assert (Hdb : forall id doc, view s CFG_KEYSPACE_PARTITIONS !! id = Some doc ->
    (String.eqb (copy_name 128 doc "database") db = true <-> get_string doc "database" = Some db)).
  { intros id doc Hd. destruct (Hwf _ _ Hd) as (db' & nm & m1 & m2 & m3 & m4 & Hdb & _ & _ & ->).
    unfold copy_name. record_simpl. rewrite (proj1 (name_ok_copy 128 db' Hdb)), String.eqb_eq.
    split; [by intros ->|by intros [= ->]]. }
  split.
  - intros (doc & -> & ([id d] & -> & Hd%elem_of_map_to_list) & Heq). cbn [snd] in *.
    exists id, d. split; [done|]. split; [by eapply Hdb|done].
  - intros (id & doc & Hd & Heq & ->). exists doc. split; [done|]. split; [|by eapply Hdb].
    exists (id, doc). split; [done|]. by apply elem_of_map_to_list.
Qed.

(** Deleting a database removes its record and exactly the partition and
    keyspace records of that database, and reports success, when no removal
    fails and its registered keyspace ids fit in the 640 byte buffer. *)
Theorem database_delete_complete name s
    (Hs : rs_ok s) (Hrel : reliable)
    (Hparts : partitions_wf (view s CFG_KEYSPACE_PARTITIONS))
    (Hks : keyspaces_wf (view s CFG_KEYSPACE_KEYSPACES))
    (Hshort : keyspaces_short name (view s CFG_KEYSPACE_KEYSPACES)) :
  let '(ok, s') := edb_database_delete cfg name s in
  ok = true /\ rs_ok s' /\
  view s' CFG_KEYSPACE_DATABASES = delete name (view s CFG_KEYSPACE_DATABASES) /\
  view s' CFG_KEYSPACE_PARTITIONS = without_database name (view s CFG_KEYSPACE_PARTITIONS) /\
  view s' CFG_KEYSPACE_KEYSPACES = without_database name (view s CFG_KEYSPACE_KEYSPACES).
Proof.
  destruct (partition_list_spec name s Hs Hparts) as (parts & s1 & Hrun & [Hs1 Hv1] & Hin).
  pose proof (fun id doc => partition_doc_id name _ id doc Hparts) as Hpid.
  destruct (delete_partitions_spec name parts s1 Hrel Hs1) as (s2 & Hrun2 & Htr & Hgone).
  { by rewrite Hv1 by auto. }
  { by rewrite Hv1 by auto. }
  { intros p Hp doc. rewrite Hv1 by auto. apply Hin in Hp as (id & d & Hd & Hdb & ->).
    rewrite <-(Hpid _ _ Hd Hdb). intros Hd'. congruence. }
  destruct Htr as (Hs2 & Hoth2 & Hk2 & Hp2). rewrite Hv1 in Hk2, Hp2 by auto.
  destruct (keyspaces_sub name _ _ (proj1 Hk2) Hks Hshort) as [Hwf2 Hsh2].
  destruct (remove_keyspaces_for_spec name None s2 Hrel Hs2 Hwf2 Hsh2)
    as (s3 & Hrun3 & (Hs3 & Hoth3 & Hk3) & Hno3).
  destruct (reliable_remove CFG_KEYSPACE_DATABASES name s3 Hrel Hs3) as (s4 & Hrun4 & Hu4); [auto|].
  unfold edb_database_delete. rewrite (bind_run _ _ _ _ _ Hrun), (bind_run _ _ _ _ _ Hrun2),
    (bind_run _ _ _ _ _ Hrun3), Hrun4.
  split; [done|]. split; [apply Hu4|].
  rewrite (updates_view CFG_KEYSPACE_DATABASES _ s3) by (auto; exact Hu4).
  rewrite !(updates_other CFG_KEYSPACE_DATABASES _ s3 s4) by (auto || done).
  rewrite (Hoth3 CFG_KEYSPACE_DATABASES), (Hoth3 CFG_KEYSPACE_PARTITIONS), Hoth2, Hv1 by (auto || done).
  split; [done|]. split.
  - apply trims_all; [done|]. intros id doc Hd Hdb.
    pose proof (lookup_weaken _ _ _ _ Hd (proj1 Hp2)) as Hd0. rewrite (Hpid _ _ Hd0 Hdb) in Hd.
    rewrite Hgone in Hd; [done|]. apply Hin. eauto.
  - apply trims_all; [by eapply trims_trans|]. intros id doc Hd Hdb.
    pose proof (lookup_weaken _ _ _ _ Hd (proj1 Hk3)) as Hd0.
    destruct (Hwf2 _ _ Hd0) as (db & part & ks & _ & ->). revert Hdb. record_simpl. intros [= ->].
    by apply Hno3 in Hd.
Qed.

End facts.

(** ** Instances *)

(** A single node over the map store. *)
Section instances.
Import MapStore.
#[local] Existing Instance digit_codec.
#[local] Instance demo_laws : RecordStoreLaws map_store := map_store_laws system_keyspaces.

Definition demo : edb_config map_store := edb_config_open.

Lemma demo_covers ks : ks ∈ system_keyspaces -> ks ∈ rs_keyspaces (S := map_store).
Proof. done. Qed.

Lemma demo_lawful : replicator_lawful demo.
Proof. by intros r [=]. Qed.

(** The outcome of a concrete run. *)
Ltac run_to E := apply (f_equal fst) in E; vm_compute in E; first [discriminate E|subst].

Lemma settings_roundtrip_witness :
  let '(ok, s') := edb_setting_set demo "theme" (json_print (JString "dark")) ∅ in
  ok = true /\ (edb_setting_get "theme" s').1 = Some (json_print (JString "dark")).
Proof.
  destruct (settings_roundtrip demo demo_covers demo_lawful "theme" (json_print (JString "dark"))
    (JString "dark") ∅ I ltac:(done) ltac:(reflexivity) ltac:(done)) as [Hset _].
  destruct (edb_setting_set demo "theme" (json_print (JString "dark")) ∅) as [ok s'] eqn:E.
  destruct ok; [|run_to E]. split; [done|]. apply Hset.
Defined.

Lemma groups_distinct_bits_witness :
  let s1 := run_group_ops demo [GroupCreate "a"; GroupCreate "b"; GroupDelete "a"] ∅ in
  groups_wf (docs s1 CFG_KEYSPACE_GROUPS) /\
  (size (docs s1 CFG_KEYSPACE_GROUPS) <= EDB_MAX_GROUPS)%nat.
Proof.
  destruct (groups_distinct_bits demo demo_covers demo_lawful
    [GroupCreate "a"; GroupCreate "b"; GroupDelete "a"] ∅ I (docs_empty _)) as (Hwf & Hsize & _).
  split; [exact Hwf|exact Hsize].
Defined.

(** "a" has bit 1; it is deleted and "b" is created. *)
Lemma deleted_group_bit_is_reused_witness :
  let s := <[CFG_KEYSPACE_USERS := {["eve"%string := user_record "eve" 1]}]>
             (edb_group_create demo "a" ∅).2 in
  let s2 := (edb_group_create demo "b" (edb_group_delete demo "a" s).2).2 in
  docs s2 CFG_KEYSPACE_GROUPS !! "b"%string = Some (group_record "b" 1) /\
  docs s2 CFG_KEYSPACE_USERS !! "eve"%string = Some (user_record "eve" 1).
Proof.
  intros s s2. destruct (deleted_group_bit_is_reused demo demo_covers demo_lawful "a" "b" 1 "eve" s
    (edb_group_delete demo "a" s).2 s2 I) as [H1 H2].
  - split.
    + intros id doc Hd. change (({["a"%string := group_record "a" 1]} : gmap string json) !! id = Some doc) in Hd.
      apply lookup_singleton_Some in Hd as [<- <-]. split; [done|]. by exists 1.
    + intros id1 id2 bit _ H1 H2.
      change (({["a"%string := group_record "a" 1]} : gmap string json) !! id1 = Some (group_record id1 bit)) in H1.
      change (({["a"%string := group_record "a" 1]} : gmap string json) !! id2 = Some (group_record id2 bit)) in H2.
      apply lookup_singleton_Some in H1 as [<- _]. by apply lookup_singleton_Some in H2 as [<- _].
  - reflexivity.
  - lia.
  - intros b Hb. lia.
  - reflexivity.
  - reflexivity.
  - split; [exact H1|]. exact H2.
Defined.

Lemma demo_store ks id obj s :
  finite_json obj = true -> (store demo ks id obj s).1 = true.
Proof. intros Hf. unfold store. cbn [replicate demo edb_config_open rs_put map_record_store].
  by rewrite json_parse_print by done. Qed.

#[local] Opaque hash_password.

Definition eve : map_store := (edb_user_create demo "eve" 6 ∅).2.

Definition demo_salt : string := "000102030405060708090a0b0c0d0e0f".

Lemma demo_set_password p :
  p <> ""%string -> (edb_user_set_password demo demo_salt "eve" p eve).1 = true.
Proof.
  intros Hp. unfold edb_user_set_password. rewrite (proj2 (String.eqb_neq _ _) Hp).
  assert (Hu : edb_user_get "eve" eve = (Some {| u_name := "eve"; u_groups := 6 |}, eve))
    by reflexivity.
  unfold mbind, st_bind. rewrite Hu. apply demo_store. reflexivity.
Qed.

Lemma password_roundtrip_witness :
  let '(ok, s') := edb_user_set_password demo demo_salt "eve" "secret" eve in
  ok = true /\ (edb_user_verify_password "eve" "secret" s').1 = true.
Proof.
  pose proof (demo_set_password "secret" ltac:(done)) as Hok.
  assert (Hu : (edb_user_get "eve" eve).1 = Some {| u_name := "eve"; u_groups := 6 |}) by reflexivity.
  pose proof (password_roundtrip demo demo_covers demo_lawful demo_salt "eve" "secret" _ eve I
    eq_refl ltac:(done) Hu eq_refl ltac:(simpl; lia)) as Hset.
  destruct (edb_user_set_password demo demo_salt "eve" "secret" eve) as [ok s'].
  cbn [fst] in Hok. rewrite Hok in *. split; [done|]. by apply Hset.
Defined.

(** "eve" had a password and changes groups. *)
Lemma set_groups_erases_password_witness :
  let hash := "00000000000000000000000000000000" +:+ "00000000000000000000000000000000" in
  let s := {[CFG_KEYSPACE_USERS := {["eve"%string := password_record "eve" 6 demo_salt hash]}]} in
  let s' := (edb_user_set_groups demo "eve" 7 s).2 in
  (edb_user_has_password "eve" s).1 = true /\ (edb_user_has_password "eve" s').1 = false.
Proof.
  intros hash s s'. split; [reflexivity|].
  apply (set_groups_erases_password demo demo_covers demo_lawful "eve" 7 s s' I). reflexivity.
Defined.

Lemma partition_ensure_idempotent_witness :
  let s' := (edb_partition_ensure demo "db" "p" "ks" ∅).2 in
  exists s2, edb_partition_ensure demo "db" "p" "ks" s' = ((true, false), s2) /\
    unchanged (RL := demo_laws) s' s2.
Proof.
  intros s'. apply (partition_ensure_idempotent demo demo_covers demo_lawful "db" "p" "ks" ∅ true s' I);
    [discriminate|reflexivity..].
Defined.

Lemma database_delete_complete_witness :
  let s := (edb_partition_ensure demo "db" "p" "ks" ∅).2 in
  let '(ok, s') := edb_database_delete demo "db" s in
  ok = true /\ docs s' CFG_KEYSPACE_PARTITIONS = without_database "db" (docs s CFG_KEYSPACE_PARTITIONS).
Proof.
  intros s.
  assert (HP : docs s CFG_KEYSPACE_PARTITIONS = {["db/p"%string := partition_record "db" "p" 0 0 0 0]})
    by reflexivity.
  assert (HK : docs s CFG_KEYSPACE_KEYSPACES = {["db/p/ks"%string := keyspace_record "db" "p" "ks"]})
    by reflexivity.
  assert (Hwp : partitions_wf (docs s CFG_KEYSPACE_PARTITIONS)).
  { intros id doc. rewrite HP. intros [<- <-]%lookup_singleton_Some.
    exists "db"%string, "p"%string, 0, 0, 0, 0. split_and!; reflexivity. }
  assert (Hwk : keyspaces_wf (docs s CFG_KEYSPACE_KEYSPACES)).
  { intros id doc. rewrite HK. intros [<- <-]%lookup_singleton_Some.
    exists "db"%string, "p"%string, "ks"%string. split; reflexivity. }
  assert (Hsh : keyspaces_short "db" (docs s CFG_KEYSPACE_KEYSPACES)).
  { intros id part ks. rewrite HK. intros [_ [= <- <-]]%lookup_singleton_Some. apply Nat.ltb_lt. done. }
  assert (Hrel : reliable demo) by (intros ks id s0 _ _; reflexivity).
  pose proof (database_delete_complete demo demo_covers demo_lawful "db" s I Hrel Hwp Hwk Hsh) as Hdel.
  destruct (edb_database_delete demo "db" s) as [ok s'].
  destruct Hdel as (Hok & _ & _ & HP' & _). split; [exact Hok|exact HP'].
Defined.

End instances.

End ConfigFacts.
