(* ===== verification/StoreFacts.v ===== *)
(** The engine is a record store: [edb_get], [edb_put], [edb_delete] and
    [edb_all] on the system database satisfy the laws of Store.v for the
    keyspaces of the configuration, whose shard keys are pairwise distinct. *)

From S2P Require Import Prelude BlockHash Md5 Json Shard ShardFacts ShardQueryFacts Manager.
From S2P Require Import ManagerFacts EngineFacts Store MapStore Config.

Module StoreFacts.

Import Json Shard Manager EngineFacts Store Config.

(** ** Distinct keys *)

Definition config_key (ks : string) : string := shard_key EDB_SYSTEM_DB ks.

Lemma config_keys_distinct : NoDup (map config_key system_keyspaces).
Proof. apply (bool_decide_unpack _). vm_compute. exact I. Qed.

#[local] Opaque shard_key.

Lemma config_key_inj ks ks' :
  ks ∈ system_keyspaces -> ks' ∈ system_keyspaces -> config_key ks = config_key ks' -> ks = ks'.
Proof.
  intros H1 H2 Heq. apply list_elem_of_lookup in H1 as [i Hi], H2 as [j Hj].
  assert (i = j) as ->; [|congruence].
  eapply (NoDup_lookup (map config_key system_keyspaces)); [apply config_keys_distinct|..];
    rewrite list_lookup_fmap; [by rewrite Hi|rewrite Hj; simpl; by rewrite Heq].
Qed.

(** ** Documents of a table *)

Lemma omap_values {A B} (f : A -> option B) (m : gmap string A) :
  (map_to_list (omap f m)).*2 ≡ₚ omap f (map_to_list m).*2.
Proof.
  induction m as [|i x m Hi IH] using map_ind; [by rewrite omap_empty, !map_to_list_empty|].
  rewrite map_to_list_insert by done. simpl. destruct (f x) as [y|] eqn:E.
  - rewrite (omap_insert_Some f m i x y E), map_to_list_insert by (by rewrite lookup_omap, Hi).
    simpl. by rewrite IH.
  - rewrite (omap_insert_None f m i x E), delete_id by (by rewrite lookup_omap, Hi). done.
Qed.

Lemma get_data `{JsonCodec} sh o now id :
  data (edb_shard_get sh o now id).2 = data sh /\ key (edb_shard_get sh o now id).2 = key sh.
Proof.
  unfold edb_shard_get, prepare. destruct (stmt_for _ _ _) as [stmt c]. simpl.
  repeat case_match; done.
Qed.

Lemma delete_key sh o now id : key (edb_shard_delete sh o now id).2 = key sh.
Proof.
  unfold edb_shard_delete, prepare. destruct (stmt_for _ _ _) as [stmt c]. simpl.
  repeat case_match; done.
Qed.

(** ** The store *)

Section engine_store.
Context {C : JsonCodec} {Q : JsonSql}.
Context (scan : table -> list (string * row)) (now : Z).
Hypothesis scan_rows : forall d, scan d ≡ₚ map_to_list d.

(** Every open and statement succeeds, at time [now]. *)
#[local] Instance engine_store : RecordStore engine := {|
  rs_get ks id e := edb_get e true SqlOk now EDB_SYSTEM_DB ks id;
  rs_put ks id text e := edb_put e true SqlOk now EDB_SYSTEM_DB ks id text (-1);
  rs_delete ks id e := edb_delete e true SqlOk now EDB_SYSTEM_DB ks id;
  rs_all ks e := edb_all scan e true true now EDB_SYSTEM_DB ks None;
|}.

Definition document (r : row) : option json := if live now r then row_document r else None.

Definition engine_docs (e : engine) (ks : string) : gmap string json :=
  omap document (engine_table e (config_key ks)).

Lemma docs_same e e' ks :
  engine_table e' (config_key ks) = engine_table e (config_key ks) ->
  engine_docs e' ks = engine_docs e ks.
Proof. unfold engine_docs. by intros ->. Qed.

(** An operation on keyspace [ks] of the system database changes the
    documents of [ks] as it changes its table, and no other keyspace. *)
Lemma on_config_shard {A} (fail : A) (f : edb_shard -> A * edb_shard) g e ks :
  quiescent e -> ks ∈ system_keyspaces -> (forall sh, key (f sh).2 = key sh) ->
  (forall sh, data (f sh).2 = g (data sh)) ->
  let r := on_shard e true EDB_SYSTEM_DB ks fail f in
  quiescent r.2 /\
  (exists sh, data sh = engine_table e (config_key ks) /\ r.1 = (f sh).1) /\
  forall ks', ks' ∈ system_keyspaces -> engine_docs r.2 ks' =
    if bool_decide (ks' = ks) then omap document (g (engine_table e (config_key ks)))
    else engine_docs e ks'.
Proof.
  intros Hq Hks Hf Hg. cbv zeta.
  destruct (on_shard_table e EDB_SYSTEM_DB ks fail f Hq Hf) as (Hq' & sh & Hd & Hr & Ht & Ho).
  split; [done|]. split; [by exists sh|]. intros ks' Hks'.
  case_bool_decide as Heq; [subst ks'|].
  - unfold engine_docs, config_key in *. by rewrite Ht, Hg, Hd.
  - apply docs_same, Ho. intros Hk. by apply Heq, config_key_inj.
Qed.

(** *** The laws *)

Lemma engine_get ks id e :
  quiescent e -> ks ∈ system_keyspaces ->
  (rs_get ks id e).1 = engine_docs e ks !! id /\ quiescent (rs_get ks id e).2 /\
  forall ks', ks' ∈ system_keyspaces -> engine_docs (rs_get ks id e).2 ks' = engine_docs e ks'.
Proof.
  intros Hq Hks.
  destruct (on_config_shard None (fun sh => edb_shard_get sh SqlOk now id) (fun d => d) e ks)
    as (Hq' & (sh & Hd & Hr) & Hv); [done|done|intros; apply get_data..|].
  change (on_shard e true EDB_SYSTEM_DB ks None (fun sh => edb_shard_get sh SqlOk now id))
    with (rs_get ks id e) in *.
  split; [|split; [done|]].
  - rewrite Hr, ShardFacts.get_result. unfold select_live, engine_docs. rewrite lookup_omap, Hd.
    destruct (engine_table e (config_key ks) !! id) as [r|]; [|done]. simpl.
    unfold document. by destruct (live now r).
  - intros ks' Hks'. rewrite Hv by done. by case_bool_decide; subst.
Qed.

Lemma listed_documents l :
  omap value_item (List.filter (fun p => row_selected now [] p.2) l) = omap document l.*2.
Proof.
  induction l as [|[id r] l IH]; [done|]. cbn [List.filter fmap list_fmap omap list_omap snd].
  assert (row_selected now [] r = live now r) as -> by apply andb_true_r.
  assert (document r = if live now r then row_document r else None) as -> by done.
  destruct (live now r); [|exact IH]. cbn [omap list_omap].
  change (value_item (id, r)) with (row_document r). destruct (row_document r); [|exact IH].
  f_equal. exact IH.
Qed.

Lemma engine_all ks e :
  quiescent e -> ks ∈ system_keyspaces ->
  (exists l, (rs_all ks e).1 = Some (JArray l) /\ l ≡ₚ (map_to_list (engine_docs e ks)).*2) /\
  quiescent (rs_all ks e).2 /\
  forall ks', ks' ∈ system_keyspaces -> engine_docs (rs_all ks e).2 ks' = engine_docs e ks'.
Proof.
  intros Hq Hks.
  destruct (on_config_shard None (fun sh => (edb_shard_all scan sh true now None, sh)) (fun d => d) e ks)
    as (Hq' & (sh & Hd & Hr) & Hv); [done..|].
  change (on_shard e true EDB_SYSTEM_DB ks None (fun sh => (edb_shard_all scan sh true now None, sh)))
    with (rs_all ks e) in *.
  split; [|split; [done|]].
  - unfold edb_shard_all, collect_values, live_query in Hr. cbn [fst edb_filters_valid negb] in Hr.
    rewrite (ShardQueryFacts.live_query_sql_full _ None false eq_refl) in Hr.
    cbn [mbind option_bind] in Hr. eexists. split; [exact Hr|]. unfold engine_docs.
    rewrite listed_documents, omap_values, <-Hd, scan_rows. done.
  - intros ks' Hks'. rewrite Hv by done. by case_bool_decide; subst.
Qed.

Lemma engine_put ks id text doc e :
  quiescent e -> ks ∈ system_keyspaces -> text <> ""%string -> json_parse text = Some doc ->
  quiescent (rs_put ks id text e).2 /\
  forall ks', ks' ∈ system_keyspaces -> engine_docs (rs_put ks id text e).2 ks' =
    if (rs_put ks id text e).1 && bool_decide (ks' = ks)
    then <[id := doc]> (engine_docs e ks') else engine_docs e ks'.
Proof.
  intros Hq Hks Ht Hp.
  destruct (on_config_shard false (fun sh => edb_shard_put sh SqlOk now id text (-1))
    (fun d => <[id := put_row text (-1) now (Some "")]> d) e ks) as (Hq' & (sh & Hd & Hr) & Hv);
    [done|done|intros; apply ManagerFacts.put_key|intros; apply ShardFacts.put_data|].
  change (on_shard e true EDB_SYSTEM_DB ks false (fun sh => edb_shard_put sh SqlOk now id text (-1)))
    with (rs_put ks id text e) in *.
  rewrite (proj1 (ShardFacts.put_data _ _ _ _ _)) in Hr. rewrite Hr. split; [done|].
  intros ks' Hks'. rewrite Hv by done. cbn [andb]. case_bool_decide; [subst ks'|done].
  unfold engine_docs. apply omap_insert_Some. unfold document, row_document. simpl.
  by rewrite (proj2 (String.eqb_neq _ _) Ht).
Qed.

Lemma engine_delete ks id e :
  quiescent e -> ks ∈ system_keyspaces ->
  quiescent (rs_delete ks id e).2 /\
  forall ks', ks' ∈ system_keyspaces -> engine_docs (rs_delete ks id e).2 ks' =
    if (rs_delete ks id e).1 && bool_decide (ks' = ks)
    then delete id (engine_docs e ks') else engine_docs e ks'.
Proof.
  intros Hq Hks.
  destruct (on_config_shard false (fun sh => edb_shard_delete sh SqlOk now id)
    (alter (soft_delete now) id) e ks) as (Hq' & (sh & Hd & Hr) & Hv);
    [done|done|intros; apply delete_key|intros; apply ShardFacts.delete_data|].
  change (on_shard e true EDB_SYSTEM_DB ks false (fun sh => edb_shard_delete sh SqlOk now id))
    with (rs_delete ks id e) in *.
  rewrite (proj1 (ShardFacts.delete_data _ _ _)) in Hr. rewrite Hr. split; [done|].
  intros ks' Hks'. rewrite Hv by done. cbn [andb]. case_bool_decide; [subst ks'|done].
  unfold engine_docs. apply map_eq. intros i. rewrite lookup_omap, lookup_alter, lookup_delete, lookup_omap.
  case_decide; [|done]. subst i. destruct (engine_table e (config_key ks) !! id) as [r|]; [|done].
  simpl. unfold document, live, soft_delete. simpl. by destruct (Z.leb_spec now (now - 5)); [lia|].
Qed.

Definition engine_store_laws : RecordStoreLaws engine := {|
  rs_keyspaces := system_keyspaces;
  rs_ok := quiescent;
  rs_view := engine_docs;
  rs_get_spec s ks id := engine_get ks id s;
  rs_all_spec s ks := engine_all ks s;
  rs_put_spec s ks id text doc := engine_put ks id text doc s;
  rs_delete_spec s ks id := engine_delete ks id s;
|}.

(** C38: The engine implements the record store the configuration relies
    on: for the seven system keyspaces, a get returns the stored document,
    a put stores what its text parses to, a delete removes, a listing yields
    each document once, and no operation disturbs another keyspace. *)
Theorem engine_is_record_store :
  exists L : RecordStoreLaws engine,
    rs_keyspaces (RecordStoreLaws := L) = system_keyspaces /\
    (forall e, rs_ok (RecordStoreLaws := L) e <-> quiescent e) /\
    forall e ks, rs_view (RecordStoreLaws := L) e ks = engine_docs e ks.
Proof. by exists engine_store_laws. Qed.
End engine_store.

(** With the map's own enumeration as the scan and a codec by digits. *)
#[local] Instance sample_sql : JsonSql :=
  {| sqlval := Z; json_type := fun _ _ => None; json_extract := fun _ _ => 0;
     sql_is := Z.eqb; sql_compare := fun _ a b => a <? b |}.

Lemma engine_is_record_store_witness :
  exists L : @RecordStoreLaws engine (engine_store (C := MapStore.digit_codec) map_to_list 0)
               MapStore.digit_codec,
    rs_keyspaces (RecordStoreLaws := L) = system_keyspaces /\
    forall e, rs_ok (RecordStoreLaws := L) e <-> quiescent e.
Proof.
  destruct (engine_is_record_store (C := MapStore.digit_codec) map_to_list 0 (fun d => Permutation_refl _))
    as (L & Hk & Hok & _).
  by exists L.
Defined.

End StoreFacts.
