(* ===== verification/EqlScan.v ===== *)
(** src/eql/epsilon_eql.c, the scanners: identifiers, comments and literals,
    the Database.Partition.Keyspace references of a statement, their rewriting
    to the names of shadow tables, and the columns a statement introduces. A
    scan position is the text that is left. Loops take fuel; the length of the
    text plus one is always enough (EqlScanFacts.v). *)

From S2P Require Import Prelude Config.

Module EqlScan.

Import Config.

Definition EQL_MAX_TABLES : nat := 16.
Definition EQL_MAX_COLS : nat := 256.
Definition EQL_MAX_NAME : nat := 512.

Definition DQUOTE : Ascii.ascii := Ascii.ascii_of_nat 34.
Definition SQUOTE : Ascii.ascii := Ascii.ascii_of_nat 39.

(** [struct eql_table]; a column is its name and whether it carried objects or
    arrays. *)
Record eql_table := Table {
  t_db : string; t_part : string; t_ks : string;
  t_dotted : string; t_alias : string;
  t_cols : list (string * bool);
  t_pw : bool;
  t_keyspaces : list string;
}.

(** ** Characters *)

Definition is_ident_char (c : Ascii.ascii) : bool := is_alnum c || bool_decide (c = "_"%char).

Definition is_quote (c : Ascii.ascii) : bool :=
  bool_decide (c = DQUOTE) || bool_decide (c = "`"%char) || bool_decide (c = "["%char).

(** A buffer of [cap] bytes. *)
Definition cut (cap : nat) (s : string) : string := String.substring 0 (cap - 1) s.

(** After the opening quote: the text up to the closing one, doubled double
    quotes undone; [None] when it is missing. *)
Fixpoint quoted (q : Ascii.ascii) (s : string) : option (string * string) :=
  match s with
  | EmptyString => None
  | String c r =>
      if bool_decide (c = q) then
        match r with
        | String d r' =>
            if bool_decide (q = DQUOTE) && bool_decide (d = DQUOTE)
            then (fun p => (String DQUOTE p.1, p.2)) <$> quoted q r'
            else Some (EmptyString, r)
        | EmptyString => Some (EmptyString, r)
        end
      else (fun p => (String c p.1, p.2)) <$> quoted q r
  end.

(** [None] leaves the position where it is. *)
Definition read_ident (cap : nat) (s : string) : option (string * string) :=
  match s with
  | EmptyString => None
  | String c r =>
      if bool_decide (c = DQUOTE) || bool_decide (c = "`"%char) then
        (fun p => (cut cap p.1, p.2)) <$> quoted c r
      else if bool_decide (c = "["%char) then
        let '(w, r) := span (fun c => negb (bool_decide (c = "]"%char))) r in
        match r with
        | EmptyString => None
        | String _ r => Some (cut cap w, r)
        end
      else if is_ident_char c then
        let '(w, r) := span is_ident_char s in Some (cut cap w, r)
      else None
  end.

(** [strstr] for the end of a comment: what follows it. *)
Fixpoint after_close (s : string) : option string :=
  match s with
  | String c r =>
      match r with
      | String d r' =>
          if bool_decide (c = "*"%char) && bool_decide (d = "/"%char) then Some r' else after_close r
      | EmptyString => None
      end
  | EmptyString => None
  end.

(** The end of a comment that starts at [s], if one starts there. *)
Definition line_end (s : string) : string := (span (fun c => negb (Ascii.eqb c (Ascii.ascii_of_nat 10))) s).2.
Definition comment_end (s : string) : option string :=
  match s with
  | String a (String b r) =>
      if bool_decide (a = "-"%char) && bool_decide (b = "-"%char) then Some (line_end s)
      else if bool_decide (a = "/"%char) && bool_decide (b = "*"%char)
      then Some (default EmptyString (after_close r))
      else None
  | _ => None
  end.

Fixpoint skip_blanks (n : nat) (s : string) : string :=
  match n with
  | O => s
  | S n =>
      let s := (span is_space s).2 in
      match comment_end s with Some r => skip_blanks n r | None => s end
  end.

Definition fuel (s : string) : nat := S (String.length s).
Definition skip_spaces_comments (s : string) : string := skip_blanks (fuel s) s.

(** After the opening quote [q]: past the closing one, doubled quotes and, in
    single quotes, characters behind a backslash skipped. *)
Fixpoint raw_end (q : Ascii.ascii) (s : string) : string :=
  match s with
  | EmptyString => EmptyString
  | String c r =>
      if bool_decide (c = q) then
        match r with
        | String d r' => if bool_decide (d = q) then raw_end q r' else r
        | EmptyString => r
        end
      else if bool_decide (q = SQUOTE) && bool_decide (c = "\"%char) then
        match r with String _ r' => raw_end q r' | EmptyString => r end
      else raw_end q r
  end.

Definition skip_quoted_raw (s : string) : string :=
  match s with String q r => raw_end q r | EmptyString => EmptyString end.

(** The text behind the character [c], if that is what comes. *)
Definition expect (c : Ascii.ascii) (s : string) : option string :=
  match s with
  | String d r => if bool_decide (d = c) then Some r else None
  | EmptyString => None
  end.

(** ** References *)

Abbreviation ref := (string * string * string)%type.

(** db.part.ks, or db.part with an empty third part; and where the scan stops,
    also when there is none. *)
Definition parse_ref2 (s : string) : option ref * string :=
  let s := skip_spaces_comments s in
  match read_ident 256 s with
  | None => (None, s)
  | Some (db, s) =>
      let s := skip_spaces_comments s in
      match expect "." s with
      | None => (None, s)
      | Some s =>
          let s := skip_spaces_comments s in
          match read_ident 256 s with
          | None => (None, s)
          | Some (part, s) =>
              let s := skip_spaces_comments s in
              match expect "." s with
              | None => (Some (db, part, EmptyString), s)
              | Some s =>
                  let s := skip_spaces_comments s in
                  match read_ident 256 s with
                  | None => (None, s)
                  | Some (ks, s) => (Some (db, part, ks), s)
                  end
              end
          end
      end
  end.

Definition same_shard (t : eql_table) (r : ref) : bool :=
  String.eqb (t_db t) r.1.1 && String.eqb (t_part t) r.1.2 && String.eqb (t_ks t) r.2.

Definition dotted2 (a b : string) : string := a +:+ "." +:+ b.
Definition dotted3 (a b c : string) : string := a +:+ "." +:+ b +:+ "." +:+ c.

Definition alias_of (i : nat) : string := "eql_t" +:+ print_u64 (Z.of_nat i).

Definition make_table (i : nat) (r : ref) : eql_table :=
  let db := cut 128 r.1.1 in
  let part := cut 256 r.1.2 in
  let ks := cut 128 r.2 in
  let pw := String.eqb r.2 "" in
  Table db part ks (cut EQL_MAX_NAME (if pw then dotted2 db part else dotted3 db part ks))
    (alias_of i) [] pw [].

Definition add_ref (ts : list eql_table) (r : ref) : list eql_table :=
  if existsb (fun t => same_shard t r && Bool.eqb (t_pw t) (String.eqb r.2 "")) ts then ts
  else if (length ts <? EQL_MAX_TABLES)%nat then ts ++ [make_table (length ts) r] else ts.

(** The optional alias behind a reference. *)
Definition skip_alias (s : string) : string :=
  let '(w, r) := span is_ident_char (skip_spaces_comments s) in
  let n := String.length w in
  if (n =? 0)%nat || (8 <=? n)%nat then s
  else if String.eqb (lower w) "as" then
    let '(w', r') := span is_ident_char (skip_spaces_comments r) in
    if String.eqb w' "" then s else r'
  else if (n =? 4)%nat || (n =? 5)%nat then s else r.

(** The sources behind commas. *)
Fixpoint more_refs (n : nat) (ts : list eql_table) (s : string) : list eql_table * string :=
  match n with
  | O => (ts, s)
  | S n =>
      match expect "," (skip_spaces_comments s) with
      | Some r =>
          match parse_ref2 r with
          | (Some p, r) => more_refs n (add_ref ts p) r
          | (None, _) => (ts, s)
          end
      | None => (ts, s)
      end
  end.

Definition source_word (w : string) : bool :=
  let w := lower w in
  String.eqb w "from" || String.eqb w "join" || String.eqb w "into" || String.eqb w "update".

Definition is_literal (c : Ascii.ascii) : bool := bool_decide (c = SQUOTE) || is_quote c.

(** The main loop of the three scanners: literals and comments are skipped,
    [word] is what a word does to the state and where the scan goes on. *)
Fixpoint scan_words {A} (word : string -> A -> string -> A * string) (n : nat) (a : A) (s : string) : A :=
  match n with
  | O => a
  | S n =>
      match skip_spaces_comments s with
      | EmptyString => a
      | String c r as s =>
          if is_literal c then scan_words word n a (skip_quoted_raw s)
          else
            match span is_ident_char s with
            | (EmptyString, _) => scan_words word n a r
            | (w, r) => let '(a, r) := word w a r in scan_words word n a r
            end
      end
  end.

Definition collect_word (w : string) (ts : list eql_table) (r : string) : list eql_table * string :=
  if source_word w then
    match parse_ref2 r with
    | (None, r) => (ts, r)
    | (Some p, r) => let r := skip_alias r in more_refs (fuel r) (add_ref ts p) r
    end
  else (ts, r).

Definition collect_refs (sql : string) : list eql_table := scan_words collect_word (fuel sql) [] sql.

Definition edb_eql_references (sql : string) (cap : nat) : list string :=
  take cap (map t_dotted (collect_refs sql)).

(** ** Classification *)

Inductive eql_kind := EQL_KIND_SELECT | EQL_KIND_DELETE | EQL_KIND_UPDATE | EQL_KIND_INSERT | EQL_KIND_OTHER.

#[export] Instance eql_kind_eq_dec : EqDecision eql_kind.
Proof. solve_decision. Defined.

Definition classify_statement (sql : string) : eql_kind :=
  let w := lower (cut 16 (span is_ident_char (skip_spaces_comments sql)).1) in
  if String.eqb w "delete" then EQL_KIND_DELETE
  else if String.eqb w "update" then EQL_KIND_UPDATE
  else if String.eqb w "insert" || String.eqb w "replace" then EQL_KIND_INSERT
  else if String.eqb w "select" || String.eqb w "values" || String.eqb w "explain" then EQL_KIND_SELECT
  else EQL_KIND_OTHER.

Definition edb_eql_classify (sql : string) : eql_kind :=
  if String.eqb sql "" then EQL_KIND_OTHER else classify_statement sql.

(** ** Rewriting *)

(** The part of [s] before its suffix [r]. *)
Definition consumed (s r : string) : string := String.substring 0 (String.length s - String.length r) s.

(** Three identifiers with dots between, starting right here. *)
Definition three_segments (s : string) : option (ref * string) :=
  p1 ← read_ident 256 s;
  s ← expect "." (skip_spaces_comments p1.2);
  p2 ← read_ident 256 (skip_spaces_comments s);
  s ← expect "." (skip_spaces_comments p2.2);
  p3 ← read_ident 256 (skip_spaces_comments s);
  Some ((p1.1, p2.1, p3.1), p3.2).

Definition two_segments (s : string) : option ((string * string) * string) :=
  p1 ← read_ident 256 s;
  s ← expect "." (skip_spaces_comments p1.2);
  p2 ← read_ident 256 (skip_spaces_comments s);
  Some ((p1.1, p2.1), p2.2).

Definition full_match (ts : list eql_table) (s : string) : option (eql_table * string) :=
  p ← three_segments s;
  let cand := cut EQL_MAX_NAME (dotted3 p.1.1.1 p.1.1.2 p.1.2) in
  (fun t => (t, p.2)) <$> List.find (fun t => String.eqb cand (t_dotted t)) ts.

Definition pw_match (ts : list eql_table) (s : string) : option (eql_table * string) :=
  p ← two_segments s;
  let cand := cut EQL_MAX_NAME (dotted2 p.1.1 p.1.2) in
  (fun t => (t, p.2)) <$> List.find (fun t => t_pw t && String.eqb cand (t_dotted t)) ts.

Definition match_ref (ts : list eql_table) (s : string) : option (eql_table * string) :=
  match full_match ts s with Some m => Some m | None => pw_match ts s end.

(** One step of the rewriter: what is left, and the alias put in the place of
    what was read, [None] to copy it. *)
Definition rewrite_step (ts : list eql_table) (c : Ascii.ascii) (r : string) : option string * string :=
  let s := String c r in
  if bool_decide (c = SQUOTE) then (None, skip_quoted_raw s)
  else
    match comment_end s with
    | Some r => (None, r)
    | None =>
        if negb (is_quote c || is_ident_char c) then (None, r)
        else
          match match_ref ts s with
          | Some (t, r) => (Some (t_alias t), r)
          | None => (None, if is_quote c then skip_quoted_raw s else (span is_ident_char s).2)
          end
    end.

Fixpoint rewrite_text (n : nat) (ts : list eql_table) (s : string) : string :=
  match n, s with
  | S n, String c r =>
      let '(alias, r') := rewrite_step ts c r in
      default (consumed s r') alias +:+ rewrite_text n ts r'
  | _, _ => EmptyString
  end.

(** The text in its buffer, which it never fills ([rewrite_fits]). *)
Definition rewrite_sql (sql : string) (ts : list eql_table) : string :=
  String.substring 0 (2 * String.length sql + 15) (rewrite_text (fuel sql) ts sql).

(** ** Columns *)

Definition table_add_column (name : string) (t : eql_table) : eql_table :=
  if existsb (fun c => String.eqb c.1 name) (t_cols t) then t
  else if (length (t_cols t) <? EQL_MAX_COLS)%nat
  then Table (t_db t) (t_part t) (t_ks t) (t_dotted t) (t_alias t)
         (t_cols t ++ [(cut 128 name, false)]) (t_pw t) (t_keyspaces t)
  else t.

(** The first table of a reference. *)
Definition table_index (f : eql_table -> bool) (ts : list eql_table) : option nat :=
  fst <$> list_find (fun t => f t = true) ts.

Fixpoint column_list (n : nat) (i : nat) (ts : list eql_table) (s : string) : list eql_table * string :=
  let s := skip_spaces_comments s in
  match n, read_ident 128 s with
  | S n, Some (col, s) =>
      let ts := alter (table_add_column col) i ts in
      let s := skip_spaces_comments s in
      match expect "," s with Some s => column_list n i ts s | None => (ts, s) end
  | _, _ => (ts, s)
  end.

Definition insert_word (w : string) (ts : list eql_table) (r : string) : list eql_table * string :=
  if String.eqb (lower w) "into" then
    match parse_ref2 r with
    | (None, r) => (ts, r)
    | (Some p, r) =>
        match table_index (fun t => same_shard t p) ts with
        | None => (ts, r)
        | Some i =>
            let r := skip_spaces_comments r in
            match expect "(" r with Some r => column_list (fuel r) i ts r | None => (ts, r) end
        end
    end
  else (ts, r).

Definition scan_insert_columns (sql : string) (ts : list eql_table) : list eql_table :=
  scan_words insert_word (fuel sql) ts sql.

(** Forward to the SET keyword. *)
Fixpoint find_set (n : nat) (s : string) : bool * string :=
  match n with
  | O => (false, s)
  | S n =>
      match skip_spaces_comments s with
      | EmptyString => (false, EmptyString)
      | String _ r as s =>
          match read_ident 128 s with
          | None => find_set n r
          | Some (w, s) =>
              if String.eqb (lower w) "as" then
                let s := skip_spaces_comments s in
                find_set n (match read_ident 128 s with Some (_, s) => s | None => s end)
              else if String.eqb (lower w) "set" then (true, s)
              else find_set n s
          end
      end
  end.

Definition clause_word (w : string) : bool :=
  existsb (String.eqb (lower w)) ["where"; "returning"; "limit"; "order"; "offset"; "from"; "select"; "values"].

(** The assignments; [depth] counts parentheses. *)
Fixpoint set_clause (n : nat) (i depth : nat) (ts : list eql_table) (s : string) : list eql_table * string :=
  match n with
  | O => (ts, s)
  | S n =>
      match skip_spaces_comments s with
      | EmptyString => (ts, EmptyString)
      | String c r as s =>
          if is_literal c then set_clause n i depth ts (skip_quoted_raw s)
          else if bool_decide (c = "("%char) then set_clause n i (S depth) ts r
          else if bool_decide (c = ")"%char) then set_clause n i (pred depth) ts r
          else if negb (is_ident_char c) then set_clause n i depth ts r
          else
            match read_ident 128 s with
            | None => set_clause n i depth ts r
            | Some (col, s) =>
                if (depth =? 0)%nat && clause_word col then (ts, s)
                else
                  match expect "=" (skip_spaces_comments s) with
                  | Some r =>
                      if (depth =? 0)%nat then set_clause n i depth (alter (table_add_column col) i ts) r
                      else set_clause n i depth ts s
                  | None => set_clause n i depth ts s
                  end
            end
      end
  end.

Definition update_word (w : string) (ts : list eql_table) (r : string) : list eql_table * string :=
  if String.eqb (lower w) "update" then
    match parse_ref2 r with
    | (None, r) => (ts, r)
    | (Some p, r) =>
        match table_index (fun t => same_shard t p && Bool.eqb (t_pw t) (String.eqb p.2 "")) ts with
        | None => (ts, r)
        | Some i =>
            match find_set (fuel r) r with
            | (true, r) => set_clause (fuel r) i 0 ts r
            | (false, r) => (ts, r)
            end
        end
    end
  else (ts, r).

Definition scan_update_columns (sql : string) (ts : list eql_table) : list eql_table :=
  scan_words update_word (fuel sql) ts sql.

End EqlScan.
