(* ===== verification/EqlScanFacts.v ===== *)
(** Theorems about the EQL scanners (EqlScan.v): they end, they rewrite
    references and nothing else, the buffer of the rewritten text is large
    enough, and what they miss. *)

From S2P Require Import Prelude Config ConfigFacts EqlScan.

Module EqlScanFacts.

Import Config EqlScan.

(** ** Suffixes *)

Definition suffix_of (r s : string) : Prop := exists p, s = p +:+ r.

#[export] Instance suffix_preorder : PreOrder suffix_of.
Proof.
  split.
  - intros s. by exists "".
  - intros a b c [p ->] [q ->]. exists (q +:+ p). by rewrite append_assoc.
Qed.

Lemma suffix_cons c r s : suffix_of r s -> suffix_of r (String c s).
Proof. intros [p ->]. by exists (String c p). Qed.

Lemma suffix_nil s : suffix_of "" s.
Proof. exists s. by rewrite append_nil. Qed.

Lemma suffix_length r s : suffix_of r s -> (String.length r <= String.length s)%nat.
Proof. intros [p ->]. rewrite length_append. lia. Qed.

Lemma consumed_prefix p r : consumed (p +:+ r) r = p.
Proof.
  unfold consumed. rewrite length_append. replace (String.length p + String.length r - String.length r)%nat
    with (String.length p) by lia.
  induction p as [|c p IH]; [by destruct r|]. exact (f_equal (String c) IH).
Qed.

Lemma consumed_app s r : suffix_of r s -> consumed s r +:+ r = s.
Proof. intros [p ->]. by rewrite consumed_prefix. Qed.

Lemma span_suffix f s : suffix_of (span f s).2 s.
Proof. exists (span f s).1. by rewrite span_app. Qed.

#[export] Hint Resolve suffix_cons suffix_nil span_suffix : suffix.

(** Closes what is left of a text. *)
Ltac suffixes :=
  repeat first [ assumption | reflexivity | apply suffix_nil | apply suffix_cons ].

(** Induction on the length of a text. *)
Lemma text_ind (P : string -> Prop) :
  (forall s, (forall r, (String.length r < String.length s)%nat -> P r) -> P s) -> forall s, P s.
Proof. intros H s. induction s as [s IH] using (induction_ltof1 _ String.length). by apply H. Qed.

Lemma quoted_rest q s w r : quoted q s = Some (w, r) -> suffix_of r s /\ (String.length r < String.length s)%nat.
Proof.
  revert w r. induction s as [[|c s] IH] using text_ind; intros w r; cbn [quoted]; [done|]. case_bool_decide.
  - destruct s as [|d s]; [intros [= <- <-]; split; [suffixes|cbn; lia]|]. destruct (_ && _).
    + destruct (quoted q s) as [[w' r']|] eqn:E; [|done]. intros [= <- <-].
      destruct (IH s ltac:(cbn; lia) _ _ E) as [Hs Hl]. split; [by do 2 apply suffix_cons|cbn; lia].
    + intros [= <- <-]. split; [suffixes|cbn; lia].
  - destruct (quoted q s) as [[w' r']|] eqn:E; [|done]. intros [= <- <-].
    destruct (IH s ltac:(cbn; lia) _ _ E) as [Hs Hl]. split; [by apply suffix_cons|cbn; lia].
Qed.

Lemma span_cons f c s : f c = true -> (span f (String c s)).2 = (span f s).2.
Proof. intros Hc. cbn. rewrite Hc. by destruct (span f s). Qed.

(** Names as they are written: what is left, and how long the name is. *)
Definition starts_ident (s : string) : bool := match s with String c _ => is_ident_char c | EmptyString => false end.

Lemma span_rest f s : match (span f s).2 with String c _ => f c = false | EmptyString => True end.
Proof.
  induction s as [|c s IH]; [done|]. cbn. destruct (f c) eqn:E; [|done]. by destruct (span f s).
Qed.

Lemma read_ident_suffix cap s w r : read_ident cap s = Some (w, r) ->
  exists p, s = p +:+ r /\
    ((starts_ident s = true /\ (1 <= String.length p)%nat /\ starts_ident r = false) \/ (2 <= String.length p)%nat).
Proof.
  destruct s as [|c s]; [done|]. cbn [read_ident]. destruct (_ || _) eqn:Eq.
  - destruct (quoted c s) as [[w' r']|] eqn:E; [|done]. intros [= <- <-].
    destruct (quoted_rest _ _ _ _ E) as [[p ->] Hl]. exists (String c p). split; [done|]. right.
    rewrite length_append in Hl. cbn. lia.
  - clear Eq. case_bool_decide.
    + destruct (span _ s) as [w' [|d r']] eqn:E; [done|]. intros [= <- <-].
      pose proof (span_app (fun c => negb (bool_decide (c = "]"%char))) s) as Hs. rewrite E in Hs. cbn [fst snd] in Hs.
      exists (String c (w' +:+ String d "")). split.
      * rewrite <-Hs. change (String c (w' +:+ String d r') = String c ((w' +:+ String d "") +:+ r')).
        by rewrite append_assoc.
      * right. cbn. rewrite length_append. cbn. lia.
    + destruct (is_ident_char c) eqn:Ec; [|done].
      pose proof (span_app is_ident_char (String c s)) as Hs. pose proof (span_rest is_ident_char (String c s)) as Hr.
      destruct (span is_ident_char (String c s)) as [w' r'] eqn:E. cbn [fst snd] in *. intros [= <- <-].
      exists w'. split; [done|]. left. split; [done|]. split.
      * cbn [span] in E. rewrite Ec in E. destruct (span is_ident_char s). injection E as <- <-. cbn. lia.
      * by destruct r'.
Qed.

Lemma read_ident_rest cap s w r : read_ident cap s = Some (w, r) -> suffix_of r s /\ (String.length r < String.length s)%nat.
Proof.
  intros H. destruct (read_ident_suffix _ _ _ _ H) as (p & -> & Hp). split; [by exists p|].
  rewrite length_append. destruct Hp as [(_ & ? & _)|?]; lia.
Qed.

Lemma after_close_suffix s r : after_close s = Some r -> suffix_of r s.
Proof.
  induction s as [|c s IH]; cbn [after_close]; [done|]. destruct s as [|d s]; [done|]. destruct (_ && _).
  - intros [= <-]. suffixes.
  - intros H. apply suffix_cons. by apply IH.
Qed.

Lemma comment_end_suffix s r : comment_end s = Some r -> suffix_of r s /\ (String.length r < String.length s)%nat.
Proof.
  destruct s as [|a [|b s]]; cbn [comment_end]; [done..|]. destruct (_ && _) eqn:E1.
  - intros [= <-]. unfold line_end. split; [apply span_suffix|].
    apply andb_prop in E1 as [->%bool_decide_eq_true ->%bool_decide_eq_true].
    rewrite !span_cons by done.
    pose proof (suffix_length _ _ (span_suffix (fun c => negb (Ascii.eqb c (Ascii.ascii_of_nat 10))) s)). cbn. lia.
  - destruct (bool_decide (a = "/"%char) && bool_decide (b = "*"%char)); [|discriminate]. intros [= <-].
    assert (H : suffix_of (default "" (after_close s)) s).
    { destruct (after_close s) eqn:E; [by apply after_close_suffix|apply suffix_nil]. }
    split; [by do 2 apply suffix_cons|]. apply suffix_length in H. cbn. lia.
Qed.

Lemma skip_blanks_suffix n s : suffix_of (skip_blanks n s) s.
Proof.
  revert s. induction n as [|n IH]; intros s; cbn [skip_blanks]; [reflexivity|].
  destruct (comment_end (span is_space s).2) as [r|] eqn:E.
  - etransitivity; [apply IH|]. etransitivity; [by apply comment_end_suffix|]. apply span_suffix.
  - apply span_suffix.
Qed.

Lemma skip_suffix s : suffix_of (skip_spaces_comments s) s.
Proof. apply skip_blanks_suffix. Qed.

Lemma skip_length s : (String.length (skip_spaces_comments s) <= String.length s)%nat.
Proof. apply suffix_length, skip_suffix. Qed.

Lemma raw_end_suffix q s : suffix_of (raw_end q s) s.
Proof.
  induction s as [[|c s] IH] using text_ind; cbn [raw_end]; [reflexivity|].
  assert (Hs : suffix_of (raw_end q s) s) by (apply IH; cbn; lia).
  assert (Ht : forall d t, s = String d t -> suffix_of (raw_end q t) t) by (intros d t ->; apply IH; cbn; lia).
  case_bool_decide.
  - destruct s as [|d s]; [suffixes|]. case_bool_decide; suffixes. by eapply Ht.
  - destruct (_ && _); [|by suffixes]. destruct s as [|d s]; suffixes. by eapply Ht.
Qed.

Lemma skip_quoted_suffix c s : suffix_of (skip_quoted_raw (String c s)) s.
Proof. apply raw_end_suffix. Qed.

(** *** Lengths along the loops *)

Lemma skip_blanks_fuel n m s :
  (String.length s < n)%nat -> (String.length s < m)%nat -> skip_blanks n s = skip_blanks m s.
Proof.
  revert m s. induction n as [|n IH]; intros [|m] s Hn Hm; try lia. cbn [skip_blanks].
  destruct (comment_end (span is_space s).2) as [r|] eqn:E; [|done].
  apply comment_end_suffix in E as [_ Hr]. pose proof (suffix_length _ _ (span_suffix is_space s)). apply IH; lia.
Qed.

Lemma expect_suffix c s r : expect c s = Some r -> suffix_of r s /\ (String.length r < String.length s)%nat.
Proof.
  destruct s as [|d s]; [done|]. cbn. case_bool_decide; [|done]. intros [= <-]. split; [suffixes|lia].
Qed.

Lemma skip_expect c s r : expect c (skip_spaces_comments s) = Some r ->
  suffix_of r s /\ (String.length r < String.length s)%nat.
Proof.
  intros [H1 H2]%expect_suffix. pose proof (skip_length s). split; [|lia]. etransitivity; [exact H1|apply skip_suffix].
Qed.

Lemma skip_ident cap s w r : read_ident cap (skip_spaces_comments s) = Some (w, r) ->
  suffix_of r s /\ (String.length r < String.length s)%nat.
Proof.
  intros [H1 H2]%read_ident_rest. pose proof (skip_length s). split; [|lia]. etransitivity; [exact H1|apply skip_suffix].
Qed.

Lemma parse_ref_suffix s : suffix_of (parse_ref2 s).2 s.
Proof.
  unfold parse_ref2. cbv zeta.
  destruct (read_ident 256 (skip_spaces_comments s)) as [[db s1]|] eqn:E1; [|apply skip_suffix].
  apply skip_ident in E1 as [H1 _].
  destruct (expect "." (skip_spaces_comments s1)) as [s2|] eqn:E2;
    [|etransitivity; [apply skip_suffix|exact H1]].
  apply skip_expect in E2 as [H2 _].
  destruct (read_ident 256 (skip_spaces_comments s2)) as [[part s3]|] eqn:E3.
  2: { etransitivity; [apply skip_suffix|]. by etransitivity. }
  apply skip_ident in E3 as [H3 _]. assert (G3 : suffix_of s3 s) by (etransitivity; [exact H3|]; by etransitivity).
  destruct (expect "." (skip_spaces_comments s3)) as [s4|] eqn:E4;
    [|etransitivity; [apply skip_suffix|exact G3]].
  apply skip_expect in E4 as [H4 _]. assert (G4 : suffix_of s4 s) by by etransitivity.
  destruct (read_ident 256 (skip_spaces_comments s4)) as [[ks s5]|] eqn:E5;
    [|etransitivity; [apply skip_suffix|exact G4]].
  apply skip_ident in E5 as [H5 _]. by etransitivity.
Qed.

Lemma skip_alias_suffix s : suffix_of (skip_alias s) s.
Proof.
  unfold skip_alias. pose proof (span_suffix is_ident_char (skip_spaces_comments s)) as H1.
  destruct (span is_ident_char (skip_spaces_comments s)) as [w r]. cbn [snd] in H1.
  assert (Hr : suffix_of r s) by (etransitivity; [exact H1|apply skip_suffix]).
  destruct (_ || _); [done|]. destruct (String.eqb (lower w) "as").
  - pose proof (span_suffix is_ident_char (skip_spaces_comments r)) as H2.
    destruct (span is_ident_char (skip_spaces_comments r)) as [w' r']. cbn [snd] in H2.
    destruct (String.eqb w' ""); [done|]. etransitivity; [exact H2|]. etransitivity; [apply skip_suffix|done].
  - by destruct (_ || _).
Qed.

Lemma more_refs_suffix n ts s : suffix_of (more_refs n ts s).2 s.
Proof.
  revert ts s. induction n as [|n IH]; intros ts s; cbn [more_refs]; [done|].
  destruct (expect "," (skip_spaces_comments s)) as [r|] eqn:E; [|done]. apply skip_expect in E as [H1 _].
  pose proof (parse_ref_suffix r) as H2. destruct (parse_ref2 r) as [[p|] r']; [|done]. cbn [snd] in H2.
  etransitivity; [apply IH|]. by etransitivity.
Qed.

Lemma more_refs_fuel n m ts s :
  (String.length s < n)%nat -> (String.length s < m)%nat -> more_refs n ts s = more_refs m ts s.
Proof.
  revert m ts s. induction n as [|n IH]; intros [|m] ts s Hn Hm; try lia. cbn [more_refs].
  destruct (expect "," (skip_spaces_comments s)) as [r|] eqn:E; [|done]. apply skip_expect in E as [_ H1].
  pose proof (suffix_length _ _ (parse_ref_suffix r)) as H2. destruct (parse_ref2 r) as [[p|] r']; [|done].
  cbn [snd] in H2. apply IH; lia.
Qed.

Lemma column_list_suffix n i ts s : suffix_of (column_list n i ts s).2 s.
Proof.
  revert ts s. induction n as [|n IH]; intros ts s; cbn [column_list]; [apply skip_suffix|].
  destruct (read_ident 128 (skip_spaces_comments s)) as [[col r]|] eqn:E; [|apply skip_suffix].
  apply skip_ident in E as [H1 _]. cbv zeta. destruct (expect "," (skip_spaces_comments r)) as [r'|] eqn:E2.
  - apply skip_expect in E2 as [H2 _]. etransitivity; [apply IH|]. by etransitivity.
  - etransitivity; [apply skip_suffix|done].
Qed.

Lemma column_list_fuel n m i ts s :
  (String.length s < n)%nat -> (String.length s < m)%nat -> column_list n i ts s = column_list m i ts s.
Proof.
  revert m ts s. induction n as [|n IH]; intros [|m] ts s Hn Hm; try lia. cbn [column_list].
  destruct (read_ident 128 (skip_spaces_comments s)) as [[col r]|] eqn:E; [|done].
  apply skip_ident in E as [_ H1]. destruct (expect "," (skip_spaces_comments r)) as [r'|] eqn:E2; [|done].
  apply skip_expect in E2 as [_ H2]. apply IH; lia.
Qed.

(** What is behind the first character of what follows blanks. *)
Lemma skip_cons s c r : skip_spaces_comments s = String c r ->
  suffix_of (String c r) s /\ suffix_of r s /\ (String.length r < String.length s)%nat.
Proof.
  intros E. pose proof (skip_suffix s) as H. rewrite E in H. pose proof (suffix_length _ _ H). cbn in *.
  split; [done|]. split; [|lia]. etransitivity; [|exact H]. suffixes.
Qed.

Lemma as_suffix s w r :
  read_ident 128 s = Some (w, r) ->
  let s1 := skip_spaces_comments r in
  let s2 := match read_ident 128 s1 with Some (_, s) => s | None => s1 end in
  suffix_of s2 s /\ (String.length s2 < String.length s)%nat.
Proof.
  intros [H1 H2]%read_ident_rest. cbv zeta.
  assert (H : suffix_of (match read_ident 128 (skip_spaces_comments r) with Some (_, s) => s | None => skip_spaces_comments r end) r).
  { destruct (read_ident 128 (skip_spaces_comments r)) as [[w' r']|] eqn:E; [by apply skip_ident in E as [? _]|apply skip_suffix]. }
  split; [by etransitivity|]. apply suffix_length in H. lia.
Qed.

Lemma find_set_suffix n s : suffix_of (find_set n s).2 s.
Proof.
  revert s. induction n as [|n IH]; intros s; cbn [find_set]; [done|].
  destruct (skip_spaces_comments s) as [|c r] eqn:E; [apply suffix_nil|]. apply skip_cons in E as (H1 & H2 & _).
  destruct (read_ident 128 (String c r)) as [[w r']|] eqn:E2.
  2: { etransitivity; [apply IH|exact H2]. }
  pose proof (as_suffix _ _ _ E2) as [H3 _]. apply read_ident_rest in E2 as [H4 _].
  assert (H5 : suffix_of r' s) by by etransitivity.
  destruct (String.eqb (lower w) "as"); [|destruct (String.eqb (lower w) "set")].
  - etransitivity; [apply IH|]. by etransitivity.
  - done.
  - etransitivity; [apply IH|exact H5].
Qed.

Lemma find_set_fuel n m s :
  (String.length s < n)%nat -> (String.length s < m)%nat -> find_set n s = find_set m s.
Proof.
  revert m s. induction n as [|n IH]; intros [|m] s Hn Hm; try lia. cbn [find_set].
  destruct (skip_spaces_comments s) as [|c r] eqn:E; [done|]. apply skip_cons in E as (H1 & _ & H2).
  apply suffix_length in H1. destruct (read_ident 128 (String c r)) as [[w r']|] eqn:E2; [|apply IH; lia].
  pose proof (as_suffix _ _ _ E2) as [_ H3]. apply read_ident_rest in E2 as [_ H4].
  destruct (String.eqb (lower w) "as"); [apply IH; lia|]. destruct (String.eqb (lower w) "set"); [done|apply IH; lia].
Qed.

Lemma set_clause_suffix n i depth ts s : suffix_of (set_clause n i depth ts s).2 s.
Proof.
  revert depth ts s. induction n as [|n IH]; intros depth ts s; cbn [set_clause]; [done|].
  destruct (skip_spaces_comments s) as [|c r] eqn:E; [apply suffix_nil|]. apply skip_cons in E as (H1 & H2 & _).
  destruct (is_literal c).
  { etransitivity; [apply IH|]. etransitivity; [apply skip_quoted_suffix|done]. }
  do 3 (match goal with |- context [if ?b then _ else _] => destruct b end; [by etransitivity; [apply IH|]|]).
  destruct (read_ident 128 (String c r)) as [[col r']|] eqn:E2; [|by etransitivity; [apply IH|]].
  apply read_ident_rest in E2 as [H3 _]. assert (H4 : suffix_of r' s) by by etransitivity.
  destruct (_ && _); [done|]. destruct (expect "=" (skip_spaces_comments r')) as [r2|] eqn:E3.
  - apply skip_expect in E3 as [H5 _]. destruct (depth =? 0)%nat; [|by etransitivity; [apply IH|]].
    etransitivity; [apply IH|]. by etransitivity.
  - by etransitivity; [apply IH|].
Qed.

Lemma set_clause_fuel n m i depth ts s :
  (String.length s < n)%nat -> (String.length s < m)%nat -> set_clause n i depth ts s = set_clause m i depth ts s.
Proof.
  revert m depth ts s. induction n as [|n IH]; intros [|m] depth ts s Hn Hm; try lia. cbn [set_clause].
  destruct (skip_spaces_comments s) as [|c r] eqn:E; [done|]. apply skip_cons in E as (H1 & _ & H2).
  apply suffix_length in H1. pose proof (suffix_length _ _ (skip_quoted_suffix c r)) as Hq.
  destruct (is_literal c); [apply IH; lia|].
  do 3 (match goal with |- context [if ?b then _ else _] => destruct b end; [apply IH; lia|]).
  destruct (read_ident 128 (String c r)) as [[col r']|] eqn:E2; [|apply IH; lia].
  apply read_ident_rest in E2 as [_ H3]. destruct (_ && _); [done|].
  destruct (expect "=" (skip_spaces_comments r')) as [r2|] eqn:E3; [|apply IH; lia].
  apply skip_expect in E3 as [_ H5]. destruct (depth =? 0)%nat; apply IH; lia.
Qed.

(** *** The main loop *)

Lemma collect_word_suffix w ts r : suffix_of (collect_word w ts r).2 r.
Proof.
  unfold collect_word. destruct (source_word w); [|done]. pose proof (parse_ref_suffix r) as H.
  destruct (parse_ref2 r) as [[p|] r']; [|done]. cbn [snd] in H. cbv zeta.
  etransitivity; [apply more_refs_suffix|]. etransitivity; [apply skip_alias_suffix|done].
Qed.

Lemma insert_word_suffix w ts r : suffix_of (insert_word w ts r).2 r.
Proof.
  unfold insert_word. destruct (String.eqb _ _); [|done]. pose proof (parse_ref_suffix r) as H.
  destruct (parse_ref2 r) as [[p|] r']; [|done]. cbn [snd] in H. destruct (table_index _ ts) as [i|]; [|done].
  cbv zeta. destruct (expect "(" (skip_spaces_comments r')) as [r2|] eqn:E.
  - apply skip_expect in E as [H2 _]. etransitivity; [apply column_list_suffix|]. by etransitivity.
  - etransitivity; [apply skip_suffix|done].
Qed.

Lemma update_word_suffix w ts r : suffix_of (update_word w ts r).2 r.
Proof.
  unfold update_word. destruct (String.eqb _ _); [|done]. pose proof (parse_ref_suffix r) as H.
  destruct (parse_ref2 r) as [[p|] r']; [|done]. cbn [snd] in H. destruct (table_index _ ts) as [i|]; [|done].
  pose proof (find_set_suffix (fuel r') r') as H2. destruct (find_set (fuel r') r') as [[] r2]; cbn [snd] in H2.
  - etransitivity; [apply set_clause_suffix|]. by etransitivity.
  - by etransitivity.
Qed.

Lemma scan_words_fuel {A} (word : string -> A -> string -> A * string) n m a s :
  (forall w a r, suffix_of (word w a r).2 r) ->
  (String.length s < n)%nat -> (String.length s < m)%nat -> scan_words word n a s = scan_words word m a s.
Proof.
  intros Hw. revert m a s. induction n as [|n IH]; intros [|m] a s Hn Hm; try lia. cbn [scan_words].
  destruct (skip_spaces_comments s) as [|c r] eqn:E; [done|]. apply skip_cons in E as (H1 & _ & H2).
  apply suffix_length in H1. pose proof (suffix_length _ _ (skip_quoted_suffix c r)) as Hq.
  destruct (is_literal c); [apply IH; lia|].
  pose proof (span_app is_ident_char (String c r)) as Hs. destruct (span is_ident_char (String c r)) as [[|d w] r'].
  - apply IH; lia.
  - cbn [fst snd] in Hs. pose proof (f_equal String.length Hs) as Hl. rewrite length_append in Hl. cbn in Hl.
    pose proof (suffix_length _ _ (Hw (String d w) a r')) as Hr. destruct (word (String d w) a r') as [a' r2].
    cbn [snd] in Hr. cbn in H1. apply IH; lia.
Qed.

Lemma scan_words_inv {A} (P : A -> Prop) (word : string -> A -> string -> A * string) n a s :
  (forall w a r, P a -> P (word w a r).1) -> P a -> P (scan_words word n a s).
Proof.
  intros Hw. revert a s. induction n as [|n IH]; intros a s Ha; cbn [scan_words]; [done|].
  destruct (skip_spaces_comments s) as [|c r]; [done|]. destruct (is_literal c); [by apply IH|].
  destruct (span is_ident_char (String c r)) as [[|d w] r']; [by apply IH|].
  pose proof (Hw (String d w) a r' Ha) as H. destruct (word (String d w) a r') as [a' r2]. by apply IH.
Qed.

(** *** Rewriting *)

(** What a match reads: at least four characters, or three bare ones that end
    before something that is no identifier character. *)
Definition read_by_match (s r : string) : Prop :=
  exists p, s = p +:+ r /\
    ((4 <= String.length p)%nat \/
     ((3 <= String.length p)%nat /\ starts_ident s = true /\ starts_ident r = false)).

Lemma dot_between cap s w s1 s2 w2 r :
  read_ident cap s = Some (w, s1) -> expect "." (skip_spaces_comments s1) = Some s2 ->
  read_ident cap (skip_spaces_comments s2) = Some (w2, r) -> read_by_match s r.
Proof.
  intros H1 H2 H3. destruct (read_ident_suffix _ _ _ _ H1) as (p1 & -> & Hp1).
  apply skip_expect in H2 as [[k1 ->] Hk1]. destruct (skip_suffix s2) as [k2 E2].
  destruct (read_ident_suffix _ _ _ _ H3) as (p2 & E3 & Hp2). rewrite E3 in E2. subst s2.
  exists (p1 +:+ k1 +:+ k2 +:+ p2). rewrite !append_assoc. split; [done|]. rewrite !length_append in *.
  destruct Hp1 as [(Hs & ? & _)|?]; [|left; lia]. destruct Hp2 as [(_ & ? & Hr)|?]; [|left; lia].
  right. split; [lia|]. done.
Qed.

Lemma read_by_match_trans s s1 r : suffix_of s1 s -> (String.length s1 < String.length s)%nat ->
  read_by_match s1 r -> (3 <= String.length s1 - String.length r)%nat -> read_by_match s r.
Proof.
  intros [q ->] Hl (p & -> & _) H3. exists (q +:+ p). rewrite append_assoc. split; [done|]. left.
  rewrite !length_append in *. lia.
Qed.

Lemma find_some {A} (f : A -> bool) l x : List.find f l = Some x -> x ∈ l /\ f x = true.
Proof. intros H. apply find_some in H as [Hin Hf]. split; [by apply list_elem_of_In|done]. Qed.

Lemma match_ref_suffix ts s t r : match_ref ts s = Some (t, r) -> t ∈ ts /\ read_by_match s r.
Proof.
  unfold match_ref. destruct (full_match ts s) as [m|] eqn:E.
  - intros Hm. simplify_eq. revert E. unfold full_match, three_segments.
    destruct (read_ident 256 s) as [[a s1]|] eqn:E1; cbn [mbind option_bind fmap option_fmap option_map fst snd]; [|done].
    destruct (expect "." (skip_spaces_comments s1)) as [s2|] eqn:E2; cbn [mbind option_bind fmap option_fmap option_map fst snd]; [|done].
    destruct (read_ident 256 (skip_spaces_comments s2)) as [[b s3]|] eqn:E3; cbn [mbind option_bind fmap option_fmap option_map fst snd]; [|done].
    destruct (expect "." (skip_spaces_comments s3)) as [s4|] eqn:E4; cbn [mbind option_bind fmap option_fmap option_map fst snd]; [|done].
    destruct (read_ident 256 (skip_spaces_comments s4)) as [[c s5]|] eqn:E5; cbn [mbind option_bind fmap option_fmap option_map fst snd]; [|done].
    destruct (List.find _ ts) as [t'|] eqn:Ef; cbn [mbind option_bind fmap option_fmap option_map fst snd]; [|done]. intros Hm. simplify_eq.
    split; [exact (proj1 (find_some _ _ _ Ef))|].
    pose proof (dot_between _ _ _ _ _ _ _ E1 E2 E3) as (p & -> & Hp).
    apply skip_expect in E4 as [[q ->] Hq]. apply skip_ident in E5 as [[q' ->] Hq'].
    exists (p +:+ q +:+ q'). rewrite !append_assoc. split; [done|]. left. rewrite !length_append in *. lia.
  - clear E. unfold pw_match, two_segments.
    destruct (read_ident 256 s) as [[a s1]|] eqn:E1; cbn [mbind option_bind fmap option_fmap option_map fst snd]; [|done].
    destruct (expect "." (skip_spaces_comments s1)) as [s2|] eqn:E2; cbn [mbind option_bind fmap option_fmap option_map fst snd]; [|done].
    destruct (read_ident 256 (skip_spaces_comments s2)) as [[b s3]|] eqn:E3; cbn [mbind option_bind fmap option_fmap option_map fst snd]; [|done].
    destruct (List.find _ ts) as [t'|] eqn:Ef; cbn [mbind option_bind fmap option_fmap option_map fst snd]; [|done]. intros Hm. simplify_eq.
    split; [exact (proj1 (find_some _ _ _ Ef))|]. by eapply dot_between.
Qed.

Lemma rewrite_step_suffix ts c s alias r : rewrite_step ts c s = (alias, r) ->
  suffix_of r (String c s) /\ (String.length r < S (String.length s))%nat.
Proof.
  unfold rewrite_step. cbv zeta. pose proof (skip_quoted_suffix c s) as Hq. pose proof (suffix_length _ _ Hq) as Hl.
  assert (Hq' : suffix_of (skip_quoted_raw (String c s)) (String c s)) by by apply suffix_cons.
  cbn [skip_quoted_raw] in *. destruct (bool_decide (c = SQUOTE)); [intros [= _ <-]; split; [done|lia]|].
  destruct (comment_end (String c s)) as [r1|] eqn:E1.
  { intros [= _ <-]. by apply comment_end_suffix in E1. }
  destruct (is_quote c || is_ident_char c) eqn:Ec; cbn [negb]; [|intros [= _ <-]; split; [suffixes|lia]].
  destruct (match_ref ts (String c s)) as [[t r1]|] eqn:Em.
  - intros [= _ <-]. apply match_ref_suffix in Em as (_ & p & E & Hp). split; [by exists p|].
    apply (f_equal String.length) in E. rewrite length_append in E. cbn in E.
    destruct Hp as [?|[? _]]; lia.
  - destruct (is_quote c) eqn:Eq; [intros [= _ <-]; split; [done|lia]|]. cbn in Ec. intros H%(f_equal snd). cbn [snd] in H. subst r.
    split; [apply span_suffix|]. rewrite span_cons by done. pose proof (suffix_length _ _ (span_suffix is_ident_char s)). lia.
Qed.

Lemma rewrite_text_fuel n m ts s :
  (String.length s < n)%nat -> (String.length s < m)%nat -> rewrite_text n ts s = rewrite_text m ts s.
Proof.
  revert m s. induction n as [|n IH]; intros [|m] s Hn Hm; try lia. destruct s as [|c s]; [done|]. cbn [rewrite_text].
  destruct (rewrite_step ts c s) as [alias r] eqn:E. apply rewrite_step_suffix in E as [_ Hl]. cbn in Hn, Hm.
  f_equal. apply IH; lia.
Qed.

(** An alias is not longer than [eql_t15]. *)
Definition short_aliases (ts : list eql_table) : Prop := Forall (fun t => String.length (t_alias t) <= 7)%nat ts.

Lemma rewrite_text_bound n ts s : short_aliases ts ->
  (String.length (rewrite_text n ts s) <= 2 * String.length s + (if starts_ident s then 1 else 0))%nat.
Proof.
  intros Ha. revert s. induction n as [|n IH]; intros s; [cbn; lia|]. destruct s as [|c s]; [cbn; lia|].
  cbn [rewrite_text]. destruct (rewrite_step ts c s) as [alias r] eqn:E. rewrite length_append.
  specialize (IH r). pose proof (rewrite_step_suffix _ _ _ _ _ E) as [Hs Hl].
  assert (Hc : (String.length (consumed (String c s) r) + String.length r = S (String.length s))%nat).
  { rewrite <-length_append, consumed_app by done. done. }
  assert (H1 : (String.length (rewrite_text n ts r) <= 2 * String.length r + 1)%nat) by (destruct (starts_ident r); lia).
  cbn [String.length]. destruct alias as [a|]; cbn [default from_option id]; [|destruct (starts_ident (String c s)); lia].
  revert E. unfold rewrite_step. cbv zeta. destruct (bool_decide _); [done|]. destruct (comment_end _); [done|].
  destruct (negb _); [done|]. destruct (match_ref ts (String c s)) as [[t r']|] eqn:Em; [|done]. intros [= <- <-].
  apply match_ref_suffix in Em as (Hin & p & Ep & Hp). pose proof (proj1 (Forall_forall _ _) Ha t Hin) as Ht. cbn beta in Ht.
  pose proof (f_equal String.length Ep) as El. rewrite length_append in El. cbn in El.
  destruct Hp as [?|(? & -> & Hr)]; [destruct (starts_ident (String c s)); lia|].
  rewrite Hr in IH. cbv iota in IH |- *. lia.
Qed.

Lemma add_ref_cases ts r :
  add_ref ts r = ts \/ ((length ts < 16)%nat /\ add_ref ts r = ts ++ [make_table (length ts) r]).
Proof.
  unfold add_ref. destruct (existsb _ ts); [by left|]. destruct (Nat.ltb_spec (length ts) EQL_MAX_TABLES); [|by left].
  right. by unfold EQL_MAX_TABLES in *.
Qed.

Lemma collect_inv (P : list eql_table -> Prop) sql :
  P [] -> (forall ts r, P ts -> P (add_ref ts r)) -> P (collect_refs sql).
Proof.
  intros H0 Hadd. unfold collect_refs. apply (scan_words_inv P); [|done]. intros w ts r Hts. unfold collect_word.
  destruct (source_word w); [|done]. destruct (parse_ref2 r) as [[p|] r']; [|done]. cbv zeta.
  generalize (skip_alias r'). intros s. generalize (fuel s). intros n.
  assert (H : P (add_ref ts p)) by by apply Hadd. revert H. generalize (add_ref ts p). clear ts Hts. revert s.
  induction n as [|n IH]; intros s ts Hts; cbn [more_refs]; [done|].
  destruct (expect "," _) as [r2|]; [|done]. destruct (parse_ref2 r2) as [[q|] r3]; [|done]. by apply IH, Hadd.
Qed.

Lemma alias_short i : (i < 16)%nat -> (String.length (alias_of i) <= 7)%nat.
Proof. intros Hi. do 16 (destruct i as [|i]; [vm_compute; lia|]). lia. Qed.

Lemma collect_aliases sql i t : collect_refs sql !! i = Some t -> (i < 16)%nat /\ t_alias t = alias_of i.
Proof.
  revert i t. apply (collect_inv (fun ts => forall i t, ts !! i = Some t -> (i < 16)%nat /\ t_alias t = alias_of i)); [done|].
  intros ts r Hts i t. destruct (add_ref_cases ts r) as [->|[Hl ->]]; [apply Hts|].
  intros [[_ H]|[-> <-]]%lookup_snoc_Some; [by apply Hts|done].
Qed.

Lemma collect_short sql : short_aliases (collect_refs sql).
Proof.
  apply Forall_lookup. intros i t [Hi ->]%collect_aliases. by apply alias_short.
Qed.

Lemma rewrite_fits sql ts : short_aliases ts -> rewrite_sql sql ts = rewrite_text (fuel sql) ts sql.
Proof.
  intros Ha. apply substring_short. pose proof (rewrite_text_bound (fuel sql) ts sql Ha).
  destruct (starts_ident sql); lia.
Qed.

(** The loops of the EQL scanners end before the text does: with
    any fuel above the length of what is left, each returns what it returns
    with the fuel the model gives it, so the fuel is never what stops it. *)
Theorem scanners_terminate n sql ts i depth : (String.length sql < n)%nat ->
  skip_blanks n sql = skip_spaces_comments sql /\
  more_refs n ts sql = more_refs (fuel sql) ts sql /\
  scan_words collect_word n [] sql = collect_refs sql /\
  rewrite_text n ts sql = rewrite_text (fuel sql) ts sql /\
  column_list n i ts sql = column_list (fuel sql) i ts sql /\
  scan_words insert_word n ts sql = scan_insert_columns sql ts /\
  find_set n sql = find_set (fuel sql) sql /\
  set_clause n i depth ts sql = set_clause (fuel sql) i depth ts sql /\
  scan_words update_word n ts sql = scan_update_columns sql ts.
Proof.
  intros Hn. assert (Hf : (String.length sql < fuel sql)%nat) by (unfold fuel; lia).
  split_and!.
  - by apply skip_blanks_fuel.
  - by apply more_refs_fuel.
  - apply scan_words_fuel; [apply collect_word_suffix|done..].
  - by apply rewrite_text_fuel.
  - by apply column_list_fuel.
  - apply scan_words_fuel; [apply insert_word_suffix|done..].
  - by apply find_set_fuel.
  - by apply set_clause_fuel.
  - apply scan_words_fuel; [apply update_word_suffix|done..].
Qed.

(** *** Statements as tokens *)

(** A statement as its author means it: characters that are no names,
    character strings, comments, words that are no references, and references
    to the tables of the statement. *)
Inductive token :=
| TChar (c : Ascii.ascii)
| TString (body : string)
| TComment (body : string)
| TWord (w : string)
| TRef (t : eql_table).

Definition dotted_ref (t : eql_table) : string :=
  if t_pw t then dotted2 (t_db t) (t_part t) else dotted3 (t_db t) (t_part t) (t_ks t).

(** The text of a token, and what SQLite is to see in its place. *)
Definition spell (k : token) : string :=
  match k with
  | TChar c => String c ""
  | TString b => String SQUOTE (b +:+ String SQUOTE "")
  | TComment b => "/*" +:+ b +:+ "*/"
  | TWord w => w
  | TRef t => dotted_ref t
  end.
Definition shadow (k : token) : string := match k with TRef t => t_alias t | _ => spell k end.

Definition spell_all (ks : list token) : string := foldr (fun k s => spell k +:+ s) "" ks.
Definition shadow_all (ks : list token) : string := foldr (fun k s => shadow k +:+ s) "" ks.

Fixpoint all_chars (f : Ascii.ascii -> bool) (s : string) : bool :=
  match s with EmptyString => true | String c s => f c && all_chars f s end.

Definition bare_name (w : string) : bool := negb (String.eqb w "") && all_chars is_ident_char w.

(** The token [k] stands before the text [s]. *)
Definition token_ok (ts : list eql_table) (k : token) (s : string) : bool :=
  match k with
  | TChar c =>
      negb (is_ident_char c || is_literal c) &&
      match comment_end (String c s) with None => true | Some _ => false end
  | TString b =>
      all_chars (fun c => negb (bool_decide (c = SQUOTE) || bool_decide (c = "\"%char))) b &&
      match expect SQUOTE s with None => true | Some _ => false end
  | TComment b => all_chars (fun c => negb (bool_decide (c = "*"%char))) b
  | TWord w =>
      bare_name w && negb (starts_ident s) &&
      match match_ref ts (w +:+ s) with None => true | Some _ => false end
  | TRef t =>
      negb (starts_ident s) &&
      match full_match ts (dotted_ref t +:+ s) with None => true | Some _ => negb (t_pw t) end
  end.

Fixpoint tokens_ok (ts : list eql_table) (ks : list token) : bool :=
  match ks with [] => true | k :: ks => token_ok ts k (spell_all ks) && tokens_ok ts ks end.

(** A table whose names are bare words of the lengths the code has room for. *)
Definition table_ok (t : eql_table) : Prop :=
  bare_name (t_db t) = true /\ bare_name (t_part t) = true /\ (t_pw t = false -> bare_name (t_ks t) = true) /\
  (String.length (t_db t) <= 127)%nat /\ (String.length (t_part t) <= 255)%nat /\
  (String.length (t_ks t) <= 127)%nat /\ t_dotted t = dotted_ref t.

Lemma expect_cons c s : expect c (String c s) = Some s.
Proof. cbn. by rewrite bool_decide_eq_true_2. Qed.

Lemma span_all f w s :
  all_chars f w = true -> match s with String c _ => f c = false | EmptyString => True end ->
  span f (w +:+ s) = (w, s).
Proof.
  induction w as [|c w IH].
  - intros _ Hs. change ("" +:+ s) with s. destruct s as [|c s]; [done|]. cbn [span]. by rewrite Hs.
  - intros [Hc Hw]%andb_prop Hs. change (String c w +:+ s) with (String c (w +:+ s)). cbn [span]. by rewrite Hc, IH.
Qed.

Lemma bare_start w s : bare_name w = true -> starts_ident (w +:+ s) = true.
Proof. destruct w as [|c w]; [done|]. by intros [_ [Hc _]%andb_prop]%andb_prop. Qed.

Lemma ident_not_quote c : is_ident_char c = true ->
  bool_decide (c = DQUOTE) || bool_decide (c = "`"%char) = false /\ bool_decide (c = "["%char) = false /\
  is_quote c = false /\ bool_decide (c = SQUOTE) = false /\
  bool_decide (c = "-"%char) = false /\ bool_decide (c = "/"%char) = false /\ is_space c = false.
Proof. destruct c as [[] [] [] [] [] [] [] []]; vm_compute; by intros. Qed.

Lemma read_bare cap w s : bare_name w = true -> (String.length w < cap)%nat -> starts_ident s = false ->
  read_ident cap (w +:+ s) = Some (w, s).
Proof.
  intros Hb Hl Hs. destruct w as [|c w]; [done|]. pose proof Hb as [_ Hw]%andb_prop.
  pose proof Hw as [Hc _]%andb_prop. destruct (ident_not_quote _ Hc) as (H1 & H2 & _).
  change (String c w +:+ s) with (String c (w +:+ s)). unfold read_ident. rewrite H1, H2, Hc.
  change (String c (w +:+ s)) with (String c w +:+ s). rewrite span_all; [|done|by destruct s].
  unfold cut. rewrite substring_short by lia. done.
Qed.

Lemma skip_solid c s : is_space c = false -> bool_decide (c = "-"%char) = false -> bool_decide (c = "/"%char) = false ->
  skip_spaces_comments (String c s) = String c s.
Proof.
  intros H1 H2 H3. unfold skip_spaces_comments, fuel. cbn [skip_blanks span]. rewrite H1. cbn [snd].
  unfold comment_end. destruct s as [|d s]; [done|]. by rewrite H2, H3.
Qed.

Lemma skip_bare w s : bare_name w = true -> skip_spaces_comments (w +:+ s) = w +:+ s.
Proof.
  intros Hb. destruct w as [|c w]; [done|]. pose proof Hb as [_ [Hc _]%andb_prop]%andb_prop.
  destruct (ident_not_quote _ Hc) as (_ & _ & _ & _ & H2 & H3 & H1). by apply skip_solid.
Qed.

Lemma skip_dot s : skip_spaces_comments ("." +:+ s) = "." +:+ s.
Proof. by apply skip_solid. Qed.

(** Two names with a dot between, as they are read. *)
Lemma read_dotted w s : bare_name w = true -> (String.length w < 256)%nat ->
  read_ident 256 (w +:+ "." +:+ s) = Some (w, "." +:+ s).
Proof. intros Hb Hl. by apply read_bare. Qed.

Lemma expect_dot s : expect "." (skip_spaces_comments ("." +:+ s)) = Some s.
Proof. rewrite skip_dot. apply expect_cons. Qed.

Lemma append_cons c a b : String c a +:+ b = String c (a +:+ b).
Proof. done. Qed.

Lemma raw_end_string b s :
  all_chars (fun c => negb (bool_decide (c = SQUOTE) || bool_decide (c = "\"%char))) b = true ->
  expect SQUOTE s = None -> raw_end SQUOTE (b +:+ String SQUOTE s) = s.
Proof.
  intros Hb Hs. induction b as [|c b IH].
  - change ("" +:+ String SQUOTE s) with (String SQUOTE s). cbn [raw_end]. rewrite bool_decide_eq_true_2 by done.
    destruct s as [|d s]; [done|]. cbn in Hs. case_bool_decide; [done|]. done.
  - apply andb_prop in Hb as [Hc Hb]. apply negb_true_iff, orb_false_iff in Hc as [H1 H2].
    rewrite append_cons. cbn [raw_end]. rewrite H1, H2. rewrite andb_false_r. by apply IH.
Qed.

Lemma comment_close b s : all_chars (fun c => negb (bool_decide (c = "*"%char))) b = true ->
  after_close (b +:+ "*/" +:+ s) = Some s.
Proof.
  intros Hb. induction b as [|c b IH]; [done|]. apply andb_prop in Hb as [Hc Hb]. apply negb_true_iff in Hc.
  rewrite append_cons. cbn [after_close]. destruct (b +:+ "*/" +:+ s) as [|d r] eqn:E; [by destruct b|].
  rewrite Hc. cbn [andb]. by rewrite IH.
Qed.

Lemma no_comment_ident c s : is_ident_char c = true -> comment_end (String c s) = None.
Proof.
  intros Hc. destruct (ident_not_quote _ Hc) as (_ & _ & _ & _ & H1 & H2 & _). destruct s as [|d s]; [done|].
  cbn [comment_end]. by rewrite H1, H2.
Qed.

(** Under distinct dotted names a reference finds its own table. *)
Lemma find_own (f : eql_table -> bool) ts t :
  NoDup (map t_dotted ts) -> t ∈ ts -> f t = true -> (forall u, f u = true -> t_dotted u = t_dotted t) ->
  List.find f ts = Some t.
Proof.
  intros Hn Hin Hf Hu. induction ts as [|u ts IH]; [by apply elem_of_nil in Hin|]. cbn [List.find].
  apply NoDup_cons in Hn as [Hx Hn]. apply elem_of_cons in Hin as [->|Hin]; [by rewrite Hf|].
  destruct (f u) eqn:E; [|by apply IH]. exfalso. apply Hx. rewrite (Hu _ E). apply list_elem_of_In, in_map.
  by apply list_elem_of_In.
Qed.

Lemma three_bare a b c s :
  bare_name a = true -> bare_name b = true -> bare_name c = true ->
  (String.length a <= 127)%nat -> (String.length b <= 255)%nat -> (String.length c <= 127)%nat ->
  starts_ident s = false -> three_segments (dotted3 a b c +:+ s) = Some ((a, b, c), s).
Proof.
  intros Ha Hb Hc La Lb Lc Hs. unfold three_segments, dotted3. rewrite !append_assoc, read_dotted by (done || lia).
  cbn [mbind option_bind fst snd]. rewrite expect_dot. cbn [mbind option_bind].
  rewrite skip_bare, read_dotted by (done || lia). cbn [mbind option_bind fst snd].
  rewrite expect_dot. cbn [mbind option_bind]. rewrite skip_bare, read_bare by (done || lia). done.
Qed.

Lemma two_bare a b s :
  bare_name a = true -> bare_name b = true ->
  (String.length a <= 127)%nat -> (String.length b <= 255)%nat ->
  starts_ident s = false -> two_segments (dotted2 a b +:+ s) = Some ((a, b), s).
Proof.
  intros Ha Hb La Lb Hs. unfold two_segments, dotted2. rewrite !append_assoc, read_dotted by (done || lia).
  cbn [mbind option_bind fst snd]. rewrite expect_dot. cbn [mbind option_bind].
  rewrite skip_bare, read_bare by (done || lia). done.
Qed.

Lemma dotted_fits t : table_ok t -> (String.length (dotted_ref t) <= 511)%nat.
Proof.
  intros (_ & _ & _ & La & Lb & Lc & _). unfold dotted_ref, dotted2, dotted3.
  destruct (t_pw t); rewrite !length_append; cbn [String.length]; lia.
Qed.

Lemma match_own ts t s :
  NoDup (map t_dotted ts) -> t ∈ ts -> table_ok t -> starts_ident s = false ->
  (t_pw t = true -> full_match ts (dotted_ref t +:+ s) = None) ->
  match_ref ts (dotted_ref t +:+ s) = Some (t, s).
Proof.
  intros Hn Hin Hok Hs Hpw. pose proof (dotted_fits t Hok) as Hl.
  destruct Hok as (Ha & Hb & Hc & La & Lb & Lc & Hd). unfold match_ref. destruct (t_pw t) eqn:E.
  - rewrite Hpw by done. unfold pw_match, dotted_ref in *. rewrite E in *. rewrite two_bare by done.
    cbn [mbind option_bind fst snd]. unfold cut, EQL_MAX_NAME. rewrite substring_short by lia.
    rewrite (find_own _ ts t); [done..| |].
    + by rewrite E, Hd, String.eqb_refl.
    + intros u [_ Hu%String.eqb_eq]%andb_prop. by rewrite Hd.
  - unfold full_match, dotted_ref in *. rewrite E in *. rewrite three_bare by auto.
    cbn [mbind option_bind fst snd]. unfold cut, EQL_MAX_NAME. rewrite substring_short by lia.
    rewrite (find_own _ ts t); [done..| |].
    + by rewrite Hd, String.eqb_refl.
    + intros u Hu%String.eqb_eq. by rewrite Hd.
Qed.

Lemma append_empty_l s : "" +:+ s = s.
Proof. done. Qed.

(** The head of a name that begins a text. *)
Lemma bare_head w s : bare_name w = true ->
  exists c r, w +:+ s = String c r /\ is_ident_char c = true.
Proof.
  destruct w as [|c w]; [done|]. intros [_ [Hc _]%andb_prop]%andb_prop. by exists c, (w +:+ s).
Qed.

Lemma dotted_head t s : table_ok t -> exists c r, dotted_ref t +:+ s = String c r /\ is_ident_char c = true.
Proof.
  intros (Ha & _). unfold dotted_ref, dotted2, dotted3. destruct (t_pw t); rewrite !append_assoc; by apply bare_head.
Qed.

(** One step of the rewriter on a token. *)
Lemma step_ident ts c r : is_ident_char c = true ->
  rewrite_step ts c r =
    match match_ref ts (String c r) with
    | Some (t, r') => (Some (t_alias t), r')
    | None => (None, (span is_ident_char (String c r)).2)
    end.
Proof.
  intros Hc. unfold rewrite_step. cbv zeta. destruct (ident_not_quote _ Hc) as (_ & _ & Hq & Hs & _).
  rewrite Hs, no_comment_ident, Hq, Hc by done. done.
Qed.

Lemma step_token ts k s c r :
  NoDup (map t_dotted ts) -> (forall t, k = TRef t -> t ∈ ts /\ table_ok t) -> token_ok ts k s = true ->
  spell k +:+ s = String c r ->
  exists alias, rewrite_step ts c r = (alias, s) /\ default (consumed (String c r) s) alias = shadow k.
Proof.
  intros Hn Hin Hok E.
  assert (Hcopy : rewrite_step ts c r = (None, s) -> shadow k = spell k ->
    exists alias, rewrite_step ts c r = (alias, s) /\ default (consumed (String c r) s) alias = shadow k).
  { intros H ->. exists None. split; [done|]. cbn [default from_option]. by rewrite <-E, consumed_prefix. }
  destruct k as [d|b|b|w|t].
  - apply Hcopy; [|done]. apply andb_prop in Hok as [Hc Hend]. apply negb_true_iff, orb_false_iff in Hc as [H1 H2].
    cbn [spell] in E. rewrite append_cons in E. change ("" +:+ s) with s in E. injection E as -> ->.
    unfold rewrite_step. cbv zeta. unfold is_literal in H2. apply orb_false_iff in H2 as [-> H2].
    destruct (comment_end (String c r)); [done|]. by rewrite H2, H1.
  - apply Hcopy; [|done]. apply andb_prop in Hok as [Hb Hs]. cbn [spell] in E. rewrite append_cons in E.
    injection E as <- <-. unfold rewrite_step. cbv zeta. rewrite bool_decide_eq_true_2 by done.
    cbn [skip_quoted_raw]. rewrite append_assoc. f_equal. apply raw_end_string; [done|].
    change (String SQUOTE "" +:+ s) with (String SQUOTE s). destruct (expect SQUOTE s); done.
  - apply Hcopy; [|done]. cbn [spell] in E. rewrite append_assoc in E.
    change ("/*" +:+ ((b +:+ "*/") +:+ s)) with (String "/"%char (String "*"%char ((b +:+ "*/") +:+ s))) in E.
    injection E as <- <-. unfold rewrite_step. cbv zeta.
    assert (H : comment_end (String "/"%char (String "*"%char ((b +:+ "*/") +:+ s))) = Some s).
    { rewrite append_assoc. cbn [comment_end]. rewrite comment_close by done. done. }
    rewrite H. done.
  - apply Hcopy; [|done]. apply andb_prop in Hok as [[Hb Hs]%andb_prop Hm]. apply negb_true_iff in Hs.
    cbn [spell] in E. destruct (bare_head w s Hb) as (d & r' & E' & Hd). rewrite E' in E. injection E as -> ->.
    rewrite step_ident by done. rewrite <-E'. destruct (match_ref ts (w +:+ s)); [done|]. f_equal.
    apply andb_prop in Hb as [_ Hb]. rewrite span_all; [done..|by destruct s].
  - destruct (Hin t eq_refl) as [Ht Htok]. apply andb_prop in Hok as [Hs Hm]. apply negb_true_iff in Hs.
    cbn [spell] in E. destruct (dotted_head t s Htok) as (d & r' & E' & Hd). rewrite E' in E. injection E as -> ->.
    exists (Some (t_alias t)). split; [|done]. rewrite step_ident by done. rewrite <-E', (match_own ts t s); [done..|].
    intros Hp. rewrite Hp in Hm. by destruct (full_match ts _).
Qed.

Lemma spell_head ts k s : (forall t, k = TRef t -> table_ok t) -> token_ok ts k s = true ->
  exists c r, spell k +:+ s = String c r.
Proof.
  intros Ht Hok. destruct k as [d|b|b|w|t]; cbn [spell]; [by eexists _, _..| |].
  - apply andb_prop in Hok as [[Hb _]%andb_prop _]. destruct (bare_head w s Hb) as (c & r & -> & _). by eexists _, _.
  - destruct (dotted_head t s (Ht t eq_refl)) as (c & r & -> & _). by eexists _, _.
Qed.

Lemma rewrite_text_tokens n ts ks :
  NoDup (map t_dotted ts) -> (forall t, TRef t ∈ ks -> t ∈ ts /\ table_ok t) -> tokens_ok ts ks = true ->
  (String.length (spell_all ks) < n)%nat -> rewrite_text n ts (spell_all ks) = shadow_all ks.
Proof.
  intros Hn Hin Hok. revert n. induction ks as [|k ks IH]; intros [|n] Hl; [done..|cbn in Hl; lia|].
  apply andb_prop in Hok as [Hk Hok]. change (spell_all (k :: ks)) with (spell k +:+ spell_all ks) in *.
  assert (Hk' : forall t, k = TRef t -> t ∈ ts /\ table_ok t) by (intros t ->; apply Hin; set_solver).
  destruct (spell_head ts k (spell_all ks)) as (c & r & E); [intros; by apply Hk'|done|].
  rewrite E in *. destruct (step_token ts k _ _ _ Hn Hk' Hk E) as (alias & Hs & Ha). cbn [rewrite_text].
  pose proof (rewrite_step_suffix _ _ _ _ _ Hs) as [_ Hlen]. rewrite Hs, Ha.
  change (shadow_all (k :: ks)) with (shadow k +:+ shadow_all ks). f_equal.
  apply IH; [intros t Ht; apply Hin; set_solver|done|cbn in Hl; lia].
Qed.

(** The statement SQLite runs is the statement that was sent with
    each reference to a table replaced by the name of that table's shadow, and
    nothing else: words, character strings and comments, whatever they
    contain, come through as they are, and the text is never cut off. *)
Theorem rewrite_replaces_references ts ks :
  NoDup (map t_dotted ts) -> short_aliases ts -> (forall t, TRef t ∈ ks -> t ∈ ts /\ table_ok t) ->
  tokens_ok ts ks = true -> rewrite_sql (spell_all ks) ts = shadow_all ks.
Proof.
  intros Hn Ha Hin Hok. rewrite rewrite_fits by done. apply rewrite_text_tokens; [done..|]. unfold fuel. lia.
Qed.

(** [SELECT 'db.p.k' /* db.p.k */ FROM db.p.k t] *)
Definition demo_table : eql_table := make_table 0 ("db", "p", "k").
Definition demo_tokens : list token :=
  [TWord "SELECT"; TChar " "; TString "db.p.k"; TChar " "; TComment " db.p.k "; TChar " ";
   TWord "FROM"; TChar " "; TRef demo_table; TChar " "; TWord "t"].

Lemma rewrite_replaces_references_witness :
  rewrite_sql "SELECT 'db.p.k' /* db.p.k */ FROM db.p.k t" (collect_refs "SELECT 'db.p.k' /* db.p.k */ FROM db.p.k t")
    = "SELECT 'db.p.k' /* db.p.k */ FROM eql_t0 t".
Proof.
  change (collect_refs _) with [demo_table].
  apply (rewrite_replaces_references [demo_table] demo_tokens); [| | |by vm_compute].
  - apply NoDup_singleton.
  - constructor; [vm_compute; lia|constructor].
  - intros t Ht. repeat (apply elem_of_cons in Ht as [Ht|Ht]; [try discriminate Ht|]); [|by apply elem_of_nil in Ht].
    injection Ht as ->. split; [by apply list_elem_of_singleton|]. vm_compute. repeat split; try lia; done.
Defined.

Lemma scanners_terminate_witness :
  collect_refs "SELECT 1 FROM a.b.c" = scan_words collect_word 100 [] "SELECT 1 FROM a.b.c".
Proof. symmetry. apply (scanners_terminate 100 "SELECT 1 FROM a.b.c" [] 0 0). cbn. lia. Defined.

Lemma cut_length n s : (String.length (cut n s) <= n - 1)%nat.
Proof.
  unfold cut. generalize (n - 1)%nat. clear n. intros n. revert s.
  induction n as [|n IH]; intros [|c s]; cbn; [lia..|]. specialize (IH s). lia.
Qed.

Lemma cut_empty n s : (2 <= n)%nat -> String.eqb (cut n s) "" = String.eqb s "".
Proof. intros H. unfold cut. destruct (n - 1)%nat eqn:E; [lia|]. by destruct s. Qed.

Lemma make_table_typed i r :
  let t := make_table i r in
  (String.length (t_db t) <= 127)%nat /\ (String.length (t_part t) <= 255)%nat /\
  (String.length (t_ks t) <= 127)%nat /\ t_pw t = String.eqb (t_ks t) "" /\
  t_dotted t = dotted_ref t /\ t_cols t = [] /\ t_keyspaces t = [].
Proof.
  pose proof (cut_length 128 r.1.1) as H1. pose proof (cut_length 256 r.1.2) as H2. pose proof (cut_length 128 r.2) as H3.
  cbv zeta. unfold make_table, dotted_ref. cbn [t_db t_part t_ks t_pw t_dotted t_cols t_keyspaces].
  split_and!; [exact H1|exact H2|exact H3| | |done|done].
  - by rewrite cut_empty by lia.
  - unfold cut at 1. apply substring_short. unfold EQL_MAX_NAME, dotted2, dotted3.
    destruct (String.eqb r.2 ""); rewrite !length_append; cbn [String.length]; lia.
Qed.

(** *** The tables of a statement *)

Lemma collect_length sql : (length (collect_refs sql) <= EQL_MAX_TABLES)%nat.
Proof.
  apply (collect_inv (fun ts => (length ts <= EQL_MAX_TABLES)%nat)); [cbn; lia|]. intros ts r H.
  destruct (add_ref_cases ts r) as [->|[? ->]]; [done|]. rewrite length_app. cbn. unfold EQL_MAX_TABLES. lia.
Qed.

Definition table_typed (t : eql_table) : Prop :=
  (String.length (t_db t) <= 127)%nat /\ (String.length (t_part t) <= 255)%nat /\
  (String.length (t_ks t) <= 127)%nat /\ t_pw t = String.eqb (t_ks t) "" /\
  t_dotted t = dotted_ref t /\ t_cols t = [] /\ t_keyspaces t = [].

Lemma collected_bounds sql i t : collect_refs sql !! i = Some t -> (String.length (t_ks t) <= 127)%nat /\ table_typed t.
Proof.
  intros Hi%list_elem_of_lookup_2. assert (Ht : table_typed t); [|split; [apply Ht|done]]. revert t Hi.
  apply (collect_inv (fun ts => forall t, t ∈ ts -> table_typed t)); [by intros t ?%elem_of_nil|].
  intros ts r Hts t. destruct (add_ref_cases ts r) as [->|[_ ->]]; [apply Hts|].
  intros [Ht|Ht%list_elem_of_singleton]%elem_of_app; [by apply Hts|]. rewrite Ht. apply make_table_typed.
Qed.

(** C37: The tables a statement refers to are well formed whatever the
    text: at most sixteen, the [i]-th called [eql_t<i>], so that no two share
    a name and none is longer than its buffer; every name cut to its own
    buffer; no columns yet; partition-wide exactly if the reference had no
    third part, and the dotted name that of the parts. *)
Theorem collected_tables_typed sql :
  (length (collect_refs sql) <= EQL_MAX_TABLES)%nat /\
  forall i t, collect_refs sql !! i = Some t ->
    t_alias t = alias_of i /\ (String.length (t_alias t) <= 7)%nat /\
    (String.length (t_db t) <= 127)%nat /\ (String.length (t_part t) <= 255)%nat /\
    (String.length (t_ks t) <= 127)%nat /\ t_pw t = String.eqb (t_ks t) "" /\
    t_dotted t = dotted_ref t /\ t_cols t = [] /\ t_keyspaces t = [].
Proof.
  split; [apply collect_length|]. intros i t Hi. pose proof (collect_aliases _ _ _ Hi) as [Hlt Ha].
  split; [done|]. split; [by rewrite Ha; apply alias_short|]. by apply (collected_bounds sql i t).
Qed.

(** *** What the scanners miss *)

Lemma raw_end_none q s : q <> SQUOTE -> all_chars (fun c => negb (bool_decide (c = q))) s = true -> raw_end q s = "".
Proof.
  intros Hq. induction s as [|c s IH]; [done|]. intros [Hc Hs]%andb_prop. apply negb_true_iff in Hc.
  cbn [raw_end]. rewrite Hc, (bool_decide_eq_false_2 _ Hq). by apply IH.
Qed.

Lemma skip_space c s : is_space c = true -> skip_spaces_comments (String c s) = skip_spaces_comments s.
Proof.
  intros Hc. unfold skip_spaces_comments. transitivity (skip_blanks (fuel (String c s)) s).
  - unfold fuel. cbn [String.length skip_blanks]. by rewrite span_cons.
  - apply skip_blanks_fuel; unfold fuel; cbn; lia.
Qed.

(** A name in square brackets hides everything behind it from the
    scanners: they look for a second opening bracket as the end of the name,
    although [read_ident] reads it up to the closing one. A statement such as
    [SELECT [a] FROM db.p.k] has no references, and is refused. *)
Theorem brackets_hide_references w rest :
  bare_name w = true -> source_word w = false -> all_chars (fun c => negb (bool_decide (c = "["%char))) rest = true ->
  collect_refs (w +:+ " [" +:+ rest) = [].
Proof.
  intros Hb Hw Hr. unfold collect_refs.
  assert (Hf : (3 <= fuel (w +:+ " [" +:+ rest))%nat) by (unfold fuel; rewrite !length_append; cbn; lia).
  destruct (fuel _) as [|[|n]]; [lia..|]. cbn [scan_words]. rewrite skip_bare by done.
  destruct (bare_head w (" [" +:+ rest) Hb) as (c & r & E & Hc). rewrite E.
  destruct (ident_not_quote _ Hc) as (_ & _ & Hq & Hs & _). unfold is_literal at 1. rewrite Hq, Hs. cbn [orb].
  rewrite <-E, span_all; [|by apply andb_prop in Hb as [_ ?]|done]. destruct w as [|d w]; [done|].
  unfold collect_word at 1. rewrite Hw. cbn [scan_words].
  change (" [" +:+ rest) with (String " " (String "["%char rest)). rewrite skip_space, skip_solid by done. change (is_literal "[") with true. cbv iota. cbn [skip_quoted_raw].
  rewrite raw_end_none by done. by destruct n.
Qed.

Lemma brackets_hide_references_witness : collect_refs "SELECT [a] FROM db.p.k" = [].
Proof. by apply (brackets_hide_references "SELECT" "a] FROM db.p.k"). Defined.

(** The third of three sources is lost when the sources have aliases. *)
Example third_source_lost :
  map t_dotted (collect_refs "SELECT 1 FROM a.b.c x, d.e.f y, g.h.i z") = ["a.b.c"; "d.e.f"] /\
  map t_dotted (collect_refs "SELECT 1 FROM a.b.c, d.e.f, g.h.i") = ["a.b.c"; "d.e.f"; "g.h.i"].
Proof. by vm_compute. Qed.

(** Two shards whose dotted names are spelled alike share the first one's shadow. *)
Example dotted_names_collide :
  let sql := "SELECT * FROM `a.b`.c, a.b.c" in
  map (fun t => (t_db t, t_part t, t_ks t)) (collect_refs sql) = [("a.b", "c", ""); ("a", "b", "c")] /\
  rewrite_sql sql (collect_refs sql) = "SELECT * FROM eql_t0, eql_t0".
Proof. by vm_compute. Qed.

(** A partition-wide table takes the name of a keyspace that is not a source. *)
Example pw_alias_swallows :
  rewrite_sql "SELECT a.b.c FROM a.b" (collect_refs "SELECT a.b.c FROM a.b") = "SELECT eql_t0.c FROM eql_t0".
Proof. by vm_compute. Qed.

(** A quoted column of SET is not collected. *)
Example quoted_set_column_lost :
  let ts := collect_refs "UPDATE a.b.c SET x = 1" in
  map (map fst ∘ t_cols) (scan_update_columns "UPDATE a.b.c SET x = 1, y = 2" ts) = [["x"; "y"]] /\
  map (map fst ∘ t_cols) (scan_update_columns "UPDATE a.b.c SET x = 1, `y` = 2" ts) = [["x"]].
Proof. by vm_compute. Qed.

(** A backslash in a character string, which SQL does not know, hides the end
    of the string and the source behind it. *)
Example backslash_hides_source :
  collect_refs "SELECT '\' FROM a.b.c" = [].
Proof. by vm_compute. Qed.

End EqlScanFacts.
