(* ===== verification/Cluster.v ===== *)
(** src/socket/epsilon_cluster.c and epsilon_cluster_rebalance.c: membership,
    gossip, leader election, placement and the rebalance waves of a node.
    Each definition is one critical section under [cl->lock] or a function
    composed of them; settings go through the configuration of Config.v.
    Sockets and threads (dialling, the reader and acceptor loops, sending the
    gossip that [state_to_json] builds) and allocation failure are not
    modelled; clocks are arguments. *)

From S2P Require Import Prelude BlockHash Md5 Crypto Json Shard Manager Store Config.
From Stdlib Require Import SpecFloat.

Module Cluster.

Import Json Store Config.

Definition EDB_NODE_ID_MAX : nat := 64.
Definition EDB_ADDR_MAX : nat := 64.
Definition MAX_PEERS : nat := 64.
Definition OFFLINE_AFTER_SECONDS : Z := 12.
Definition REMOVE_AFTER_SECONDS : Z := 7200.

Definition SETTING_MEMBERS : string := "cluster.members".
Definition SETTING_RANGES : string := "cluster.ranges".
Definition SETTING_TARGET : string := "cluster.target_ranges".
Definition SETTING_LOCK : string := "cluster.rebalance_lock".
Definition SETTING_DONE_PREFIX : string := "rebalance.done.".

(** ** State *)

Record edb_peer_info := Peer {
  p_id : string; p_addr : string; p_port : Z; p_http_port : Z;
  p_online : bool; p_last_seen : Z; p_removed : bool; p_compliant_gen : Z;
}.

Record edb_range_info := Range { node_id : string; range_start : string; range_end : string }.

(** [struct edb_cluster] without connections and threads; [leader] is empty
    when there is none. *)
Record edb_cluster := MkCluster {
  self_id : string; self_addr : string; self_port : Z; self_http_port : Z;
  peers : list edb_peer_info;
  generation : Z;
  gc_after : Z;
  ranges : list edb_range_info;
  target_generation : Z;
  target_ranges : list edb_range_info;
  auto_compliant : bool;
  leader : string;
}.

Definition with_peers (ps : list edb_peer_info) (cl : edb_cluster) : edb_cluster :=
  MkCluster (self_id cl) (self_addr cl) (self_port cl) (self_http_port cl) ps (generation cl)
    (gc_after cl) (ranges cl) (target_generation cl) (target_ranges cl) (auto_compliant cl) (leader cl).
Definition with_live (gen gc : Z) (rs : list edb_range_info) (cl : edb_cluster) : edb_cluster :=
  MkCluster (self_id cl) (self_addr cl) (self_port cl) (self_http_port cl) (peers cl) gen gc rs
    (target_generation cl) (target_ranges cl) (auto_compliant cl) (leader cl).
Definition with_target (gen : Z) (rs : list edb_range_info) (cl : edb_cluster) : edb_cluster :=
  MkCluster (self_id cl) (self_addr cl) (self_port cl) (self_http_port cl) (peers cl) (generation cl)
    (gc_after cl) (ranges cl) gen rs (auto_compliant cl) (leader cl).
Definition with_leader (l : string) (cl : edb_cluster) : edb_cluster :=
  MkCluster (self_id cl) (self_addr cl) (self_port cl) (self_http_port cl) (peers cl) (generation cl)
    (gc_after cl) (ranges cl) (target_generation cl) (target_ranges cl) (auto_compliant cl) l.
Definition with_auto (b : bool) (cl : edb_cluster) : edb_cluster :=
  MkCluster (self_id cl) (self_addr cl) (self_port cl) (self_http_port cl) (peers cl) (generation cl)
    (gc_after cl) (ranges cl) (target_generation cl) (target_ranges cl) b (leader cl).
Definition with_http_port (n : Z) (cl : edb_cluster) : edb_cluster :=
  MkCluster (self_id cl) (self_addr cl) (self_port cl) n (peers cl) (generation cl)
    (gc_after cl) (ranges cl) (target_generation cl) (target_ranges cl) (auto_compliant cl) (leader cl).

(** The target table dropped. *)
Definition drop_target (cl : edb_cluster) : edb_cluster := with_target 0 [] cl.

(** Fields of a peer. *)
Definition blank_peer (id : string) : edb_peer_info := Peer id "" 0 0 false 0 false 0.
Definition set_addr (a : string) (p : edb_peer_info) : edb_peer_info :=
  Peer (p_id p) a (p_port p) (p_http_port p) (p_online p) (p_last_seen p) (p_removed p) (p_compliant_gen p).
Definition set_port (n : Z) (p : edb_peer_info) : edb_peer_info :=
  Peer (p_id p) (p_addr p) n (p_http_port p) (p_online p) (p_last_seen p) (p_removed p) (p_compliant_gen p).
Definition set_http (n : Z) (p : edb_peer_info) : edb_peer_info :=
  Peer (p_id p) (p_addr p) (p_port p) n (p_online p) (p_last_seen p) (p_removed p) (p_compliant_gen p).
Definition set_online (b : bool) (p : edb_peer_info) : edb_peer_info :=
  Peer (p_id p) (p_addr p) (p_port p) (p_http_port p) b (p_last_seen p) (p_removed p) (p_compliant_gen p).
Definition set_seen (t : Z) (p : edb_peer_info) : edb_peer_info :=
  Peer (p_id p) (p_addr p) (p_port p) (p_http_port p) (p_online p) t (p_removed p) (p_compliant_gen p).
Definition set_removed (b : bool) (p : edb_peer_info) : edb_peer_info :=
  Peer (p_id p) (p_addr p) (p_port p) (p_http_port p) (p_online p) (p_last_seen p) b (p_compliant_gen p).
Definition set_compliant (g : Z) (p : edb_peer_info) : edb_peer_info :=
  Peer (p_id p) (p_addr p) (p_port p) (p_http_port p) (p_online p) (p_last_seen p) (p_removed p) g.

(** The loops over [cl->peers] that stop at the first peer of that id. *)
Definition find_peer (id : string) (ps : list edb_peer_info) : option edb_peer_info :=
  snd <$> list_find (fun p => p_id p = id) ps.

Fixpoint update_peer (id : string) (f : edb_peer_info -> edb_peer_info) (ps : list edb_peer_info)
    : list edb_peer_info :=
  match ps with
  | [] => []
  | p :: ps => if decide (p_id p = id) then f p :: ps else p :: update_peer id f ps
  end.

(** ** Election *)

Definition leader_is_self_locked (cl : edb_cluster) : bool :=
  negb (String.eqb (leader cl) "") && String.eqb (leader cl) (self_id cl).

Definition is_online_view (cl : edb_cluster) (id : string) : bool :=
  if String.eqb id (self_id cl) then true
  else match find_peer id (peers cl) with
       | Some p => p_online p && negb (p_removed p)
       | None => false
       end.

(** The ids of the online peers, in table order. *)
Definition online_ids (cl : edb_cluster) : list string :=
  List.filter (is_online_view cl) (map p_id (peers cl)).

Definition least_id (ids : list string) : option string :=
  foldl (fun best id => match best with
                        | None => Some id
                        | Some b => match strcmp id b with Lt => Some id | _ => Some b end
                        end) None ids.

(** [recompute_leader]: whatever the previous leader, the new one is the least
    online id, or none. *)
Definition recompute_leader (cl : edb_cluster) : edb_cluster :=
  with_leader (default EmptyString (least_id (online_ids cl))) cl.

(** ** Placement *)

(** The insertion sort on ids: the key goes before the first greater id. *)
Fixpoint insert_id (key : string) (l : list string) : list string :=
  match l with
  | [] => [key]
  | x :: l' => match strcmp x key with Gt => key :: l | _ => x :: insert_id key l' end
  end.

Definition sort_ids (ids : list string) : list string := foldl (fun l id => insert_id id l) [] ids.

(** The low [w] hexadecimal digits: "%0<w>llx" for values below 16^w. *)
Fixpoint hex_fixed (w : nat) (v : Z) : string :=
  match w with
  | O => EmptyString
  | S w => String (hex_digit (v / 16 ^ Z.of_nat w mod 16)) (hex_fixed w v)
  end.

Fixpoint repeat_char (n : nat) (c : Ascii.ascii) : string :=
  match n with O => EmptyString | S n => String c (repeat_char n c) end.

Definition SLICE_FIRST : string := repeat_char 32 "0".
Definition SLICE_LAST : string := repeat_char 32 "f".

(** "%08llx%024llx" of the boundary and 0. *)
Definition slice_bound (v : Z) : string := hex_fixed 8 v +:+ repeat_char 24 "0".

Definition build_slice (n : nat) (i : nat) (id : string) : edb_range_info :=
  let step := 2 ^ 32 / Z.of_nat n in
  Range id
    (if (i =? 0)%nat then SLICE_FIRST else slice_bound (Z.of_nat i * step))
    (if (S i =? n)%nat then SLICE_LAST else slice_bound (Z.of_nat (S i) * step)).

Definition build_slices (ids : list string) : list edb_range_info :=
  imap (build_slice (length ids)) ids.

Definition in_slice (key : string) (r : edb_range_info) : bool :=
  match strcmp key (range_start r) with Lt => false | _ => true end &&
  (match strcmp key (range_end r) with Lt => true | _ => false end
   || String.eqb (range_end r) SLICE_LAST).

(** The owner of a key in a table; NULL for a key that is not 32 characters. *)
Definition table_owner (rs : list edb_range_info) (md5hex : string) : option string :=
  if (String.length md5hex =? 32)%nat then node_id <$> List.find (in_slice md5hex) rs else None.

Definition edb_cluster_owner (cl : edb_cluster) (md5hex : string) : option string :=
  table_owner (ranges cl) md5hex.
Definition edb_cluster_target_owner (cl : edb_cluster) (md5hex : string) : option string :=
  table_owner (target_ranges cl) md5hex.

(** The replica holders of a key: the members in id order, from the owner on. *)
Definition holder_candidates (cl : edb_cluster) : list string :=
  sort_ids (take MAX_PEERS (map p_id (List.filter (fun p => negb (p_removed p)) (peers cl)))).

Definition holder_start (candidates : list string) (owner : option string) : nat :=
  match owner with
  | None => O
  | Some o => default O (fst <$> list_find (fun c => c = o) candidates)
  end.

Definition edb_cluster_holders (cl : edb_cluster) (md5hex : string) (cap : nat) : list string :=
  if negb (String.length md5hex =? 32)%nat then []
  else
    let candidates := holder_candidates cl in
    let start := holder_start candidates (table_owner (ranges cl) md5hex) in
    take cap (omap (fun offset => candidates !! ((start + offset) mod length candidates)%nat)
                (seq 0 (length candidates))).

Definition edb_cluster_peers (cl : edb_cluster) (cap : nat) : list edb_peer_info := take cap (peers cl).
Definition edb_cluster_ranges (cl : edb_cluster) (cap : nat) : list edb_range_info := take cap (ranges cl).
Definition edb_cluster_target_ranges (cl : edb_cluster) (cap : nat) : list edb_range_info :=
  take cap (target_ranges cl).
Definition edb_cluster_leader (cl : edb_cluster) : option string :=
  if String.eqb (leader cl) "" then None else Some (leader cl).

(** ** State as JSON *)

Definition jnum (z : Z) : json := JNumber (double_of_Z z).

Definition range_json (r : edb_range_info) : json :=
  JObject [("node_id", JString (node_id r)); ("start", JString (range_start r));
           ("end", JString (range_end r))].

Definition table_json (gen : Z) (rs : list edb_range_info) : json :=
  JObject [("generation", jnum gen); ("assignments", JArray (map range_json rs))].

Definition peer_json (p : edb_peer_info) : json :=
  JObject ([("id", JString (p_id p)); ("addr", JString (p_addr p)); ("port", jnum (p_port p))]
           ++ (if 0 <? p_http_port p then [("http_port", jnum (p_http_port p))] else [])
           ++ [("last_seen", jnum (p_last_seen p))]
           ++ (if p_removed p then [("removed", JBool true)] else [])
           ++ (if 0 <? p_compliant_gen p then [("compliant", jnum (p_compliant_gen p))] else [])).

Definition state_to_json (cl : edb_cluster) : json :=
  JObject ([("sender", JString (self_id cl)); ("nodes", JArray (map peer_json (peers cl)));
            ("ranges", table_json (generation cl) (ranges cl))]
           ++ (if 0 <? target_generation cl
               then [("target", table_json (target_generation cl) (target_ranges cl))] else [])).

(** ** Merging gossip *)

Definition get_number (j : json) (f : string) : option spec_float :=
  match get_item j f with Some (JNumber d) => Some d | _ => None end.

(** [(long long)valuedouble] of a number member; the conversion is undefined
    in C beyond 64 bits. *)
Definition get_ll (j : json) (f : string) : option Z := Z_of_double <$> get_number j f.
Definition get_int (j : json) (f : string) : option Z := valueint <$> get_number j f.

Definition is_true_item (j : json) (f : string) : bool :=
  match get_item j f with Some (JBool true) => true | _ => false end.

Definition port_in_range (n : Z) : bool := (0 <? n) && (n <? 65536).

(** One gossiped field into a peer: the peer and whether it counts as changed. *)
Definition merge_addr (item : json) (p : edb_peer_info) : edb_peer_info * bool :=
  match get_string item "addr" with
  | Some a =>
      if (String.length a <? EDB_ADDR_MAX)%nat && negb (String.eqb (p_addr p) a)
      then (set_addr a p, true) else (p, false)
  | None => (p, false)
  end.

Definition merge_port (item : json) (p : edb_peer_info) : edb_peer_info * bool :=
  match get_int item "port" with
  | Some n => if port_in_range n && negb (p_port p =? n) then (set_port n p, false) else (p, false)
  | None => (p, false)
  end.

Definition merge_http (item : json) (p : edb_peer_info) : edb_peer_info * bool :=
  match get_int item "http_port" with
  | Some n => if port_in_range n && negb (p_http_port p =? n) then (set_http n p, true) else (p, false)
  | None => (p, false)
  end.

Definition merge_seen (item : json) (p : edb_peer_info) : edb_peer_info * bool :=
  let seen := default 0 (get_ll item "last_seen") in
  if p_last_seen p <? seen then (set_seen seen p, true) else (p, false).

Definition merge_compliant (item : json) (p : edb_peer_info) : edb_peer_info * bool :=
  let compliant := default 0 (get_ll item "compliant") in
  if p_compliant_gen p <? compliant then (set_compliant compliant p, true) else (p, false).

(** Removal is sticky; only the leader clears a tombstone. *)
Definition merge_removed (from_leader : bool) (item : json) (p : edb_peer_info)
    : edb_peer_info * bool :=
  if is_true_item item "removed" && negb (p_removed p) then (set_removed true p, true)
  else if negb (is_true_item item "removed") && p_removed p && from_leader
       then (set_removed false p, true)
       else (p, false).

(** The address fields of our own record are ours. *)
Definition merge_peer (selfish from_leader : bool) (item : json) (p : edb_peer_info)
    : edb_peer_info * bool :=
  let '(p, c1) := if selfish then (p, false) else merge_addr item p in
  let '(p, c2) := if selfish then (p, false) else merge_port item p in
  let '(p, c3) := if selfish then (p, false) else merge_http item p in
  let '(p, c4) := merge_seen item p in
  let '(p, c5) := merge_compliant item p in
  let '(p, c6) := merge_removed from_leader item p in
  (p, c1 || c2 || c3 || c4 || c5 || c6).

Definition merge_node (from_leader : bool) (cl : edb_cluster) (item : json)
    : edb_cluster * bool :=
  match get_string item "id" with
  | None => (cl, false)
  | Some id =>
      if String.eqb id "" || (EDB_NODE_ID_MAX <=? String.length id)%nat then (cl, false)
      else
        let selfish := String.eqb id (self_id cl) in
        match find_peer id (peers cl) with
        | Some p =>
            let '(p', c) := merge_peer selfish from_leader item p in
            (with_peers (update_peer id (fun _ => p') (peers cl)) cl, c)
        | None =>
            if (MAX_PEERS <=? length (peers cl))%nat then (cl, false)
            else
              let '(p', _) := merge_peer selfish from_leader item (blank_peer id) in
              (with_peers (peers cl ++ [p']) cl, true)
        end
  end.

Definition merge_nodes (from_leader : bool) (cl : edb_cluster) (items : list json)
    : edb_cluster * bool :=
  foldl (fun '(cl, changed) item =>
           let '(cl, c) := merge_node from_leader cl item in (cl, changed || c)) (cl, false) items.

(** An entry of an assignments array; incomplete ones are skipped. *)
Definition parse_assignment (a : json) : option edb_range_info :=
  n ← get_string a "node_id"; s ← get_string a "start"; e ← get_string a "end";
  Some (Range (String.substring 0 63 n) (String.substring 0 32 s) (String.substring 0 32 e)).

Definition assignments (table : option json) : option (list json) :=
  match table ≫= fun t => get_item t "assignments" with Some (JArray l) => Some l | _ => None end.

(** The live table: a greater generation replaces ours and, adopted or not, a
    generation at or above the pending target ends the wave. *)
Definition merge_live (now : Z) (cl : edb_cluster) (jr : option json) : edb_cluster * bool :=
  match jr ≫= fun r => get_ll r "generation" with
  | None => (cl, false)
  | Some gen =>
      let '(cl, c1) :=
        if generation cl <? gen then
          match assignments jr with
          | Some l => (with_live gen (now + OFFLINE_AFTER_SECONDS) (omap parse_assignment l) cl, true)
          | None => (cl, false)
          end
        else (cl, false) in
      if (0 <? target_generation cl) && (target_generation cl <=? gen)
      then (drop_target cl, true) else (cl, c1)
  end.

(** The pending target. A table with an incomplete entry is not adopted, but
    its complete entries have by then overwritten ours. *)
Definition merge_target (from_leader : bool) (cl : edb_cluster) (jt : option json)
    : edb_cluster * bool :=
  match jt ≫= fun t => get_ll t "generation" with
  | Some tgen =>
      if (target_generation cl <? tgen) && (generation cl <? tgen) then
        match assignments jt with
        | Some (a :: l) =>
            let rs := omap parse_assignment (a :: l) in
            if (length rs =? length (a :: l))%nat then (with_target tgen rs cl, true)
            else
              (with_target (target_generation cl)
                 (take (length (target_ranges cl)) (rs ++ drop (length rs) (target_ranges cl))) cl,
               false)
        | _ => (cl, false)
        end
      else (cl, false)
  | None =>
      if (0 <? target_generation cl) && from_leader then (drop_target cl, true) else (cl, false)
  end.

Definition merge_state (now : Z) (cl : edb_cluster) (doc : json) : edb_cluster * bool :=
  let from_leader :=
    match get_string doc "sender" with
    | Some s => negb (String.eqb (leader cl) "") && String.eqb s (leader cl)
    | None => false
    end in
  let '(cl, c1) :=
    match get_item doc "nodes" with
    | Some (JArray l) => merge_nodes from_leader cl l
    | _ => (cl, false)
    end in
  let '(cl, c2) := merge_live now cl (get_item doc "ranges") in
  let '(cl, c3) := merge_target from_leader cl (get_item doc "target") in
  (cl, c1 || c2 || c3).

(** ** Targets *)

Definition same_nodes (rs : list edb_range_info) (ids : list string) : bool :=
  bool_decide (map node_id rs = ids).

(** A new target over the online members, unless the live table or the
    pending target already is over these. *)
Definition publish_target_locked (cl : edb_cluster) : bool * edb_cluster :=
  let ids := sort_ids (online_ids cl) in
  if (length ids =? 0)%nat then (false, cl)
  else if (target_generation cl =? 0) && same_nodes (ranges cl) ids then (false, cl)
  else if (0 <? target_generation cl) && same_nodes (target_ranges cl) ids then (false, cl)
  else
    (true, with_target (if 0 <? target_generation cl then target_generation cl + 1
                        else generation cl + 1) (build_slices ids) cl).

Definition promote_target_locked (now : Z) (cl : edb_cluster) : edb_cluster :=
  if (target_generation cl =? 0) || (length (target_ranges cl) =? 0)%nat then cl
  else drop_target (with_live (target_generation cl) (now + OFFLINE_AFTER_SECONDS)
                      (target_ranges cl) cl).

(** The live table over the online members, when their number changed. *)
Definition shrink_table (gc : Z) (cl : edb_cluster) : edb_cluster :=
  let ids := sort_ids (online_ids cl) in
  if (length ids =? 0)%nat || (length ids =? length (ranges cl))%nat then cl
  else with_live (generation cl + 1) gc (build_slices ids) cl.

(** ** Nodes *)

Definition set_self_online (cl : edb_cluster) (p : edb_peer_info) : edb_peer_info :=
  set_online true (set_http (self_http_port cl) (set_port (self_port cl) (set_addr (self_addr cl) p))).

Definition add_self_locked (now : Z) (cl : edb_cluster) : edb_cluster :=
  match find_peer (self_id cl) (peers cl) with
  | Some _ => with_peers (update_peer (self_id cl) (set_self_online cl) (peers cl)) cl
  | None =>
      with_peers (peers cl ++ [set_seen now (set_self_online cl (blank_peer (self_id cl)))]) cl
  end.

Definition edb_cluster_set_http_port (n : Z) (cl : edb_cluster) : edb_cluster :=
  if (n <? 0) || (65535 <? n) then cl
  else let cl := with_http_port n cl in
       with_peers (update_peer (self_id cl) (set_http n) (peers cl)) cl.

Definition edb_cluster_set_auto_compliant (b : bool) (cl : edb_cluster) : edb_cluster := with_auto b cl.

(** "node-" and the first 12 digits of the md5 of "edb-node:<addr>:<port>"
    in its buffer of 256. *)
Definition start_node_id (advertise_addr : string) (peer_port : Z) : string :=
  let seed := snprintf 256 ("edb-node:" +:+ advertise_addr +:+ ":" +:+ print_i64 peer_port) in
  "node-" +:+ String.substring 0 12 (Manager.md5_of_string seed).

Definition new_cluster (advertise_addr : string) (peer_port : Z) : edb_cluster :=
  MkCluster (start_node_id advertise_addr peer_port) (String.substring 0 63 advertise_addr)
    peer_port 0 [] 0 0 [] 0 [] true "".

(** The first node claims the whole space in live. *)
Definition claim_space (cl : edb_cluster) : edb_cluster :=
  if leader_is_self_locked cl && (length (ranges cl) =? 0)%nat
  then with_live (generation cl + 1) (gc_after cl) (build_slices [self_id cl]) cl else cl.

(** *** Connections *)

(** What the HELLO of a connection makes of it. *)
Inductive hello_result := HelloRejectRemoved | HelloRejectRebalance | HelloAccept | HelloDiscard.

(** The id the connection has after the frame; [preset] is the one it was
    dialled with. *)
Definition hello_id (preset : string) (h : json) : string :=
  match get_string h "node_id" with
  | Some id => if (String.length id <? EDB_NODE_ID_MAX)%nat then id else preset
  | None => preset
  end.

(** Whether the id of the frame itself names us. *)
Definition hello_is_self (cl : edb_cluster) (h : json) : bool :=
  match get_string h "node_id" with
  | Some id => (String.length id <? EDB_NODE_ID_MAX)%nat && String.eqb id (self_id cl)
  | None => false
  end.

(** Admission: an explicit join clears a tombstone, a removed node and, while
    a wave is pending, an unknown one are refused. *)
Definition hello_admit (cl : edb_cluster) (id : string) (is_self joining : bool)
    : option hello_result * edb_cluster :=
  if is_self || String.eqb id "" || String.eqb id "ephemeral" then (None, cl)
  else
    let known := find_peer id (peers cl) in
    let removed := match known with Some p => p_removed p && negb joining | None => false end in
    let cl' := match known with
               | Some p => if p_removed p && joining
                           then with_peers (update_peer id (fun p => set_seen 0 (set_removed false p))
                                              (peers cl)) cl
                           else cl
               | None => cl
               end in
    if removed then (Some HelloRejectRemoved, cl')
    else match known with
         | None => if 0 <? target_generation cl then (Some HelloRejectRebalance, cl') else (None, cl')
         | Some _ => (None, cl')
         end.

(** The caller's self-declared address. *)
Definition hello_fields (now : Z) (addr : string) (h : json) (p : edb_peer_info) : edb_peer_info :=
  let p := set_port (default 0 (get_int h "port")) (set_addr addr p) in
  let http := default 0 (get_int h "http_port") in
  set_seen now (if port_in_range http then set_http http p else p).

Definition hello_adopt (now : Z) (cl : edb_cluster) (id : string) (is_self : bool) (h : json)
    : edb_cluster :=
  match get_string h "addr" with
  | Some addr =>
      if negb (String.eqb id "") && negb is_self && (String.length addr <? EDB_ADDR_MAX)%nat then
        match find_peer id (peers cl) with
        | Some _ => with_peers (update_peer id (hello_fields now addr h) (peers cl)) cl
        | None =>
            if (length (peers cl) <? MAX_PEERS)%nat
            then with_peers (peers cl ++ [hello_fields now addr h (blank_peer id)]) cl
            else cl
        end
      else cl
  | None => cl
  end.

(** The first frame of [conn_thread]; [h] is [None] when it is no HELLO or does
    not parse. *)
Definition conn_hello (now : Z) (cl : edb_cluster) (preset : string) (h : option json)
    : hello_result * string * edb_cluster :=
  match h with
  | None => (if String.eqb preset "" then HelloDiscard else HelloAccept, preset, cl)
  | Some h =>
      let id := hello_id preset h in
      let is_self := hello_is_self cl h in
      match hello_admit cl id is_self (is_true_item h "join") with
      | (Some r, cl) => (r, id, cl)
      | (None, cl) =>
          (if String.eqb id "" then HelloDiscard else HelloAccept, id, hello_adopt now cl id is_self h)
      end
  end.

(** Registration after the exchange: the cluster and [became_online]. *)
Definition conn_register (cl : edb_cluster) (id : string) : edb_cluster * bool :=
  let cl := recompute_leader cl in
  match find_peer id (peers cl) with
  | Some p => (with_peers (update_peer id (set_online true) (peers cl)) cl,
               negb (p_online p) && (p_last_seen p =? 0))
  | None => (cl, false)
  end.

(** A STATE frame on a connection of [id]; the loop marks the first peer of
    that id that is offline. *)
Fixpoint mark_online (id : string) (ps : list edb_peer_info) : list edb_peer_info * bool :=
  match ps with
  | [] => ([], false)
  | p :: ps =>
      if bool_decide (p_id p = id) && negb (p_online p) then (set_online true p :: ps, true)
      else let '(ps, c) := mark_online id ps in (p :: ps, c)
  end.

Definition conn_state (now : Z) (cl : edb_cluster) (id : string) (doc : option json)
    : edb_cluster * bool :=
  let '(cl, changed) :=
    match doc with
    | None => (cl, false)
    | Some doc =>
        let '(cl, c1) := merge_state now cl doc in
        if String.eqb id "" then (cl, c1)
        else let '(ps, c2) := mark_online id (peers cl) in (with_peers ps cl, c1 || c2)
    end in
  (recompute_leader cl, changed).


(** The HELLO we send. *)
Definition hello_json (cl : edb_cluster) (joining : bool) : json :=
  JObject ([("node_id", JString (self_id cl)); ("addr", JString (self_addr cl));
            ("port", jnum (self_port cl))]
           ++ (if 0 <? self_http_port cl then [("http_port", jnum (self_http_port cl))] else [])
           ++ (if joining then [("join", JBool true)] else [])).

(** The setting that records the compliance of a node, in its buffer of 96. *)
Definition done_name (id : string) : string :=
  snprintf 96 (SETTING_DONE_PREFIX +:+ String.substring 0 63 id).

(** The distinct nodes of the target, the first [MAX_PEERS] of them. *)
Fixpoint first_occurrences (seen ids : list string) : list string :=
  match ids with
  | [] => []
  | id :: ids => if bool_decide (id ∈ seen) then first_occurrences seen ids
                 else id :: first_occurrences (id :: seen) ids
  end.

Definition required_nodes (cl : edb_cluster) : list string :=
  take MAX_PEERS (first_occurrences [] (map node_id (target_ranges cl))).

Definition peer_compliant (tgen : Z) (ps : list edb_peer_info) (id : string) : bool :=
  existsb (fun p => String.eqb (p_id p) id && (tgen <=? p_compliant_gen p)) ps.

Definition stored_compliant (tgen : Z) (text : string) : bool :=
  let '(v, rest, _) := strtoll text in String.eqb rest "" && (tgen <=? v).

(** *** Redundant shards *)

(** Every holder is another node and online. *)
Fixpoint held_elsewhere (self : string) (ps : list edb_peer_info) (holders : list string) : bool :=
  match holders with
  | [] => true
  | h :: holders =>
      if String.eqb h self then false
      else existsb (fun p => String.eqb (p_id p) h && p_online p) ps
           && held_elsewhere self ps holders
  end.

Definition redundant (cl : edb_cluster) (key : string) (rf : Z) : bool :=
  let holders := take (Z.to_nat rf) (edb_cluster_holders cl key MAX_PEERS) in
  negb (length holders =? 0)%nat
  && held_elsewhere (self_id cl) (edb_cluster_peers cl MAX_PEERS) holders.

(** The first registered keyspace whose shard has that key. *)
Definition keyspace_of_key (path key : string) (kss : list edb_keyspace_info)
    : option edb_keyspace_info :=
  List.find (fun k => match Manager.edb_shard_path path (k_partition k) (k_name k) 1024 with
                      | Some (_, candidate) => String.eqb candidate key
                      | None => false
                      end) kss.

(** *** Removal of long gone peers *)

Definition expired_peer (now : Z) (self : string) (p : edb_peer_info) : bool :=
  negb (String.eqb (p_id p) self) && negb (p_removed p) && negb (p_online p)
  && (0 <? p_last_seen p) && (REMOVE_AFTER_SECONDS <=? now - p_last_seen p).

Definition remove_expired (now : Z) (cl : edb_cluster) : edb_cluster * bool :=
  (with_peers (map (fun p => if expired_peer now (self_id cl) p then set_removed true p else p)
                 (peers cl)) cl,
   existsb (expired_peer now (self_id cl)) (peers cl)).

(** *** Mesh keys *)

Definition edb_cluster_derive_keys (secret : string) : option (bytes * bytes) :=
  if String.eqb secret "" then None
  else
    okm ← Crypto.edb_hkdf_sha256 (bytes_of_string secret) (bytes_of_string "epsilond-mesh")
            (bytes_of_string "epsilond-mesh-v1") 64;
    Some (take 32 okm, drop 32 okm).

(** ** Operations on the settings

    The operations thread the record store; each takes the cluster and gives
    it back. The gossip they end with is the [state_to_json] of the result. *)
Section settings.
Context {S : Type} `{RecordStore S} `{JsonCodec}.
Context (cfg : edb_config S).

(** {"generation":N} in its buffer of 128. *)
Definition ranges_text (g : Z) : string :=
  snprintf 128 ("{" +:+ String Shard.QUOTE ("generation" +:+ String Shard.QUOTE (":" +:+ print_i64 g +:+ "}"))).

Definition persist_state (cl : edb_cluster) : st S unit :=
  _ ← edb_setting_set cfg SETTING_MEMBERS (json_print (state_to_json cl));
  _ ← edb_setting_set cfg SETTING_RANGES (ranges_text (generation cl));
  _ ← (if 0 <? target_generation cl
       then edb_setting_set cfg SETTING_TARGET
              (json_print (table_json (target_generation cl) (target_ranges cl)))
       else edb_setting_delete cfg SETTING_TARGET);
  mret tt.

(** A setting parsed. *)
Definition setting_doc (name : string) : st S (option json) :=
  text ← edb_setting_get name; mret (text ≫= json_parse).

Definition merge_doc (now : Z) (cl : edb_cluster) (doc : option json) : edb_cluster :=
  match doc with Some d => fst (merge_state now cl d) | None => cl end.

Definition restore_state (now : Z) (cl : edb_cluster) : st S edb_cluster :=
  members ← setting_doc SETTING_MEMBERS;
  let cl := merge_doc now cl members in
  r ← setting_doc SETTING_RANGES;
  let cl := match r ≫= fun d => get_ll d "generation" with
            | Some g => with_live g (gc_after cl) (ranges cl) cl
            | None => cl
            end in
  t ← setting_doc SETTING_TARGET;
  mret (merge_doc now cl t).

(** The settings and membership part of [edb_cluster_start]. *)
Definition edb_cluster_start (now : Z) (advertise_addr : string) (peer_port : Z)
    : st S (option edb_cluster) :=
  if String.eqb advertise_addr "" || (peer_port <=? 0) || (65535 <? peer_port) then mret None
  else
    cl ← restore_state now (new_cluster advertise_addr peer_port);
    let cl := claim_space (recompute_leader (add_self_locked now cl)) in
    _ ← persist_state cl;
    mret (Some cl).

(** *** The rebalance lock *)

(** {"node":"...","ts":N} in its buffer of 128. *)
Definition lock_text (self : string) (now : Z) : string :=
  snprintf 128
    ("{" +:+ String Shard.QUOTE ("node" +:+ String Shard.QUOTE (":" +:+ String Shard.QUOTE
       (String.substring 0 63 self +:+ String Shard.QUOTE ("," +:+ String Shard.QUOTE
          ("ts" +:+ String Shard.QUOTE (":" +:+ print_i64 now +:+ "}"))))))).

Definition edb_cluster_acquire_rebalance_lock (now : Z) (cl : edb_cluster) : st S bool :=
  cur ← edb_setting_get SETTING_LOCK;
  let take_lock := edb_setting_set cfg SETTING_LOCK (lock_text (self_id cl) now) in
  match cur with
  | None => take_lock
  | Some text =>
      let doc := json_parse text in
      let ts := default 0 (doc ≫= fun d => get_ll d "ts") in
      let mine := match doc ≫= fun d => get_string d "node" with
                  | Some n => String.eqb n (self_id cl)
                  | None => false
                  end in
      let stale := (0 <? ts) && (30 <? now - ts) in
      if negb mine && negb stale then mret false
      else if mine then mret true else take_lock
  end.

Definition edb_cluster_release_rebalance_lock : st S unit :=
  _ ← edb_setting_delete cfg SETTING_LOCK; mret tt.

(** *** Live and target *)

Definition shrink_live_locked (now : Z) (cl : edb_cluster) : st S edb_cluster :=
  _ ← edb_setting_delete cfg SETTING_LOCK;
  mret (shrink_table (now + OFFLINE_AFTER_SECONDS) (drop_target cl)).

Definition edb_cluster_publish_target (cl : edb_cluster) : st S (bool * edb_cluster) :=
  let '(published, cl) := if leader_is_self_locked cl then publish_target_locked cl else (false, cl) in
  if published : bool then (_ ← persist_state cl; mret (true, cl)) else mret (false, cl).

Definition node_compliant (tgen : Z) (ps : list edb_peer_info) (id : string) : st S bool :=
  if peer_compliant tgen ps id then mret true
  else
    value ← edb_setting_get (done_name id);
    mret (match value with Some text => stored_compliant tgen text | None => false end).

Fixpoint all_compliant (tgen : Z) (ps : list edb_peer_info) (ids : list string) : st S bool :=
  match ids with
  | [] => mret true
  | id :: ids =>
      c ← node_compliant tgen ps id;
      if c : bool then all_compliant tgen ps ids else mret false
  end.

Definition edb_cluster_target_compliant (cl : edb_cluster) : st S bool :=
  let required := if 0 <? target_generation cl then required_nodes cl else [] in
  if (target_generation cl =? 0) || (length required =? 0)%nat then mret false
  else all_compliant (target_generation cl) (edb_cluster_peers cl MAX_PEERS) required.

Definition edb_cluster_mark_compliant (cl : edb_cluster) : st S edb_cluster :=
  let tgen := if target_generation cl =? 0 then generation cl else target_generation cl in
  if tgen =? 0 then mret cl
  else
    let cl := with_peers (update_peer (self_id cl)
                (fun p => if p_compliant_gen p <? tgen then set_compliant tgen p else p)
                (peers cl)) cl in
    _ ← edb_setting_set cfg (done_name (self_id cl)) (print_i64 tgen);
    mret cl.

Fixpoint delete_done (ps : list edb_peer_info) : st S unit :=
  match ps with
  | [] => mret tt
  | p :: ps => _ ← edb_setting_delete cfg (done_name (p_id p)); delete_done ps
  end.

(** The critical section of the promotion. *)
Definition promote_locked (now : Z) (cl : edb_cluster) : st S (bool * edb_cluster) :=
  if leader_is_self_locked cl && (0 <? target_generation cl) then
    let cl := promote_target_locked now cl in
    _ ← delete_done (peers cl);
    _ ← edb_setting_delete cfg SETTING_LOCK;
    _ ← persist_state cl;
    mret (true, cl)
  else mret (false, cl).

Definition edb_cluster_promote_target (now : Z) (cl : edb_cluster) : st S (bool * edb_cluster) :=
  if target_generation cl =? 0 then mret (false, cl)
  else
    c ← edb_cluster_target_compliant cl;
    if c : bool then promote_locked now cl else mret (false, cl).

Definition edb_cluster_maybe_promote (now : Z) (cl : edb_cluster) : st S (bool * edb_cluster) :=
  if negb (leader_is_self_locked cl) || (target_generation cl =? 0) then mret (false, cl)
  else
    c ← edb_cluster_target_compliant cl;
    if c : bool then edb_cluster_promote_target now cl else mret (false, cl).

Definition edb_cluster_void_target (cl : edb_cluster) : st S (bool * edb_cluster) :=
  if leader_is_self_locked cl && (0 <? target_generation cl) then
    let cl := drop_target (with_peers (map (set_compliant 0) (peers cl)) cl) in
    _ ← edb_cluster_release_rebalance_lock;
    _ ← persist_state cl;
    mret (true, cl)
  else mret (false, cl).

(** *** Reactions *)

Definition leader_react (now : Z) (cl : edb_cluster) (changed : bool) : st S edb_cluster :=
  if negb changed then mret cl
  else
    let am_leader := leader_is_self_locked cl in
    let before_target := target_generation cl in
    let cl := if am_leader then snd (publish_target_locked cl) else cl in
    let target_published := am_leader && negb (target_generation cl =? before_target) in
    _ ← persist_state cl;
    _ ← (if target_published then edb_cluster_acquire_rebalance_lock now cl else mret false);
    if am_leader && (0 <? target_generation cl)
    then (r ← edb_cluster_maybe_promote now cl; mret (snd r))
    else mret cl.

(** After the HELLO exchange of [conn_thread], and at each STATE. *)
Definition on_registered (now : Z) (cl : edb_cluster) (id : string) : st S edb_cluster :=
  let '(cl, became_online) := conn_register cl id in leader_react now cl became_online.

Definition on_state (now : Z) (cl : edb_cluster) (id : string) (doc : option json)
    : st S edb_cluster :=
  let '(cl, changed) := conn_state now cl id doc in
  if changed : bool then leader_react now cl true else mret cl.

(** The end of a connection of [id]. *)
Definition conn_closed (cl : edb_cluster) (id : string) : st S edb_cluster :=
  let cl := recompute_leader (with_peers (update_peer id (set_online false) (peers cl)) cl) in
  if leader_is_self_locked cl then
    let cl := drop_target cl in
    _ ← edb_setting_delete cfg SETTING_LOCK;
    let cl := if (0 <? length (ranges cl))%nat then shrink_table (gc_after cl) cl else cl in
    _ ← persist_state cl;
    mret cl
  else mret cl.

Definition edb_cluster_remove_node (now : Z) (cl : edb_cluster) (id : string)
    : st S (bool * edb_cluster) :=
  if String.eqb id "" || String.eqb id (self_id cl) then mret (false, cl)
  else match find_peer id (peers cl) with
       | None => mret (false, cl)
       | Some _ =>
           let cl := with_peers (update_peer id (set_removed true) (peers cl)) cl in
           cl ← (if leader_is_self_locked cl then shrink_live_locked now cl else mret cl);
           _ ← persist_state cl;
           mret (true, cl)
       end.

(** The frames [join_exchange] reads before the connection or its two seconds
    end; [None] stands for a payload that does not parse. *)
Inductive join_frame := JoinHello (h : option json) | JoinState (doc : option json) | JoinOther.

Fixpoint join_exchange (now : Z) (cl : edb_cluster) (got_reply : bool) (fs : list join_frame)
    : st S (Z * edb_cluster) :=
  match fs with
  | [] => mret (if got_reply then 0 else -1, cl)
  | JoinHello h :: fs =>
      match h ≫= fun h => get_string h "reject" with
      | Some r => mret (if String.eqb r "removed" then -3 else -2, cl)
      | None => join_exchange now cl true fs
      end
  | JoinState (Some doc) :: fs =>
      let '(cl, changed) := merge_state now cl doc in
      cl ← leader_react now (recompute_leader cl) changed;
      join_exchange now cl true fs
  | _ :: fs => join_exchange now cl true fs
  end.

(** *** The maintainer *)

(** [path] is the engine's directory, [validate] the check of a shard file. *)
Definition shard_needed (cl : edb_cluster) (path : string) (validate : string -> string -> bool)
    (k : edb_keyspace_info) : bool :=
  match Manager.edb_shard_path path (k_partition k) (k_name k) 1024 with
  | None => false
  | Some (_, key) =>
      negb (edb_config_is_system_key path key)
      && match edb_cluster_target_owner cl key with
         | Some o => String.eqb o (self_id cl)
         | None => false
         end
      && negb (validate (k_partition k) (k_name k))
  end.

Definition edb_cluster_needs_sync (cl : edb_cluster) (path : string)
    (validate : string -> string -> bool) : st S bool :=
  if target_generation cl =? 0 then mret false
  else kss ← edb_keyspace_list; mret (existsb (shard_needed cl path validate) kss).

Definition self_compliant_gen (cl : edb_cluster) : Z :=
  match find_peer (self_id cl) (peers cl) with Some p => p_compliant_gen p | None => 0 end.

Definition auto_comply (cl : edb_cluster) (path : string) (validate : string -> string -> bool)
    : st S edb_cluster :=
  if auto_compliant cl && (0 <? target_generation cl)
     && (self_compliant_gen cl <? target_generation cl)
  then
    sync ← edb_cluster_needs_sync cl path validate;
    if sync : bool then mret cl else edb_cluster_mark_compliant cl
  else mret cl.

Definition replication_factor_of (path key : string) (kss : list edb_keyspace_info) : st S Z :=
  match keyspace_of_key path key kss with
  | None => mret 1
  | Some k =>
      d ← edb_database_get (k_database k);
      mret (match d with
            | Some d => if 0 <? d_replication_factor d then d_replication_factor d else 1
            | None => 1
            end)
  end.

Definition restore_locked : st S bool :=
  doc ← setting_doc "server.restore_lock";
  mret (match doc with Some (JBool true) => true | _ => false end).

(** [gc] is [edb_shard_gc] of the engine; the key removed, if any. *)
Fixpoint gc_keys (cl : edb_cluster) (path : string) (gc : string -> st S bool)
    (kss : list edb_keyspace_info) (keys : list string) : st S (option string) :=
  match keys with
  | [] => mret None
  | key :: keys =>
      if edb_config_is_system_key path key then gc_keys cl path gc kss keys
      else
        rf ← replication_factor_of path key kss;
        removed ← (if redundant cl key rf then gc key else mret false);
        if removed : bool then mret (Some key) else gc_keys cl path gc kss keys
  end.

(** [keys] is what [edb_engine_shard_keys] lists. *)
Definition edb_cluster_gc_redundant (cl : edb_cluster) (path : string) (gc : string -> st S bool)
    (keys : list string) : st S (option string) :=
  if negb (target_generation cl =? 0) then mret None
  else
    locked ← restore_locked;
    if locked : bool then mret None
    else kss ← edb_keyspace_list; gc_keys cl path gc kss (take 256 keys).

Definition auto_remove (now : Z) (cl : edb_cluster) : st S edb_cluster :=
  if leader_is_self_locked cl then
    let '(cl, removed_any) := remove_expired now cl in
    if removed_any : bool then
      cl ← shrink_live_locked now cl;
      _ ← persist_state cl;
      mret cl
    else mret cl
  else mret cl.

(** [maintainer_tick] without its heartbeats and dialling. *)
Definition maintainer_tick (now : Z) (cl : edb_cluster) (path : string)
    (validate : string -> string -> bool) (gc : string -> st S bool) (keys : list string)
    : st S edb_cluster :=
  r ← edb_cluster_maybe_promote now cl;
  cl ← auto_comply (snd r) path validate;
  _ ← (if (target_generation cl =? 0) && (0 <? gc_after cl) && (gc_after cl <=? now)
       then edb_cluster_gc_redundant cl path gc keys else mret None);
  auto_remove now cl.

End settings.

End Cluster.
