(* ===== verification/ClusterPlacement.v ===== *)
(** Placement and election of the cluster: the slices built over the members
    partition the hash space, replica holders and leader are functions of the
    membership alone. *)

From S2P Require Import Prelude BlockHash Md5 Crypto Json Shard Manager Store Config Cluster.

Module ClusterPlacement.

Import Json Config Cluster.

(** ** Hexadecimal keys *)

Definition hex_key (k : Z) : string := hex_fixed 32 k.

Lemma length_hex_fixed w v : String.length (hex_fixed w v) = w.
Proof. induction w as [|w IH]; [done|]. simpl. by rewrite IH. Qed.

Lemma hex_digit_compare a b :
  0 <= a < 16 -> 0 <= b < 16 -> Ascii.compare (hex_digit a) (hex_digit b) = Z.compare a b.
Proof.
  intros Ha Hb. unfold hex_digit, Ascii.compare.
  rewrite !Ascii.N_ascii_embedding by (destruct (_ <? 10); lia).
  rewrite <-N2Z.inj_compare, !Z2N.id by (destruct (_ <? 10); lia).
  destruct (Z.ltb_spec a 10), (Z.ltb_spec b 10); symmetry;
    destruct (Z.compare_spec a b) as [?|?|?]; symmetry;
    first [apply Z.compare_eq_iff|apply Z.compare_lt_iff|apply Z.compare_gt_iff]; lia.
Qed.

Lemma pow16_pos w : 0 < 16 ^ Z.of_nat w.
Proof. apply Z.pow_pos_nonneg; lia. Qed.

Lemma pow16_S w : 16 ^ Z.of_nat (S w) = 16 * 16 ^ Z.of_nat w.
Proof. rewrite Nat2Z.inj_succ, Z.pow_succ_r by lia. done. Qed.

Lemma mod16_split w v :
  v mod 16 ^ Z.of_nat (S w) = v / 16 ^ Z.of_nat w mod 16 * 16 ^ Z.of_nat w + v mod 16 ^ Z.of_nat w.
Proof.
  pose proof (pow16_pos w). rewrite pow16_S, (Z.mul_comm 16).
  rewrite Z.rem_mul_r by lia. lia.
Qed.

Lemma hex_fixed_mod w v : hex_fixed w (v mod 16 ^ Z.of_nat w) = hex_fixed w v.
Proof.
  assert (Hstep : forall w u v, u mod 16 ^ Z.of_nat w = v mod 16 ^ Z.of_nat w ->
                    hex_fixed w u = hex_fixed w v).
  { clear w v. induction w as [|w IH]; intros u v Huv; [done|]. simpl.
    rewrite !mod16_split in Huv. pose proof (pow16_pos w).
    pose proof (Z.mod_pos_bound u (16 ^ Z.of_nat w)). pose proof (Z.mod_pos_bound v (16 ^ Z.of_nat w)).
    rewrite !(Z.mul_comm _ (16 ^ Z.of_nat w)) in Huv.
    apply Z.div_mod_unique in Huv as [-> Hr]; [|lia..]. f_equal. by apply IH. }
  apply Hstep, Z.mod_mod. pose proof (pow16_pos w). lia.
Qed.

Lemma length_hex_key k : String.length (hex_key k) = 32%nat.
Proof. apply length_hex_fixed. Qed.

(** Strings of digits compare as numbers. *)
Lemma hex_fixed_compare w a b :
  0 <= a < 16 ^ Z.of_nat w -> 0 <= b < 16 ^ Z.of_nat w ->
  strcmp (hex_fixed w a) (hex_fixed w b) = (a ?= b).
Proof.
  revert a b. unfold strcmp. induction w as [|w IH]; intros a b Ha Hb.
  { simpl in *. assert (a = 0) as -> by lia. by assert (b = 0) as -> by lia. }
  pose proof (pow16_pos w) as Hp. rewrite pow16_S in Ha, Hb. cbn [hex_fixed String.compare].
  assert (Hd : forall v, 0 <= v < 16 * 16 ^ Z.of_nat w -> v / 16 ^ Z.of_nat w mod 16 = v / 16 ^ Z.of_nat w).
  { intros v Hv. apply Z.mod_small. split; [apply Z.div_pos; lia|apply Z.div_lt_upper_bound; lia]. }
  rewrite !Hd by lia.
  pose proof (Z.div_mod a (16 ^ Z.of_nat w)). pose proof (Z.div_mod b (16 ^ Z.of_nat w)).
  pose proof (Z.mod_pos_bound a (16 ^ Z.of_nat w) Hp). pose proof (Z.mod_pos_bound b (16 ^ Z.of_nat w) Hp).
  rewrite hex_digit_compare
    by (split; [apply Z.div_pos|apply Z.div_lt_upper_bound]; lia).
  destruct (Z.compare_spec (a / 16 ^ Z.of_nat w) (b / 16 ^ Z.of_nat w)) as [Heq|Hlt|Hgt].
  - rewrite <-(hex_fixed_mod w a), <-(hex_fixed_mod w b), IH by lia.
    destruct (Z.compare_spec (a mod 16 ^ Z.of_nat w) (b mod 16 ^ Z.of_nat w)); symmetry;
      first [apply Z.compare_eq_iff|apply Z.compare_lt_iff|apply Z.compare_gt_iff]; nia.
  - symmetry. apply Z.compare_lt_iff. nia.
  - symmetry. apply Z.compare_gt_iff. nia.
Qed.

Lemma hex_fixed_app w1 w2 a b :
  0 <= b < 16 ^ Z.of_nat w2 ->
  hex_fixed (w1 + w2) (a * 16 ^ Z.of_nat w2 + b) = hex_fixed w1 a +:+ hex_fixed w2 b.
Proof.
  intros Hb. pose proof (pow16_pos w2). induction w1 as [|w1 IH]; cbn [Nat.add hex_fixed].
  - rewrite <-hex_fixed_mod, Z.add_comm, Z_mod_plus_full, Z.mod_small by done. done.
  - change (String ?c ?s +:+ ?t) with (String c (s +:+ t)). rewrite <-IH. do 2 f_equal.
    pose proof (pow16_pos w1). rewrite Nat2Z.inj_add, Z.pow_add_r, (Z.mul_comm (16 ^ Z.of_nat w1)), <-Z.div_div by lia.
    rewrite Z.div_add_l, (Z.div_small b), Z.add_0_r by lia. done.
Qed.

Lemma hex_fixed_zero w : hex_fixed w 0 = repeat_char w "0".
Proof. induction w as [|w IH]; [done|]. simpl. by rewrite IH. Qed.

Lemma slice_first_key : SLICE_FIRST = hex_key 0.
Proof. symmetry. apply (hex_fixed_zero 32). Qed.

Lemma slice_last_key : SLICE_LAST = hex_key (2 ^ 128 - 1).
Proof. reflexivity. Qed.

Lemma slice_bound_key v : slice_bound v = hex_key (v * 2 ^ 96).
Proof.
  unfold slice_bound, hex_key. rewrite <-hex_fixed_zero.
  rewrite <-(hex_fixed_app 8 24) by lia. f_equal. rewrite Z.add_0_r. f_equal.
Qed.

Lemma hex_key_compare a b :
  0 <= a < 2 ^ 128 -> 0 <= b < 2 ^ 128 -> strcmp (hex_key a) (hex_key b) = (a ?= b).
Proof. intros. apply hex_fixed_compare; done. Qed.

Lemma hex_key_inj a b :
  0 <= a < 2 ^ 128 -> 0 <= b < 2 ^ 128 -> hex_key a = hex_key b -> a = b.
Proof.
  intros Ha Hb Heq. apply Z.compare_eq_iff. rewrite <-hex_key_compare, Heq by done.
  by apply strcmp_eq.
Qed.

(** A digest is the key of its big-endian value. *)
Definition be_value (l : bytes) : Z := foldl (fun v b => v * 256 + b) 0 l.

Lemma be_value_app l b : be_value (l ++ [b]) = be_value l * 256 + b.
Proof. unfold be_value. by rewrite foldl_app. Qed.

Lemma be_value_range l : bytes_ok l -> 0 <= be_value l < 16 ^ Z.of_nat (2 * length l).
Proof.
  induction l as [|b l IH] using rev_ind; intros Hl; [done|].
  apply Forall_app in Hl as [Hl Hb]. apply Forall_inv in Hb. specialize (IH Hl).
  rewrite be_value_app, length_app. simpl length.
  replace (2 * (length l + 1))%nat with (S (S (2 * length l))) by lia. rewrite !pow16_S.
  unfold byte_ok in Hb. lia.
Qed.

Lemma hex_of_bytes_app l k : hex_of_bytes (l ++ k) = hex_of_bytes l +:+ hex_of_bytes k.
Proof.
  induction l as [|b l IH]; [done|]. simpl. by rewrite IH.
Qed.

Lemma hex_of_bytes_key l : bytes_ok l -> hex_of_bytes l = hex_fixed (2 * length l) (be_value l).
Proof.
  induction l as [|b l IH] using rev_ind; intros Hl; [done|].
  apply Forall_app in Hl as [Hl Hb]. apply Forall_inv in Hb. unfold byte_ok in Hb.
  rewrite hex_of_bytes_app, IH, be_value_app, length_app by done. simpl length.
  replace (2 * (length l + 1))%nat with (2 * length l + 2)%nat by lia.
  rewrite (hex_fixed_app (2 * length l) 2) by lia. f_equal. simpl.
  rewrite Z.shiftr_div_pow2, (Z.land_ones _ 4) by lia.
  change (16 ^ Z.of_nat 1) with (2 ^ 4). change (16 ^ Z.of_nat 0) with 1. change (2 ^ 4) with 16.
  rewrite Z.div_1_r, (Z.mod_small (b / 16) 16); [done|].
  split; [apply Z.div_pos; lia|apply Z.div_lt_upper_bound; lia].
Qed.

Lemma md5_key s : exists k, 0 <= k < 2 ^ 128 /\ Manager.md5_of_string s = hex_key k.
Proof.
  unfold Manager.md5_of_string, Md5.edb_md5_hex, Md5.edb_md5_from, Md5.md5_final.
  set (r := final_state _ _ _). clearbody r.
  assert (Hok : bytes_ok (Md5.encode_le r)).
  { unfold Md5.encode_le, bytes_ok. rewrite !Forall_app. repeat split; apply store32_le_ok. }
  exists (be_value (Md5.encode_le r)). split; [|by rewrite hex_of_bytes_key].
  by apply be_value_range in Hok.
Qed.

(** ** Slices *)

(** The slice of a hash among [n]: the leading 32 bits over the step, the last
    slice taking the remainder. *)
Definition slice_index (n : nat) (k : Z) : nat :=
  Nat.min (n - 1) (Z.to_nat (k / 2 ^ 96 / (2 ^ 32 / Z.of_nat n))).

Lemma slice_step n : (0 < n)%nat -> Z.of_nat n <= 2 ^ 32 ->
  1 <= 2 ^ 32 / Z.of_nat n /\ Z.of_nat n * (2 ^ 32 / Z.of_nat n) <= 2 ^ 32.
Proof.
  intros Hn Hle. split; [|apply Z.mul_div_le; lia].
  apply Z.div_le_lower_bound; lia.
Qed.

Lemma in_slice_build n i id k :
  (i < n)%nat -> Z.of_nat n <= 2 ^ 32 -> 0 <= k < 2 ^ 128 ->
  in_slice (hex_key k) (build_slice n i id) = bool_decide (i = slice_index n k).
Proof.
  intros Hi Hn Hk. destruct (slice_step n) as [Hs1 Hs2]; [lia|done|].
  unfold in_slice, build_slice, slice_index. set (step := 2 ^ 32 / Z.of_nat n) in *. cbn [range_start range_end].
  pose proof (Z.div_mod k (2 ^ 96)). pose proof (Z.mod_pos_bound k (2 ^ 96)).
  set (h := k / 2 ^ 96) in *.
  pose proof (Z.div_mod h step). pose proof (Z.mod_pos_bound h step).
  assert (0 <= h) by (apply Z.div_pos; lia). assert (0 <= h / step) by (apply Z.div_pos; lia).
  set (q := h / step) in *.
  assert (Hstart : (if (i =? 0)%nat then SLICE_FIRST else slice_bound (Z.of_nat i * step))
                   = hex_key (Z.of_nat i * step * 2 ^ 96)).
  { destruct (Nat.eqb_spec i 0) as [->|]; [apply slice_first_key|apply slice_bound_key]. }
  rewrite Hstart, hex_key_compare by nia.
  assert (Hlow : match k ?= Z.of_nat i * step * 2 ^ 96 with Lt => false | _ => true end
                 = bool_decide (Z.of_nat i <= q)).
  { destruct (Z.compare_spec k (Z.of_nat i * step * 2 ^ 96)); symmetry;
      [apply bool_decide_true|apply bool_decide_false|apply bool_decide_true]; nia. }
  rewrite Hlow. destruct (Nat.eqb_spec (S i) n) as [Hlast|Hlast].
  - rewrite orb_comm. replace (String.eqb SLICE_LAST SLICE_LAST) with true by done. cbn [orb].
    rewrite andb_true_r. apply bool_decide_ext. lia.
  - rewrite slice_bound_key, hex_key_compare by nia.
    replace (String.eqb _ SLICE_LAST) with false.
    2:{ symmetry. apply String.eqb_neq. rewrite slice_last_key. intros Heq.
        apply hex_key_inj in Heq; nia. }
    rewrite orb_false_r.
    assert (Hhigh : match k ?= Z.of_nat (S i) * step * 2 ^ 96 with Lt => true | _ => false end
                    = bool_decide (q < Z.of_nat (S i))).
    { destruct (Z.compare_spec k (Z.of_nat (S i) * step * 2 ^ 96)); symmetry;
        [apply bool_decide_false|apply bool_decide_true|apply bool_decide_false]; nia. }
    rewrite Hhigh, <-bool_decide_and. apply bool_decide_ext. lia.
Qed.

Lemma find_imap {A B} (f : nat -> A -> B) (P : B -> bool) (l : list A) (j : nat) :
  (forall i x, l !! i = Some x -> P (f i x) = bool_decide (i = j)) ->
  List.find P (imap f l) = f j <$> l !! j.
Proof.
  revert f j. induction l as [|x l IH]; intros f j Hp; [by destruct j|]. simpl.
  rewrite (Hp 0%nat x) by done. destruct j as [|j]; [done|]. rewrite bool_decide_false by lia.
  cbn [lookup list_lookup]. rewrite (IH (f ∘ S) j); [done|].
  intros i y Hy. unfold compose. rewrite (Hp (S i) y) by done. apply bool_decide_ext. lia.
Qed.

Lemma slice_index_lt n k : (0 < n)%nat -> (slice_index n k < n)%nat.
Proof. unfold slice_index. lia. Qed.

Lemma build_slices_owner ids k :
  Z.of_nat (length ids) <= 2 ^ 32 -> 0 <= k < 2 ^ 128 ->
  table_owner (build_slices ids) (hex_key k) = ids !! slice_index (length ids) k.
Proof.
  intros Hn Hk. unfold table_owner, build_slices. rewrite length_hex_key. cbn [Nat.eqb].
  rewrite (find_imap _ _ _ (slice_index (length ids) k)).
  - rewrite <-option_fmap_compose. by destruct (ids !! _).
  - intros i x Hx. apply in_slice_build; [by eapply lookup_lt_Some|done..].
Qed.

Lemma build_slices_nodes ids : map node_id (build_slices ids) = ids.
Proof.
  apply list_eq. intros i. rewrite list_lookup_fmap. unfold build_slices.
  rewrite list_lookup_imap. by destruct (ids !! i).
Qed.

Lemma length_build_slices ids : length (build_slices ids) = length ids.
Proof. apply length_imap. Qed.

(** Placement is total and unambiguous: over any nonempty member list the
    slices cover the hash space without overlap. The digest of every shard is
    a 128-bit number, and that number alone decides: it lies in exactly one
    slice, the one given by its leading 32 bits over the step (the last slice
    takes the remainder), whose node is the owner. *)
Theorem placement_total (ids : list string) (partition keyspace : string) :
  (0 < length ids <= MAX_PEERS)%nat ->
  exists k, 0 <= k < 2 ^ 128 /\ Manager.shard_key partition keyspace = hex_key k /\
    table_owner (build_slices ids) (hex_key k) = ids !! slice_index (length ids) k /\
    is_Some (ids !! slice_index (length ids) k) /\
    (forall i r, build_slices ids !! i = Some r ->
       in_slice (hex_key k) r = bool_decide (i = slice_index (length ids) k)).
Proof.
  intros [Hpos Hmax]. unfold MAX_PEERS in Hmax.
  destruct (md5_key (Manager.md5_of_string partition +:+ ":" +:+ Manager.md5_of_string keyspace))
    as (k & Hk & Heq).
  exists k. split; [done|]. split; [exact Heq|]. split; [apply build_slices_owner; [lia|done]|].
  split; [by apply lookup_lt_is_Some, slice_index_lt|].
  intros i r Hr. unfold build_slices in Hr. rewrite list_lookup_imap in Hr.
  destruct (ids !! i) as [id|] eqn:Hi; [|done]. injection Hr as <-.
  apply in_slice_build; [by eapply lookup_lt_Some|lia|done].
Qed.

(** ** Sorted ids *)

Lemma strcmp_le a b : strcmp a b <> Gt <-> String.le a b.
Proof.
  unfold strcmp, String.le, String.leb. destruct (String.compare a b); naive_solver.
Qed.

Lemma insert_id_perm key l : insert_id key l ≡ₚ key :: l.
Proof.
  induction l as [|x l IH]; [done|]. simpl. destruct (strcmp x key); [|..|done];
    rewrite IH; apply Permutation_swap.
Qed.

Lemma insert_id_sorted key l : StronglySorted String.le l -> StronglySorted String.le (insert_id key l).
Proof.
  induction 1 as [|x l Hl IH Hx]; [repeat constructor|]. simpl.
  destruct (strcmp x key) eqn:E.
  1,2: constructor; [done|]; rewrite insert_id_perm; constructor; [|done];
    apply strcmp_le; by rewrite E.
  assert (Hle : String.le key x).
  { destruct (total String.le key x) as [?|Hle]; [done|]. apply strcmp_le in Hle. done. }
  constructor; [by constructor|]. constructor; [done|].
  eapply Forall_impl; [exact Hx|]. intros y Hy. by transitivity x.
Qed.

Lemma sort_ids_perm ids : sort_ids ids ≡ₚ ids.
Proof.
  unfold sort_ids. rewrite <-(app_nil_r ids) at 2. generalize (@nil string).
  induction ids as [|id ids IH]; intros l; [done|]. simpl. rewrite IH, insert_id_perm.
  symmetry. apply Permutation_middle.
Qed.

Lemma sort_ids_sorted ids : StronglySorted String.le (sort_ids ids).
Proof.
  unfold sort_ids. cut (StronglySorted String.le (@nil string)); [|constructor].
  generalize (@nil string). induction ids as [|id ids IH]; intros l Hl; [done|].
  apply IH. by apply insert_id_sorted.
Qed.

#[export] Instance sort_ids_proper : Proper ((≡ₚ) ==> eq) sort_ids.
Proof.
  intros l k Hlk. apply (StronglySorted_unique String.le); [apply sort_ids_sorted..|].
  by rewrite !sort_ids_perm.
Qed.

Lemma length_sort_ids ids : length (sort_ids ids) = length ids.
Proof. apply Permutation_length, sort_ids_perm. Qed.

Lemma sort_ids_NoDup ids : NoDup ids -> NoDup (sort_ids ids).
Proof. by rewrite sort_ids_perm. Qed.

(** ** Rotation *)

Lemma omap_map {A B C} (f : B -> option C) (g : A -> B) (l : list A) :
  omap f (map g l) = omap (fun x => f (g x)) l.
Proof.
  induction l as [|x l IH]; [done|]. simpl. destruct (f (g x)); [f_equal|]; exact IH.
Qed.

Lemma omap_ext_in {A B} (f g : A -> option B) (l : list A) :
  (forall x, x ∈ l -> f x = g x) -> omap f l = omap g l.
Proof.
  induction l as [|x l IH]; intros Hfg; [done|]. simpl.
  rewrite (Hfg x) by set_solver. assert (IH' : omap f l = omap g l) by (apply IH; set_solver).
  destruct (g x); [f_equal|]; exact IH'.
Qed.

Lemma omap_lookup_seq {A} (l : list A) : omap (fun i => l !! i) (seq 0 (length l)) = l.
Proof.
  induction l as [|x l IH]; [done|]. cbn [length seq omap list_omap lookup list_lookup]. f_equal.
  rewrite <-seq_shift. etransitivity; [apply (omap_map (fun i => (x :: l) !! i) S)|exact IH].
Qed.

Lemma omap_rotate {A} (l : list A) start :
  (start < length l)%nat ->
  omap (fun offset => l !! ((start + offset) mod length l)%nat) (seq 0 (length l)) = rotate start l.
Proof.
  intros Hs. transitivity (omap (fun i => rotate start l !! i) (seq 0 (length (rotate start l))));
    [|apply omap_lookup_seq]. rewrite length_rotate.
  apply omap_ext_in. intros i Hi%elem_of_seq.
  rewrite lookup_rotate_r by lia. f_equal. unfold rotate_nat_add.
  rewrite <-Nat2Z.inj_add, <-Nat2Z.inj_mod, Nat2Z.id. done.
Qed.

Lemma rotate_perm {A} n (l : list A) : rotate n l ≡ₚ l.
Proof. unfold rotate. rewrite Permutation_app_comm. by rewrite take_drop. Qed.

(** ** Holders *)

(** The ids of the members that are not removed. *)
Definition members (cl : edb_cluster) : list string :=
  map p_id (List.filter (fun p => negb (p_removed p)) (peers cl)).

Lemma members_le cl : (length (members cl) <= length (peers cl))%nat.
Proof.
  unfold members. rewrite length_map. induction (peers cl) as [|p ps IH]; [done|].
  simpl. destruct (negb _); simpl; lia.
Qed.

Lemma members_NoDup cl : NoDup (map p_id (peers cl)) -> NoDup (members cl).
Proof.
  unfold members. induction (peers cl) as [|p ps IH]; [done|]. simpl.
  intros [Hp Hn]%NoDup_cons. destruct (negb _); [|by apply IH]. constructor; [|by apply IH].
  intros (q & Hq & Hin)%list_elem_of_fmap. apply Hp. rewrite Hq. apply list_elem_of_fmap_2.
  apply list_elem_of_In, filter_In in Hin as [Hin _]. by apply list_elem_of_In.
Qed.

Lemma holder_start_lt candidates owner :
  candidates <> [] -> (holder_start candidates owner < length candidates)%nat.
Proof.
  intros Hne. assert (0 < length candidates)%nat by (destruct candidates; [done|simpl; lia]).
  unfold holder_start. destruct owner as [o|]; [|done].
  destruct (list_find _ _) as [[i c]|] eqn:E; [|done].
  apply list_find_Some in E as (E & _). by apply lookup_lt_Some in E.
Qed.

Lemma holder_start_owner candidates o :
  o ∈ candidates -> candidates !! holder_start candidates (Some o) = Some o.
Proof.
  intros Ho. unfold holder_start.
  destruct (list_find_elem_of (fun c => c = o) candidates o) as [[i c] E]; [done..|].
  rewrite E. apply list_find_Some in E as (E & -> & _). exact E.
Qed.

Lemma holders_rotate cl key cap :
  String.length key = 32%nat -> (length (peers cl) <= MAX_PEERS)%nat ->
  edb_cluster_holders cl key cap =
  take cap (rotate (holder_start (sort_ids (members cl)) (edb_cluster_owner cl key))
              (sort_ids (members cl))).
Proof.
  intros Hk Hp. unfold edb_cluster_holders, holder_candidates, edb_cluster_owner. rewrite Hk.
  cbn [Nat.eqb negb]. fold (members cl). rewrite (take_ge (members cl)) by (pose proof (members_le cl); lia).
  f_equal. set (cs := sort_ids (members cl)).
  destruct (decide (cs = [])) as [Hnil|Hne]; [rewrite Hnil; unfold rotate; by rewrite drop_nil, take_nil|]. by apply omap_rotate, holder_start_lt.
Qed.

(** The replica holders of a key are the members in a fixed rotation of
    their id order: all of them, each once, the owner first when it is a
    member; a smaller replication factor takes a prefix; and nodes that know
    the same members and live table compute the same list, whatever the order
    of their peer tables. *)
Theorem holders_deterministic (cl cl' : edb_cluster) (key : string) :
  String.length key = 32%nat ->
  NoDup (map p_id (peers cl)) -> NoDup (map p_id (peers cl')) ->
  (length (peers cl) <= MAX_PEERS)%nat -> (length (peers cl') <= MAX_PEERS)%nat ->
  members cl ≡ₚ members cl' -> ranges cl = ranges cl' ->
  let holders := edb_cluster_holders cl key MAX_PEERS in
  holders ≡ₚ members cl /\ NoDup holders /\
  (forall o, edb_cluster_owner cl key = Some o -> o ∈ members cl -> head holders = Some o) /\
  (forall rf, (rf <= MAX_PEERS)%nat -> edb_cluster_holders cl key rf = take rf holders) /\
  edb_cluster_holders cl' key MAX_PEERS = holders.
Proof.
  intros Hk Hn Hn' Hp Hp' Hm Hr holders. subst holders. rewrite !holders_rotate by done.
  set (start := holder_start _ _). set (cs := sort_ids (members cl)).
  assert (Hlen : (length cs <= MAX_PEERS)%nat).
  { unfold cs. rewrite length_sort_ids. pose proof (members_le cl). lia. }
  rewrite (take_ge _ MAX_PEERS) by by rewrite length_rotate.
  split_and!.
  - rewrite rotate_perm. apply sort_ids_perm.
  - rewrite rotate_perm. by apply sort_ids_NoDup, members_NoDup.
  - intros o Ho Hin. assert (Hcs : o ∈ cs) by (unfold cs; by rewrite sort_ids_perm).
    pose proof (holder_start_owner cs o Hcs) as Hl. unfold start. rewrite Ho. fold cs.
    unfold rotate. pose proof (lookup_lt_Some _ _ _ Hl).
    rewrite Nat.mod_small by done. rewrite (drop_S _ _ _ Hl). done.
  - intros rf Hrf. by rewrite holders_rotate.
  - unfold start, cs, edb_cluster_owner. rewrite Hr. rewrite Hm. rewrite take_ge; [done|].
    rewrite length_rotate, <-Hm. exact Hlen.
Qed.

(** ** The leader *)

Lemma least_id_spec ids :
  match least_id ids with
  | None => ids = []
  | Some b => b ∈ ids /\ forall id, id ∈ ids -> String.le b id
  end.
Proof.
  unfold least_id. induction ids as [|id ids IH] using rev_ind; [done|].
  rewrite foldl_app. simpl. destruct (foldl _ _ ids) as [b|].
  - destruct IH as [Hb Hle]. destruct (strcmp id b) eqn:E.
    2: { split; [set_solver|]. intros x [Hx| ->%list_elem_of_singleton]%elem_of_app; [|done].
         transitivity b; [apply strcmp_le; by rewrite E|by apply Hle]. }
    all: split; [set_solver|]; intros x [Hx| ->%list_elem_of_singleton]%elem_of_app; [by apply Hle|].
    + apply strcmp_eq in E. by subst.
    + destruct (total String.le b id) as [?|Hid%strcmp_le]; [done|]. by rewrite E in Hid.
  - subst ids. split; [set_solver|]. intros x ->%list_elem_of_singleton. done.
Qed.

#[export] Instance least_id_proper : Proper ((≡ₚ) ==> eq) least_id.
Proof.
  intros l k Hlk. pose proof (least_id_spec l) as Hl. pose proof (least_id_spec k) as Hk.
  destruct (least_id l) as [a|], (least_id k) as [b|]; subst; try done.
  - destruct Hl as [Ha Hla], Hk as [Hb Hkb]. f_equal. apply (anti_symm String.le).
    + apply Hla. by rewrite Hlk.
    + apply Hkb. by rewrite <-Hlk.
  - destruct Hl as [Ha _]. rewrite Hlk in Ha. by apply not_elem_of_nil in Ha.
  - destruct Hk as [Hb _]. rewrite <-Hlk in Hb. by apply not_elem_of_nil in Hb.
Qed.

(** Election: the leader is the least id the node sees online, and there
    is none exactly when it sees nobody; nodes that see the same ids online
    elect the same one, and exactly that node takes itself for the leader. *)
Theorem leader_least (cl cl' : edb_cluster) :
  EmptyString ∉ online_ids cl -> online_ids cl ≡ₚ online_ids cl' ->
  match edb_cluster_leader (recompute_leader cl) with
  | None => online_ids cl = []
  | Some l => l ∈ online_ids cl /\ forall id, id ∈ online_ids cl -> String.le l id
  end /\
  edb_cluster_leader (recompute_leader cl') = edb_cluster_leader (recompute_leader cl) /\
  (leader_is_self_locked (recompute_leader cl) = true <->
   edb_cluster_leader (recompute_leader cl) = Some (self_id cl)).
Proof.
  intros Hempty Hsame. unfold edb_cluster_leader, leader_is_self_locked, recompute_leader.
  cbn [leader with_leader self_id].
  assert (least_id (online_ids cl') = least_id (online_ids cl)) as -> by by rewrite Hsame.
  pose proof (least_id_spec (online_ids cl)) as Hl.
  destruct (least_id (online_ids cl)) as [b|]; cbn [default from_option id]; [|by rewrite Hl].
  assert (b <> EmptyString) by (intros ->; by apply Hempty, Hl).
  replace (String.eqb b "") with false by (symmetry; by apply String.eqb_neq).
  split; [exact Hl|split; [done|]]. simpl. rewrite String.eqb_eq. naive_solver.
Qed.

(** ** Concrete clusters *)

Definition demo_peer (id : string) : edb_peer_info := set_online true (blank_peer id).

Definition demo_cluster (self : string) (ids : list string) : edb_cluster :=
  MkCluster self "127.0.0.1" 7000 0 (map demo_peer ids) 1 0 (build_slices ["a"; "b"]) 0 [] true "".

Definition demo_key : string := hex_key (2 ^ 127 + 5).

Lemma placement_total_witness :
  (0 < length ["a"; "b"; "c"] <= MAX_PEERS)%nat /\
  exists k, Manager.shard_key "p" "k" = hex_key k /\
    is_Some (table_owner (build_slices ["a"; "b"; "c"]) (hex_key k)).
Proof.
  assert (H : (0 < length ["a"; "b"; "c"] <= MAX_PEERS)%nat) by (unfold MAX_PEERS; simpl; lia).
  split; [exact H|].
  destruct (placement_total ["a"; "b"; "c"] "p" "k" H) as (k & _ & Hk & Ho & Hs & _).
  exists k. split; [exact Hk|]. rewrite Ho. exact Hs.
Defined.

Lemma holders_deterministic_witness :
  edb_cluster_owner (demo_cluster "a" ["a"; "b"; "c"]) demo_key = Some "b" /\
  edb_cluster_holders (demo_cluster "c" ["c"; "b"; "a"]) demo_key MAX_PEERS = ["b"; "c"; "a"].
Proof.
  assert (Hn : forall ids : list string, bool_decide (NoDup ids) = true -> NoDup ids)
    by (intros ids; exact (bool_decide_eq_true_1 (NoDup ids))).
  destruct (holders_deterministic (demo_cluster "a" ["a"; "b"; "c"])
              (demo_cluster "c" ["c"; "b"; "a"]) demo_key) as (_ & _ & _ & _ & Heq).
  - vm_compute. reflexivity.
  - apply Hn. vm_compute. reflexivity.
  - apply Hn. vm_compute. reflexivity.
  - unfold MAX_PEERS. simpl. lia.
  - unfold MAX_PEERS. simpl. lia.
  - change (["a"; "b"; "c"] ≡ₚ ["c"; "b"; "a"]). apply (Permutation_rev ["a"; "b"; "c"]).
  - reflexivity.
  - split; [vm_compute; reflexivity|]. rewrite Heq. vm_compute. reflexivity.
Defined.

Lemma leader_least_witness :
  (EmptyString ∉ online_ids (demo_cluster "b" ["b"; "a"])) /\
  edb_cluster_leader (recompute_leader (demo_cluster "c" ["a"; "b"])) = Some "a".
Proof.
  assert (He : EmptyString ∉ online_ids (demo_cluster "b" ["b"; "a"])).
  { change (EmptyString ∉ ["b"; "a"]). intros H. by repeat apply elem_of_cons in H as [?|H]; inversion H. }
  destruct (leader_least (demo_cluster "b" ["b"; "a"]) (demo_cluster "c" ["a"; "b"]) He) as (_ & Heq & _).
  - change (["b"; "a"] ≡ₚ ["a"; "b"]). apply Permutation_swap.
  - split; [exact He|]. rewrite Heq. vm_compute. reflexivity.
Defined.

End ClusterPlacement.
