(* ===== verification/Repl.v ===== *)
(** src/socket/epsilon_repl.c and epsilon_repl_cache.c: replication of writes.
    A change goes to every online peer on a connection of its own, must be
    acknowledged by a majority of its holders, is then applied locally, and is
    kept in the change cache for each peer that did not acknowledge it; the
    cache is drained when the peer asks or is seen online. The engine and the
    network are interfaces; sleeping, the maintenance thread's loop and the
    locks are not modelled. *)

From S2P Require Import Prelude Json Shard Manager Store Config Wire Cluster.

Module Repl.

Import Json Store Config Wire Cluster.

Definition MAX_PEERS_SNAPSHOT : nat := 64.

(** ** What replication works over *)

(** The engine operations of the data path (src/engine/manager.c), without
    their outcome arguments. *)
Class DataEngine (S : Type) := {
  replica_put_origin : forall (partition keyspace id text : string) (ttl timestamp : Z) (origin : string), st S bool;
  replica_delete_origin : forall (partition keyspace id : string) (timestamp : Z) (origin : string), st S bool;
  get_doc : forall (partition keyspace id : string), st S (option json);
  get_ts : forall (partition keyspace id : string), st S (option (json * Z));
  all_docs : forall (partition keyspace : string) (filters : option json), st S (option json);
  all_ts : forall (partition keyspace : string) (filters : option json), st S (option json);
  query_docs : forall (partition keyspace : string) (filters : option json), st S (option json);
  query_ts : forall (partition keyspace : string) (filters : option json), st S (option json);
  ids_of : forall (partition keyspace : string) (filters : option json), st S (option (list string));
}.

(** A connection of its own to a peer: the frames sent and the frames that
    come back before it fails, closes or the deadline passes. A frame is its
    type and payload, [None] for an empty one; nothing comes back from a peer
    that cannot be dialled. *)
Class Network (S : Type) := {
  exchange : forall (addr : string) (port : Z) (sent : list (Z * string)), st S (list (Z * option string));
}.

(** ** The change cache *)

(** The rows of PendingChanges in the order of [seq]. *)
Record pending_row := Pending { target : string; cid : string; payload : string }.

#[export] Instance pending_row_eq_dec : EqDecision pending_row.
Proof. solve_decision. Defined.

(** [None] is a cache that could not be opened. *)
Abbreviation change_cache := (option (list pending_row)).

Definition same_change (t c : string) (r : pending_row) : bool :=
  String.eqb (target r) t && String.eqb (cid r) c.

(** INSERT OR REPLACE: a row of that target and cid goes, the new one gets the
    next [seq]; [ok] is false when the statement fails, which is only logged. *)
Definition cache_append (ok : bool) (cc : change_cache) (t c p : string) : change_cache :=
  if ok then (fun rows => List.filter (fun r => negb (same_change t c r)) rows ++ [Pending t c p]) <$> cc
  else cc.

Definition cache_remove (ok : bool) (cc : change_cache) (t c : string) : change_cache :=
  if ok then List.filter (fun r => negb (same_change t c r)) <$> cc else cc.

Definition pending_rows (cc : change_cache) (t : string) : list pending_row :=
  List.filter (fun r => String.eqb (target r) t) (default [] cc).

(** The oldest [limit] rows of a target; the buffers of a row hold 63 and 95
    characters. *)
Definition cache_load (ok : bool) (cc : change_cache) (t : string) (limit : nat) : list pending_row :=
  if ok
  then map (fun r => Pending (String.substring 0 63 (target r)) (String.substring 0 95 (cid r)) (payload r))
         (take limit (pending_rows cc t))
  else [].

(** ** State *)

Record edb_repl := MkRepl {
  repl_self : string;
  change_seq : Z;
  cache : change_cache;
  syncing : bool;
  replaying : string;
}.

Definition with_cache (cc : change_cache) (rp : edb_repl) : edb_repl :=
  MkRepl (repl_self rp) (change_seq rp) cc (syncing rp) (replaying rp).
Definition with_syncing (b : bool) (rp : edb_repl) : edb_repl :=
  MkRepl (repl_self rp) (change_seq rp) (cache rp) b (replaying rp).
Definition with_replaying (id : string) (rp : edb_repl) : edb_repl :=
  MkRepl (repl_self rp) (change_seq rp) (cache rp) (syncing rp) id.

Definition edb_repl_set_syncing (rp : edb_repl) (b : bool) : edb_repl := with_syncing b rp.

Definition edb_repl_pending_for (rp : edb_repl) (id : string) : nat := length (pending_rows (cache rp) id).
Definition edb_repl_pending_total (rp : edb_repl) : nat := length (default [] (cache rp)).

Inductive edb_repl_status := EDB_REPL_OK | EDB_REPL_LOCAL_FAIL | EDB_REPL_QUORUM_LOST.

(** ** Placement *)

(** A holder candidate counts as online when it is us or a peer seen online. *)
Definition candidate_online (self : string) (ps : list edb_peer_info) (id : string) : bool :=
  String.eqb id self || existsb (fun p => String.eqb (p_id p) id && p_online p) ps.

(** The holders of a keyspace: [rf] of the candidates, online ones first. *)
Definition holder_ids (cl : edb_cluster) (self path partition keyspace : string) (rf : Z) : list string :=
  match Manager.edb_shard_path path partition keyspace 1024 with
  | None => []
  | Some (_, key) =>
      let candidates := edb_cluster_holders cl key MAX_PEERS_SNAPSHOT in
      let online := candidate_online self (edb_cluster_peers cl MAX_PEERS_SNAPSHOT) in
      take (Z.to_nat rf)
        (List.filter online candidates ++ List.filter (fun id => negb (online id)) candidates)
  end.

Definition id_in_holders (id : string) (holders : list string) : bool :=
  existsb (String.eqb id) holders.

Definition dialable (p : edb_peer_info) : bool := negb (String.eqb (p_addr p) "") && (0 <? p_port p).

(** The entry of a node that can be dialled. *)
Definition find_dialable (cl : edb_cluster) (id : string) : option edb_peer_info :=
  List.find (fun p => String.eqb (p_id p) id && dialable p) (edb_cluster_peers cl MAX_PEERS_SNAPSHOT).

(** ** Changes *)

(** cJSON_AddStringToObject: a member is appended, whatever is there. *)
Definition add_member (j : json) (name : string) (v : json) : json :=
  match j with JObject ms => JObject (ms ++ [(name, v)]) | _ => j end.

(** The change id in its buffer of 96. *)
Definition change_id (self : string) (now seq : Z) : string :=
  snprintf 96 (self +:+ "-" +:+ print_i64 now +:+ "-" +:+ print_i64 seq).

Definition stamp_change (self : string) (c : string) (change : json) : json :=
  let change := add_member change "cid" (JString c) in
  match get_item change "origin" with
  | None => add_member change "origin" (JString self)
  | Some _ => change
  end.

(** The HELLO of a one-shot request. *)
Definition rpc_hello : json := JObject [("node_id", JString "ephemeral")].

Section replication.
Context {S : Type} `{RecordStore S} `{JsonCodec} `{DataEngine S} `{Network S}.

(** The payload of the first frame of the wanted type. *)
Definition rpc_once (addr : string) (port send_type : Z) (text : string) (want : Z)
    : st S (option (option string)) :=
  frames ← exchange addr port [(ESTP_HELLO, json_print rpc_hello); (send_type, text)];
  mret (snd <$> List.find (fun f => f.1 =? want) frames).

Definition ack_ok (reply : option string) : bool :=
  match reply ≫= json_parse with
  | None => false
  | Some doc => match get_item doc "ok" with
                | None => true
                | Some (JBool b) => b
                | Some _ => false
                end
  end.

(** A REPL frame answered with an ACK that says so. *)
Definition send_change (p : edb_peer_info) (text : string) : st S bool :=
  r ← rpc_once (p_addr p) (p_port p) ESTP_REPL text ESTP_ACK;
  mret (match r with Some reply => ack_ok reply | None => false end).

(** The fields of a change that [apply_change_local] and the API's handler
    need. *)
Record change_fields := Fields {
  c_op : string; c_partition : string; c_keyspace : string; c_id : string; c_ts : Z; c_origin : string;
}.

Definition change_parts (change : json) : option change_fields :=
  op ← get_string change "op"; partition ← get_string change "partition";
  keyspace ← get_string change "keyspace"; id ← get_string change "id";
  ts ← get_ll change "ts";
  Some (Fields op partition keyspace id ts (default "" (get_string change "origin"))).

Definition apply_fields (change : json) (f : change_fields) : st S bool :=
  if String.eqb (c_op f) "put" then
    match get_item change "value" with
    | Some (JObject ms) =>
        replica_put_origin (c_partition f) (c_keyspace f) (c_id f) (json_print (JObject ms))
          (default (-1) (get_ll change "ttl_abs")) (c_ts f) (c_origin f)
    | _ => mret false
    end
  else if String.eqb (c_op f) "delete" then
    replica_delete_origin (c_partition f) (c_keyspace f) (c_id f) (c_ts f) (c_origin f)
  else mret false.

Definition apply_change_local (change : json) : st S bool :=
  match change_parts change with
  | Some f => apply_fields change f
  | None => mret false
  end.

Definition replication_factor (db : string) : st S Z :=
  d ← edb_database_get db;
  mret (match d with
        | Some d => if 0 <? d_replication_factor d then d_replication_factor d else 1
        | None => 1
        end).

(** ** Writing *)

(** The fan-out: for each peer whether it has the change (we do), and how many
    holders acknowledged. *)
Fixpoint fan_out (self : string) (holders : list string) (text : string) (ps : list edb_peer_info)
    : st S (list bool * nat) :=
  match ps with
  | [] => mret ([], O)
  | p :: ps =>
      let remote := negb (String.eqb (p_id p) self) in
      ok ← (if remote then if p_online p && dialable p then send_change p text else mret false
            else mret true);
      rest ← fan_out self holders text ps;
      mret (ok :: rest.1,
            if remote && ok && id_in_holders (p_id p) holders then Datatypes.S rest.2 else rest.2)
  end.

(** The change is cached for each peer that does not have it; [ins] tells
    which inserts succeed. *)
Fixpoint cache_missed (ins : string -> bool) (self c text : string) (ps : list edb_peer_info)
    (delivered : list bool) (cc : change_cache) : change_cache :=
  match ps, delivered with
  | p :: ps, d :: delivered =>
      let missed := negb d && negb (String.eqb (p_id p) self) && negb (String.eqb (p_id p) "") in
      cache_missed ins self c text ps delivered
        (if missed then cache_append (ins (p_id p)) cc (p_id p) c text else cc)
  | _, _ => cc
  end.

(** The holders, or ourselves when placement gives none. *)
Definition write_holders (cl : edb_cluster) (self path partition keyspace : string) (rf : Z) : list string :=
  match holder_ids cl self path partition keyspace rf with [] => [self] | hs => hs end.

Definition quorum (n : nat) : nat := (n / 2 + 1)%nat.

Definition edb_repl_write (ins : string -> bool) (cl : edb_cluster) (path : string) (now : Z)
    (rp : edb_repl) (db change_json : string) : st S (edb_repl_status * edb_repl) :=
  match json_parse change_json with
  | None => mret (EDB_REPL_LOCAL_FAIL, rp)
  | Some change =>
      match get_string change "partition", get_string change "keyspace" with
      | Some partition, Some keyspace =>
          let self := repl_self rp in
          let seq := change_seq rp + 1 in
          let c := change_id self now seq in
          let change := stamp_change self c change in
          let text := json_print change in
          rf ← replication_factor db;
          let holders := write_holders cl self path partition keyspace rf in
          let ps := edb_cluster_peers cl MAX_PEERS_SNAPSHOT in
          fan ← fan_out self holders text ps;
          let acknowledgements :=
            ((if id_in_holders self holders then 1 else 0) + fan.2)%nat in
          let rp := MkRepl self seq (cache_missed ins self c text ps fan.1 (cache rp))
                      (syncing rp) (replaying rp) in
          if (acknowledgements <? quorum (length holders))%nat
          then mret (EDB_REPL_QUORUM_LOST, rp)
          else
            ok ← apply_change_local change;
            mret (if ok : bool then EDB_REPL_OK else EDB_REPL_LOCAL_FAIL, rp)
      | _, _ => mret (EDB_REPL_LOCAL_FAIL, rp)
      end
  end.

(** ** Replay *)

(** One cached change now; acknowledged, it leaves the cache. *)
Definition deliver_cached (del : bool) (rp : edb_repl) (p : edb_peer_info) (r : pending_row)
    : st S (bool * edb_repl) :=
  ok ← send_change p (payload r);
  mret (ok : bool, if ok : bool then with_cache (cache_remove del (cache rp) (p_id p) (cid r)) rp else rp).

(** The rows of a batch in order, up to the first that is not acknowledged. *)
Fixpoint deliver_batch (del : bool) (p : edb_peer_info) (rows : list pending_row) (rp : edb_repl)
    : st S (nat * edb_repl) :=
  match rows with
  | [] => mret (O, rp)
  | r :: rows =>
      d ← deliver_cached del rp p r;
      if d.1 : bool then (rest ← deliver_batch del p rows d.2; mret (Datatypes.S rest.1, rest.2))
      else mret (O, d.2)
  end.

Definition BATCH : nat := 256.
Definition ROUNDS : nat := 64.

Fixpoint drain_rounds (n : nat) (del : bool) (p : edb_peer_info) (id : string) (rp : edb_repl)
    : st S edb_repl :=
  match n with
  | O => mret rp
  | Datatypes.S n =>
      match cache_load true (cache rp) id BATCH with
      | [] => mret rp
      | rows =>
          d ← deliver_batch del p rows rp;
          if (d.1 =? 0)%nat then mret d.2 else drain_rounds n del p id d.2
      end
  end.

(** [del] is false when the DELETE of the cache fails. *)
Definition edb_repl_drain_peer (del : bool) (cl : edb_cluster) (rp : edb_repl) (id : string)
    : st S (nat * edb_repl) :=
  if negb (String.eqb (replaying rp) "") && String.eqb (replaying rp) id
  then mret (edb_repl_pending_for rp id, rp)
  else
    match find_dialable cl id with
    | None => mret (edb_repl_pending_for rp id, with_replaying "" rp)
    | Some p =>
        rp ← drain_rounds ROUNDS del p id (with_replaying id rp);
        mret (edb_repl_pending_for rp id, with_replaying "" rp)
    end.

(** The maintenance thread's replay of one online peer. *)
Definition replay_for_peer (del : bool) (rp : edb_repl) (p : edb_peer_info) : st S edb_repl :=
  if String.eqb (replaying rp) (p_id p) then mret rp
  else
    d ← (if dialable p
         then deliver_batch del p (cache_load true (cache rp) (p_id p) BATCH) rp
         else mret (O, rp));
    mret (with_replaying "" d.2).

(** One tick of [repl_maint_main]. *)
Fixpoint replay_peers (del : bool) (ps : list edb_peer_info) (rp : edb_repl) : st S edb_repl :=
  match ps with
  | [] => mret rp
  | p :: ps =>
      rp ← (if p_online p && negb (String.eqb (p_id p) (repl_self rp))
            then replay_for_peer del rp p else mret rp);
      replay_peers del ps rp
  end.

Definition repl_tick (del : bool) (cl : edb_cluster) (rp : edb_repl) : st S edb_repl :=
  replay_peers del (edb_cluster_peers cl MAX_PEERS_SNAPSHOT) rp.

(** ** Answering *)

(** [apply] and [read] are the handlers of [edb_repl_set_handlers]. The reply
    is its frame type and text; [None] sends nothing. *)
Definition ack_json (ok : bool) : json := JObject [("ok", JBool ok)].
Definition flush_json (remaining : nat) : json :=
  JObject [("ok", JBool (remaining =? 0)%nat); ("pending", jnum (Z.of_nat remaining))].

Definition repl_dispatch (del : bool) (cl : edb_cluster) (apply : json -> st S bool)
    (read : json -> st S (option json)) (rp : edb_repl) (msg_type : Z) (text : string)
    : st S (option (Z * string) * edb_repl) :=
  match json_parse text with
  | None => mret (None, rp)
  | Some req =>
      if msg_type =? ESTP_REPL then
        ok ← (if syncing rp then mret false else apply req);
        mret (Some (ESTP_ACK, json_print (ack_json ok)), rp)
      else if msg_type =? ESTP_FLUSH then
        let t := match get_string req "target" with
                 | Some t => String.substring 0 63 t
                 | None => ""%string
                 end in
        d ← (if String.eqb t "" then mret (O, rp) else edb_repl_drain_peer del cl rp t);
        mret (Some (ESTP_ACK, json_print (flush_json d.1)), d.2)
      else if msg_type =? ESTP_QUERY then
        res ← read req;
        mret (Some (ESTP_RESULT, json_print (default (JObject [("row", JNull)]) res)), rp)
      else mret (None, rp)
  end.

(** ** Catching up *)

(** {"target":"..."} in its buffer of 96. *)
Definition flush_request (self : string) : string :=
  snprintf 96 ("{" +:+ String Shard.QUOTE ("target" +:+ String Shard.QUOTE (":" +:+ String Shard.QUOTE
    (String.substring 0 63 self +:+ String Shard.QUOTE "}")))).

(** A reply that reports an empty queue. *)
Definition flushed (reply : option (option string)) : bool :=
  match reply with
  | Some (Some text) =>
      match json_parse text with
      | Some doc =>
          is_true_item doc "ok" &&
          match get_number doc "pending" with Some (SpecFloat.S754_zero _) => true | _ => false end
      | None => false
      end
  | _ => false
  end.

(** One round of [edb_repl_flush]: whether every online peer owes us nothing. *)
Fixpoint flush_round (self : string) (ps : list edb_peer_info) : st S bool :=
  match ps with
  | [] => mret true
  | p :: ps =>
      mine ← (if String.eqb (p_id p) self || negb (p_online p) then mret true
              else if negb (dialable p) then mret false
              else r ← rpc_once (p_addr p) (p_port p) ESTP_FLUSH (flush_request self) ESTP_ACK;
                   mret (flushed r));
      rest ← flush_round self ps;
      mret (mine && rest)
  end.

(** The loop of [edb_repl_flush]: it asks again every 100 ms until the 20 s
    deadline, so [rounds] is at most 200 and at least one; the peers may change
    between rounds. *)
Fixpoint edb_repl_flush (self : string) (rounds : list edb_cluster) : st S bool :=
  match rounds with
  | [] => mret false
  | cl :: rounds =>
      all_empty ← flush_round self (edb_cluster_peers cl MAX_PEERS_SNAPSHOT);
      if all_empty : bool then mret true else edb_repl_flush self rounds
  end.

End replication.

End Repl.
