(* ===== verification/Doubles.v ===== *)
(** Integers below 2^53 survive the round trip through a cJSON number, so
    generations, ports and times are gossiped exactly. *)

From S2P Require Import Prelude Json.
From Stdlib Require Import SpecFloat.

Module Doubles.

Import Json.

Lemma digits2_size p : digits2_pos p = Pos.size p.
Proof. induction p as [p IH|p IH|]; simpl; by rewrite ?IH. Qed.

Lemma size_bound p n : Z.pos p < 2 ^ n -> 0 <= n -> Z.pos (Pos.size p) <= n.
Proof.
  intros Hp Hn. pose proof (Pos.size_le p) as Hle.
  assert (H : 2 ^ Z.pos (Pos.size p) <= 2 * Z.pos p)
    by (apply Pos2Z.pos_le_pos in Hle; rewrite Pos2Z.inj_pow in Hle; lia).
  destruct (Z.le_gt_cases (Z.pos (Pos.size p)) n) as [?|Hgt]; [done|exfalso].
  assert (2 ^ (n + 1) <= 2 ^ Z.pos (Pos.size p)) by (apply Z.pow_le_mono_r; lia).
  rewrite Z.pow_add_r in * by lia. lia.
Qed.

Lemma size_shift d p : Z.pos (Pos.size (Pos.iter xO p d)) = Z.pos (Pos.size p) + Z.pos d.
Proof.
  induction d as [|d IH] using Pos.peano_ind; [simpl; lia|].
  rewrite Pos.iter_succ. simpl Pos.size. rewrite Pos2Z.inj_succ, IH. lia.
Qed.

Lemma round_full sx m e :
  Z.pos (Pos.size m) = 53 -> -1074 <= e <= 0 ->
  binary_round_aux 53 1024 sx (Z.pos m) e loc_Exact = S754_finite sx m e.
Proof.
  intros Hm He. unfold binary_round_aux, shr_fexp. cbn [shr_record_of_loc Zdigits2].
  rewrite digits2_size, Hm.
  assert (Hf : fexp 53 1024 (53 + e) - e = 0) by (unfold fexp, emin; lia). rewrite Hf.
  cbn [shr shr_m loc_of_shr_record round_nearest_even shr_record_of_loc Zdigits2].
  rewrite digits2_size, Hm, Hf. cbn [shr shr_m].
  destruct (Z.leb_spec e (1024 - 53)); [done|lia].
Qed.

Lemma round_exact sx p :
  Z.pos p < 2 ^ 53 ->
  exists m e, binary_round 53 1024 sx p 0 = S754_finite sx m e /\
    Z_of_double (S754_finite sx m e) = if sx then - Z.pos p else Z.pos p.
Proof.
  intros Hp. pose proof (size_bound p 53 ltac:(lia) ltac:(lia)) as Hs.
  unfold binary_round. rewrite digits2_size.
  assert (Hf : fexp 53 1024 (Z.pos (Pos.size p) + 0) = Z.pos (Pos.size p) - 53)
    by (unfold fexp, emin; lia). rewrite Hf.
  unfold shl_align. rewrite Z.sub_0_r.
  destruct (Z.pos (Pos.size p) - 53) as [|q|d] eqn:E; [|lia|].
  - rewrite round_full by lia. do 2 eexists. split; [done|]. unfold Z_of_double. simpl. by destruct sx; lia.
  - rewrite round_full; [|rewrite size_shift; lia|lia]. do 2 eexists. split; [done|].
    unfold Z_of_double. destruct (Z.leb_spec 0 (Z.neg d)) as [|_]; [lia|].
    change (- Z.neg d) with (Z.pos d). fold (shift_pos d p). rewrite shift_pos_correct, Z.mul_comm.
    rewrite <-Z.pow_pos_fold, Z.div_mul; [done|]. pose proof (Z.pow_pos_nonneg 2 (Z.pos d)). lia.
Qed.

Definition exact (z : Z) : Prop := - 2 ^ 53 < z < 2 ^ 53.

Lemma double_exact_signed z : exact z -> Z_of_double (double_of_Z z) = z.
Proof.
  unfold exact. intros Hz. destruct z as [|p|p]; [done|..]; unfold double_of_Z, binary_normalize.
  - destruct (round_exact false p) as (m & e & -> & ->); [lia|done].
  - destruct (round_exact true p) as (m & e & -> & ->); [lia|done].
Qed.

Lemma double_exact z : 0 <= z < 2 ^ 53 -> Z_of_double (double_of_Z z) = z.
Proof. intros Hz. apply double_exact_signed. unfold exact. lia. Qed.

Lemma double_finite z : exact z -> finite_json (JNumber (double_of_Z z)) = true.
Proof.
  unfold exact. intros Hz. destruct z as [|p|p]; [done|..]; unfold double_of_Z, binary_normalize.
  - destruct (round_exact false p) as (m & e & -> & _); [lia|done].
  - destruct (round_exact true p) as (m & e & -> & _); [lia|done].
Qed.

(** *** Order *)

Lemma round_shape p : Z.pos p < 2 ^ 53 ->
  exists m, binary_round 53 1024 false p 0 = S754_finite false m (Z.pos (Pos.size p) - 53) /\
    Z.pos m = Z.pos p * 2 ^ (53 - Z.pos (Pos.size p)).
Proof.
  intros Hp. pose proof (size_bound p 53 ltac:(lia) ltac:(lia)) as Hs.
  unfold binary_round. rewrite digits2_size.
  assert (Hf : fexp 53 1024 (Z.pos (Pos.size p) + 0) = Z.pos (Pos.size p) - 53)
    by (unfold fexp, emin; lia). rewrite Hf.
  unfold shl_align. rewrite Z.sub_0_r.
  destruct (Z.pos (Pos.size p) - 53) as [|q|d] eqn:E; [|lia|].
  - rewrite round_full by lia. exists p. split; [done|]. replace (53 - Z.pos (Pos.size p)) with 0 by lia. lia.
  - rewrite round_full; [|rewrite size_shift; lia|lia]. eexists. split; [done|].
    fold (shift_pos d p). rewrite shift_pos_correct, Z.mul_comm, Z.pow_pos_fold. do 2 f_equal. lia.
Qed.

Lemma size_mono p q : (p <= q)%positive -> (Pos.size p <= Pos.size q)%positive.
Proof.
  intros Hpq. apply Pos.le_nlt. intros Hlt. pose proof (Pos.size_gt q) as Hq. pose proof (Pos.size_le p) as Hp.
  apply Pos2Z.pos_le_pos in Hp, Hpq. apply Pos2Z.pos_lt_pos in Hq, Hlt. rewrite Pos2Z.inj_pow in Hp, Hq.
  assert (2 ^ (Z.pos (Pos.size q) + 1) <= 2 ^ Z.pos (Pos.size p)) by (apply Z.pow_le_mono_r; lia).
  rewrite Z.pow_add_r in * by lia. lia.
Qed.

(** Doubles of integers compare as the integers. *)
Lemma double_leb a b : 0 <= a <= b -> b < 2 ^ 53 -> SFleb (double_of_Z a) (double_of_Z b) = true.
Proof.
  intros Hab Hb. destruct a as [|p|p]; [|..|lia].
  - destruct b as [|q|q]; [done| |lia]. unfold double_of_Z, binary_normalize.
    by destruct (round_shape q) as (m & -> & _); [lia|].
  - destruct b as [|q|q]; [lia| |lia]. unfold double_of_Z, binary_normalize.
    destruct (round_shape p) as (m & -> & Hm); [lia|]. destruct (round_shape q) as (n & -> & Hn); [lia|].
    unfold SFleb, SFcompare. assert (Hs : (Pos.size p <= Pos.size q)%positive) by (apply size_mono; lia).
    destruct (Z.compare_spec (Z.pos (Pos.size p) - 53) (Z.pos (Pos.size q) - 53)) as [E|E|E]; [|done|lia].
    assert (Hs' : Z.pos (Pos.size p) = Z.pos (Pos.size q)) by lia. rewrite <-Hs' in Hn.
    change (Pos.compare_cont Eq m n) with (Pos.compare m n).
    assert (Hmn : (m <= n)%positive) by nia.
    by destruct (Pos.compare_spec m n); [..|lia].
Qed.

Lemma double_nonneg a : 0 <= a < 2 ^ 53 -> exists d, double_of_Z a = d /\
  match d with S754_nan => false | S754_finite s _ _ | S754_infinity s => negb s | S754_zero _ => true end = true.
Proof.
  intros Ha. eexists. split; [done|]. destruct a as [|p|p]; [done| |lia]. unfold double_of_Z, binary_normalize.
  by destruct (round_shape p) as (m & -> & _); [lia|].
Qed.

End Doubles.
