(* ===== verification/Mesh.v ===== *)
(** The cluster as a network: nodes whose critical sections interleave freely
    and a soup of the state messages ever sent (never lost, so any message may
    arrive late, twice or not at all). Safety of every reachable world. *)

From S2P Require Import Prelude BlockHash Md5 Crypto Json Shard Manager Store Config Cluster.
From S2P Require Import MapStore ConfigFacts Doubles ClusterPlacement.
From stdpp Require Import relations.

#[local] Open Scope Z_scope.

Module Mesh.

Import Json Store MapStore Config Cluster Doubles ClusterPlacement.

(** ** Steps *)

(** The table of [conn_thread] when a connection of the leader ends. *)
Definition left_table (cl : edb_cluster) : edb_cluster :=
  let cl := drop_target cl in
  if (0 <? length (ranges cl))%nat then shrink_table (gc_after cl) cl else cl.

Definition void_table (cl : edb_cluster) : edb_cluster :=
  drop_target (with_peers (map (set_compliant 0) (peers cl)) cl).

Definition id_ok (id : string) : Prop := id <> EmptyString /\ (String.length id < EDB_NODE_ID_MAX)%nat.

(** One critical section of a node; [soup] holds the states it may receive. *)
Inductive node_step (soup : list json) (cl : edb_cluster) : edb_cluster -> Prop :=
| step_state now id doc :
    doc ∈ soup -> node_step soup cl (fst (conn_state now cl id (Some doc)))
| step_garbage now id : node_step soup cl (fst (conn_state now cl id None))
| step_absorb now doc :
    doc ∈ soup -> node_step soup cl (recompute_leader (fst (merge_state now cl doc)))
| step_hello now preset h :
    preset = EmptyString \/ id_ok preset -> node_step soup cl (snd (conn_hello now cl preset h))
| step_register id : node_step soup cl (fst (conn_register cl id))
| step_lost id :
    node_step soup cl
      (recompute_leader (with_peers (update_peer id (set_online false) (peers cl)) cl))
| step_left : node_step soup cl (left_table cl)
| step_publish : leader_is_self_locked cl = true -> node_step soup cl (snd (publish_target_locked cl))
| step_promote now :
    leader_is_self_locked cl = true -> node_step soup cl (promote_target_locked now cl)
| step_void : leader_is_self_locked cl = true -> node_step soup cl (void_table cl)
| step_mark g :
    node_step soup cl
      (with_peers (update_peer (self_id cl)
         (fun p => if p_compliant_gen p <? g then set_compliant g p else p) (peers cl)) cl)
| step_remove id :
    id <> self_id cl ->
    node_step soup cl (with_peers (update_peer id (set_removed true) (peers cl)) cl)
| step_expire now : node_step soup cl (fst (remove_expired now cl))
| step_shrink now :
    leader_is_self_locked cl = true ->
    node_step soup cl (shrink_table (now + OFFLINE_AFTER_SECONDS) (drop_target cl))
| step_http n : node_step soup cl (edb_cluster_set_http_port n cl)
| step_auto b : node_step soup cl (edb_cluster_set_auto_compliant b cl).

(** Generations that a cJSON number holds exactly: 2^53 rebalances. *)
Definition exact_gens (cl : edb_cluster) : Prop :=
  generation cl < 2 ^ 53 /\ target_generation cl < 2 ^ 53.

Record world := World { nodes : list edb_cluster; soup : list json }.

(** A node that starts with the members document it persisted, if any. *)
Definition boot (now : Z) (addr : string) (port : Z) (doc : option json) : edb_cluster :=
  claim_space (recompute_leader (add_self_locked now (merge_doc now (new_cluster addr port) doc))).

Inductive mesh_step : world -> world -> Prop :=
| mesh_node w i cl cl' :
    nodes w !! i = Some cl -> node_step (soup w) cl cl' ->
    mesh_step w (World (<[i := cl']> (nodes w)) (soup w))
| mesh_send w i cl :
    nodes w !! i = Some cl -> exact_gens cl ->
    mesh_step w (World (nodes w) (state_to_json cl :: soup w))
| mesh_boot w now addr port doc :
    match doc with Some d => d ∈ soup w | None => True end ->
    mesh_step w (World (nodes w ++ [boot now addr port doc]) (soup w))
| mesh_crash w i : mesh_step w (World (delete i (nodes w)) (soup w)).

Definition reachable (w : world) : Prop := rtc mesh_step (World [] []) w.

(** ** What holds of a node *)

Record table_ok (rs : list edb_range_info) : Prop := {
  table_slices : rs = build_slices (map node_id rs);
  table_ids : Forall id_ok (map node_id rs);
  table_distinct : NoDup (map node_id rs);
  table_size : (length rs <= S MAX_PEERS)%nat;
}.

(** Peers as every start and merge leaves them: up to [n] of them. *)
Record peers_ok (n : nat) (ps : list edb_peer_info) : Prop := {
  peers_distinct : NoDup (map p_id ps);
  peers_ids : Forall id_ok (map p_id ps);
  peers_size : (length ps <= n)%nat;
}.

(** The two tables: a pending target is newer than the live table. *)
Record tables_ok (cl : edb_cluster) : Prop := {
  tables_generation : 0 <= generation cl;
  tables_live : table_ok (ranges cl);
  tables_target : table_ok (target_ranges cl);
  tables_wave : (target_generation cl = 0 /\ target_ranges cl = [])
                \/ (generation cl < target_generation cl /\ target_ranges cl <> []);
}.

(** One peer more than [MAX_PEERS]: a node adds itself unconditionally. *)
Record node_ok (cl : edb_cluster) : Prop := {
  node_peers : peers_ok (S MAX_PEERS) (peers cl);
  node_self : self_id cl ∈ map p_id (peers cl);
  node_tables : tables_ok cl;
  node_claimed : 1 <= generation cl /\ ranges cl <> [];
}.

(** The state of a node. *)
Definition doc_ok (d : json) : Prop :=
  exists cl, node_ok cl /\ exact_gens cl /\ d = state_to_json cl.

Lemma table_ok_nil : table_ok [].
Proof. by split; [done|constructor|constructor|simpl; lia]. Qed.

Lemma table_ok_build ids :
  Forall id_ok ids -> NoDup ids -> (length ids <= S MAX_PEERS)%nat -> table_ok (build_slices ids).
Proof.
  intros Hi Hn Hl. split; rewrite ?build_slices_nodes, ?length_build_slices; done.
Qed.

#[export] Hint Resolve table_ok_nil : edb.

(** *** Peers *)

Lemma update_peer_ids id f ps :
  (forall p, p_id (f p) = p_id p) -> map p_id (update_peer id f ps) = map p_id ps.
Proof.
  intros Hf. induction ps as [|p ps IH]; [done|]. simpl. case_decide; simpl; by rewrite ?Hf, ?IH.
Qed.

Lemma map_peer_ids f ps : (forall p, p_id (f p) = p_id p) -> map p_id (map f ps) = map p_id ps.
Proof. intros Hf. rewrite map_map. by apply map_ext. Qed.

Lemma mark_online_ids id ps : map p_id (mark_online id ps).1 = map p_id ps.
Proof.
  induction ps as [|p ps IH]; [done|]. simpl. destruct (_ && _); [done|].
  destruct (mark_online id ps) as [ps' c]. simpl in *. by rewrite IH.
Qed.

Lemma find_peer_Some id ps p : find_peer id ps = Some p -> p_id p = id /\ p ∈ ps.
Proof.
  unfold find_peer. destruct (list_find _ ps) as [[i q]|] eqn:E; [|done]. intros [= <-].
  apply list_find_Some in E as (Hl & Hq & _). split; [done|]. by eapply list_elem_of_lookup_2.
Qed.

Lemma find_peer_None id ps : find_peer id ps = None -> id ∉ map p_id ps.
Proof.
  unfold find_peer. destruct (list_find _ ps) as [[i q]|] eqn:E; [done|]. intros _.
  apply list_find_None in E. intros (p & -> & Hp)%list_elem_of_fmap.
  rewrite Forall_forall in E. by apply (E p).
Qed.

Lemma find_peer_id id ps p : find_peer id ps = Some p -> p_id p = id.
Proof. by intros [? _]%find_peer_Some. Qed.

Lemma peers_ok_ids n ps qs : map p_id qs = map p_id ps -> peers_ok n ps -> peers_ok n qs.
Proof.
  intros Heq [Hd Hi Hs]. split; rewrite ?Heq; [done..|].
  apply (f_equal length) in Heq. rewrite !length_map in Heq. by rewrite Heq.
Qed.

Lemma peers_ok_add n ps p :
  peers_ok n ps -> id_ok (p_id p) -> find_peer (p_id p) ps = None -> peers_ok (S n) (ps ++ [p]).
Proof.
  intros [Hd Hi Hs] Hp Hnew. split; rewrite ?map_app.
  - apply NoDup_app. split; [done|]. split; [|apply NoDup_singleton].
    intros x Hx ->%list_elem_of_singleton. by apply find_peer_None in Hnew.
  - apply Forall_app. split; [done|]. by constructor.
  - rewrite length_app. simpl. lia.
Qed.

Lemma peers_ok_le n m ps : peers_ok n ps -> (length ps <= m)%nat -> peers_ok m ps.
Proof. intros [Hd Hi Hs] Hl. by split. Qed.

(** Same tables, other peers. *)
Lemma with_peers_ok cl ps :
  peers_ok (S MAX_PEERS) ps -> self_id cl ∈ map p_id ps -> node_ok cl -> node_ok (with_peers ps cl).
Proof. intros Hp Hself [_ _ Ht Hc]. split; [done..| |done]. destruct Ht. by split. Qed.

Lemma same_ids_ok cl ps : map p_id ps = map p_id (peers cl) -> node_ok cl -> node_ok (with_peers ps cl).
Proof.
  intros Heq Hok. apply with_peers_ok; [|by rewrite Heq; apply node_self|done].
  eapply peers_ok_ids; [done|]. by apply node_peers.
Qed.

Lemma update_peer_ok cl id f :
  (forall p, p_id (f p) = p_id p) -> node_ok cl ->
  node_ok (with_peers (update_peer id f (peers cl)) cl).
Proof. intros Hf. by apply same_ids_ok, update_peer_ids. Qed.

Lemma add_peer_ok cl p :
  node_ok cl -> id_ok (p_id p) -> find_peer (p_id p) (peers cl) = None ->
  (length (peers cl) < MAX_PEERS)%nat -> node_ok (with_peers (peers cl ++ [p]) cl).
Proof.
  intros Hok Hp Hnew Hlen. apply with_peers_ok; [..|done].
  - eapply peers_ok_le; [by apply (peers_ok_add (S MAX_PEERS)); [apply node_peers|..]|].
    rewrite length_app. simpl. lia.
  - rewrite map_app. apply elem_of_app. left. by apply node_self.
Qed.

(** Same peers, other tables. *)
Lemma with_tables_ok cl cl' :
  peers cl' = peers cl -> self_id cl' = self_id cl -> tables_ok cl' ->
  1 <= generation cl' /\ ranges cl' <> [] -> node_ok cl -> node_ok cl'.
Proof. intros Hp Hs Ht Hc [Hps Hself _ _]. split; rewrite ?Hp, ?Hs; done. Qed.

Lemma recompute_leader_ok cl : node_ok cl -> node_ok (recompute_leader cl).
Proof. intros [Hp Hs [] Hc]. by split; [..|split|]. Qed.

Lemma drop_tables_ok cl : tables_ok cl -> tables_ok (drop_target cl).
Proof. intros [Hg Hl Ht Hw]. split; cbn; auto with edb. Qed.

Lemma drop_target_ok cl : node_ok cl -> node_ok (drop_target cl).
Proof.
  intros Hok. eapply with_tables_ok; [..|exact Hok]; try done; [|by apply Hok].
  by apply drop_tables_ok, node_tables.
Qed.

#[export] Hint Resolve same_ids_ok update_peer_ok recompute_leader_ok drop_target_ok node_tables : edb.

(** *** Tables over the online members *)

Lemma filter_sublist {A} (f : A -> bool) l : sublist (List.filter f l) l.
Proof.
  induction l as [|x l IH]; [constructor|]. simpl. destruct (f x); by constructor.
Qed.

Lemma online_sublist cl : sublist (online_ids cl) (map p_id (peers cl)).
Proof. apply filter_sublist. Qed.

Lemma online_table_ok cl : node_ok cl -> table_ok (build_slices (sort_ids (online_ids cl))).
Proof.
  intros [[Hd Hi Hs] _ _ _]. apply table_ok_build.
  - rewrite sort_ids_perm. rewrite Forall_forall in Hi |- *. intros x Hx. apply Hi.
    by eapply elem_of_sublist; [|apply online_sublist].
  - apply sort_ids_NoDup. exact (sublist_NoDup _ _ Hd (online_sublist cl)).
  - rewrite length_sort_ids. pose proof (sublist_length _ _ (online_sublist cl)) as Hlen.
    rewrite length_map in Hlen. lia.
Qed.

Lemma online_table_nonempty cl :
  length (sort_ids (online_ids cl)) <> 0%nat -> build_slices (sort_ids (online_ids cl)) <> [].
Proof.
  intros Hz Hnil. apply (f_equal length) in Hnil. by rewrite length_build_slices in Hnil.
Qed.

Lemma publish_ok cl : node_ok cl -> node_ok (publish_target_locked cl).2.
Proof.
  intros Hok. pose proof (online_table_ok cl Hok) as Htab.
  pose proof (node_tables cl Hok) as [Hg Hl Ht Hw].
  unfold publish_target_locked. destruct (Nat.eqb_spec (length (sort_ids (online_ids cl))) 0) as [Hz|Hz]; [done|].
  destruct (_ && _); [done|]. destruct ((0 <? _) && _); [done|].
  eapply with_tables_ok; [..|exact Hok]; try done; [|by apply Hok].
  split; cbn; try done. right. split; [|by apply online_table_nonempty].
  destruct Hw as [[-> _]|[Hlt _]]; [simpl; lia|]. destruct (0 <? target_generation cl); lia.
Qed.

Lemma promote_ok now cl : node_ok cl -> node_ok (promote_target_locked now cl).
Proof.
  intros Hok. pose proof (node_tables cl Hok) as [Hg Hl Ht Hw].
  unfold promote_target_locked. destruct (_ || _) eqn:E; [done|].
  destruct Hw as [[Hw _]|[Hlt Hne]]; [by rewrite Hw in E|].
  eapply with_tables_ok; [..|exact Hok]; try done; [|split; [cbn; lia|done]].
  split; cbn; auto with edb. lia.
Qed.

Lemma shrink_ok gc cl : node_ok cl -> target_generation cl = 0 -> node_ok (shrink_table gc cl).
Proof.
  intros Hok Hz. pose proof (online_table_ok cl Hok) as Htab.
  pose proof (node_tables cl Hok) as [Hg Hl Ht Hw]. unfold shrink_table.
  destruct (Nat.eqb_spec (length (sort_ids (online_ids cl))) 0) as [Hn|Hn]; [done|]. cbn [orb].
  destruct (_ =? _)%nat; [done|].
  eapply with_tables_ok; [..|exact Hok]; try done; [|split; [cbn; lia|by apply online_table_nonempty]].
  split; cbn; try done; [lia|]. destruct Hw as [Hw|[Hlt _]]; [by left|lia].
Qed.

Lemma left_ok cl : node_ok cl -> node_ok (left_table cl).
Proof.
  intros Hok. unfold left_table. destruct (0 <? _)%nat; [apply shrink_ok|]; auto with edb.
Qed.

Lemma void_ok cl : node_ok cl -> node_ok (void_table cl).
Proof. intros Hok. apply drop_target_ok, same_ids_ok; [by apply map_peer_ids|done]. Qed.

(** *** Gossip: the peers *)

Lemma merge_peer_id selfish from_leader item p :
  p_id (merge_peer selfish from_leader item p).1 = p_id p.
Proof.
  assert (Hkeep : forall f : edb_peer_info -> edb_peer_info * bool,
            (forall q, p_id (f q).1 = p_id q) ->
            forall q, p_id (if selfish then (q, false) else f q).1 = p_id q)
    by (intros f Hf q; by destruct selfish).
  unfold merge_peer.
  rewrite (surjective_pairing (if selfish then (p, false) else merge_addr item p)).
  set (p1 := (if selfish then _ else merge_addr item p).1).
  rewrite (surjective_pairing (if selfish then (p1, false) else merge_port item p1)).
  set (p2 := (if selfish then _ else merge_port item p1).1).
  rewrite (surjective_pairing (if selfish then (p2, false) else merge_http item p2)).
  set (p3 := (if selfish then _ else merge_http item p2).1).
  rewrite (surjective_pairing (merge_seen item p3)). set (p4 := (merge_seen item p3).1).
  rewrite (surjective_pairing (merge_compliant item p4)). set (p5 := (merge_compliant item p4).1).
  rewrite (surjective_pairing (merge_removed from_leader item p5)). cbn [fst].
  transitivity (p_id p5); [unfold merge_removed; by repeat case_match|].
  transitivity (p_id p4); [unfold p5, merge_compliant; by destruct (_ <? _)|].
  transitivity (p_id p3); [unfold p4, merge_seen; by destruct (_ <? _)|].
  transitivity (p_id p2); [apply Hkeep; intros q; unfold merge_http; by repeat case_match|].
  transitivity (p_id p1); [apply Hkeep; intros q; unfold merge_port; by repeat case_match|].
  apply Hkeep. intros q. unfold merge_addr. by repeat case_match.
Qed.

Lemma with_peers_id cl : with_peers (peers cl) cl = cl.
Proof. by destruct cl. Qed.

Lemma merge_node_peers n from_leader cl item :
  (MAX_PEERS <= n)%nat -> peers_ok n (peers cl) ->
  exists ps, (merge_node from_leader cl item).1 = with_peers ps cl /\ peers_ok n ps /\
    forall id, id ∈ map p_id (peers cl) -> id ∈ map p_id ps.
Proof.
  intros Hn Hok. unfold merge_node. destruct (get_string item "id") as [id|];
    [|exists (peers cl); by rewrite with_peers_id].
  destruct (_ || _) eqn:Eid; [exists (peers cl); by rewrite with_peers_id|].
  apply orb_false_elim in Eid as [E1%String.eqb_neq E2%Nat.leb_gt].
  destruct (find_peer id (peers cl)) as [p|] eqn:Ef.
  - pose proof (merge_peer_id (String.eqb id (self_id cl)) from_leader item p) as Hid.
    destruct (merge_peer _ _ _ p) as [p' c]. simpl in Hid.
    assert (Hids : map p_id (update_peer id (fun _ => p') (peers cl)) = map p_id (peers cl)).
    { apply find_peer_id in Ef. rewrite Ef in Hid. clear -Hid. induction (peers cl) as [|q ps IH]; [done|].
      simpl. case_decide; simpl; congruence. }
    eexists. split; [reflexivity|]. split; [by eapply peers_ok_ids|]. by rewrite Hids.
  - destruct (Nat.leb_spec MAX_PEERS (length (peers cl))) as [?|Hlen];
      [exists (peers cl); by rewrite with_peers_id|].
    pose proof (merge_peer_id (String.eqb id (self_id cl)) from_leader item (blank_peer id)) as Hid.
    destruct (merge_peer _ _ _ _) as [p' c]. simpl in Hid.
    eexists. split; [reflexivity|]. split.
    + eapply peers_ok_le; [apply (peers_ok_add n); [done|by rewrite Hid|by rewrite Hid]|].
      rewrite length_app. simpl. lia.
    + intros x Hx. rewrite map_app. apply elem_of_app. by left.
Qed.

Lemma merge_nodes_snoc from_leader cl items item :
  (merge_nodes from_leader cl (items ++ [item])).1 =
  (merge_node from_leader (merge_nodes from_leader cl items).1 item).1.
Proof.
  unfold merge_nodes. rewrite foldl_app. simpl.
  destruct (foldl _ _ items) as [cl' c]. simpl. by destruct (merge_node _ _ _).
Qed.

Lemma merge_nodes_peers n from_leader cl items :
  (MAX_PEERS <= n)%nat -> peers_ok n (peers cl) ->
  exists ps, (merge_nodes from_leader cl items).1 = with_peers ps cl /\ peers_ok n ps /\
    forall id, id ∈ map p_id (peers cl) -> id ∈ map p_id ps.
Proof.
  intros Hn Hok. induction items as [|item items IH] using rev_ind.
  { exists (peers cl). split; [by rewrite with_peers_id|done]. }
  destruct IH as (ps & Heq & Hps & Hin). rewrite merge_nodes_snoc, Heq.
  destruct (merge_node_peers n from_leader (with_peers ps cl) item) as (ps' & Heq' & Hps' & Hin');
    [done|done|]. exists ps'. rewrite Heq'. split; [done|]. split; [done|]. naive_solver.
Qed.

(** *** Gossip: the tables *)

Lemma state_sender cl : get_string (state_to_json cl) "sender" = Some (self_id cl).
Proof. reflexivity. Qed.
Lemma state_nodes cl : get_item (state_to_json cl) "nodes" = Some (JArray (map peer_json (peers cl))).
Proof. reflexivity. Qed.
Lemma state_ranges cl :
  get_item (state_to_json cl) "ranges" = Some (table_json (generation cl) (ranges cl)).
Proof. reflexivity. Qed.
Lemma state_target cl :
  get_item (state_to_json cl) "target" =
  if 0 <? target_generation cl
  then Some (table_json (target_generation cl) (target_ranges cl)) else None.
Proof. unfold state_to_json. by destruct (0 <? target_generation cl). Qed.

Lemma table_generation g rs :
  0 <= g < 2 ^ 53 -> get_ll (table_json g rs) "generation" = Some g.
Proof. intros Hg. change (Some (Z_of_double (double_of_Z g)) = Some g). f_equal. by apply double_exact. Qed.
Lemma table_assignments g rs : assignments (Some (table_json g rs)) = Some (map range_json rs).
Proof. reflexivity. Qed.

Lemma length_slice_bound v : String.length (slice_bound v) = 32%nat.
Proof. rewrite slice_bound_key. apply length_hex_key. Qed.

Lemma build_slice_short n i id :
  id_ok id -> parse_assignment (range_json (build_slice n i id)) = Some (build_slice n i id).
Proof.
  intros [_ Hid]. set (r := build_slice n i id).
  change (Some (Range (String.substring 0 63 (node_id r)) (String.substring 0 32 (range_start r))
                  (String.substring 0 32 (range_end r))) = Some r).
  rewrite !substring_short; [by destruct r|..]; unfold r, build_slice; cbn [range_start range_end node_id].
  - destruct (S i =? n)%nat; [done|]. by rewrite length_slice_bound.
  - destruct (i =? 0)%nat; [done|]. by rewrite length_slice_bound.
  - unfold EDB_NODE_ID_MAX in Hid. lia.
Qed.

Lemma table_parse rs : table_ok rs -> omap parse_assignment (map range_json rs) = rs.
Proof.
  intros [Heq Hids _ _]. rewrite Heq. revert Hids. generalize (map node_id rs). clear. intros ids.
  unfold build_slices. set (f := build_slice (length ids)).
  assert (Hf : forall i id, id_ok id -> parse_assignment (range_json (f i id)) = Some (f i id))
    by (intros; by apply build_slice_short).
  clearbody f. revert f Hf. induction ids as [|id ids IH]; intros f Hf Hall; [done|].
  apply Forall_cons in Hall as [Hid Hids]. cbn [imap map omap list_omap]. rewrite Hf by done. f_equal.
  apply (IH (f ∘ S)); [|done]. intros i x Hx. by apply Hf.
Qed.

(** What the merges do with the tables of a well-formed state. *)
Lemma merge_live_state now cl g rs :
  table_ok rs -> 0 <= g < 2 ^ 53 ->
  merge_live now cl (Some (table_json g rs)) =
  let newer := generation cl <? g in
  let cl1 := if newer then with_live g (now + OFFLINE_AFTER_SECONDS) rs cl else cl in
  let over := (0 <? target_generation cl) && (target_generation cl <=? g) in
  (if over then drop_target cl1 else cl1, newer || over).
Proof.
  intros Hrs Hg. unfold merge_live. cbn [mbind option_bind]. rewrite table_generation by done.
  rewrite table_assignments, table_parse by done. cbv zeta.
  destruct (generation cl <? g); cbn [with_live target_generation]; by destruct (_ && _).
Qed.

Lemma merge_target_state from_leader cl g rs :
  table_ok rs -> rs <> [] -> 0 <= g < 2 ^ 53 ->
  merge_target from_leader cl (Some (table_json g rs)) =
  let adopt := (target_generation cl <? g) && (generation cl <? g) in
  (if adopt then with_target g rs cl else cl, adopt).
Proof.
  intros Hrs Hne Hg. unfold merge_target. cbn [mbind option_bind]. rewrite table_generation by done.
  cbv zeta. destruct (_ && _); [|done]. rewrite table_assignments.
  destruct rs as [|r rs]; [done|]. set (l := r :: rs) in *.
  change (map range_json l) with (range_json r :: map range_json rs). cbv beta iota.
  replace (omap parse_assignment (range_json r :: map range_json rs)) with l
    by (symmetry; by apply (table_parse l)).
  assert (length l = length (range_json r :: map range_json rs)) as Hlen
    by (unfold l; simpl; by rewrite length_map).
  by rewrite Hlen, Nat.eqb_refl.
Qed.

Lemma merge_target_none from_leader cl :
  merge_target from_leader cl None =
  let cleared := (0 <? target_generation cl) && from_leader in
  (if cleared then drop_target cl else cl, cleared).
Proof. unfold merge_target. cbv zeta. by destruct (_ && _). Qed.

Definition claimed (cl : edb_cluster) : Prop := 1 <= generation cl /\ ranges cl <> [].

(** The tables after merging the state of [c]. *)
Definition adopt_live (now : Z) (cl c : edb_cluster) : edb_cluster :=
  (merge_live now cl (get_item (state_to_json c) "ranges")).1.
Definition adopt_target (from_leader : bool) (cl c : edb_cluster) : edb_cluster :=
  (merge_target from_leader cl (get_item (state_to_json c) "target")).1.

Lemma adopt_live_ok now cl c :
  tables_ok c -> claimed c -> exact_gens c -> tables_ok cl ->
  let cl' := adopt_live now cl c in
  peers cl' = peers cl /\ self_id cl' = self_id cl /\ tables_ok cl' /\
  (claimed cl \/ generation cl = 0 -> claimed cl') /\
  generation cl' = Z.max (generation cl) (generation c) /\
  (generation cl' = generation cl -> ranges cl' = ranges cl).
Proof.
  intros [Hgc Hlc Htc Hwc] [Hc1 Hc2] [He1 He2] [Hg Hl Ht Hw].
  unfold adopt_live. rewrite state_ranges, merge_live_state by (done || lia). cbv zeta. cbn [fst].
  set (cl1 := if generation cl <? generation c then _ else cl).
  assert (H1 : peers cl1 = peers cl /\ self_id cl1 = self_id cl /\ target_generation cl1 = target_generation cl
               /\ target_ranges cl1 = target_ranges cl /\ table_ok (ranges cl1) /\
               generation cl1 = Z.max (generation cl) (generation c) /\
               (generation cl1 = generation cl -> ranges cl1 = ranges cl) /\
               (claimed cl \/ generation cl = 0 -> ranges cl1 <> [])).
  { unfold cl1, claimed. destruct (Z.ltb_spec (generation cl) (generation c)); cbn [with_live peers self_id
      target_generation target_ranges ranges generation]; split_and!; try done; try lia;
      intros [[? ?]|?]; done || lia. }
  clearbody cl1. destruct H1 as (Hp & Hs & Htg & Htr & Hl1 & Hgen & Hsame & Hne).
  assert (Hc1' : claimed cl \/ generation cl = 0 -> claimed cl1) by (intros; split; [lia|by apply Hne]).
  destruct (_ && _) eqn:Eover; (split; [done|]; split; [done|]; split; [|done]).
  - split; cbn; auto with edb. lia.
  - split; rewrite ?Htr, ?Htg; try done; [lia|]. rewrite Hgen.
    apply andb_false_iff in Eover. destruct Hw as [Hw|[Hlt Hw]]; [by left|right]. split; [lia|done].
Qed.

Lemma adopt_target_ok from_leader cl c :
  tables_ok c -> exact_gens c -> tables_ok cl ->
  let cl' := adopt_target from_leader cl c in
  peers cl' = peers cl /\ self_id cl' = self_id cl /\ tables_ok cl' /\
  generation cl' = generation cl /\ ranges cl' = ranges cl.
Proof.
  intros [Hgc Hlc Htc Hwc] [He1 He2] Hok. pose proof Hok as [Hg Hl Ht Hw].
  unfold adopt_target. rewrite state_target.
  destruct (Z.ltb_spec 0 (target_generation c)) as [Hpos|Hpos].
  - destruct Hwc as [[Hz _]|[Hlt Hne]]; [lia|]. rewrite merge_target_state by (done || lia).
    cbv zeta. cbn [fst]. destruct (_ && _) eqn:E; [|done].
    apply andb_prop in E as [_ E%Z.ltb_lt]. do 2 (split; [done|]). split; [|done].
    split; cbn; try done. by right.
  - rewrite merge_target_none. cbv zeta. cbn [fst]. destruct (_ && _); [|done].
    do 2 (split; [done|]). split; [by apply drop_tables_ok|done].
Qed.

(** Merging the state of a node: our peers grow, both tables stay well formed,
    the live table moves only to a greater generation. *)
Lemma merge_state_ok n now cl c :
  (MAX_PEERS <= n)%nat -> node_ok c -> exact_gens c -> peers_ok n (peers cl) -> tables_ok cl ->
  let cl' := (merge_state now cl (state_to_json c)).1 in
  peers_ok n (peers cl') /\ self_id cl' = self_id cl /\ tables_ok cl' /\
  (forall id, id ∈ map p_id (peers cl) -> id ∈ map p_id (peers cl')) /\
  (claimed cl \/ generation cl = 0 -> claimed cl') /\
  generation cl' = Z.max (generation cl) (generation c) /\
  (generation cl' = generation cl -> ranges cl' = ranges cl).
Proof.
  intros Hn [_ _ Hct Hcc] He Hps Ht. unfold merge_state. rewrite state_sender, state_nodes.
  set (fl := negb _ && _).
  destruct (merge_nodes_peers n fl cl (map peer_json (peers c)) Hn Hps) as (ps & Heq & Hps' & Hin).
  rewrite (surjective_pairing (merge_nodes _ _ _)), Heq.
  rewrite (surjective_pairing (merge_live _ _ _)). fold (adopt_live now (with_peers ps cl) c).
  rewrite (surjective_pairing (merge_target _ _ _)). cbn [fst].
  fold (adopt_target fl (adopt_live now (with_peers ps cl) c) c).
  assert (Ht' : tables_ok (with_peers ps cl)) by (destruct Ht; by split).
  destruct (adopt_live_ok now (with_peers ps cl) c Hct Hcc He Ht') as (H1 & H2 & H3 & H4 & H5 & H6).
  destruct (adopt_target_ok fl _ c Hct He H3) as (G1 & G2 & G3 & G4 & G5).
  rewrite G1, G2, H1, H2, G4, G5. split_and!; try done.
  unfold claimed in *. rewrite G4, G5. exact H4.
Qed.

(** *** Every step *)

Lemma node_merge now cl d : doc_ok d -> node_ok cl -> node_ok (merge_state now cl d).1.
Proof.
  intros (c & Hc & He & ->) [Hp Hs Ht Hcl].
  destruct (merge_state_ok (S MAX_PEERS) now cl c) as (H1 & H2 & H3 & H4 & H5 & _); [lia|done..|].
  split; [done|rewrite H2; by apply H4|done|by apply H5; left].
Qed.

Lemma hello_admit_ok cl id is_self joining :
  node_ok cl -> node_ok (hello_admit cl id is_self joining).2.
Proof.
  intros Hok. unfold hello_admit. destruct (_ || _ || _); [done|].
  assert (H : node_ok (match find_peer id (peers cl) with
                       | Some p => if p_removed p && joining
                           then with_peers (update_peer id (fun p => set_seen 0 (set_removed false p))
                                              (peers cl)) cl
                           else cl
                       | None => cl
                       end)) by (repeat case_match; auto with edb).
  destruct (match find_peer id (peers cl) with Some p => p_removed p && negb joining | None => false end);
    [done|].
  destruct (find_peer id (peers cl)); [done|]. by destruct (0 <? _).
Qed.

Lemma hello_fields_id now addr h p : p_id (hello_fields now addr h p) = p_id p.
Proof. unfold hello_fields. by destruct (port_in_range _). Qed.

Lemma hello_adopt_ok now cl id is_self h :
  id = EmptyString \/ id_ok id -> node_ok cl -> node_ok (hello_adopt now cl id is_self h).
Proof.
  intros Hid Hok. unfold hello_adopt. destruct (get_string h "addr") as [addr|]; [|done].
  destruct (_ && _ && _) eqn:E; [|done]. apply andb_prop in E as [[E _]%andb_prop _].
  destruct Hid as [-> |Hid]; [done|]. destruct (find_peer id (peers cl)) as [p|] eqn:Ef.
  - apply update_peer_ok; [|done]. intros q. apply hello_fields_id.
  - destruct (Nat.ltb_spec (length (peers cl)) MAX_PEERS); [|done].
    apply add_peer_ok; rewrite ?hello_fields_id; done.
Qed.

Lemma hello_id_ok preset h :
  preset = EmptyString \/ id_ok preset -> hello_id preset h = EmptyString \/ id_ok (hello_id preset h).
Proof.
  intros Hp. unfold hello_id. destruct (get_string h "node_id") as [id|]; [|done].
  destruct (Nat.ltb_spec (String.length id) EDB_NODE_ID_MAX); [|done].
  destruct (decide (id = EmptyString)); [by left|by right].
Qed.

Lemma conn_hello_ok now cl preset h :
  preset = EmptyString \/ id_ok preset -> node_ok cl -> node_ok (conn_hello now cl preset h).2.
Proof.
  intros Hp Hok. unfold conn_hello. destruct h as [h|]; [|done]. cbv zeta.
  pose proof (hello_admit_ok cl (hello_id preset h) (hello_is_self cl h) (is_true_item h "join") Hok) as Ha.
  destruct (hello_admit _ _ _ _) as [[r|] cl']; [done|]. cbn [snd] in *.
  by apply hello_adopt_ok; [apply hello_id_ok|].
Qed.

Lemma conn_state_ok now cl id d : doc_ok d -> node_ok cl -> node_ok (conn_state now cl id (Some d)).1.
Proof.
  intros Hd Hok. pose proof (node_merge now cl d Hd Hok) as Hm. unfold conn_state.
  destruct (merge_state now cl d) as [cl' c1]. cbn [fst] in Hm. destruct (String.eqb id "").
  - by apply recompute_leader_ok.
  - pose proof (mark_online_ids id (peers cl')) as Hids. destruct (mark_online id (peers cl')) as [ps c2].
    by apply recompute_leader_ok, same_ids_ok.
Qed.

Lemma conn_register_ok cl id : node_ok cl -> node_ok (conn_register cl id).1.
Proof.
  intros Hok%recompute_leader_ok. unfold conn_register. cbv zeta.
  destruct (find_peer _ _); [|done]. by apply update_peer_ok.
Qed.

Lemma node_step_ok soup cl cl' :
  Forall doc_ok soup -> node_step soup cl cl' -> node_ok cl -> node_ok cl'.
Proof.
  intros Hsoup Hstep Hok. rewrite Forall_forall in Hsoup. destruct Hstep.
  - apply conn_state_ok; auto.
  - by apply recompute_leader_ok.
  - apply recompute_leader_ok, node_merge; auto.
  - by apply conn_hello_ok.
  - by apply conn_register_ok.
  - by apply recompute_leader_ok, update_peer_ok.
  - by apply left_ok.
  - by apply publish_ok.
  - by apply promote_ok.
  - by apply void_ok.
  - apply update_peer_ok; [|done]. intros p. by destruct (_ <? _).
  - by apply update_peer_ok.
  - apply same_ids_ok; [|done]. apply map_peer_ids. intros p. by destruct (expired_peer _ _ _).
  - apply shrink_ok; [by apply drop_target_ok|done].
  - unfold edb_cluster_set_http_port. destruct (_ || _); [done|].
    apply (update_peer_ok (with_http_port n cl)); [done|]. destruct Hok as [? ? [] ?]. by split; [..|split|].
  - destruct Hok as [? ? [] ?]. by split; [..|split|].
Qed.

(** *** Starting *)

Lemma start_node_id_ok addr port : id_ok (start_node_id addr port).
Proof.
  unfold start_node_id. cbv zeta. split; [done|].
  assert (forall n s, (String.length (String.substring 0 n s) <= n)%nat) as Hsub.
  { intros n. induction n as [|n IH]; intros [|c s]; simpl; try lia. specialize (IH s). lia. }
  specialize (Hsub 12%nat (Manager.md5_of_string (snprintf 256 ("edb-node:" +:+ addr +:+ ":" +:+ print_i64 port)))).
  revert Hsub. generalize (String.substring 0 12 (Manager.md5_of_string
    (snprintf 256 ("edb-node:" +:+ addr +:+ ":" +:+ print_i64 port)))). intros s Hs.
  change (5 + String.length s < 64)%nat. lia.
Qed.

Lemma add_self_ok now cl :
  id_ok (self_id cl) -> peers_ok MAX_PEERS (peers cl) -> tables_ok cl ->
  let cl' := add_self_locked now cl in
  peers_ok (S MAX_PEERS) (peers cl') /\ self_id cl' = self_id cl /\
  self_id cl ∈ map p_id (peers cl') /\ tables_ok cl' /\
  generation cl' = generation cl /\ ranges cl' = ranges cl /\ target_generation cl' = target_generation cl.
Proof.
  intros Hid Hps Ht. unfold add_self_locked. destruct (find_peer (self_id cl) (peers cl)) as [p|] eqn:Ef.
  - assert (Hids : map p_id (update_peer (self_id cl) (set_self_online cl) (peers cl)) = map p_id (peers cl))
      by (by apply update_peer_ids).
    cbn [peers with_peers self_id generation ranges target_generation]. split_and!; try done.
    + eapply peers_ok_ids; [done|]. eapply peers_ok_le; [done|]. destruct Hps. lia.
    + rewrite Hids. apply find_peer_Some in Ef as [<- Hin]. by apply list_elem_of_fmap_2.
    + destruct Ht. by split.
  - cbn [peers with_peers self_id generation ranges target_generation]. split_and!; try done.
    + by apply peers_ok_add.
    + rewrite map_app. apply elem_of_app. right. by apply list_elem_of_singleton.
    + destruct Ht. by split.
Qed.

(** A node that knows nobody elects itself and claims the hash space. *)
Lemma claim_alone now cl :
  self_id cl <> EmptyString -> peers cl = [] -> ranges cl = [] -> target_generation cl = 0 ->
  target_ranges cl = [] ->
  claim_space (recompute_leader (add_self_locked now cl)) =
  MkCluster (self_id cl) (self_addr cl) (self_port cl) (self_http_port cl)
    (peers (add_self_locked now cl)) (generation cl + 1) (gc_after cl) (build_slices [self_id cl])
    0 [] (auto_compliant cl) (self_id cl).
Proof.
  destruct cl as [self addr port http ps gen gc rs tgen trs auto l]. cbn. intros Hne -> -> -> ->.
  unfold add_self_locked, find_peer. cbn. unfold recompute_leader, online_ids. cbn.
  unfold is_online_view. cbn. rewrite String.eqb_refl. cbn.
  unfold claim_space, leader_is_self_locked. cbn. rewrite String.eqb_refl.
  replace (String.eqb self "") with false by (symmetry; by apply String.eqb_neq). done.
Qed.

Lemma boot_ok now addr port doc :
  match doc with Some d => doc_ok d | None => True end -> node_ok (boot now addr port doc).
Proof.
  intros Hd. unfold boot. set (cl0 := new_cluster addr port).
  assert (Hnew : peers_ok MAX_PEERS (peers cl0) /\ tables_ok cl0 /\ id_ok (self_id cl0)).
  { split; [|split].
    - split; [constructor|constructor|simpl; lia].
    - split; cbn; auto with edb. lia.
    - apply start_node_id_ok. }
  destruct Hnew as (Hp0 & Ht0 & Hid0).
  assert (Hm : let cl := merge_doc now cl0 doc in
               peers_ok MAX_PEERS (peers cl) /\ tables_ok cl /\ self_id cl = self_id cl0 /\
               (claimed cl \/ cl = cl0)).
  { destruct doc as [d|]; cbn [merge_doc]; [|by split_and!; try done; right].
    destruct Hd as (c & Hc & He & ->).
    destruct (merge_state_ok MAX_PEERS now cl0 c) as (H1 & H2 & H3 & _ & H5 & _); [lia|done..|].
    split_and!; try done. left. apply H5. by right. }
  cbv zeta in Hm. revert Hm. generalize (merge_doc now cl0 doc). intros cl (Hp & Ht & Hs & Hc).
  destruct (add_self_ok now cl) as (A1 & A2 & A3 & A4 & A5 & A6 & A7); [by rewrite Hs|done..|].
  rewrite <-A2 in A3. assert (Hid : id_ok (self_id (add_self_locked now cl))) by (by rewrite A2, Hs).
  destruct Hc as [[Hc1 Hc2]|Hc].
  - unfold claim_space. replace (length _ =? 0)%nat with false.
    + rewrite andb_false_r. apply recompute_leader_ok. split; [done..|]. by rewrite A5, A6.
    + symmetry. apply Nat.eqb_neq. intros Hz. apply nil_length_inv in Hz. by rewrite <-A6 in Hc2.
  - rewrite Hc, claim_alone; [|apply Hid0|done..]. rewrite Hc in A1, A3, A4, Hid.
    split; [done|done| |split; done].
    split; [cbn; lia| |apply table_ok_nil|by left].
    change (table_ok (build_slices [self_id cl0])).
    apply table_ok_build; [by constructor|apply NoDup_singleton|simpl; lia].
Qed.

(** ** Every reachable world *)

Definition world_ok (w : world) : Prop := Forall node_ok (nodes w) /\ Forall doc_ok (soup w).

Lemma mesh_step_ok w w' : mesh_step w w' -> world_ok w -> world_ok w'.
Proof.
  intros Hstep [Hn Hs]. destruct Hstep as [w i cl cl' Hi Hstep|w i cl Hi He|w now addr port doc Hd|w i];
    (split; [|done || (constructor; [|done])]); cbn [nodes soup].
  - apply Forall_insert; [done|]. eapply node_step_ok; [done..|]. by eapply Forall_lookup_1 in Hi.
  - done.
  - exists cl. split; [by eapply Forall_lookup_1 in Hi|done].
  - apply Forall_app. split; [done|]. apply Forall_singleton, boot_ok.
    destruct doc as [d|]; [|done]. rewrite Forall_forall in Hs. by apply Hs.
  - by apply Forall_delete.
Qed.

Lemma reachable_ok w : reachable w -> world_ok w.
Proof.
  intros Hr. assert (H0 : world_ok (World [] [])) by (split; constructor).
  revert H0. induction Hr as [|w1 w2 w3 Hstep _ IH]; [done|]. intros Hok.
  apply IH. by eapply mesh_step_ok.
Qed.

(** Every digest lies in exactly one slice of the table, its owner's. *)
Definition partitions (rs : list edb_range_info) : Prop :=
  forall k, 0 <= k < 2 ^ 128 ->
  exists i r, rs !! i = Some r /\ table_owner rs (hex_key k) = Some (node_id r) /\
    forall j r', rs !! j = Some r' -> in_slice (hex_key k) r' = bool_decide (j = i).

Lemma table_partitions rs : table_ok rs -> rs <> [] -> partitions rs.
Proof.
  intros [Heq Hids Hd Hl] Hne k Hk. set (ids := map node_id rs) in *.
  assert (Hlen : length ids = length rs) by apply length_map.
  assert (Hpos : (0 < length ids)%nat) by (rewrite Hlen; destruct rs; [done|simpl; lia]).
  unfold MAX_PEERS in Hl. set (i := slice_index (length ids) k).
  destruct (lookup_lt_is_Some_2 rs i) as [r Hr].
  { rewrite <-Hlen. by apply slice_index_lt. }
  exists i, r. split; [done|]. split.
  - rewrite Heq at 1. rewrite build_slices_owner by (done || lia). fold i. unfold ids.
    rewrite list_lookup_fmap, Hr. done.
  - intros j r' Hj. rewrite Heq in Hj. unfold build_slices in Hj. rewrite list_lookup_imap in Hj.
    destruct (ids !! j) as [id|] eqn:Eid; [|done]. injection Hj as <-.
    apply in_slice_build; [by eapply lookup_lt_Some|lia|done].
Qed.

(** C11: Safety of the mesh: whatever the interleaving of connections, state
    messages (late, repeated or lost), joins, removals, rebalance waves,
    crashes and restarts, every node at every time has a live table that
    partitions the hash space among distinct nodes, and either no pending
    target or one of a greater generation that partitions it too; its peer
    table has no duplicate, contains the node, and never outgrows its bound. *)
Theorem mesh_safe (w : world) (i : nat) (cl : edb_cluster) :
  reachable w -> nodes w !! i = Some cl ->
  (partitions (ranges cl) /\ NoDup (map node_id (ranges cl))) /\
  ((target_generation cl = 0 /\ target_ranges cl = []) \/
   (generation cl < target_generation cl /\ partitions (target_ranges cl)
    /\ NoDup (map node_id (target_ranges cl)))) /\
  NoDup (map p_id (peers cl)) /\ self_id cl ∈ map p_id (peers cl) /\
  (length (peers cl) <= S MAX_PEERS)%nat.
Proof.
  intros Hr Hi. destruct (reachable_ok w Hr) as [Hn _].
  destruct (Forall_lookup_1 _ _ _ _ Hn Hi) as [[Hd _ Hs] Hself [Hg Hl Ht Hw] [_ Hc]].
  split; [by split; [apply table_partitions|apply Hl]|]. split; [|done].
  destruct Hw as [Hw|[Hlt Hne]]; [by left|right]. split; [done|].
  split; [by apply table_partitions|apply Ht].
Qed.

(** ** The live table is versioned *)

Definition versioned (cl cl' : edb_cluster) : Prop :=
  generation cl <= generation cl' /\ (generation cl' = generation cl -> ranges cl' = ranges cl).

#[export] Instance versioned_preorder : PreOrder versioned.
Proof.
  split; [by intros cl|]. intros a b c [H1 H2] [H3 H4]. split; [lia|].
  intros Heq. assert (Hb : generation b = generation a) by lia. rewrite H4, H2; [done..|lia].
Qed.

Lemma same_tables_versioned cl cl' :
  generation cl' = generation cl -> ranges cl' = ranges cl -> versioned cl cl'.
Proof. intros Hg Hr. split; [lia|done]. Qed.

Lemma shrink_versioned gc cl : versioned cl (shrink_table gc cl).
Proof. unfold shrink_table. destruct (_ || _); [done|]. split; cbn; lia. Qed.

Lemma publish_versioned cl : versioned cl (publish_target_locked cl).2.
Proof.
  unfold publish_target_locked. cbv zeta. destruct (length _ =? 0)%nat; [done|].
  destruct (_ && _); [done|]. by destruct (_ && _).
Qed.

Lemma merge_versioned now cl d :
  doc_ok d -> node_ok cl -> versioned cl (merge_state now cl d).1.
Proof.
  intros (c & Hc & He & ->) [Hp _ Ht _].
  destruct (merge_state_ok (S MAX_PEERS) now cl c) as (_ & _ & _ & _ & _ & Hg & Hr); [lia|done..|].
  split; [lia|done].
Qed.

Lemma hello_tables now cl preset h :
  let cl' := (conn_hello now cl preset h).2 in generation cl' = generation cl /\ ranges cl' = ranges cl.
Proof.
  unfold conn_hello, hello_admit, hello_adopt. destruct h as [h|]; [|done]. cbv zeta.
  by repeat case_match; simplify_eq.
Qed.

Lemma conn_state_versioned now cl id d :
  doc_ok d -> node_ok cl -> versioned cl (conn_state now cl id (Some d)).1.
Proof.
  intros Hd Hok. etransitivity; [by apply (merge_versioned now cl d)|].
  unfold conn_state. destruct (merge_state now cl d) as [cl' c1]. cbn [fst].
  destruct (String.eqb id ""); [done|]. by destruct (mark_online id (peers cl')).
Qed.

(** A node never changes its live table without raising its generation,
    and never goes back to an older generation, in any critical section of
    any reachable world. *)
Theorem live_table_versioned (w : world) (i : nat) (cl cl' : edb_cluster) :
  reachable w -> nodes w !! i = Some cl -> rtc (node_step (soup w)) cl cl' ->
  generation cl <= generation cl' /\ (generation cl' = generation cl -> ranges cl' = ranges cl).
Proof.
  intros Hr Hi Hsteps. destruct (reachable_ok w Hr) as [Hn Hs].
  pose proof (Forall_lookup_1 _ _ _ _ Hn Hi) as Hok. clear Hi. change (versioned cl cl').
  induction Hsteps as [cl|cl cl1 cl2 Hstep Hrest IH]; [done|].
  transitivity cl1; [|apply IH; by eapply node_step_ok]. clear IH Hrest.
  pose proof Hs as Hs'. rewrite Forall_forall in Hs. destruct Hstep; try by apply same_tables_versioned.
  - apply conn_state_versioned; auto.
  - etransitivity; [by apply (merge_versioned now cl doc); auto|done].
  - apply same_tables_versioned; apply hello_tables.
  - unfold conn_register. cbv zeta. destruct (find_peer _ _); done.
  - unfold left_table. destruct (0 <? _)%nat; [|done]. apply (shrink_versioned _ (drop_target cl)).
  - apply publish_versioned.
  - unfold promote_target_locked. destruct (_ || _) eqn:E; [done|].
    destruct (node_tables cl Hok) as [_ _ _ [[Hz _]|[Hlt _]]]; [by rewrite Hz in E|]. split; cbn; lia.
  - apply (shrink_versioned _ (drop_target cl)).
  - unfold edb_cluster_set_http_port. by destruct (_ || _).
Qed.

(** ** The operations are sequences of critical sections *)

Section operations.
Context {S : Type} `{RecordStore S} `{JsonCodec}.
Context (cfg : edb_config S) (soup : list json).

(** What a computation returns, whatever the store. *)
Definition yields {A} (m : st S A) (P : A -> Prop) : Prop := forall s, P (m s).1.

Lemma yields_ret {A} (a : A) (P : A -> Prop) : P a -> yields (mret a) P.
Proof. by intros Ha s. Qed.

Lemma yields_bind {A B} (m : st S A) (f : A -> st S B) (Q : A -> Prop) (P : B -> Prop) :
  yields m Q -> (forall a, Q a -> yields (f a) P) -> yields (m ≫= f) P.
Proof. intros Hm Hf s. rewrite st_bind_run. apply Hf, Hm. Qed.

Lemma yields_then {A B} (m : st S A) (f : A -> st S B) (P : B -> Prop) :
  (forall a, yields (f a) P) -> yields (m ≫= f) P.
Proof. intros Hf. by apply (yields_bind m f (fun _ => True)). Qed.

Abbreviation steps := (rtc (node_step soup)).

Ltac run := repeat (apply yields_then; intros ?); try apply yields_ret; simpl.

Lemma promote_locked_steps now cl :
  yields (promote_locked cfg now cl) (fun r => steps cl r.2).
Proof.
  unfold promote_locked. destruct (leader_is_self_locked cl) eqn:El; [|by run].
  destruct (0 <? _); [|by run]. cbn [andb]. cbv zeta. run.
  by apply rtc_once, step_promote.
Qed.

Lemma promote_target_steps now cl :
  yields (edb_cluster_promote_target cfg now cl) (fun r => steps cl r.2).
Proof.
  unfold edb_cluster_promote_target. destruct (_ =? _); [by run|].
  apply yields_then. intros [|]; [apply promote_locked_steps|by run].
Qed.

Lemma maybe_promote_steps now cl :
  yields (edb_cluster_maybe_promote cfg now cl) (fun r => steps cl r.2).
Proof.
  unfold edb_cluster_maybe_promote. destruct (_ || _); [by run|].
  apply yields_then. intros [|]; [apply promote_target_steps|by run].
Qed.

Lemma leader_react_steps now cl changed :
  yields (leader_react cfg now cl changed) (fun cl' => steps cl cl').
Proof.
  unfold leader_react. destruct changed; [|by run]. cbv zeta. cbn [negb].
  set (cl1 := if leader_is_self_locked cl then _ else cl).
  assert (H1 : steps cl cl1).
  { unfold cl1. destruct (leader_is_self_locked cl) eqn:El; [by apply rtc_once, step_publish|done]. }
  clearbody cl1. do 2 (apply yields_then; intros ?). destruct (_ && _); [|by run].
  eapply yields_bind; [apply maybe_promote_steps|]. intros r Hr. run. by etransitivity.
Qed.

Lemma shrink_steps now cl :
  leader_is_self_locked cl = true ->
  yields (shrink_live_locked cfg now cl) (fun cl' => steps cl cl').
Proof. intros Hl. unfold shrink_live_locked. run. by apply rtc_once, step_shrink. Qed.

Lemma auto_comply_steps cl path validate :
  yields (auto_comply cfg cl path validate) (fun cl' => steps cl cl').
Proof.
  unfold auto_comply. destruct (_ && _ && _); [|by run]. apply yields_then. intros [|]; [by run|].
  unfold edb_cluster_mark_compliant. cbv zeta. destruct (_ =? 0); [|destruct (_ =? 0)]; run; try done.
  all: by apply rtc_once, step_mark.
Qed.

Lemma auto_remove_steps now cl :
  yields (auto_remove cfg now cl) (fun cl' => steps cl cl').
Proof.
  unfold auto_remove. destruct (leader_is_self_locked cl) eqn:El; [|by run].
  pose proof (step_expire soup cl now) as Hx. destruct (remove_expired now cl) as [cl1 any] eqn:Er.
  assert (El1 : leader_is_self_locked cl1 = true) by (injection Er as <- _; exact El).
  destruct any; [|by run; apply rtc_once].
  eapply yields_bind; [by apply shrink_steps|]. intros cl2 H2. run. by eapply rtc_l.
Qed.

(** Every operation of the cluster, on any contents of the settings, is
    a sequence of the critical sections the mesh interleaves; so what holds of
    all reachable worlds holds between and after the operations. *)
Theorem operations_are_steps now cl id doc path validate gc keys :
  doc ∈ soup ->
  yields (on_state cfg now cl id (Some doc)) (fun cl' => steps cl cl') /\
  yields (on_registered cfg now cl id) (fun cl' => steps cl cl') /\
  yields (conn_closed cfg cl id) (fun cl' => steps cl cl') /\
  yields (edb_cluster_remove_node cfg now cl id) (fun r => steps cl r.2) /\
  yields (edb_cluster_void_target cfg cl) (fun r => steps cl r.2) /\
  yields (edb_cluster_publish_target cfg cl) (fun r => steps cl r.2) /\
  yields (edb_cluster_promote_target cfg now cl) (fun r => steps cl r.2) /\
  yields (maintainer_tick cfg now cl path validate gc keys) (fun cl' => steps cl cl').
Proof.
  intros Hdoc. split; [|split; [|split; [|split; [|split; [|split; [|split]]]]]].
  - unfold on_state. pose proof (step_state soup cl now id doc Hdoc) as H1.
    destruct (conn_state now cl id (Some doc)) as [cl1 changed]. destruct changed; [|by run; apply rtc_once].
    intros s. eapply rtc_l; [exact H1|apply leader_react_steps].
  - unfold on_registered. pose proof (step_register soup cl id) as H1.
    destruct (conn_register cl id) as [cl1 became]. intros s.
    eapply rtc_l; [exact H1|apply leader_react_steps].
  - unfold conn_closed. cbv zeta. destruct (leader_is_self_locked _); run.
    + eapply rtc_l; [apply (step_lost soup cl id)|]. apply rtc_once. apply step_left.
    + apply rtc_once, step_lost.
  - unfold edb_cluster_remove_node. destruct (String.eqb_spec id ""); [by run|].
    destruct (String.eqb_spec id (self_id cl)) as [?|Hne]; [by run|].
    destruct (find_peer id (peers cl)); [|by run]. cbv zeta.
    eapply yields_bind with (Q := fun cl' => steps cl cl'); [|intros cl' Hcl'; by run].
    destruct (leader_is_self_locked _) eqn:El; [|run; by apply rtc_once, step_remove].
    intros s. eapply rtc_l; [by apply step_remove|by apply shrink_steps].
  - unfold edb_cluster_void_target. destruct (leader_is_self_locked cl) eqn:El; [|by run].
    destruct (0 <? _); [|by run]. cbn [andb]. cbv zeta. run. by apply rtc_once, step_void.
  - unfold edb_cluster_publish_target. destruct (leader_is_self_locked cl) eqn:El; [|by run].
    pose proof (step_publish soup cl El) as H1. destruct (publish_target_locked cl) as [b cl1].
    destruct b; run; by apply rtc_once.
  - apply promote_target_steps.
  - unfold maintainer_tick. eapply yields_bind; [apply maybe_promote_steps|]. intros r Hr.
    eapply yields_bind; [apply auto_comply_steps|]. intros cl1 H1. apply yields_then. intros _ s.
    etransitivity; [exact Hr|]. etransitivity; [exact H1|]. apply auto_remove_steps.
Qed.

End operations.

(** ** A concrete mesh *)

(** Two nodes start; the state of the first reaches the second. *)
Definition node_a : edb_cluster := boot 100 "10.0.0.1" 7001 None.
Definition node_b : edb_cluster := boot 101 "10.0.0.2" 7001 None.
Definition node_b' : edb_cluster := recompute_leader (merge_state 102 node_b (state_to_json node_a)).1.
Definition demo_world : world := World [node_a; node_b'] [state_to_json node_a].

Lemma node_a_generation : generation node_a = 1 /\ target_generation node_a = 0.
Proof. vm_compute. done. Qed.

Lemma demo_reachable : reachable demo_world.
Proof.
  apply (rtc_l _ _ (World [node_a] [])); [by apply (mesh_boot (World [] []) 100 "10.0.0.1" 7001 None)|].
  apply (rtc_l _ _ (World [node_a; node_b] []));
    [by apply (mesh_boot (World [node_a] []) 101 "10.0.0.2" 7001 None)|].
  apply (rtc_l _ _ (World [node_a; node_b] [state_to_json node_a])).
  - apply (mesh_send (World [node_a; node_b] []) 0); [done|]. unfold exact_gens.
    destruct node_a_generation as [-> ->]. lia.
  - apply rtc_once. apply (mesh_node (World [node_a; node_b] [state_to_json node_a]) 1 node_b); [done|].
    apply step_absorb. by left.
Qed.

Lemma mesh_safe_witness :
  reachable demo_world /\ partitions (ranges node_b') /\ length (peers node_b') = 2%nat.
Proof.
  split; [exact demo_reachable|].
  destruct (mesh_safe demo_world 1 node_b' demo_reachable eq_refl) as ((Hp & _) & _).
  split; [exact Hp|vm_compute; reflexivity].
Defined.

Lemma live_table_versioned_witness :
  reachable demo_world /\ generation node_b' <= generation (left_table node_b').
Proof.
  split; [exact demo_reachable|].
  apply (live_table_versioned demo_world 1 node_b' (left_table node_b') demo_reachable eq_refl).
  apply rtc_once, step_left.
Defined.

Lemma operations_are_steps_witness :
  let soup := [state_to_json node_a] in
  rtc (node_step soup) node_b
    (on_state (S := map_store) edb_config_open 102 node_b "node-a" (Some (state_to_json node_a)) ∅).1 /\
  (state_to_json node_a ∈ soup).
Proof.
  intros soup. assert (Hin : state_to_json node_a ∈ soup) by by left. split; [|exact Hin].
  exact (proj1 (operations_are_steps (S := map_store) edb_config_open soup 102 node_b "node-a"
    (state_to_json node_a) "/data" (fun _ _ => true) (fun _ => mret false) [] Hin) ∅).
Defined.

End Mesh.
