(* ===== verification/Gossip.v ===== *)
(** Gossip settles: merging the state of a node a second time changes nothing
    and reports no change, so the heartbeats of a quiet mesh trigger no
    reaction. *)

From S2P Require Import Prelude BlockHash Md5 Crypto Json Shard Manager Store Config Cluster.
From S2P Require Import MapStore ConfigFacts Doubles ClusterPlacement Mesh.

Module Gossip.

Import Json Store Config Cluster Doubles ClusterPlacement Mesh.

(** ** One peer *)

(** A merge that returns its argument and reports nothing. *)
Definition stable {A} (f : A -> A * bool) (a : A) : Prop := f a = (a, false).

Section fields.
Context (item : json) (from_leader : bool).

(** Each merge looks at one field and keeps the others. *)
Ltac field_merge :=
  unfold stable, merge_addr, merge_port, merge_http, merge_seen, merge_compliant, merge_removed;
  cbv zeta; intros;
  repeat match goal with |- context [match ?o with Some _ => _ | None => _ end] => destruct o end;
  repeat match goal with |- context [if ?b then _ else _] => destruct b eqn:? end; try done.

Lemma merge_addr_stable p : stable (merge_addr item) (merge_addr item p).1.
Proof.
  unfold stable, merge_addr. destruct (get_string item "addr") as [a|]; [|done].
  destruct (_ <? _)%nat; [|done]. cbn [andb].
  destruct (String.eqb_spec (p_addr p) a) as [Heq|Hne]; cbn [negb fst].
  - by rewrite (proj2 (String.eqb_eq _ _) Heq).
  - cbn. by rewrite String.eqb_refl.
Qed.

Lemma merge_port_stable p : stable (merge_port item) (merge_port item p).1.
Proof.
  unfold stable, merge_port. destruct (get_int item "port") as [n|]; [|done].
  destruct (port_in_range n); [|done]. cbn [andb].
  destruct (Z.eqb_spec (p_port p) n) as [Heq|Hne]; cbn [negb fst set_port p_port].
  - by rewrite (proj2 (Z.eqb_eq _ _) Heq).
  - by rewrite Z.eqb_refl.
Qed.

Lemma merge_http_stable p : stable (merge_http item) (merge_http item p).1.
Proof.
  unfold stable, merge_http. destruct (get_int item "http_port") as [n|]; [|done].
  destruct (port_in_range n); [|done]. cbn [andb].
  destruct (Z.eqb_spec (p_http_port p) n) as [Heq|Hne]; cbn [negb fst set_http p_http_port].
  - by rewrite (proj2 (Z.eqb_eq _ _) Heq).
  - by rewrite Z.eqb_refl.
Qed.

Lemma merge_seen_stable p : stable (merge_seen item) (merge_seen item p).1.
Proof.
  unfold stable, merge_seen. cbv zeta.
  destruct (Z.ltb_spec (p_last_seen p) (default 0 (get_ll item "last_seen"))); cbn [fst set_seen p_last_seen].
  - by rewrite Z.ltb_irrefl.
  - by rewrite (proj2 (Z.ltb_ge _ _)).
Qed.

Lemma merge_compliant_stable p : stable (merge_compliant item) (merge_compliant item p).1.
Proof.
  unfold stable, merge_compliant. cbv zeta.
  destruct (Z.ltb_spec (p_compliant_gen p) (default 0 (get_ll item "compliant"))); cbn [fst set_compliant p_compliant_gen].
  - by rewrite Z.ltb_irrefl.
  - by rewrite (proj2 (Z.ltb_ge _ _)).
Qed.

Lemma merge_removed_stable p : stable (merge_removed from_leader item) (merge_removed from_leader item p).1.
Proof.
  unfold stable, merge_removed.
  destruct (is_true_item item "removed") eqn:Er, (p_removed p) eqn:Ep; cbn; rewrite ?Er, ?Ep; try done.
  destruct from_leader; cbn; by rewrite ?Ep.
Qed.

(** Stability of a field depends on that field alone. *)
Lemma addr_stable_ext p q : p_addr p = p_addr q -> stable (merge_addr item) p -> stable (merge_addr item) q.
Proof.
  unfold stable, merge_addr. intros Heq. destruct (get_string item "addr"); [|done]. rewrite Heq.
  by destruct (_ && _).
Qed.
Lemma port_stable_ext p q : p_port p = p_port q -> stable (merge_port item) p -> stable (merge_port item) q.
Proof.
  unfold stable, merge_port. intros Heq. destruct (get_int item "port") as [n|]; [|done]. rewrite Heq.
  destruct (port_in_range n); [|done]. cbn [andb]. destruct (Z.eqb_spec (p_port q) n) as [Hn|Hn]; [done|].
  cbn [negb]. intros H. injection H as H. apply (f_equal p_port) in H. cbn in H. congruence.
Qed.
Lemma http_stable_ext p q :
  p_http_port p = p_http_port q -> stable (merge_http item) p -> stable (merge_http item) q.
Proof.
  unfold stable, merge_http. intros Heq. destruct (get_int item "http_port"); [|done]. rewrite Heq.
  by destruct (_ && _).
Qed.
Lemma seen_stable_ext p q :
  p_last_seen p = p_last_seen q -> stable (merge_seen item) p -> stable (merge_seen item) q.
Proof. unfold stable, merge_seen. intros ->. cbv zeta. by destruct (_ <? _). Qed.
Lemma compliant_stable_ext p q :
  p_compliant_gen p = p_compliant_gen q -> stable (merge_compliant item) p -> stable (merge_compliant item) q.
Proof. unfold stable, merge_compliant. intros ->. cbv zeta. by destruct (_ <? _). Qed.

(** What each merge keeps. *)
Lemma port_keeps p : p_addr (merge_port item p).1 = p_addr p.
Proof. field_merge. Qed.
Lemma http_keeps p :
  p_addr (merge_http item p).1 = p_addr p /\ p_port (merge_http item p).1 = p_port p.
Proof. field_merge. Qed.
Lemma seen_keeps p (q := (merge_seen item p).1) :
  p_addr q = p_addr p /\ p_port q = p_port p /\ p_http_port q = p_http_port p.
Proof. unfold q. clear q. field_merge. Qed.
Lemma compliant_keeps p (q := (merge_compliant item p).1) :
  p_addr q = p_addr p /\ p_port q = p_port p /\ p_http_port q = p_http_port p /\
  p_last_seen q = p_last_seen p.
Proof. unfold q. clear q. field_merge. Qed.
Lemma removed_keeps p (q := (merge_removed from_leader item p).1) :
  p_addr q = p_addr p /\ p_port q = p_port p /\ p_http_port q = p_http_port p /\
  p_last_seen q = p_last_seen p /\ p_compliant_gen q = p_compliant_gen p.
Proof. unfold q. clear q. field_merge. Qed.

End fields.

Lemma guarded_stable (selfish : bool) (f : edb_peer_info -> edb_peer_info * bool) p :
  (selfish = false -> stable f p) -> stable (fun p => if selfish then (p, false) else f p) p.
Proof. intros Hf. unfold stable. destruct selfish; [done|]. by apply Hf. Qed.

Lemma merge_peer_stable selfish from_leader item p :
  stable (merge_peer selfish from_leader item) (merge_peer selfish from_leader item p).1.
Proof.
  set (F1 := fun p => if selfish then (p, false) else merge_addr item p).
  set (F2 := fun p => if selfish then (p, false) else merge_port item p).
  set (F3 := fun p => if selfish then (p, false) else merge_http item p).
  assert (Hrun : forall p, merge_peer selfish from_leader item p =
    let p1 := F1 p in let p2 := F2 p1.1 in let p3 := F3 p2.1 in let p4 := merge_seen item p3.1 in
    let p5 := merge_compliant item p4.1 in let p6 := merge_removed from_leader item p5.1 in
    (p6.1, p1.2 || p2.2 || p3.2 || p4.2 || p5.2 || p6.2)).
  { intros q. unfold merge_peer, F1, F2, F3. clear. cbv zeta. destruct selfish; cbn [fst snd].
    - destruct (merge_seen item q) as [q4 c4]. cbn [fst snd].
      destruct (merge_compliant item q4) as [q5 c5]. cbn [fst snd].
      by destruct (merge_removed from_leader item q5).
    - destruct (merge_addr item q) as [q1 c1]. cbn [fst snd].
      destruct (merge_port item q1) as [q2 c2]. cbn [fst snd].
      destruct (merge_http item q2) as [q3 c3]. cbn [fst snd].
      destruct (merge_seen item q3) as [q4 c4]. cbn [fst snd].
      destruct (merge_compliant item q4) as [q5 c5]. cbn [fst snd].
      by destruct (merge_removed from_leader item q5). }
  rewrite (Hrun p). cbv zeta. cbn [fst].
  set (p1 := (F1 p).1). set (p2 := (F2 p1).1). set (p3 := (F3 p2).1).
  set (p4 := (merge_seen item p3).1). set (p5 := (merge_compliant item p4).1).
  set (q := (merge_removed from_leader item p5).1).
  destruct (removed_keeps item from_leader p5) as (R1 & R2 & R3 & R4 & R5). fold q in R1, R2, R3, R4, R5.
  destruct (compliant_keeps item p4) as (C1 & C2 & C3 & C4). fold p5 in C1, C2, C3, C4.
  destruct (seen_keeps item p3) as (S1 & S2 & S3). fold p4 in S1, S2, S3.
  assert (H3 : selfish = false -> p_addr p3 = p_addr p1 /\ p_port p3 = p_port p2 /\ p3 = (merge_http item p2).1
                 /\ p2 = (merge_port item p1).1 /\ p1 = (merge_addr item p).1).
  { intros ->. cbn in *. destruct (http_keeps item p2) as [A1 A2]. split; [|done].
    transitivity (p_addr p2); [exact A1|apply port_keeps]. }
  assert (E1 : stable F1 q).
  { apply guarded_stable. intros Hs. destruct (H3 Hs) as (A1 & _ & _ & _ & A5).
    eapply addr_stable_ext; [|apply (merge_addr_stable item p)]. rewrite <-A5. congruence. }
  assert (E2 : stable F2 q).
  { apply guarded_stable. intros Hs. destruct (H3 Hs) as (_ & A2 & _ & A4 & _).
    eapply port_stable_ext; [|apply (merge_port_stable item p1)]. rewrite <-A4. congruence. }
  assert (E3 : stable F3 q).
  { apply guarded_stable. intros Hs. destruct (H3 Hs) as (_ & _ & A3 & _ & _).
    eapply http_stable_ext; [|apply (merge_http_stable item p2)]. rewrite <-A3. congruence. }
  assert (E4 : stable (merge_seen item) q).
  { eapply seen_stable_ext; [|apply (merge_seen_stable item p3)]. fold p4. congruence. }
  assert (E5 : stable (merge_compliant item) q).
  { eapply compliant_stable_ext; [|apply (merge_compliant_stable item p4)]. fold p5. congruence. }
  pose proof (merge_removed_stable item from_leader p5) as E6. fold q in E6.
  unfold stable in *. rewrite Hrun. cbv zeta. rewrite E1. cbn [fst snd]. rewrite E2. cbn [fst snd].
  rewrite E3. cbn [fst snd]. rewrite E4. cbn [fst snd]. rewrite E5. cbn [fst snd]. by rewrite E6.
Qed.

(** ** The peer table *)

Lemma find_peer_cons id p ps :
  find_peer id (p :: ps) = if decide (p_id p = id) then Some p else find_peer id ps.
Proof.
  unfold find_peer. cbn [list_find]. case_decide; [done|]. by destruct (list_find _ ps) as [[i q]|].
Qed.

Lemma find_update_eq id q ps :
  p_id q = id -> is_Some (find_peer id ps) -> find_peer id (update_peer id (fun _ => q) ps) = Some q.
Proof.
  intros Hq. induction ps as [|p ps IH]; [by intros []|]. rewrite find_peer_cons. simpl.
  case_decide; rewrite find_peer_cons.
  - by rewrite decide_True.
  - rewrite decide_False by done. exact IH.
Qed.

Lemma find_update_ne id id' q ps :
  p_id q = id' -> id <> id' -> find_peer id (update_peer id' (fun _ => q) ps) = find_peer id ps.
Proof.
  intros Hq Hne. induction ps as [|p ps IH]; [done|]. simpl. case_decide; rewrite !find_peer_cons.
  - by rewrite !decide_False by congruence.
  - by rewrite IH.
Qed.

Lemma find_app id ps q :
  find_peer id (ps ++ [q]) = match find_peer id ps with
                             | Some p => Some p
                             | None => if decide (p_id q = id) then Some q else None
                             end.
Proof.
  induction ps as [|p ps IH]; [apply find_peer_cons|]. simpl. rewrite !find_peer_cons, IH.
  by destruct (decide (p_id p = id)).
Qed.

Lemma update_same id p ps : find_peer id ps = Some p -> update_peer id (fun _ => p) ps = ps.
Proof.
  induction ps as [|q ps IH]; [done|]. rewrite find_peer_cons. simpl.
  case_decide; [by intros [= ->]|]. intros Hf. by rewrite IH.
Qed.

Lemma length_update id f ps : length (update_peer id f ps) = length ps.
Proof. induction ps as [|p ps IH]; [done|]. simpl. case_decide; simpl; by rewrite ?IH. Qed.

Section nodes.
Context (self : string) (from_leader : bool).

(** An item with nothing new for the table [ps]. *)
Definition old_item (ps : list edb_peer_info) (item : json) : Prop :=
  match get_string item "id" with
  | None => True
  | Some id =>
      (String.eqb id "" || (EDB_NODE_ID_MAX <=? String.length id)%nat) = true \/
      (exists p, find_peer id ps = Some p /\
                 stable (merge_peer (String.eqb id self) from_leader item) p) \/
      (find_peer id ps = None /\ (MAX_PEERS <= length ps)%nat)
  end.

Lemma old_item_silent cl item :
  self_id cl = self -> old_item (peers cl) item -> merge_node from_leader cl item = (cl, false).
Proof.
  intros Hs Hold. unfold merge_node, old_item in *. destruct (get_string item "id") as [id|]; [|done].
  destruct (_ || _); [done|]. destruct Hold as [[=]|[(p & Hp & Hst)|[Hn Hlen]]]; rewrite Hs.
  - rewrite Hp. unfold stable in Hst. rewrite Hst, update_same by done. by rewrite with_peers_id.
  - rewrite Hn. by rewrite (proj2 (Nat.leb_le _ _)).
Qed.

Lemma merged_item_old cl item :
  self_id cl = self -> old_item (peers (merge_node from_leader cl item).1) item.
Proof.
  intros Hs. unfold merge_node, old_item. destruct (get_string item "id") as [id|]; [|done].
  destruct (_ || _) eqn:Eid; [by left|]. right. rewrite Hs.
  destruct (find_peer id (peers cl)) as [p|] eqn:Ef.
  - left. pose proof (merge_peer_id (String.eqb id self) from_leader item p) as Hid.
    pose proof (merge_peer_stable (String.eqb id self) from_leader item p) as Hst.
    destruct (merge_peer _ _ _ p) as [p' c]. cbn [fst] in *. exists p'. split; [|done].
    apply find_update_eq; [|by rewrite Ef]. rewrite Hid. by eapply find_peer_id.
  - destruct (Nat.leb_spec MAX_PEERS (length (peers cl))) as [Hlen|Hlen]; [by right|left].
    pose proof (merge_peer_id (String.eqb id self) from_leader item (blank_peer id)) as Hid.
    pose proof (merge_peer_stable (String.eqb id self) from_leader item (blank_peer id)) as Hst.
    destruct (merge_peer _ _ _ _) as [p' c]. cbn [fst] in *. exists p'. split; [|done].
    cbn [with_peers peers]. rewrite find_app, Ef. by rewrite decide_True.
Qed.

Lemma old_item_kept cl item item' :
  get_string item "id" <> get_string item' "id" -> old_item (peers cl) item ->
  old_item (peers (merge_node from_leader cl item').1) item.
Proof.
  intros Hne. unfold old_item. destruct (get_string item "id") as [id|]; [|done]. unfold merge_node.
  destruct (get_string item' "id") as [id'|]; [|done]. assert (Hids : id <> id') by congruence.
  intros [Hbad|Hold]; [by left|right].
  destruct (_ || _); [done|]. destruct (find_peer id' (peers cl)) as [q|] eqn:Ef.
  - pose proof (merge_peer_id (String.eqb id' (self_id cl)) from_leader item' q) as Hid.
    destruct (merge_peer _ _ _ q) as [q' c]. cbn [fst with_peers peers] in *.
    assert (Hq : p_id q' = id') by (rewrite Hid; by eapply find_peer_id).
    by rewrite find_update_ne, length_update.
  - destruct (Nat.leb_spec MAX_PEERS (length (peers cl))) as [Hlen|Hlen]; [done|].
    pose proof (merge_peer_id (String.eqb id' (self_id cl)) from_leader item' (blank_peer id')) as Hid.
    destruct (merge_peer _ _ _ _) as [q' c]. cbn [fst with_peers peers] in *.
    destruct Hold as [(p & Hp & Hst)|[Hn Hlen']]; [left|lia]. exists p. by rewrite find_app, Hp.
Qed.

Lemma merge_node_self cl item : self_id (merge_node from_leader cl item).1 = self_id cl.
Proof.
  unfold merge_node. destruct (get_string item "id"); [|done]. destruct (_ || _); [done|].
  destruct (find_peer _ _); [by destruct (merge_peer _ _ _ _)|]. destruct (_ <=? _)%nat; [done|].
  by destruct (merge_peer _ _ _ _).
Qed.

Lemma merge_nodes_self cl items : self_id (merge_nodes from_leader cl items).1 = self_id cl.
Proof.
  induction items as [|item items IH] using rev_ind; [done|].
  by rewrite merge_nodes_snoc, merge_node_self.
Qed.

Lemma merged_items_old cl items :
  self_id cl = self -> NoDup (map (fun item => get_string item "id") items) ->
  Forall (old_item (peers (merge_nodes from_leader cl items).1)) items.
Proof.
  intros Hs. induction items as [|item items IH] using rev_ind; [by constructor|].
  rewrite map_app. intros (Hn & Hdis & _)%NoDup_app. rewrite merge_nodes_snoc. apply Forall_app. split.
  - specialize (IH Hn). rewrite Forall_forall in IH |- *. intros x Hx.
    apply old_item_kept; [|by apply IH]. intros Heq. apply (Hdis (get_string x "id")).
    + by apply (list_elem_of_fmap_2 (fun item => get_string item "id")).
    + rewrite Heq. by apply list_elem_of_singleton.
  - constructor; [|constructor]. apply merged_item_old. by rewrite merge_nodes_self.
Qed.

Lemma old_items_silent cl items :
  self_id cl = self -> Forall (old_item (peers cl)) items ->
  merge_nodes from_leader cl items = (cl, false).
Proof.
  intros Hs. induction items as [|item items IH] using rev_ind; [done|].
  intros [Hi Hx]%Forall_app. apply Forall_inv in Hx. specialize (IH Hi).
  unfold merge_nodes in *. rewrite foldl_app, IH. simpl. by rewrite old_item_silent.
Qed.

End nodes.

(** ** The whole message *)

Lemma adopt_live_leader now cl c : leader (adopt_live now cl c) = leader cl.
Proof.
  unfold adopt_live, merge_live. destruct (_ ≫= _) as [g|]; [|done].
  destruct (generation cl <? g); [destruct (assignments _)|];
    cbv zeta; by destruct (_ && _).
Qed.

Lemma adopt_target_leader fl cl c : leader (adopt_target fl cl c) = leader cl.
Proof.
  unfold adopt_target, merge_target. destruct (_ ≫= _) as [g|]; [|by destruct (_ && _)].
  destruct (_ && _); [|done]. destruct (assignments _) as [[|a l]|]; [done| |done].
  cbv zeta. by destruct (_ =? _)%nat.
Qed.

(** After a merge the live table is not news. *)
Lemma live_silent now cl c :
  tables_ok c -> exact_gens c -> tables_ok cl -> generation c <= generation cl ->
  merge_live now cl (get_item (state_to_json c) "ranges") = (cl, false).
Proof.
  intros [Hg Hl _ _] [He _] [_ _ _ Hw] Hle.
  rewrite state_ranges, merge_live_state by (done || lia). cbv zeta.
  rewrite (proj2 (Z.ltb_ge (generation cl) (generation c))) by done.
  replace (_ && _) with false; [done|]. symmetry. apply andb_false_iff.
  rewrite Z.ltb_ge, Z.leb_gt. lia.
Qed.

(** Nor the target. *)
Lemma target_silent fl cl c :
  tables_ok c -> exact_gens c ->
  merge_target fl (adopt_target fl cl c) (get_item (state_to_json c) "target") =
  (adopt_target fl cl c, false).
Proof.
  intros [_ _ Ht Hw] [_ He]. unfold adopt_target. rewrite state_target.
  destruct (Z.ltb_spec 0 (target_generation c)) as [Hpos|Hpos].
  - destruct Hw as [[Hz _]|[_ Hne]]; [lia|]. rewrite !merge_target_state by (done || lia).
    cbv zeta. cbn [fst].
    destruct ((target_generation cl <? target_generation c) && _) eqn:E; [|by rewrite E].
    cbn [with_target target_generation generation]. by rewrite Z.ltb_irrefl.
  - rewrite !merge_target_none. cbv zeta. cbn [fst].
    destruct ((0 <? target_generation cl) && fl) eqn:E; [done|by rewrite E].
Qed.

Lemma peer_json_ids ps : map (fun item => get_string item "id") (map peer_json ps) = map Some (map p_id ps).
Proof. rewrite !map_map. by apply map_ext. Qed.

(** C21: Merging the state of a node twice is the same as merging it once, and
    the second merge reports no change: the heartbeats of a mesh whose nodes
    agree trigger no reaction and no further messages. *)
Theorem gossip_settles (now now' : Z) (cl c : edb_cluster) :
  node_ok cl -> node_ok c -> exact_gens c ->
  let cl' := (merge_state now cl (state_to_json c)).1 in
  merge_state now' cl' (state_to_json c) = (cl', false).
Proof.
  intros Hcl Hc He. cbv zeta. pose proof (node_peers cl Hcl) as Hp. pose proof (node_tables cl Hcl) as Ht.
  pose proof (node_tables c Hc) as Htc. pose proof (node_claimed c Hc) as Hcc.
  set (fl := negb (String.eqb (leader cl) "") && String.eqb (self_id c) (leader cl)).
  set (items := map peer_json (peers c)).
  pose proof (merged_items_old (self_id cl) fl cl items eq_refl) as Hold.
  destruct (merge_nodes_peers (S MAX_PEERS) fl cl items) as (ps & Heq & Hps & _); [lia|done|].
  rewrite Heq in Hold.
  assert (Hcl' : (merge_state now cl (state_to_json c)).1 =
                 adopt_target fl (adopt_live now (with_peers ps cl) c) c).
  { unfold merge_state. rewrite state_sender, state_nodes. fold fl items.
    rewrite (surjective_pairing (merge_nodes fl cl items)), Heq.
    rewrite (surjective_pairing (merge_live _ _ _)). fold (adopt_live now (with_peers ps cl) c).
    by rewrite (surjective_pairing (merge_target _ _ _)). }
  rewrite Hcl'. clear Hcl'.
  assert (Ht1 : tables_ok (with_peers ps cl)) by (destruct Ht; by split).
  destruct (adopt_live_ok now (with_peers ps cl) c Htc Hcc He Ht1) as (L1 & L2 & L3 & _ & L5 & _).
  destruct (adopt_target_ok fl _ c Htc He L3) as (T1 & T2 & T3 & T4 & _).
  pose proof (target_silent fl (adopt_live now (with_peers ps cl) c) c Htc He) as Hsil.
  pose proof (adopt_live_leader now (with_peers ps cl) c) as Hl1.
  pose proof (adopt_target_leader fl (adopt_live now (with_peers ps cl) c) c) as Hl2.
  rewrite Hl1 in Hl2. rewrite L1 in T1. rewrite L2 in T2.
  set (cl' := adopt_target fl (adopt_live now (with_peers ps cl) c) c) in *.
  unfold merge_state. rewrite state_sender, state_nodes, Hl2. cbn [with_peers leader]. fold fl items.
  rewrite (old_items_silent (self_id cl)).
  - rewrite live_silent by (done || lia). by rewrite Hsil.
  - by rewrite T2.
  - rewrite T1. apply Hold. unfold items. rewrite peer_json_ids.
    apply NoDup_fmap_2; [apply _|]. by destruct (node_peers c Hc).
Qed.

Lemma gossip_settles_witness :
  (merge_state 102 node_b (state_to_json node_a)).2 = true /\
  (merge_state 105 (merge_state 102 node_b (state_to_json node_a)).1 (state_to_json node_a)).2 = false.
Proof.
  split; [vm_compute; reflexivity|].
  assert (Ha : node_ok node_a) by by apply boot_ok.
  assert (Hb : node_ok node_b) by by apply boot_ok.
  assert (He : exact_gens node_a) by (unfold exact_gens; destruct node_a_generation as [-> ->]; lia).
  by rewrite (gossip_settles 102 105 node_b node_a Hb Ha He).
Defined.

End Gossip.
