(* ===== verification/Waves.v ===== *)
(** The cluster over its settings: promotion of a target, restart from the
    persisted state, removal of redundant shards. For any record store that
    satisfies the laws of Store.v. *)

From S2P Require Import Prelude BlockHash Md5 Crypto Json Shard Manager Store Config Cluster.
From S2P Require Import MapStore ConfigFacts Doubles ClusterPlacement Mesh Gossip.

Module Waves.

Import Json Store Config Cluster ConfigFacts Doubles ClusterPlacement Mesh Gossip.

Section facts.
Context {S : Type} {R : RecordStore S} {C : JsonCodec} {CL : JsonCodecLaws C}.
Context {RL : RecordStoreLaws S}.
Context (cfg : edb_config S).
Hypothesis covers : forall ks, ks ∈ system_keyspaces -> ks ∈ rs_keyspaces (S := S).

(** The settings a state of the store holds. *)
Definition settings (s : S) : gmap string json := rs_view s CFG_KEYSPACE_SETTINGS.

Definition setting_value (V : gmap string json) (name : string) : option json :=
  V !! name ≫= fun o => get_item o "value".

Lemma setting_get name s :
  rs_ok s -> exists s', edb_setting_get name s = (json_print <$> setting_value (settings s) name, s') /\
    unchanged s s'.
Proof.
  intros Hs. destruct (setting_get_spec covers name s Hs) as (s' & Hg & Hu). exists s'.
  split; [|done]. rewrite Hg. unfold setting_value. by destruct (_ !! name).
Qed.

Lemma unchanged_settings s s' : unchanged s s' -> settings s' = settings s.
Proof. intros [_ H]. apply H. repeat constructor. Qed.

Lemma unchanged_ok s s' : unchanged s s' -> rs_ok s'.
Proof. by intros []. Qed.

(** ** Promotion *)

(** Node [id] is compliant with [tgen]: gossip says so, or the stored flag. *)
Definition compliant_in (V : gmap string json) (tgen : Z) (ps : list edb_peer_info) (id : string) : bool :=
  peer_compliant tgen ps id ||
  match setting_value V (done_name id) with
  | Some v => stored_compliant tgen (json_print v)
  | None => false
  end.

Definition wave_done (V : gmap string json) (cl : edb_cluster) : bool :=
  (0 <? target_generation cl) && negb (length (required_nodes cl) =? 0)%nat &&
  forallb (compliant_in V (target_generation cl) (edb_cluster_peers cl MAX_PEERS)) (required_nodes cl).

Lemma node_compliant_spec tgen ps id s :
  rs_ok s -> exists s', node_compliant tgen ps id s = (compliant_in (settings s) tgen ps id, s') /\
    unchanged s s'.
Proof.
  intros Hs. unfold node_compliant, compliant_in. destruct (peer_compliant tgen ps id).
  - exists s. split; [done|by apply unchanged_refl].
  - destruct (setting_get (done_name id) s Hs) as (s' & Hg & Hu). exists s'.
    rewrite (bind_run _ _ _ _ _ Hg). split; [|done]. by destruct (setting_value _ _).
Qed.

Lemma all_compliant_spec tgen ps ids s :
  rs_ok s -> exists s', all_compliant tgen ps ids s = (forallb (compliant_in (settings s) tgen ps) ids, s') /\
    unchanged s s'.
Proof.
  revert s. induction ids as [|id ids IH]; intros s Hs.
  { exists s. split; [done|by apply unchanged_refl]. }
  cbn [all_compliant forallb]. destruct (node_compliant_spec tgen ps id s Hs) as (s1 & Hn & Hu1).
  rewrite (bind_run _ _ _ _ _ Hn). destruct (compliant_in _ _ _ id); [|by exists s1].
  destruct (IH s1) as (s2 & Ha & Hu2); [by eapply unchanged_ok|]. exists s2.
  rewrite Ha, (unchanged_settings s s1) by done. split; [done|]. by eapply unchanged_trans.
Qed.

Lemma target_compliant_spec cl s :
  rs_ok s -> exists s', edb_cluster_target_compliant cl s = (wave_done (settings s) cl, s') /\ unchanged s s'.
Proof.
  intros Hs. unfold edb_cluster_target_compliant, wave_done. cbv zeta.
  destruct (Z.ltb_spec 0 (target_generation cl)) as [Hpos|Hneg].
  - rewrite (proj2 (Z.eqb_neq _ _)) by lia. cbn [orb andb].
    destruct (length (required_nodes cl) =? 0)%nat; [|by apply all_compliant_spec].
    exists s. split; [done|by apply unchanged_refl].
  - cbn [length Nat.eqb]. rewrite orb_true_r. exists s. split; [done|by apply unchanged_refl].
Qed.

Lemma first_occurrences_elem seen ids id :
  id ∈ first_occurrences seen ids <-> id ∈ ids /\ id ∉ seen.
Proof.
  revert seen. induction ids as [|x ids IH]; intros seen; [set_solver|]. simpl.
  case_bool_decide as Hx.
  - rewrite IH. set_solver.
  - rewrite elem_of_cons, IH. destruct (decide (id = x)); set_solver.
Qed.

Lemma first_occurrences_length seen ids : (length (first_occurrences seen ids) <= length ids)%nat.
Proof.
  revert seen. induction ids as [|x ids IH]; intros seen; [done|]. simpl.
  case_bool_decide; [pose proof (IH seen)|pose proof (IH (x :: seen))]; simpl; lia.
Qed.

Lemma required_elem cl id :
  (length (target_ranges cl) <= MAX_PEERS)%nat ->
  id ∈ required_nodes cl <-> id ∈ map node_id (target_ranges cl).
Proof.
  intros Hlen. unfold required_nodes. rewrite take_ge.
  - rewrite first_occurrences_elem. set_solver.
  - pose proof (first_occurrences_length [] (map node_id (target_ranges cl))).
    rewrite length_map in *. lia.
Qed.

(** C12: Promotion: the leader, and only the leader, promotes a pending target,
    exactly when every node that owns part of it is compliant (by gossip or
    by its stored flag). The target becomes the live table under its own
    generation, no target is left pending, and collection of redundant shards
    waits for another 12 seconds; in every other case nothing changes. *)
Theorem promotion_needs_compliance (now : Z) (cl : edb_cluster) (s : S) :
  rs_ok s -> (length (target_ranges cl) <= MAX_PEERS)%nat ->
  let '((promoted, cl'), s') := edb_cluster_promote_target cfg now cl s in
  promoted = leader_is_self_locked cl && wave_done (settings s) cl /\
  if promoted then
    cl' = with_live (target_generation cl) (now + OFFLINE_AFTER_SECONDS) (target_ranges cl)
            (drop_target cl) /\
    0 < target_generation cl /\ target_ranges cl <> [] /\
    forall id, id ∈ map node_id (target_ranges cl) ->
      compliant_in (settings s) (target_generation cl) (edb_cluster_peers cl MAX_PEERS) id = true
  else cl' = cl /\ unchanged s s'.
Proof.
  intros Hs Hlen. unfold edb_cluster_promote_target.
  destruct (Z.eqb_spec (target_generation cl) 0) as [Hz|Hnz].
  { unfold wave_done. rewrite Hz, andb_false_r. simpl. split; [done|]. split; [done|by apply unchanged_refl]. }
  destruct (target_compliant_spec cl s Hs) as (s1 & Hc & Hu). rewrite (bind_run _ _ _ _ _ Hc).
  destruct (wave_done (settings s) cl) eqn:Ed; [|by rewrite andb_false_r].
  unfold promote_locked. destruct (leader_is_self_locked cl); [|done].
  unfold wave_done in Ed. apply andb_prop in Ed as [[Hpos Hreq]%andb_prop Hall]. rewrite Hpos. cbn [andb].
  cbv zeta. rewrite !st_bind_run. cbn [fst snd mret st_ret]. split; [done|].
  apply Z.ltb_lt in Hpos.
  assert (Hne : target_ranges cl <> []) by (intros Hnil; unfold required_nodes in Hreq; by rewrite Hnil in Hreq).
  split; [|split; [done|split; [done|]]].
  - unfold promote_target_locked. rewrite (proj2 (Z.eqb_neq _ _)) by done. cbn [orb].
    destruct (Nat.eqb_spec (length (target_ranges cl)) 0) as [Hl|_]; [by apply nil_length_inv in Hl|done].
  - intros id Hid. apply required_elem in Hid; [|done]. rewrite forallb_forall in Hall.
    by apply Hall, list_elem_of_In.
Qed.

(** ** Restart *)

(** Numbers of a node that a double holds exactly. *)
Definition peer_exact (p : edb_peer_info) : Prop :=
  exact (p_port p) /\ exact (p_http_port p) /\ exact (p_last_seen p) /\ exact (p_compliant_gen p).
Definition state_exact (c : edb_cluster) : Prop := exact_gens c /\ Forall peer_exact (peers c).

Lemma jnum_finite z : exact z -> finite_json (jnum z) = true.
Proof. apply double_finite. Qed.
Lemma finite_object ms : finite_json (JObject ms) = forallb (fun m => finite_json m.2) ms.
Proof. done. Qed.
Lemma finite_array l : finite_json (JArray l) = forallb finite_json l.
Proof. done. Qed.

(** Reduces a document to the numbers in it. *)
Ltac finite :=
  rewrite ?finite_object, ?finite_array, ?forallb_app;
  repeat (cbn [forallb snd]; rewrite ?finite_object, ?finite_array);
  rewrite ?jnum_finite by done; try done.

Lemma table_finite g rs : 0 <= g < 2 ^ 53 -> finite_json (table_json g rs) = true.
Proof.
  intros Hg. assert (He : exact g) by (unfold exact; lia). unfold table_json. finite.
  cbn [andb]. rewrite andb_true_r. induction rs as [|r rs IH]; [done|]. exact IH.
Qed.

Lemma peer_finite p : peer_exact p -> finite_json (peer_json p) = true.
Proof.
  intros (H1 & H2 & H3 & H4). unfold peer_json. finite.
  destruct (0 <? p_http_port p), (p_removed p), (0 <? p_compliant_gen p); finite.
Qed.

Lemma state_finite c : tables_ok c -> state_exact c -> finite_json (state_to_json c) = true.
Proof.
  intros [Hg _ _ Hw] [[He1 He2] Hp]. unfold state_to_json. finite.
  rewrite table_finite by lia.
  assert (Hn : forallb finite_json (map peer_json (peers c)) = true).
  { induction Hp as [|p ps Hpx _ IH]; [done|]. cbn [map forallb]. by rewrite peer_finite. }
  rewrite Hn. cbn [andb]. destruct (Z.ltb_spec 0 (target_generation c)); [|done].
  cbn [forallb snd]. by rewrite table_finite by lia.
Qed.

Definition ranges_doc (g : Z) : json := JObject [("generation", jnum g)].

(** What [persist_state] leaves in the settings. *)
Definition persisted (V : gmap string json) (c : edb_cluster) : Prop :=
  setting_value V SETTING_MEMBERS = Some (state_to_json c) /\
  setting_value V SETTING_RANGES = Some (ranges_doc (generation c)) /\
  setting_value V SETTING_TARGET =
    if 0 <? target_generation c then Some (table_json (target_generation c) (target_ranges c)) else None.

Lemma setting_doc_spec name v s :
  rs_ok s -> setting_value (settings s) name = Some v -> finite_json v = true ->
  exists s', setting_doc name s = (Some v, s') /\ unchanged s s'.
Proof.
  intros Hs Hv Hf. destruct (setting_get name s Hs) as (s' & Hg & Hu). exists s'.
  unfold setting_doc. rewrite (bind_run _ _ _ _ _ Hg), Hv. split; [|done].
  cbn. by rewrite json_parse_print.
Qed.

Lemma setting_doc_none name s :
  rs_ok s -> setting_value (settings s) name = None ->
  exists s', setting_doc name s = (None, s') /\ unchanged s s'.
Proof.
  intros Hs Hv. destruct (setting_get name s Hs) as (s' & Hg & Hu). exists s'.
  unfold setting_doc. by rewrite (bind_run _ _ _ _ _ Hg), Hv.
Qed.

(** The document of the target holds nothing a merge looks at. *)
Lemma merge_table now cl g rs : (merge_state now cl (table_json g rs)).1 = cl.
Proof.
  assert (Hs : get_string (table_json g rs) "sender" = None) by reflexivity.
  assert (Hi : forall f, f ∈ ["nodes"; "ranges"; "target"] -> get_item (table_json g rs) f = None).
  { intros f Hf. rewrite !elem_of_cons in Hf. by destruct Hf as [->|[->|[->|Hf%not_elem_of_nil]]]. }
  unfold merge_state. rewrite Hs, !Hi by set_solver. cbn. by destruct (0 <? target_generation cl).
Qed.

Lemma restore_spec now cl c s :
  rs_ok s -> persisted (settings s) c -> node_ok c -> state_exact c ->
  peers_ok MAX_PEERS (peers cl) -> tables_ok cl -> generation cl = 0 -> target_generation cl = 0 ->
  exists s', restore_state now cl s = ((merge_state now cl (state_to_json c)).1, s') /\ unchanged s s'.
Proof.
  intros Hs (Hm & Hr & Ht) Hc He Hps Htab Hg0 Ht0.
  pose proof (node_tables c Hc) as Htc. pose proof (node_claimed c Hc) as Hcc.
  destruct Hcc as [Hc1 _]. pose proof (proj1 He) as [He1 He2]. unfold restore_state.
  destruct (setting_doc_spec SETTING_MEMBERS (state_to_json c) s Hs Hm) as (s1 & Hd1 & Hu1);
    [by apply state_finite|]. rewrite (bind_run _ _ _ _ _ Hd1). cbv zeta. cbn [merge_doc].
  assert (Hs1 : rs_ok s1) by (by eapply unchanged_ok). pose proof (unchanged_settings _ _ Hu1) as Hv1.
  destruct (setting_doc_spec SETTING_RANGES (ranges_doc (generation c)) s1 Hs1) as (s2 & Hd2 & Hu2);
    [by rewrite Hv1| |].
  { assert (exact (generation c)) by (unfold exact; lia). unfold ranges_doc. finite. }
  rewrite (bind_run _ _ _ _ _ Hd2). cbv zeta. cbn [mbind option_bind].
  assert (Hgen : get_ll (ranges_doc (generation c)) "generation" = Some (generation c)).
  { change (Some (Z_of_double (double_of_Z (generation c))) = Some (generation c)).
    by rewrite double_exact by lia. }
  rewrite Hgen. set (cl1 := (merge_state now cl (state_to_json c)).1).
  destruct (merge_state_ok MAX_PEERS now cl c) as (_ & _ & _ & _ & _ & Hgen1 & _); [lia|done|apply He|done..|].
  fold cl1 in Hgen1. assert (Hsame : with_live (generation c) (gc_after cl1) (ranges cl1) cl1 = cl1).
  { rewrite Hg0 in Hgen1. replace (generation c) with (generation cl1) by lia. by destruct cl1. }
  rewrite Hsame. assert (Hs2 : rs_ok s2) by (by eapply unchanged_ok).
  pose proof (unchanged_settings _ _ Hu2) as Hv2. rewrite <-Hv1, <-Hv2 in Ht.
  assert (Hdone : exists s', setting_doc SETTING_TARGET s2 =
     (if 0 <? target_generation c then Some (table_json (target_generation c) (target_ranges c)) else None, s') /\
     unchanged s2 s').
  { destruct (Z.ltb_spec 0 (target_generation c)).
    - apply setting_doc_spec; [done|done|]. apply table_finite. lia.
    - by apply setting_doc_none. }
  destruct Hdone as (s3 & Hd3 & Hu3). rewrite (bind_run _ _ _ _ _ Hd3). exists s3.
  split; [|by eapply unchanged_trans; [eapply unchanged_trans|]].
  destruct (0 <? target_generation c); [|done]. cbn [merge_doc]. unfold mret, st_ret.
  by rewrite merge_table.
Qed.

(** *** A fresh table takes every member over *)

Lemma stages_removed selfish item p :
  let F f := fun q : edb_peer_info => if selfish : bool then (q, false) else f q in
  forall q1 q2 q3 q4 q5,
  q1 = (F (merge_addr item) p).1 -> q2 = (F (merge_port item) q1).1 -> q3 = (F (merge_http item) q2).1 ->
  q4 = (merge_seen item q3).1 -> q5 = (merge_compliant item q4).1 -> p_removed q5 = p_removed p.
Proof.
  intros F q1 q2 q3 q4 q5 -> -> -> -> ->. unfold F. clear F.
  assert (H5 : forall q, p_removed (merge_compliant item q).1 = p_removed q)
    by (intros q; unfold merge_compliant; by destruct (_ <? _)).
  assert (H4 : forall q, p_removed (merge_seen item q).1 = p_removed q)
    by (intros q; unfold merge_seen; by destruct (_ <? _)).
  rewrite H5, H4. destruct selfish; [done|].
  transitivity (p_removed (merge_port item (merge_addr item p).1).1).
  { generalize (merge_port item (merge_addr item p).1).1. intros q. unfold merge_http.
    destruct (get_int _ _); [by destruct (_ && _)|done]. }
  transitivity (p_removed (merge_addr item p).1).
  { generalize (merge_addr item p).1. intros q. unfold merge_port.
    destruct (get_int _ _); [by destruct (_ && _)|done]. }
  unfold merge_addr. destruct (get_string _ _); [by destruct (_ && _)|done].
Qed.

Lemma peer_json_removed p : is_true_item (peer_json p) "removed" = p_removed p.
Proof.
  unfold is_true_item, peer_json. destruct (0 <? p_http_port p), (p_removed p), (0 <? p_compliant_gen p);
    reflexivity.
Qed.

Lemma merge_blank_removed selfish from_leader p id :
  p_removed (merge_peer selfish from_leader (peer_json p) (blank_peer id)).1 = p_removed p.
Proof.
  unfold merge_peer. set (item := peer_json p).
  destruct (if selfish then _ else merge_addr item _) as [q1 c1] eqn:E1.
  destruct (if selfish then _ else merge_port item q1) as [q2 c2] eqn:E2.
  destruct (if selfish then _ else merge_http item q2) as [q3 c3] eqn:E3.
  destruct (merge_seen item q3) as [q4 c4] eqn:E4. destruct (merge_compliant item q4) as [q5 c5] eqn:E5.
  assert (Hr : p_removed q5 = false).
  { change false with (p_removed (blank_peer id)).
    apply (stages_removed selfish item (blank_peer id) q1 q2 q3 q4 q5);
      rewrite ?E1, ?E2, ?E3, ?E4, ?E5; done. }
  unfold merge_removed. unfold item. rewrite peer_json_removed, Hr.
  destruct (p_removed p); cbn; [done|]. by rewrite Hr.
Qed.

Definition member_of (p : edb_peer_info) : string * bool := (p_id p, p_removed p).

Lemma merge_fresh from_leader cl ps :
  peers cl = [] -> NoDup (map p_id ps) -> Forall id_ok (map p_id ps) -> (length ps <= MAX_PEERS)%nat ->
  map member_of (peers (merge_nodes from_leader cl (map peer_json ps)).1) = map member_of ps.
Proof.
  intros Hnil. induction ps as [|p ps IH] using rev_ind; [intros; simpl; by rewrite Hnil|].
  rewrite !map_app, length_app. intros (Hn & Hdis & _)%NoDup_app [Hi Hp]%Forall_app Hlen.
  simpl in Hlen. specialize (IH Hn Hi ltac:(lia)). simpl map. rewrite merge_nodes_snoc.
  set (cl1 := (merge_nodes from_leader cl (map peer_json ps)).1) in *.
  apply Forall_inv in Hp as [Hp1 Hp2]. unfold merge_node.
  change (get_string (peer_json p) "id") with (Some (p_id p)). cbv beta iota zeta.
  replace (String.eqb (p_id p) "") with false by (symmetry; by apply String.eqb_neq).
  rewrite (proj2 (Nat.leb_gt EDB_NODE_ID_MAX (String.length (p_id p)))) by done. cbn [orb].
  assert (Hids : map p_id (peers cl1) = map p_id ps).
  { apply (f_equal (map fst)) in IH. by rewrite !map_map in IH. }
  destruct (find_peer (p_id p) (peers cl1)) as [q|] eqn:Ef.
  { exfalso. apply find_peer_Some in Ef as [Hq Hin]. apply (Hdis (p_id p)); [|by left].
    rewrite <-Hids, <-Hq. by apply list_elem_of_fmap_2. }
  assert (Hl1 : length (peers cl1) = length ps) by (apply (f_equal length) in Hids; by rewrite !length_map in Hids).
  rewrite (proj2 (Nat.leb_gt MAX_PEERS (length (peers cl1)))) by lia.
  pose proof (merge_blank_removed (String.eqb (p_id p) (self_id cl1)) from_leader p (p_id p)) as Hr.
  pose proof (merge_peer_id (String.eqb (p_id p) (self_id cl1)) from_leader (peer_json p) (blank_peer (p_id p))) as Hid.
  destruct (merge_peer _ _ _ _) as [q c]. cbn [fst with_peers peers] in *.
  rewrite map_app, IH. do 2 f_equal. simpl. unfold member_of. by rewrite Hr, Hid.
Qed.

(** *** What starts again *)

Lemma boot_restored now addr port c :
  node_ok c -> exact_gens c -> (length (peers c) <= MAX_PEERS)%nat ->
  let cl := (merge_state now (new_cluster addr port) (state_to_json c)).1 in
  generation cl = generation c /\ ranges cl = ranges c /\
  target_generation cl = target_generation c /\ target_ranges cl = target_ranges c /\
  map member_of (peers cl) = map member_of (peers c).
Proof.
  intros [Hp _ Ht Hc] He Hlen. cbv zeta. destruct Hc as [Hc1 Hc2]. pose proof Ht as [_ Hl Htt Hw].
  unfold merge_state. rewrite state_sender, state_nodes. set (fl := negb _ && _).
  destruct (merge_nodes_peers MAX_PEERS fl (new_cluster addr port) (map peer_json (peers c)))
    as (ps & Heq & _ & _); [lia|by split; [constructor|constructor|simpl; lia]|].
  pose proof (merge_fresh fl (new_cluster addr port) (peers c) eq_refl (peers_distinct _ _ Hp)
    (peers_ids _ _ Hp) Hlen) as Hm. rewrite Heq in Hm.
  rewrite (surjective_pairing (merge_nodes _ _ _)), Heq. cbn [fst snd].
  rewrite state_ranges, merge_live_state by (done || destruct He; lia). cbv zeta.
  cbn [with_peers generation target_generation new_cluster]. rewrite (proj2 (Z.ltb_lt 0 (generation c))) by lia.
  cbn [andb Z.ltb Z.compare]. rewrite state_target.
  destruct (Z.ltb_spec 0 (target_generation c)) as [Hpos|Hneg].
  - destruct Hw as [[Hz _]|[Hlt Hne]]; [lia|].
    rewrite merge_target_state by (done || destruct He; lia). cbv zeta.
    cbn [with_peers with_live generation target_generation new_cluster].
    rewrite (proj2 (Z.ltb_lt 0 (target_generation c))),
      (proj2 (Z.ltb_lt (generation c) (target_generation c))) by lia. done.
  - rewrite merge_target_none. cbn. destruct Hw as [[Hz Hnil]|[Hlt _]]; [|lia]. by rewrite Hz, Hnil.
Qed.

Lemma start_restored now addr port c s :
  rs_ok s -> persisted (settings s) c -> node_ok c -> state_exact c ->
  addr <> EmptyString -> 0 < port <= 65535 ->
  (edb_cluster_start cfg now addr port s).1 = Some (boot now addr port (Some (state_to_json c))).
Proof.
  intros Hs Hper Hc He Ha Hport. unfold edb_cluster_start.
  rewrite (proj2 (String.eqb_neq _ _) Ha), (proj2 (Z.leb_gt port 0)), (proj2 (Z.ltb_ge 65535 port)) by lia.
  cbn [orb]. set (cl0 := new_cluster addr port).
  destruct (restore_spec now cl0 c s Hs Hper Hc He) as (s1 & Hr & Hu); try done.
  - by split; [constructor|constructor|simpl; lia].
  - split; cbn; auto with edb. lia.
  - rewrite (bind_run _ _ _ _ _ Hr). cbv zeta. rewrite st_bind_run. done.
Qed.

(** The store takes every write of a setting that is a document. *)
Definition accepts : Prop :=
  forall s id, rs_ok s ->
    (forall text, is_Some (json_parse text) -> (rs_put CFG_KEYSPACE_SETTINGS id text s).1 = true) /\
    (rs_delete CFG_KEYSPACE_SETTINGS id s).1 = true.

Lemma set_internal name text v s :
  accepts -> rs_ok s -> internal_cluster_setting CFG_KEYSPACE_SETTINGS name = true ->
  json_parse text = Some v -> finite_json v = true ->
  exists s', edb_setting_set cfg name text s = (true, s') /\ rs_ok s' /\
    settings s' = <[name := setting_record name v]> (settings s).
Proof.
  intros Hacc Hs Hint Hp Hf. unfold edb_setting_set.
  assert (Hne : name <> EmptyString) by (intros ->; done).
  rewrite (proj2 (String.eqb_neq _ _) Hne), Hp. unfold store. rewrite Hint. cbn [negb].
  set (obj := setting_record name v).
  assert (Hfo : finite_json obj = true).
  { unfold obj, setting_record. rewrite finite_object. cbn [forallb snd]. by rewrite Hf. }
  replace (match replicate cfg with Some r => rs_put CFG_KEYSPACE_SETTINGS name (json_print obj)
           | None => rs_put CFG_KEYSPACE_SETTINGS name (json_print obj) end)
    with (rs_put (S := S) CFG_KEYSPACE_SETTINGS name (json_print obj)) by by destruct (replicate cfg).
  pose proof (local_put covers CFG_KEYSPACE_SETTINGS name (json_print obj) obj s Hs ltac:(repeat constructor)
    (json_print_nonempty obj) (json_parse_print obj Hfo)) as Hput.
  destruct (Hacc s name Hs) as [Hok _].
  specialize (Hok (json_print obj) (mk_is_Some _ _ (json_parse_print obj Hfo))).
  destruct (rs_put _ _ _ s) as [ok s']. simpl in Hok. subst ok. exists s'. split; [done|].
  split; [apply Hput|]. unfold settings. apply (updates_view CFG_KEYSPACE_SETTINGS); [repeat constructor|done].
Qed.

Lemma delete_internal name s :
  accepts -> rs_ok s -> internal_cluster_setting CFG_KEYSPACE_SETTINGS name = true ->
  exists s', edb_setting_delete cfg name s = (true, s') /\ rs_ok s' /\
    settings s' = delete name (settings s).
Proof.
  intros Hacc Hs Hint. unfold edb_setting_delete, remove_record. rewrite Hint. cbn [negb].
  replace (match replicate cfg with Some r => rs_delete CFG_KEYSPACE_SETTINGS name
           | None => rs_delete CFG_KEYSPACE_SETTINGS name end)
    with (rs_delete (S := S) CFG_KEYSPACE_SETTINGS name) by by destruct (replicate cfg).
  pose proof (local_delete covers CFG_KEYSPACE_SETTINGS name s Hs ltac:(repeat constructor)) as Hdel.
  destruct (Hacc s name Hs) as [_ Hok].
  destruct (rs_delete _ _ s) as [ok s']. simpl in Hok. subst ok. exists s'. split; [done|].
  split; [apply Hdel|]. unfold settings. apply (updates_view CFG_KEYSPACE_SETTINGS); [repeat constructor|done].
Qed.

Lemma setting_value_insert V name name' v :
  setting_value (<[name := setting_record name v]> V) name' =
  if decide (name = name') then Some v else setting_value V name'.
Proof.
  unfold setting_value. case_decide; [subst; by rewrite lookup_insert_eq|by rewrite lookup_insert_ne].
Qed.

Lemma persist_spec c s :
  accepts -> rs_ok s -> tables_ok c -> state_exact c ->
  json_parse (ranges_text (generation c)) = Some (ranges_doc (generation c)) ->
  rs_ok (persist_state cfg c s).2 /\ persisted (settings (persist_state cfg c s).2) c.
Proof.
  intros Hacc Hs Ht He Hparse. pose proof (state_finite c Ht He) as Hf. destruct Ht as [Hg _ _ Hw].
  destruct He as [[He1 He2] _]. assert (exact (generation c)) by (unfold exact; lia). unfold persist_state.
  destruct (set_internal SETTING_MEMBERS _ _ s Hacc Hs eq_refl (json_parse_print _ Hf) Hf)
    as (s1 & E1 & H1 & V1). rewrite (bind_run _ _ _ _ _ E1).
  destruct (set_internal SETTING_RANGES _ _ s1 Hacc H1 eq_refl Hparse) as (s2 & E2 & H2 & V2);
    [unfold ranges_doc; finite|]. rewrite (bind_run _ _ _ _ _ E2).
  unfold persisted. destruct (Z.ltb_spec 0 (target_generation c)) as [Hpos|Hneg].
  - assert (Hft : finite_json (table_json (target_generation c) (target_ranges c)) = true)
      by (apply table_finite; lia).
    destruct (set_internal SETTING_TARGET _ _ s2 Hacc H2 eq_refl (json_parse_print _ Hft) Hft)
      as (s3 & E3 & H3 & V3). rewrite (bind_run _ _ _ _ _ E3). cbn [fst snd mret st_ret].
    split; [done|]. rewrite V3, V2, V1, !setting_value_insert. by repeat case_decide.
  - destruct (delete_internal SETTING_TARGET s2 Hacc H2 eq_refl) as (s3 & E3 & H3 & V3).
    rewrite (bind_run _ _ _ _ _ E3). cbn [fst snd mret st_ret]. split; [done|].
    assert (Hd : forall V name, setting_value (delete SETTING_TARGET V) name =
              if decide (SETTING_TARGET = name) then None else setting_value V name).
    { intros V name. unfold setting_value. rewrite lookup_delete. by case_decide. }
    rewrite V3, V2, V1, !Hd, !setting_value_insert. by repeat case_decide.
Qed.

Lemma update_members id f ps :
  (forall p, member_of (f p) = member_of p) -> map member_of (update_peer id f ps) = map member_of ps.
Proof.
  intros Hf. induction ps as [|p ps IH]; [done|]. simpl. case_decide; simpl; by rewrite ?Hf, ?IH.
Qed.

Lemma add_self_members now cl m :
  m ∈ map member_of (peers cl) -> m ∈ map member_of (peers (add_self_locked now cl)).
Proof.
  intros Hm. unfold add_self_locked. destruct (find_peer _ _); cbn [peers with_peers].
  - by rewrite update_members.
  - rewrite map_app. apply elem_of_app. by left.
Qed.

Lemma add_self_tables now cl (cl' := add_self_locked now cl) :
  generation cl' = generation cl /\ ranges cl' = ranges cl /\
  target_generation cl' = target_generation cl /\ target_ranges cl' = target_ranges cl.
Proof. unfold cl', add_self_locked. by destruct (find_peer _ _). Qed.

Lemma claim_claimed cl : ranges cl <> [] -> claim_space cl = cl.
Proof.
  intros Hne. unfold claim_space. destruct (ranges cl); [done|]. cbn. by rewrite andb_false_r.
Qed.

(** C14: Restart: a node that persisted its state and starts again from the
    same settings comes back with the same live table under the same
    generation, resumes the pending wave, and remembers every member and
    every tombstone; it claims nothing anew. *)
Theorem restart_resumes (now : Z) (addr : string) (port : Z) (c : edb_cluster) (s : S) :
  accepts -> rs_ok s -> node_ok c -> state_exact c -> (length (peers c) <= MAX_PEERS)%nat ->
  json_parse (ranges_text (generation c)) = Some (ranges_doc (generation c)) ->
  addr <> EmptyString -> 0 < port <= 65535 ->
  exists cl, (edb_cluster_start cfg now addr port (persist_state cfg c s).2).1 = Some cl /\
    generation cl = generation c /\ ranges cl = ranges c /\
    target_generation cl = target_generation c /\ target_ranges cl = target_ranges c /\
    (forall m, m ∈ map member_of (peers c) -> m ∈ map member_of (peers cl)).
Proof.
  intros Hacc Hs Hc He Hlen Hparse Ha Hport.
  destruct (persist_spec c s Hacc Hs (node_tables c Hc) He Hparse) as [Hs1 Hper].
  eexists. split; [by apply start_restored|]. unfold boot. cbn [merge_doc].
  pose proof (boot_restored now addr port c Hc (proj1 He) Hlen) as Hb. cbv zeta in Hb.
  revert Hb. generalize (merge_state now (new_cluster addr port) (state_to_json c)).1.
  intros cl (B1 & B2 & B3 & B4 & B5). destruct (node_claimed c Hc) as [_ Hne].
  rewrite claim_claimed.
  - destruct (add_self_tables now cl) as (A1 & A2 & A3 & A4).
    cbn [recompute_leader with_leader generation ranges target_generation target_ranges peers].
    rewrite A1, A2, A3, A4. split_and!; try done.
    intros m Hm. rewrite <-B5 in Hm. by apply add_self_members.
  - cbn. destruct (add_self_tables now cl) as (_ & -> & _). by rewrite B2.
Qed.

(** ** Redundant shards *)

Definition database_of (V : gmap string json) (name : string) : option edb_database_info :=
  V !! name ≫= fun o => if String.eqb (d_name (database_info o)) "" then None else Some (database_info o).

(** The replication factor the configuration asks for a shard. *)
Definition factor (V : gmap string json) (path : string) (kss : list edb_keyspace_info) (key : string) : Z :=
  match keyspace_of_key path key kss with
  | None => 1
  | Some k => match database_of V (k_database k) with
              | Some d => if 0 <? d_replication_factor d then d_replication_factor d else 1
              | None => 1
              end
  end.

Definition registered (V : gmap string json) : list edb_keyspace_info :=
  List.filter (fun k => negb (String.eqb (k_name k) "")) (map keyspace_info (map_to_list V).*2).

Lemma factor_spec path key kss s :
  rs_ok s -> exists s', replication_factor_of path key kss s =
    (factor (rs_view s CFG_KEYSPACE_DATABASES) path kss key, s') /\ unchanged s s'.
Proof.
  intros Hs. unfold replication_factor_of, factor. destruct (keyspace_of_key path key kss) as [k|].
  - unfold edb_database_get.
    destruct (fetch_spec covers CFG_KEYSPACE_DATABASES (k_database k) s Hs) as (s' & Hf & Hu); [repeat constructor|].
    exists s'. split; [|done]. rewrite st_bind_run, (bind_run _ _ _ _ _ Hf). cbn [fst snd mret st_ret].
    unfold database_of. destruct (rs_view s _ !! k_database k) as [o|]; [|done]. cbn.
    by destruct (String.eqb _ _).
  - exists s. split; [done|by apply unchanged_refl].
Qed.

Lemma filter_perm {A} (f : A -> bool) l k : l ≡ₚ k -> List.filter f l ≡ₚ List.filter f k.
Proof.
  induction 1 as [|x l k _ IH|x y l|l k m _ IH1 _ IH2]; cbn [List.filter].
  - done.
  - destruct (f x); [by apply Permutation_skip|exact IH].
  - destruct (f x), (f y); try done. apply Permutation_swap.
  - by rewrite IH1.
Qed.

Lemma keyspace_list_spec s :
  rs_ok s -> exists kss s', edb_keyspace_list s = (kss, s') /\ unchanged s s' /\
    kss ≡ₚ registered (rs_view s CFG_KEYSPACE_KEYSPACES).
Proof.
  intros Hs. unfold edb_keyspace_list.
  destruct (collect_spec covers CFG_KEYSPACE_KEYSPACES s Hs) as (l & s' & Hc & Hu & Hl);
    [repeat constructor|]. rewrite (bind_run _ _ _ _ _ Hc). do 2 eexists. split; [done|]. split; [done|].
  unfold registered, array_items. apply filter_perm. by apply Permutation_map.
Qed.

(** Nothing but online nodes other than ourselves holds the replicas. *)
Definition held_by_others (cl : edb_cluster) (key : string) (rf : Z) : Prop :=
  let holders := take (Z.to_nat rf) (edb_cluster_holders cl key MAX_PEERS) in
  holders <> [] /\ self_id cl ∉ holders /\
  forall h, h ∈ holders -> exists p, p ∈ peers cl /\ p_id p = h /\ p_online p = true.

Lemma redundant_spec cl key rf : redundant cl key rf = true -> held_by_others cl key rf.
Proof.
  unfold redundant, held_by_others. set (hs := take _ _). cbv zeta.
  intros [Hne Hheld]%andb_prop. split; [intros Hnil; by rewrite Hnil in Hne|]. clear Hne.
  induction hs as [|h hs IH]; [split; [apply not_elem_of_nil|intros h Hh; by apply not_elem_of_nil in Hh]|].
  simpl in Hheld. destruct (String.eqb_spec h (self_id cl)) as [|Hne]; [done|].
  apply andb_prop in Hheld as [Hex Hrest]. destruct (IH Hrest) as [IH1 IH2].
  split; [intros [Heq|Hin]%elem_of_cons; [by apply Hne|done]|].
  intros x [->|Hin]%elem_of_cons; [|by apply IH2].
  apply existsb_exists in Hex as (p & Hp & [Hid%String.eqb_eq Hon]%andb_prop).
  exists p. split; [|done]. apply list_elem_of_In. apply list_elem_of_In in Hp. apply list_elem_of_In.
  unfold edb_cluster_peers in Hp. by eapply elem_of_take in Hp as (i & Hp%list_elem_of_lookup_2 & _).
Qed.

Section gc.
Context (cl : edb_cluster) (path : string) (gc : string -> st S bool).

(** Removing the file of a user shard leaves the configuration alone. *)
Hypothesis gc_lawful : forall key s,
  rs_ok s -> edb_config_is_system_key path key = false -> unchanged s (gc key s).2.

(** What reading the configuration can change of the store. *)
Context (Q : S -> S -> Prop) `{!PreOrder Q}.
Hypothesis gets : forall ks id, within Q (rs_get ks id).
Hypothesis alls : forall ks, within Q (rs_all ks).

(** The way from one store to another by the removals that were tried, each
    with its answer, and nothing else but reading. *)
Inductive gc_run : list (string * bool) -> S -> S -> Prop :=
| run_reads s s' : Q s s' -> gc_run [] s s'
| run_call key calls s s1 s' : Q s s1 -> gc_run calls (gc key s1).2 s' -> gc_run ((key, (gc key s1).1) :: calls) s s'.

(** Those that failed, and the one that did not. *)
Definition gc_calls (failed : list string) (r : option string) : list (string * bool) :=
  map (fun k => (k, false)) failed ++ match r with Some k => [(k, true)] | None => [] end.

Lemma run_after calls s s1 s' : Q s s1 -> gc_run calls s1 s' -> gc_run calls s s'.
Proof using PreOrder0.
  intros HQ H. revert HQ. destruct H as [s1 s' H|key calls s1 s2 s' H Hr]; intros HQ; constructor; try done; by etransitivity.
Qed.

Lemma factor_reads path' key kss : within Q (replication_factor_of path' key kss).
Proof using PreOrder0 gets. unfold replication_factor_of, edb_database_get, fetch. follow. Qed.
Lemma lock_reads : within Q restore_locked.
Proof using PreOrder0 gets. unfold restore_locked, setting_doc, edb_setting_get, fetch. follow. Qed.
Lemma keyspaces_reads : within Q edb_keyspace_list.
Proof using PreOrder0 alls. unfold edb_keyspace_list, collect. follow. Qed.

(** What a removal that is tried has to be. *)
Definition collectable (s : S) (kss : list edb_keyspace_info) (keys : list string) (key : string) : Prop :=
  key ∈ keys /\ edb_config_is_system_key path key = false /\
  held_by_others cl key (factor (rs_view s CFG_KEYSPACE_DATABASES) path kss key).

Lemma gc_keys_spec kss keys s :
  rs_ok s ->
  let '(r, s') := gc_keys cl path gc kss keys s in
  unchanged s s' /\
  exists failed, gc_run (gc_calls failed r) s s' /\
    forall key b, (key, b) ∈ gc_calls failed r -> collectable s kss keys key.
Proof using CL RL covers gc_lawful PreOrder0 gets alls.
  assert (Hno : forall (P : string -> Prop) key b, (key, b) ∈ gc_calls [] None -> P key) by (intros P key b Hin; by apply not_elem_of_nil in Hin).
  revert s. induction keys as [|key keys IH]; intros s Hs.
  { split; [by apply unchanged_refl|]. exists []. split; [by apply run_reads|apply Hno]. }
  assert (Hmore : forall s2 k, unchanged s s2 -> collectable s2 kss keys k -> collectable s kss (key :: keys) k).
  { intros s2 k [_ Hu] (H1 & H2 & H3). split; [by right|]. split; [done|]. by rewrite <-Hu by (repeat constructor). }
  cbn [gc_keys]. destruct (edb_config_is_system_key path key) eqn:Esys.
  - specialize (IH s Hs). destruct (gc_keys _ _ _ _ _ s) as [r s']. destruct IH as (Hu & failed & Hrun & Hall).
    split; [done|]. exists failed. split; [done|]. intros k b Hk. by apply (Hmore s k (unchanged_refl s Hs)), (Hall k b).
  - pose proof (factor_reads path key kss s) as HQ. destruct (factor_spec path key kss s Hs) as (s1 & Hf & Hu1).
    rewrite Hf in HQ. rewrite (bind_run _ _ _ _ _ Hf). cbn [snd] in HQ.
    set (rf := factor _ _ _ _) in *. rewrite st_bind_run. destruct (redundant cl key rf) eqn:Ered.
    + assert (Hu2 : unchanged s (gc key s1).2) by (eapply unchanged_trans; [exact Hu1|by apply gc_lawful; [eapply unchanged_ok|]]).
      assert (Hc : collectable s kss (key :: keys) key) by (split; [by left|split; [done|by apply redundant_spec]]).
      pose proof (fun calls s' => run_call key calls s s1 s' HQ) as Hcall.
      destruct (gc key s1) as [[] s2]; cbn [fst snd] in *.
      * split; [done|]. exists []. split; [by apply Hcall, run_reads|]. intros k b Hk. apply list_elem_of_singleton in Hk as [= -> _]. done.
      * specialize (IH s2 (unchanged_ok _ _ Hu2)). destruct (gc_keys _ _ _ _ _ s2) as [r s3].
        destruct IH as (Hu3 & failed & Hrun & Hall). split; [by eapply unchanged_trans|]. exists (key :: failed).
        split; [by apply Hcall|]. intros k b [[= -> _]|Hk]%elem_of_cons; [done|]. by apply (Hmore s2 k Hu2), (Hall k b).
    + cbn [mret st_ret fst snd]. specialize (IH s1 (unchanged_ok _ _ Hu1)). destruct (gc_keys _ _ _ _ _ s1) as [r s3].
      destruct IH as (Hu3 & failed & Hrun & Hall). split; [by eapply unchanged_trans|]. exists failed.
      split; [by eapply run_after|]. intros k b Hk. by apply (Hmore s1 k Hu1), (Hall k b).
Qed.

Lemma restore_locked_spec s : rs_ok s -> exists b s1, restore_locked s = (b, s1) /\ unchanged s s1 /\
  (b = false -> forall v, setting_value (settings s) "server.restore_lock" = Some v -> finite_json v = true -> v <> JBool true).
Proof using CL covers.
  intros Hs. unfold restore_locked, setting_doc. destruct (setting_get "server.restore_lock" s Hs) as (s1 & Hg & Hu).
  rewrite st_bind_run, (bind_run _ _ _ _ _ Hg). cbn [fst snd mret st_ret]. do 2 eexists.
  split; [reflexivity|]. split; [done|]. intros Hb v Hv Hf ->. rewrite Hv in Hb. cbn in Hb.
  by rewrite json_parse_print in Hb.
Qed.

(** C16: Collection of redundant shards does nothing but read and try to
    remove shards one after the other until one removal succeeds, which is the
    key it returns; whatever it tries to remove is a listed shard, never a
    configuration shard, whose replica holders (as many as the database's
    replication factor asks for) are all other nodes that are online; it tries
    nothing while a target is pending or a restore is running; and the
    configuration is left as it was. *)
Theorem gc_removes_only_redundant (keys : list string) (s : S) :
  rs_ok s ->
  let '(r, s') := edb_cluster_gc_redundant cl path gc keys s in
  unchanged s s' /\
  exists failed kss, gc_run (gc_calls failed r) s s' /\ kss ≡ₚ registered (rs_view s CFG_KEYSPACE_KEYSPACES) /\
    forall key b, (key, b) ∈ gc_calls failed r ->
      target_generation cl = 0 /\
      (forall v, setting_value (settings s) "server.restore_lock" = Some v -> finite_json v = true -> v <> JBool true) /\
      key ∈ keys /\ edb_config_is_system_key path key = false /\
      held_by_others cl key (factor (rs_view s CFG_KEYSPACE_DATABASES) path kss key).
Proof using CL RL covers gc_lawful PreOrder0 gets alls.
  intros Hs. unfold edb_cluster_gc_redundant.
  assert (Hnone : forall s', unchanged s s' -> Q s s' -> unchanged s s' /\ exists failed kss, gc_run (gc_calls failed None) s s' /\
    kss ≡ₚ registered (rs_view s CFG_KEYSPACE_KEYSPACES) /\ forall key b, (key, b) ∈ gc_calls failed None ->
      target_generation cl = 0 /\ (forall v, setting_value (settings s) "server.restore_lock" = Some v -> finite_json v = true -> v <> JBool true) /\
      key ∈ keys /\ edb_config_is_system_key path key = false /\ held_by_others cl key (factor (rs_view s CFG_KEYSPACE_DATABASES) path kss key)).
  { intros s' Hu HQ. split; [done|]. exists [], (registered (rs_view s CFG_KEYSPACE_KEYSPACES)). split; [by apply run_reads|].
    split; [done|]. intros key b Hin. by apply not_elem_of_nil in Hin. }
  destruct (Z.eqb_spec (target_generation cl) 0) as [Hz|Hz]; cbn [negb]; [|by apply Hnone; [apply unchanged_refl|]].
  pose proof (lock_reads s) as HQ1. destruct (restore_locked_spec s Hs) as (b & s1 & Hl & Hu1 & Hb).
  rewrite Hl in HQ1. rewrite (bind_run _ _ _ _ _ Hl). destruct b; [by apply Hnone|].
  pose proof (keyspaces_reads s1) as HQ2. destruct (keyspace_list_spec s1) as (kss & s2 & Hk & Hu2 & Hperm); [by eapply unchanged_ok|].
  rewrite Hk in HQ2. rewrite (bind_run _ _ _ _ _ Hk). assert (Hu : unchanged s s2) by by eapply unchanged_trans.
  pose proof (gc_keys_spec kss (take 256 keys) s2 (unchanged_ok _ _ Hu)) as Hgc.
  destruct (gc_keys _ _ _ _ _ s2) as [r s3]. destruct Hgc as (Hu3 & failed & Hrun & Hall).
  split; [by eapply unchanged_trans|]. exists failed, kss. cbn [snd] in *.
  split; [eapply run_after; [by etransitivity|done]|]. destruct Hu as [_ Hu]. destruct Hu1 as [_ Hu1].
  split; [rewrite Hperm; by rewrite Hu1 by (repeat constructor)|]. intros key b Hin. destruct (Hall key b Hin) as (H1 & H2 & H3).
  split_and!; [done|by apply Hb| |done|].
  - by eapply elem_of_take in H1 as (i & H1%list_elem_of_lookup_2 & _).
  - by rewrite <-(Hu CFG_KEYSPACE_DATABASES) by (repeat constructor).
Qed.

End gc.
End facts.

(** ** Concrete states *)

(** A leader whose member has caught up with the pending target. *)
Definition done_a : edb_cluster :=
  MkCluster "node-a" "10.0.0.1" 7001 8080
    [Peer "node-a" "10.0.0.1" 7001 8080 true 90 false 2; Peer "node-b" "10.0.0.2" 7001 8080 true 100 false 2]
    1 0 (build_slices ["node-a"%string]) 2 (build_slices ["node-a"; "node-b"]%string) true "node-a".

Import MapStore.

#[local] Instance demo_laws : RecordStoreLaws map_store := map_store_laws system_keyspaces.

Lemma promotion_needs_compliance_witness :
  let '((promoted, cl'), s') := edb_cluster_promote_target edb_config_open 500 done_a (∅ : map_store) in
  promoted = true /\ generation cl' = 2 /\ gc_after cl' = 512 /\ ranges cl' = target_ranges done_a.
Proof.
  assert (Hw : wave_done (settings (∅ : map_store)) done_a = true) by (vm_compute; reflexivity).
  pose proof (promotion_needs_compliance (S := map_store) edb_config_open (fun ks H => H) 500 done_a ∅ I) as Hp.
  destruct (edb_cluster_promote_target edb_config_open 500 done_a (∅ : map_store)) as [[promoted cl'] s'].
  destruct Hp as [Hb Hp]; [vm_compute; lia|]. rewrite Hw in Hb. change (promoted = true) in Hb. subst promoted.
  destruct Hp as [-> _]. done.
Defined.

(** The second of two members keeps a shard that the first owns. *)
Definition spare_b : edb_cluster :=
  MkCluster "node-b" "10.0.0.2" 7001 8080
    [Peer "node-a" "10.0.0.1" 7001 8080 true 90 false 2; Peer "node-b" "10.0.0.2" 7001 8080 true 100 false 2]
    2 0 (build_slices ["node-a"; "node-b"]%string) 0 [] true "node-a".
Definition spare_key : string := ClusterPlacement.hex_key 12345.

Lemma gc_removes_only_redundant_witness :
  let r := edb_cluster_gc_redundant spare_b "/data" (fun _ => mret true) [spare_key] (∅ : map_store) in
  r.1 = Some spare_key /\ exists rf, held_by_others spare_b spare_key rf.
Proof.
  intros r. assert (Hr : r.1 = Some spare_key) by (vm_compute; reflexivity). split; [exact Hr|].
  pose proof (gc_removes_only_redundant (RL := demo_laws) (fun ks H => H) spare_b "/data" (fun _ => mret true)
    (fun key s Hs _ => unchanged_refl s Hs) eq (fun ks id s => eq_refl) (fun ks s => eq_refl) [spare_key] ∅ I) as Hgc.
  fold r in Hgc. destruct r as [r s']. cbn [fst] in Hr. destruct Hgc as (_ & failed & kss & _ & _ & Hgc).
  destruct (Hgc spare_key true) as (_ & _ & _ & _ & Hheld); [|by eexists].
  unfold gc_calls. rewrite Hr. apply elem_of_app. right. by apply list_elem_of_singleton.
Defined.

(** The codec of MapStore.v that also reads the text [persist_state] formats
    itself. *)
#[local] Instance ranges_codec : JsonCodec := {|
  json_parse s := if String.eqb s (ranges_text 1) then Some (ranges_doc 1) else json_parse (JsonCodec := digit_codec) s;
  json_print := json_print (JsonCodec := digit_codec);
|}.

#[local] Instance ranges_codec_laws : JsonCodecLaws ranges_codec.
Proof.
  split; [|intros j; apply (json_print_nonempty (C := digit_codec))].
  intros j Hj. cbn [json_parse json_print ranges_codec].
  destruct (String.eqb_spec (json_print (JsonCodec := digit_codec) j) (ranges_text 1)) as [Heq|_].
  - exfalso. revert Heq. cbn [json_print digit_codec]. by destruct (encode _).
  - by apply (json_parse_print (C := digit_codec)).
Qed.

#[local] Instance ranges_laws : RecordStoreLaws map_store := map_store_laws system_keyspaces.

Lemma node_a_exact : state_exact node_a /\ (length (peers node_a) <= MAX_PEERS)%nat.
Proof.
  split; [|vm_compute; lia]. split; [unfold exact_gens; destruct node_a_generation as [-> ->]; lia|].
  assert (Hps : exists p, peers node_a = [p] /\ p_port p = 7001 /\ p_http_port p = 0 /\
                 p_last_seen p = 100 /\ p_compliant_gen p = 0)
    by (eexists; vm_compute; repeat split).
  destruct Hps as (p & -> & H1 & H2 & H3 & H4). constructor; [|constructor].
  unfold peer_exact, exact. rewrite H1, H2, H3, H4. lia.
Qed.

Lemma restart_resumes_witness :
  exists cl, (edb_cluster_start edb_config_open 900 "10.0.0.9" 7001
      (persist_state edb_config_open node_a (∅ : map_store)).2).1 = Some cl /\
    generation cl = 1 /\ map node_id (ranges cl) = [self_id node_a].
Proof.
  destruct node_a_exact as [He Hl].
  destruct (restart_resumes (RL := ranges_laws) edb_config_open (fun ks H => H) 900 "10.0.0.9" 7001
    node_a ∅) as (cl & Hc & Hg & Hr & _).
  - intros s id _. split; [|reflexivity]. intros text [doc Hd]. cbn [rs_put map_record_store]. by rewrite Hd.
  - exact I.
  - by apply boot_ok.
  - exact He.
  - exact Hl.
  - reflexivity.
  - done.
  - lia.
  - exists cl. split; [exact Hc|]. rewrite Hg, Hr. vm_compute. split; reflexivity.
Defined.

End Waves.
