(* ===== verification/ClusterGaps.v ===== *)
(** Where the cluster does less than its comments say: what a lost connection,
    a one-shot request, a voided wave and a removal do to the tables. *)

From S2P Require Import Prelude BlockHash Md5 Crypto Json Shard Manager Store Config Cluster.
From S2P Require Import MapStore ConfigFacts Doubles ClusterPlacement Mesh Gossip Repl.

Module ClusterGaps.

Import Json Store MapStore Config Cluster Doubles ClusterPlacement Mesh Gossip.

(** ** Lookups through the updates *)

Lemma find_update id id' f ps :
  (forall p, p_id (f p) = p_id p) ->
  find_peer id (update_peer id' f ps) =
  (fun p => if decide (id = id') then f p else p) <$> find_peer id ps.
Proof.
  intros Hf. induction ps as [|p ps IH]; [done|]. simpl.
  destruct (decide (p_id p = id')) as [Hp|Hp]; rewrite !find_peer_cons, ?Hf.
  - destruct (decide (p_id p = id)) as [Hq|Hq]; simpl.
    + by rewrite decide_True by congruence.
    + destruct (find_peer id ps) as [q|]; [|done]. simpl. by rewrite decide_False by congruence.
  - rewrite IH. destruct (decide (p_id p = id)) as [Hq|Hq]; [|done]. simpl.
    by rewrite decide_False by congruence.
Qed.

Lemma find_map id f ps :
  (forall p, p_id (f p) = p_id p) -> find_peer id (map f ps) = f <$> find_peer id ps.
Proof.
  intros Hf. induction ps as [|p ps IH]; [done|]. simpl. rewrite !find_peer_cons, Hf, IH.
  by case_decide.
Qed.

Lemma shrink_peers gc cl : peers (shrink_table gc cl) = peers cl.
Proof. unfold shrink_table. by destruct (_ || _). Qed.
Lemma shrink_self gc cl : self_id (shrink_table gc cl) = self_id cl.
Proof. unfold shrink_table. by destruct (_ || _). Qed.
Lemma shrink_leader gc cl : leader (shrink_table gc cl) = leader cl.
Proof. unfold shrink_table. by destruct (_ || _). Qed.
Lemma shrink_target gc cl :
  target_generation (shrink_table gc cl) = target_generation cl /\
  target_ranges (shrink_table gc cl) = target_ranges cl.
Proof. unfold shrink_table. by destruct (_ || _). Qed.

Section gaps.
Context {S : Type} `{RecordStore S} `{JsonCodec}.
Context (cfg : edb_config S).

(** The cluster once the connection of [id] is lost. *)
Definition lost (cl : edb_cluster) (id : string) : edb_cluster :=
  recompute_leader (with_peers (update_peer id (set_online false) (peers cl)) cl).

Lemma conn_closed_leader cl id s :
  leader_is_self_locked (lost cl id) = true ->
  (conn_closed cfg cl id s).1 = left_table (lost cl id).
Proof.
  intros Hl. unfold conn_closed. fold (lost cl id). cbv zeta. rewrite Hl. by rewrite !st_bind_run.
Qed.

Lemma left_peers cl : peers (left_table cl) = peers cl.
Proof. unfold left_table. cbv zeta. destruct (_ <? _)%nat; [exact (shrink_peers _ (drop_target cl))|done]. Qed.
Lemma left_self cl : self_id (left_table cl) = self_id cl.
Proof. unfold left_table. cbv zeta. destruct (_ <? _)%nat; [exact (shrink_self _ (drop_target cl))|done]. Qed.
Lemma left_leader cl : leader (left_table cl) = leader cl.
Proof. unfold left_table. cbv zeta. destruct (_ <? _)%nat; [exact (shrink_leader _ (drop_target cl))|done]. Qed.
Lemma left_target cl : target_generation (left_table cl) = 0 /\ target_ranges (left_table cl) = [].
Proof.
  unfold left_table. cbv zeta. destruct (_ <? _)%nat; [|done].
  by destruct (shrink_target (gc_after (drop_target cl)) (drop_target cl)) as [-> ->].
Qed.

(** A HELLO of [id] that does not ask to join. *)
Definition rejoin_hello (id : string) (h : json) : Prop :=
  get_string h "node_id" = Some id /\ is_true_item h "join" = false.

(** [last_seen] is the time of the last HELLO, not of the last contact: a
    member whose connection has lasted two hours is tombstoned by the first
    maintainer round after the connection drops, however short the break, and
    is refused when it dials in again. *)
Theorem reconnect_refused_after_two_hours (now now' : Z) (cl : edb_cluster) (id : string)
    (p : edb_peer_info) (h : json) (s s' : S) :
  find_peer id (peers cl) = Some p -> id_ok id -> id <> self_id cl -> id <> "ephemeral"%string ->
  p_removed p = false -> 0 < p_last_seen p -> p_last_seen p + REMOVE_AFTER_SECONDS <= now ->
  leader_is_self_locked (lost cl id) = true -> rejoin_hello id h ->
  let cl1 := (conn_closed cfg cl id s).1 in
  let cl2 := (auto_remove cfg now cl1 s').1 in
  p_removed <$> find_peer id (peers cl2) = Some true /\
  (conn_hello now' cl2 "" (Some h)).1.1 = HelloRejectRemoved.
Proof.
  intros Hp Hid Hself Heph Hrem Hseen Hold Hlead [Hnode Hjoin]. cbv zeta.
  rewrite (conn_closed_leader cl id s Hlead). set (cl1 := left_table (lost cl id)).
  assert (Hlead1 : leader_is_self_locked cl1 = true)
    by (unfold leader_is_self_locked, cl1; by rewrite left_leader, left_self).
  assert (Hself1 : self_id cl1 = self_id cl) by (unfold cl1; by rewrite left_self).
  assert (Hp1 : find_peer id (peers cl1) = Some (set_online false p)).
  { unfold cl1. rewrite left_peers. change (peers (lost cl id)) with (update_peer id (set_online false) (peers cl)).
    rewrite find_update, Hp by done. cbn [fmap option_fmap option_map]. by rewrite decide_True. }
  clearbody cl1. pose proof (find_peer_id _ _ _ Hp) as Hpid.
  assert (Hexp : expired_peer now (self_id cl1) (set_online false p) = true).
  { unfold expired_peer. cbn. rewrite Hself1, Hpid, Hrem.
    rewrite (proj2 (String.eqb_neq _ _)), (proj2 (Z.ltb_lt _ _)), (proj2 (Z.leb_le _ _)) by (done || lia).
    done. }
  assert (Hany : (remove_expired now cl1).2 = true).
  { unfold remove_expired. cbn [snd]. apply existsb_exists. exists (set_online false p). split; [|done].
    apply list_elem_of_In. by apply find_peer_Some in Hp1 as [_ ?]. }
  unfold auto_remove. rewrite Hlead1. destruct (remove_expired now cl1) as [cl1' any] eqn:Er.
  simpl in Hany. subst any. unfold shrink_live_locked. rewrite !st_bind_run. cbn [fst snd mret st_ret].
  set (cl2 := shrink_table _ _).
  assert (Hp2 : find_peer id (peers cl2) = Some (set_removed true (set_online false p))).
  { unfold cl2. rewrite shrink_peers. injection Er as <-. cbn [drop_target with_target with_peers peers].
    rewrite find_map, Hp1 by (intros q; by destruct (expired_peer now (self_id cl1) q)). cbn [fmap option_fmap option_map].
    by rewrite Hexp. }
  assert (Hself2 : self_id cl2 = self_id cl)
    by (unfold cl2; rewrite shrink_self; injection Er as <-; exact Hself1).
  clearbody cl2. split; [by rewrite Hp2|]. destruct Hid as [Hne Hlen].
  unfold conn_hello, hello_id, hello_is_self. rewrite Hnode. rewrite (proj2 (Nat.ltb_lt _ _)) by done.
  rewrite Hself2. replace (String.eqb id (self_id cl)) with false by (symmetry; by apply String.eqb_neq).
  cbv zeta. cbn [andb]. unfold hello_admit.
  replace (String.eqb id "") with false by (symmetry; by apply String.eqb_neq).
  replace (String.eqb id "ephemeral") with false by (symmetry; by apply String.eqb_neq).
  rewrite Hp2, Hjoin. done.
Qed.

(** A one-shot request voids the rebalance wave: its connection is
    admitted and changes no membership, but when it closes a leader drops the
    pending target, although no member has left. *)
Theorem rpc_voids_wave (now : Z) (cl : edb_cluster) (s : S) :
  recompute_leader cl = cl -> leader_is_self_locked cl = true ->
  find_peer "ephemeral" (peers cl) = None -> self_id cl <> "ephemeral"%string ->
  conn_hello now cl "" (Some Repl.rpc_hello) = (HelloAccept, "ephemeral"%string, cl) /\
  conn_register cl "ephemeral" = (cl, false) /\
  let cl' := (conn_closed cfg cl "ephemeral" s).1 in
  target_generation cl' = 0 /\ target_ranges cl' = [] /\ peers cl' = peers cl /\
  online_ids cl' = online_ids cl.
Proof.
  intros Hrec Hlead Hnone Hself.
  assert (Hupd : update_peer "ephemeral" (set_online false) (peers cl) = peers cl).
  { clear -Hnone. induction (peers cl) as [|p ps IH]; [done|]. rewrite find_peer_cons in Hnone. simpl.
    destruct (decide _); [done|]. by rewrite IH. }
  assert (Hlost : lost cl "ephemeral" = cl) by (unfold lost; by rewrite Hupd, with_peers_id).
  split; [|split].
  - unfold conn_hello. change (hello_id "" Repl.rpc_hello) with "ephemeral"%string. cbv zeta.
    assert (Hadmit : forall b j, hello_admit cl "ephemeral" b j = (None, cl))
      by (intros b j; unfold hello_admit; by destruct b).
    rewrite Hadmit. unfold hello_adopt. done.
  - unfold conn_register. by rewrite Hrec, Hnone.
  - cbv zeta. rewrite conn_closed_leader by by rewrite Hlost. rewrite Hlost.
    destruct (left_target cl) as [H1 H2]. split; [done|]. split; [done|]. rewrite left_peers. split; [done|].
    unfold online_ids. rewrite left_peers. unfold is_online_view. by rewrite left_peers, left_self.
Qed.

(** *** A voided wave *)

Lemma merge_peer_compliant selfish from_leader item q :
  p_compliant_gen (merge_peer selfish from_leader item q).1 =
  Z.max (p_compliant_gen q) (default 0 (get_ll item "compliant")).
Proof.
  assert (H1 : forall q, p_compliant_gen (merge_addr item q).1 = p_compliant_gen q)
    by (intros x; unfold merge_addr; destruct (get_string _ _); [by destruct (_ && _)|done]).
  assert (H2 : forall q, p_compliant_gen (merge_port item q).1 = p_compliant_gen q)
    by (intros x; unfold merge_port; destruct (get_int _ _); [by destruct (_ && _)|done]).
  assert (H3 : forall q, p_compliant_gen (merge_http item q).1 = p_compliant_gen q)
    by (intros x; unfold merge_http; destruct (get_int _ _); [by destruct (_ && _)|done]).
  assert (H4 : forall q, p_compliant_gen (merge_seen item q).1 = p_compliant_gen q)
    by (intros x; unfold merge_seen; cbv zeta; by destruct (_ <? _)).
  assert (H5 : forall q, p_compliant_gen (merge_compliant item q).1 =
                 Z.max (p_compliant_gen q) (default 0 (get_ll item "compliant"))).
  { intros x. unfold merge_compliant. cbv zeta.
    destruct (Z.ltb_spec (p_compliant_gen x) (default 0 (get_ll item "compliant"))); cbn [fst set_compliant p_compliant_gen]; lia. }
  assert (H6 : forall q, p_compliant_gen (merge_removed from_leader item q).1 = p_compliant_gen q)
    by (intros x; unfold merge_removed; destruct (is_true_item item "removed"), (p_removed x), from_leader; done).
  unfold merge_peer.
  destruct (if selfish then _ else merge_addr item q) as [q1 c1] eqn:E1.
  destruct (if selfish then _ else merge_port item q1) as [q2 c2] eqn:E2.
  destruct (if selfish then _ else merge_http item q2) as [q3 c3] eqn:E3.
  specialize (H4 q3). destruct (merge_seen item q3) as [q4 c4]. specialize (H5 q4).
  destruct (merge_compliant item q4) as [q5 c5]. specialize (H6 q5).
  destruct (merge_removed from_leader item q5) as [q6 c6]. cbn [fst] in *. rewrite H6, H5, H4.
  specialize (H1 q). specialize (H2 q1). specialize (H3 q2).
  destruct selfish; [congruence|]. rewrite E1 in H1. rewrite E2 in H2. rewrite E3 in H3. cbn [fst] in *.
  congruence.
Qed.

Lemma publish_peers cl : peers (publish_target_locked cl).2 = peers cl.
Proof.
  unfold publish_target_locked. cbv zeta. destruct (_ =? _)%nat; [done|].
  destruct (_ && _); [done|]. by destruct (_ && _).
Qed.

Lemma compliant_item p :
  exact (p_compliant_gen p) -> 0 < p_compliant_gen p ->
  get_ll (peer_json p) "compliant" = Some (p_compliant_gen p).
Proof.
  intros He Hpos. unfold get_ll, get_number. replace (get_item (peer_json p) "compliant")
    with (Some (jnum (p_compliant_gen p))).
  - cbn [jnum fmap option_fmap option_map]. by rewrite double_exact_signed.
  - unfold peer_json. rewrite (proj2 (Z.ltb_lt _ _) Hpos). by destruct (0 <? p_http_port p), (p_removed p).
Qed.

(** Voiding a wave does not take its generation out of use: the next target is
    published under it again, and a member that had finished the voided wave
    counts as compliant with the new one as soon as its gossip comes in, and a
    node whose stored flag survives even without it. *)
Theorem voided_wave_is_counted (from_leader : bool) (cl : edb_cluster) (s : S) (p : edb_peer_info) :
  leader_is_self_locked cl = true -> 0 <= generation cl -> target_generation cl = generation cl + 1 ->
  p_compliant_gen p = target_generation cl -> exact (target_generation cl) -> id_ok (p_id p) ->
  p_id p ∈ map p_id (peers cl) ->
  let voided := (edb_cluster_void_target cfg cl s).1.2 in
  let '(published, again) := publish_target_locked voided in
  published = true ->
  target_generation again = target_generation cl /\
  let heard := (merge_node from_leader again (peer_json p)).1 in
  peer_compliant (target_generation cl) (peers heard) (p_id p) = true.
Proof.
  intros Hlead Hgen Ht Hp Hex [Hne Hlen] Hin. cbv zeta.
  assert (Hv : (edb_cluster_void_target cfg cl s).1.2 =
               drop_target (with_peers (map (set_compliant 0) (peers cl)) cl)).
  { unfold edb_cluster_void_target. rewrite Hlead, (proj2 (Z.ltb_lt _ _)) by lia. cbn [andb].
    by rewrite !st_bind_run. }
  rewrite Hv. set (voided := drop_target _). pose proof (publish_peers voided) as Hps.
  destruct (publish_target_locked voided) as [published again] eqn:Epub. cbn [snd] in Hps. intros ->.
  split.
  { unfold publish_target_locked in Epub. cbv zeta in Epub. destruct (_ =? _)%nat; [done|].
    destruct (_ && _); [done|]. destruct (_ && _); [done|]. injection Epub as <-. cbn. lia. }
  unfold merge_node. change (get_string (peer_json p) "id") with (Some (p_id p)). cbv beta iota zeta.
  replace (String.eqb (p_id p) "") with false by (symmetry; by apply String.eqb_neq).
  rewrite (proj2 (Nat.leb_gt EDB_NODE_ID_MAX (String.length (p_id p)))) by done. cbn [orb].
  rewrite Hps. destruct (find_peer (p_id p) (peers voided)) as [q|] eqn:Ef.
  - pose proof (merge_peer_compliant (String.eqb (p_id p) (self_id again)) from_leader (peer_json p) q) as Hc.
    pose proof (merge_peer_id (String.eqb (p_id p) (self_id again)) from_leader (peer_json p) q) as Hid.
    destruct (merge_peer _ _ _ q) as [q' c]. cbn [fst] in *. rewrite compliant_item in Hc by (rewrite ?Hp; done || lia).
    cbn [default id] in Hc. unfold peer_compliant. cbn [with_peers peers]. apply existsb_exists. exists q'.
    assert (Hq' : p_id q' = p_id p) by (rewrite Hid; by eapply find_peer_id). split.
    + apply list_elem_of_In. apply (find_peer_Some (p_id p)). rewrite find_update_eq by (done || by rewrite Ef). done.
    + rewrite Hq', String.eqb_refl. apply Z.leb_le. lia.
  - exfalso. apply find_peer_None in Ef. apply Ef. cbn [voided drop_target with_target with_peers peers].
    by rewrite map_peer_ids.
Qed.

(** *** A removal *)

(** The removal of a node drops the pending wave, but shards the live table
    anew only when the number of online members changed: as long as it equals
    the number of slices, the removed node keeps its slice and its keys. *)
Theorem removal_keeps_owner (now : Z) (cl : edb_cluster) (id : string) (p : edb_peer_info) (s : S) :
  find_peer id (peers cl) = Some p -> id <> EmptyString -> id <> self_id cl ->
  leader_is_self_locked cl = true ->
  let marked := with_peers (update_peer id (set_removed true) (peers cl)) cl in
  length (online_ids marked) = length (ranges cl) ->
  let '(removed, cl') := (edb_cluster_remove_node cfg now cl id s).1 in
  removed = true /\ target_generation cl' = 0 /\ ranges cl' = ranges cl /\
  p_removed <$> find_peer id (peers cl') = Some true /\
  forall key, edb_cluster_owner cl' key = edb_cluster_owner cl key.
Proof.
  intros Hp Hne Hself Hlead. cbv zeta. intros Hn. unfold edb_cluster_remove_node.
  replace (String.eqb id "") with false by (symmetry; by apply String.eqb_neq).
  replace (String.eqb id (self_id cl)) with false by (symmetry; by apply String.eqb_neq).
  cbn [orb]. rewrite Hp. cbv zeta. change (leader_is_self_locked (with_peers _ cl)) with (leader_is_self_locked cl).
  rewrite Hlead. unfold shrink_live_locked. rewrite !st_bind_run. cbn [fst snd mret st_ret].
  set (cl1 := drop_target _).
  assert (Hshrink : forall gc, shrink_table gc cl1 = cl1).
  { intros gc. unfold shrink_table. rewrite length_sort_ids.
    change (online_ids cl1) with (online_ids (with_peers (update_peer id (set_removed true) (peers cl)) cl)).
    rewrite Hn. change (ranges cl1) with (ranges cl). by rewrite Nat.eqb_refl, orb_true_r. }
  rewrite Hshrink. split_and!; try done. cbn [cl1 drop_target with_target with_peers peers].
  rewrite find_update, Hp by done. cbn [fmap option_fmap option_map]. by rewrite decide_True.
Qed.

End gaps.

(** ** Concrete states *)

(** A leader with a member connected since time 100, and a wave over both. *)
Definition member_b : edb_peer_info := Peer "node-b" "10.0.0.2" 7001 8080 true 100 false 0.
Definition leader_a : edb_cluster :=
  MkCluster "node-a" "10.0.0.1" 7001 8080
    [Peer "node-a" "10.0.0.1" 7001 8080 true 90 false 0; member_b]
    1 0 (build_slices ["node-a"%string]) 2 (build_slices ["node-a"; "node-b"]%string) true "node-a".

(** Connected until 7399, gone for a second, refused at 7405. *)
Lemma reconnect_refused_after_two_hours_witness :
  let cl1 := (conn_closed edb_config_open leader_a "node-b" (∅ : map_store)).1 in
  let cl2 := (auto_remove edb_config_open 7400 cl1 ∅).1 in
  (conn_hello 7399 leader_a "" (Some (JObject [("node_id", JString "node-b")]))).1.1 = HelloAccept /\
  (conn_hello 7405 cl2 "" (Some (JObject [("node_id", JString "node-b")]))).1.1 = HelloRejectRemoved.
Proof.
  intros cl1 cl2. split; [vm_compute; reflexivity|].
  refine (proj2 (reconnect_refused_after_two_hours edb_config_open 7400 7405 leader_a "node-b" member_b
    (JObject [("node_id", JString "node-b")]) ∅ ∅ eq_refl _ _ _ eq_refl _ _ _ _)).
  - split; [done|]. vm_compute. lia.
  - done.
  - done.
  - done.
  - vm_compute. discriminate.
  - vm_compute. reflexivity.
  - split; reflexivity.
Defined.

Lemma rpc_voids_wave_witness :
  target_generation leader_a = 2 /\
  target_generation (conn_closed edb_config_open leader_a "ephemeral" (∅ : map_store)).1 = 0 /\
  online_ids (conn_closed edb_config_open leader_a "ephemeral" (∅ : map_store)).1 =
    ["node-a"; "node-b"]%string.
Proof.
  split; [reflexivity|].
  destruct (rpc_voids_wave edb_config_open 500 leader_a (∅ : map_store)) as (_ & _ & H1 & _ & _ & H2);
    [vm_compute; reflexivity|vm_compute; reflexivity|vm_compute; reflexivity|done|].
  split; [exact H1|]. rewrite H2. vm_compute. reflexivity.
Defined.

End ClusterGaps.
