(* ===== verification/ReplFacts.v ===== *)
(** Theorems about replicated writes (Repl.v): who has a change after a write,
    what the cache holds, what draining it does. For any engine and network
    whose acknowledgements mean something. *)

From S2P Require Import Prelude Json Shard Manager Store Config ConfigFacts Wire Cluster Repl.

Module ReplFacts.

Import Json Store Config Wire Cluster Repl.

(** ** The change cache *)

Lemma same_change_spec t c r : same_change t c r = true <-> target r = t /\ cid r = c.
Proof. unfold same_change. by rewrite andb_true_iff, !String.eqb_eq. Qed.

Lemma list_filter_elem {A} (f : A -> bool) l x : x ∈ List.filter f l <-> x ∈ l /\ f x = true.
Proof. by rewrite !list_elem_of_In, filter_In. Qed.

(** The keys the cache is UNIQUE in, and what its rows fit in. *)
Definition row_key (r : pending_row) : string * string := (target r, cid r).
Record cache_ok (cc : change_cache) : Prop := {
  keys_unique : NoDup (map row_key (default [] cc));
  rows_short : Forall (fun r => (String.length (target r) <= 63)%nat /\ (String.length (cid r) <= 95)%nat)
                 (default [] cc);
}.

Lemma filter_id {A} (f : A -> bool) l : (forall x, x ∈ l -> f x = true) -> List.filter f l = l.
Proof.
  intros Hf. apply forallb_filter_id, forallb_forall. intros x Hx%list_elem_of_In. by apply Hf.
Qed.

Lemma list_filter_sublist {A} (f : A -> bool) l : sublist (List.filter f l) l.
Proof. induction l as [|x l IH]; [done|]. simpl. destruct (f x); by constructor. Qed.

Lemma filter_cache_ok f cc : cache_ok cc -> cache_ok (List.filter f <$> cc).
Proof.
  intros [Hk Hs]. destruct cc as [rows|]; [|by split]. cbn in *. split; cbn.
  - eapply sublist_NoDup; [exact Hk|]. apply fmap_sublist, list_filter_sublist.
  - apply Forall_forall. intros r [Hr _]%list_filter_elem. rewrite Forall_forall in Hs. by apply Hs.
Qed.

Lemma append_cache_ok ok cc t c p :
  (String.length t <= 63)%nat -> (String.length c <= 95)%nat -> cache_ok cc ->
  cache_ok (cache_append ok cc t c p).
Proof.
  intros Ht Hc Hok. unfold cache_append. destruct ok; [|done].
  pose proof (filter_cache_ok (fun r => negb (same_change t c r)) cc Hok) as [Hk Hs].
  destruct cc as [rows|]; [|by split]. cbn in *. split; cbn.
  - rewrite map_app. apply NoDup_app. split; [done|]. split; [|apply NoDup_singleton].
    intros k Hin Hk'. apply list_elem_of_singleton in Hk' as ->.
    apply list_elem_of_fmap in Hin as (r & Hr & [_ Hn]%list_filter_elem).
    apply negb_true_iff in Hn. unfold row_key in Hr. cbn in Hr. injection Hr as Hrt Hrc.
    assert (same_change t c r = true) by by apply same_change_spec. congruence.
  - apply Forall_app. split; [done|]. by apply Forall_singleton.
Qed.

Lemma remove_cache_ok ok cc t c : cache_ok cc -> cache_ok (cache_remove ok cc t c).
Proof. unfold cache_remove. destruct ok; [apply filter_cache_ok|done]. Qed.

(** The rows of a target through the operations. *)
Lemma pending_append cc t c p t' :
  pending_rows (cache_append true cc t c p) t' =
  List.filter (fun r => negb (same_change t c r)) (pending_rows cc t') ++
  (if String.eqb t t' && bool_decide (cc <> None) then [Pending t c p] else []).
Proof.
  unfold pending_rows, cache_append. destruct cc as [rows|]; cbn; [|by rewrite andb_false_r].
  rewrite List.filter_app. cbn. rewrite andb_true_r. f_equal.
  induction rows as [|r rows IH]; [done|]. cbn.
  destruct (same_change t c r) eqn:E1, (String.eqb (target r) t') eqn:E2; cbn; rewrite ?E1, ?E2; cbn;
    rewrite IH; done.
Qed.

Lemma pending_remove cc t c t' :
  pending_rows (cache_remove true cc t c) t' =
  List.filter (fun r => negb (same_change t c r)) (pending_rows cc t').
Proof.
  unfold pending_rows, cache_remove. destruct cc as [rows|]; cbn; [|done].
  induction rows as [|r rows IH]; [done|]. cbn.
  destruct (same_change t c r) eqn:E1, (String.eqb (target r) t') eqn:E2; cbn; rewrite ?E1, ?E2; cbn;
    rewrite IH; done.
Qed.

Lemma pending_target cc t r : r ∈ pending_rows cc t -> target r = t /\ r ∈ default [] cc.
Proof. intros [Hin Ht]%list_filter_elem. by apply String.eqb_eq in Ht. Qed.

Lemma pending_unique cc t : cache_ok cc -> NoDup (map row_key (pending_rows cc t)).
Proof.
  intros [Hk _]. eapply sublist_NoDup; [exact Hk|]. apply fmap_sublist, list_filter_sublist.
Qed.

(** Removing the oldest row leaves the others. *)
Lemma pending_remove_head cc t r rows :
  cache_ok cc -> pending_rows cc t = r :: rows ->
  pending_rows (cache_remove true cc t (cid r)) t = rows.
Proof.
  intros Hok Hp. pose proof (pending_unique cc t Hok) as Hu. rewrite pending_remove.
  assert (Ht : forall x, x ∈ r :: rows -> target x = t)
    by (intros x Hx; rewrite <-Hp in Hx; by apply pending_target in Hx as [? _]).
  rewrite Hp in Hu |- *. cbn [map] in Hu. apply NoDup_cons in Hu as [Hn Hu]. cbn [List.filter].
  replace (same_change t (cid r) r) with true
    by (symmetry; apply same_change_spec; split; [apply Ht; by left|done]).
  cbn [negb]. apply filter_id. intros x Hx. apply negb_true_iff.
  destruct (same_change t (cid r) x) eqn:E; [|done]. apply same_change_spec in E as [E1 E2].
  exfalso. apply Hn. apply list_elem_of_fmap. exists x. split; [|done].
  unfold row_key. rewrite E1, E2. f_equal. apply Ht. by left.
Qed.

Lemma pending_remove_other cc t c t' :
  t' <> t -> pending_rows (cache_remove true cc t c) t' = pending_rows cc t'.
Proof.
  intros Hne. rewrite pending_remove. apply filter_id. intros x Hx.
  apply pending_target in Hx as [Hx _]. apply negb_true_iff. destruct (same_change t c x) eqn:E; [|done].
  apply same_change_spec in E as [E _]. congruence.
Qed.

(** Rows that fit their buffers are loaded as they are. *)
Lemma cache_load_ok cc t n : cache_ok cc -> cache_load true cc t n = take n (pending_rows cc t).
Proof.
  intros [_ Hs]. unfold cache_load. rewrite <-(map_id (take n (pending_rows cc t))) at 2.
  apply map_ext_in. intros r Hr%list_elem_of_In.
  assert (Hin : r ∈ default [] cc).
  { apply (pending_target cc t). by eapply elem_of_take in Hr as (i & Hr%list_elem_of_lookup_2 & _). }
  rewrite Forall_forall in Hs. destruct (Hs r Hin) as [Ht Hc].
  rewrite !substring_short by lia. by destruct r.
Qed.

Section facts.
Context {S : Type} {J : JsonCodec} {N : Network S}.

(** What an acknowledgement means: the node has heard of the change, and no
    further traffic makes it forget. [net_ok] is whatever invariant of the
    nodes that takes. *)
Class NetworkView := {
  net_ok : S -> Prop;
  heard : S -> string -> Z -> string -> Prop;
}.

Definition remembers {V : NetworkView} (s s' : S) : Prop :=
  net_ok s -> net_ok s' /\ forall addr port text, heard s addr port text -> heard s' addr port text.

Class NetworkLaws (V : NetworkView) := {
  exchange_remembers addr port sent s : remembers s (exchange addr port sent s).2;
  exchange_ack s addr port hello text reply :
    net_ok s ->
    snd <$> List.find (fun f => f.1 =? ESTP_ACK)
              (exchange addr port [(ESTP_HELLO, hello); (ESTP_REPL, text)] s).1 = Some reply ->
    ack_ok reply = true ->
    heard (exchange addr port [(ESTP_HELLO, hello); (ESTP_REPL, text)] s).2 addr port text;
}.
Context {V : NetworkView} {L : NetworkLaws V}.

Lemma remembers_refl s : remembers s s.
Proof. by intros Hok. Qed.
Lemma remembers_trans s s1 s2 : remembers s s1 -> remembers s1 s2 -> remembers s s2.
Proof.
  intros H1 H2 Hok. destruct (H1 Hok) as [Hok1 A1]. destruct (H2 Hok1) as [Hok2 A2]. split; [done|auto].
Qed.

Definition heard_by (s : S) (p : edb_peer_info) (text : string) : Prop := heard s (p_addr p) (p_port p) text.

Lemma remembers_by s s' p text : net_ok s -> remembers s s' -> heard_by s p text -> heard_by s' p text.
Proof. intros Hok H. apply H, Hok. Qed.

Lemma send_change_run p text s :
  send_change p text s =
  let '(frames, s') := exchange (p_addr p) (p_port p) [(ESTP_HELLO, json_print rpc_hello); (ESTP_REPL, text)] s in
  (match snd <$> List.find (fun f => f.1 =? ESTP_ACK) frames with
   | Some reply => ack_ok reply | None => false end, s').
Proof. unfold send_change, rpc_once. rewrite !st_bind_run. by destruct (exchange _ _ _ s). Qed.

Lemma send_change_ack p text s :
  net_ok s -> (send_change p text s).1 = true -> heard_by (send_change p text s).2 p text.
Proof.
  intros Hok. rewrite send_change_run.
  pose proof (exchange_ack s (p_addr p) (p_port p) (json_print rpc_hello) text) as Hack.
  destruct (exchange _ _ _ s) as [frames s']. cbn [fst snd] in *.
  destruct (snd <$> List.find _ frames) as [reply|]; [|done]. intros Hr. by apply (Hack reply).
Qed.

Lemma send_change_remembers p text s : remembers s (send_change p text s).2.
Proof.
  rewrite send_change_run.
  pose proof (exchange_remembers (p_addr p) (p_port p) [(ESTP_HELLO, json_print rpc_hello); (ESTP_REPL, text)] s).
  by destruct (exchange _ _ _ s).
Qed.

(** ** Draining *)

(** [rp'] after the oldest [k] changes for [p] were delivered, in order. *)
Record drained (p : edb_peer_info) (rp : edb_repl) (s : S) (k : nat) (rp' : edb_repl) (s' : S) : Prop := {
  drained_self : repl_self rp' = repl_self rp;
  drained_ok : cache_ok (cache rp');
  drained_queue : pending_rows (cache rp') (p_id p) = drop k (pending_rows (cache rp) (p_id p));
  drained_others t : t <> p_id p -> pending_rows (cache rp') t = pending_rows (cache rp) t;
  drained_heard : net_ok s -> Forall (fun r => heard_by s' p (payload r)) (take k (pending_rows (cache rp) (p_id p)));
  drained_later : remembers s s';
}.

Lemma drained_refl p rp s : cache_ok (cache rp) -> drained p rp s 0 rp s.
Proof. intros Hok. by split. Qed.

Lemma drained_trans p rp s k rp1 s1 m rp2 s2 :
  drained p rp s k rp1 s1 -> drained p rp1 s1 m rp2 s2 -> drained p rp s (k + m) rp2 s2.
Proof.
  intros [A1 A2 A3 A4 A5 A6] [B1 B2 B3 B4 B5 B6]. split.
  - congruence.
  - done.
  - by rewrite B3, A3, drop_drop.
  - intros t Ht. by rewrite B4, A4.
  - intros Hok. specialize (A5 Hok). destruct (A6 Hok) as [Hok1 _]. specialize (B5 Hok1). rewrite A3 in B5.
    rewrite <-(take_drop k (take (k + m) _)), take_take, skipn_firstn_comm.
    replace (k `min` (k + m))%nat with k by lia. replace (k + m - k)%nat with m by lia.
    apply Forall_app. split; [|done]. eapply Forall_impl; [exact A5|]. intros r. by apply remembers_by.
  - by eapply remembers_trans.
Qed.

(** In states [up] the peer acknowledges these changes, and stays up. *)
Definition receptive (p : edb_peer_info) (rows : list pending_row) (up : S -> Prop) : Prop :=
  forall s r, up s -> r ∈ rows -> (send_change p (payload r) s).1 = true /\ up (send_change p (payload r) s).2.

(** A batch delivers a prefix of the queue: all of the batch when every change
    is acknowledged. *)
Lemma deliver_batch_spec p rows rp s :
  cache_ok (cache rp) -> rows `prefix_of` pending_rows (cache rp) (p_id p) ->
  let '((k, rp'), s') := deliver_batch true p rows rp s in
  (k <= length rows)%nat /\ drained p rp s k rp' s' /\
  (forall up, receptive p rows up -> up s -> k = length rows /\ up s').
Proof.
  revert rp s. induction rows as [|r rows IH]; intros rp s Hok Hpre.
  { cbn. split; [done|]. by split; [apply drained_refl|]. }
  destruct Hpre as [rest Hq]. cbn [deliver_batch]. rewrite st_bind_run. unfold deliver_cached.
  rewrite st_bind_run. cbn [fst snd mret st_ret].
  pose proof (send_change_ack p (payload r) s) as Hack.
  pose proof (send_change_remembers p (payload r) s) as Hkeep.
  destruct (send_change p (payload r) s) as [ok s1] eqn:Es. cbn [fst snd] in *. destruct ok; cbn [fst snd].
  - set (rp1 := with_cache _ rp).
    assert (H1 : drained p rp s 1 rp1 s1).
    { split; cbn [rp1 with_cache cache repl_self].
      - done.
      - by apply remove_cache_ok.
      - rewrite Hq. cbn [app drop]. by apply (pending_remove_head _ _ r).
      - intros t Ht. by apply pending_remove_other.
      - intros Hn. rewrite Hq. cbn. apply Forall_singleton. by apply Hack.
      - exact Hkeep. }
    specialize (IH rp1 s1 (drained_ok _ _ _ _ _ _ H1)). rewrite st_bind_run. cbn [fst snd].
    assert (Hpre1 : rows `prefix_of` pending_rows (cache rp1) (p_id p))
      by (rewrite (drained_queue _ _ _ _ _ _ H1), Hq; by exists rest).
    specialize (IH Hpre1). destruct (deliver_batch true p rows rp1 s1) as [[k rp2] s2].
    destruct IH as (Hk & Hd & Hall). cbn. split; [lia|]. split; [by apply (drained_trans p rp s 1 rp1 s1 k)|].
    intros up Hup Hs. destruct (Hup s r Hs) as [_ Hs1]; [by left|]. rewrite Es in Hs1.
    destruct (Hall up) as [-> ?]; [|done|done]. intros x y Hx Hy. apply Hup; [done|by right].
  - cbn. split; [lia|]. split; [by split|]. intros up Hup Hs. destruct (Hup s r Hs) as [Hack' _]; [by left|].
    by rewrite Es in Hack'.
Qed.

Lemma drain_rounds_spec n p rp s :
  cache_ok (cache rp) ->
  let '(rp', s') := drain_rounds n true p (p_id p) rp s in
  exists k, drained p rp s k rp' s' /\
    (forall up, receptive p (pending_rows (cache rp) (p_id p)) up -> up s ->
     (length (pending_rows (cache rp) (p_id p)) <= n * BATCH)%nat ->
     pending_rows (cache rp') (p_id p) = []).
Proof.
  revert rp s. induction n as [|n IH]; intros rp s Hok; cbn [drain_rounds].
  { exists O. split; [by apply drained_refl|]. intros up _ _ Hl. by apply nil_length_inv; lia. }
  rewrite cache_load_ok by done. set (rows := take BATCH (pending_rows (cache rp) (p_id p))).
  assert (Hpre : rows `prefix_of` pending_rows (cache rp) (p_id p)) by apply prefix_take.
  assert (Hsub : forall up, receptive p (pending_rows (cache rp) (p_id p)) up -> receptive p rows up).
  { intros up Hup x r Hx Hr. apply Hup; [done|].
    by eapply elem_of_take in Hr as (i & Hr%list_elem_of_lookup_2 & _). }
  pose proof (deliver_batch_spec p rows rp s Hok Hpre) as Hb.
  destruct rows as [|r rows'] eqn:Erows.
  { exists O. split; [by apply drained_refl|]. intros up _ _ _. unfold rows in Erows. by destruct (pending_rows _ _). }
  rewrite <-Erows in *. clear r rows' Erows. rewrite st_bind_run.
  destruct (deliver_batch true p rows rp s) as [[k rp1] s1]. cbn [fst snd] in *.
  destruct Hb as (Hk & Hd & Hall). destruct (Nat.eqb_spec k 0) as [->|Hk0].
  - exists O. split; [done|]. intros up Hup Hs Hl. destruct (Hall up (Hsub up Hup) Hs) as [Hz _].
    unfold rows in Hz. rewrite length_take in Hz.
    rewrite (drained_queue _ _ _ _ _ _ Hd), drop_0. apply nil_length_inv. unfold BATCH in Hz. lia.
  - specialize (IH rp1 s1 (drained_ok _ _ _ _ _ _ Hd)).
    destruct (drain_rounds n true p (p_id p) rp1 s1) as [rp2 s2]. destruct IH as (m & Hd2 & Hempty).
    exists (k + m)%nat. split; [by eapply drained_trans|]. intros up Hup Hs Hl.
    destruct (Hall up (Hsub up Hup) Hs) as [Hz Hs1]. apply (Hempty up); [|done|].
    + rewrite (drained_queue _ _ _ _ _ _ Hd). intros x r Hx Hr. apply Hup; [done|].
      apply list_elem_of_lookup in Hr as (i & Hr). rewrite lookup_drop in Hr. by eapply list_elem_of_lookup_2.
    + rewrite (drained_queue _ _ _ _ _ _ Hd), length_drop, Hz. unfold rows. rewrite length_take. lia.
Qed.

(** C23: Draining the cache for a peer delivers a prefix of its queue in
    the order the changes were cached, drops exactly what the peer
    acknowledged, leaves the queues of the others alone and reports what is
    left. When the peer acknowledges everything and owes at most 16384 changes
    nothing is left. *)
Theorem drain_delivers_in_order (cl : edb_cluster) (rp : edb_repl) (id : string) (p : edb_peer_info) (s : S) :
  net_ok s -> cache_ok (cache rp) -> replaying rp = EmptyString -> find_dialable cl id = Some p ->
  let '((pending, rp'), s') := edb_repl_drain_peer true cl rp id s in
  exists k, let queue := pending_rows (cache rp) id in
    pending_rows (cache rp') id = drop k queue /\ pending = length (drop k queue) /\
    Forall (fun r => heard_by s' p (payload r)) (take k queue) /\
    (forall t, t <> id -> pending_rows (cache rp') t = pending_rows (cache rp) t) /\
    replaying rp' = EmptyString /\
    (forall up, receptive p queue up -> up s -> (length queue <= 16384)%nat -> pending = O).
Proof.
  intros Hnet Hok Hidle Hp. unfold edb_repl_drain_peer. rewrite Hidle, Hp. cbn [String.eqb negb andb].
  assert (Hid : p_id p = id).
  { unfold find_dialable in Hp. apply List.find_some in Hp as [_ [Hp _]%andb_prop]. by apply String.eqb_eq. }
  subst id. set (rp0 := with_replaying _ rp). rewrite st_bind_run.
  pose proof (drain_rounds_spec ROUNDS p rp0 s Hok) as Hd.
  destruct (drain_rounds ROUNDS true p (p_id p) rp0 s) as [rp1 s1]. cbn.
  destruct Hd as (k & [_ _ Hq Ho Hh _] & Hempty). exists k. unfold edb_repl_pending_for.
  cbn [rp0 with_replaying cache] in *. split_and!; try done.
  - by rewrite Hq.
  - by apply Hh.
  - intros up Hup Hs Hl. rewrite (Hempty up); [done|done|done|]. unfold ROUNDS, BATCH. lia.
Qed.

(** ** Writing *)

(** The local engine and the configuration leave the other nodes alone. *)
Class QuietEngine `{RecordStore S} `{DataEngine S} := {
  rs_get_remembers ks id s : remembers s (rs_get ks id s).2;
  replica_put_remembers pt ks id v ttl ts o s : remembers s (replica_put_origin pt ks id v ttl ts o s).2;
  replica_delete_remembers pt ks id ts o s : remembers s (replica_delete_origin pt ks id ts o s).2;
}.
Context `{R : RecordStore S} `{D : DataEngine S} {Q : QuietEngine}.

Lemma factor_remembers db s : remembers s (replication_factor db s).2.
Proof.
  unfold replication_factor, edb_database_get, fetch. rewrite !st_bind_run. cbn. apply rs_get_remembers.
Qed.

Lemma apply_remembers change s : remembers s (apply_change_local change s).2.
Proof.
  unfold apply_change_local. destruct (change_parts change) as [f|]; [|apply remembers_refl]. unfold apply_fields.
  destruct (String.eqb _ _).
  - destruct (get_item change "value") as [[]|]; try apply remembers_refl. apply replica_put_remembers.
  - destruct (String.eqb _ _); [apply replica_delete_remembers|apply remembers_refl].
Qed.

(** A remote holder that has heard of the change. *)
Definition acked (self : string) (holders : list string) (text : string) (ps : list edb_peer_info) (s : S)
    (h : string) : Prop :=
  h <> self /\ h ∈ holders /\ exists p, p ∈ ps /\ p_id p = h /\ heard_by s p text.

Lemma id_in_holders_spec id holders : id_in_holders id holders = true <-> id ∈ holders.
Proof.
  unfold id_in_holders. rewrite existsb_exists. setoid_rewrite String.eqb_eq. split.
  - intros (x & Hx & ->). by apply list_elem_of_In.
  - intros Hid. exists id. split; [by apply list_elem_of_In|done].
Qed.

Lemma fan_out_spec self holders text ps s :
  net_ok s ->
  let '((delivered, n), s') := fan_out self holders text ps s in
  Forall2 (fun p d => d = true -> p_id p = self \/ heard_by s' p text) ps delivered /\
  remembers s s' /\
  exists hs, sublist hs (map p_id ps) /\ length hs = n /\ Forall (acked self holders text ps s') hs.
Proof.
  revert s. induction ps as [|p ps IH]; intros s Hok.
  { cbn. split; [constructor|]. split; [apply remembers_refl|]. by exists []. }
  cbn [fan_out]. cbv zeta. rewrite st_bind_run.
  set (m := if negb (String.eqb (p_id p) self) then _ else _).
  assert (Hm : remembers s (m s).2 /\ ((m s).1 = true -> p_id p = self \/ heard_by (m s).2 p text)).
  { unfold m. destruct (String.eqb_spec (p_id p) self) as [Hs|Hs]; cbn [negb].
    - split; [apply remembers_refl|]. by left.
    - destruct (p_online p && dialable p); [|split; [apply remembers_refl|done]].
      split; [apply send_change_remembers|]. intros Hr. right. by apply send_change_ack. }
  destruct Hm as [Hk Hd]. destruct (m s) as [ok s1]. cbn [fst snd] in *. rewrite st_bind_run.
  destruct (Hk Hok) as [Hok1 _]. specialize (IH s1 Hok1).
  destruct (fan_out self holders text ps s1) as [[del n] s2]. cbn [fst snd mret st_ret].
  destruct IH as (Hdel & Hk2 & hs & Hsub & Hlen & Hacked). split.
  { constructor; [|done]. intros Ht. destruct (Hd Ht) as [?|?]; [by left|right; by eapply remembers_by]. }
  split; [by eapply remembers_trans|].
  assert (Hup : Forall (acked self holders text (p :: ps) s2) hs).
  { eapply Forall_impl; [exact Hacked|]. intros h (A1 & A2 & q & Hq & A3). split; [done|]. split; [done|].
    exists q. split; [by right|done]. }
  destruct (negb (String.eqb (p_id p) self) && ok && id_in_holders (p_id p) holders) eqn:E.
  - apply andb_prop in E as [[Hr ->]%andb_prop Hin%id_in_holders_spec]. apply negb_true_iff, String.eqb_neq in Hr.
    exists (p_id p :: hs). split; [by apply sublist_skip|]. split; [cbn; by rewrite Hlen|].
    constructor; [|done]. split; [done|]. split; [done|]. exists p. split; [by left|]. split; [done|].
    destruct (Hd eq_refl) as [?|?]; [done|]. by eapply remembers_by.
  - exists hs. split; [by apply sublist_cons|]. done.
Qed.

Lemma append_elem cc t c p r :
  is_Some cc -> r ∈ default [] (cache_append true cc t c p) <->
  r = Pending t c p \/ (r ∈ default [] cc /\ same_change t c r = false).
Proof.
  intros [rows ->]. cbn. rewrite elem_of_app, list_filter_elem, list_elem_of_singleton, negb_true_iff. tauto.
Qed.

Lemma append_some ok cc t c p : is_Some cc -> is_Some (cache_append ok cc t c p).
Proof. intros [rows ->]. unfold cache_append. by destruct ok. Qed.

(** With inserts that succeed every peer the fan-out missed gets a row, and
    rows of other changes stay. *)
Lemma cache_missed_spec ins self c text ps delivered cc :
  (forall id, ins id = true) -> is_Some cc -> length delivered = length ps ->
  let cc' := cache_missed ins self c text ps delivered cc in
  Forall2 (fun p d => d = false -> p_id p <> self -> p_id p <> EmptyString ->
             Pending (p_id p) c text ∈ default [] cc') ps delivered /\
  (forall r, r ∈ default [] cc -> cid r <> c \/ payload r = text -> r ∈ default [] cc').
Proof.
  intros Hins. revert cc delivered. induction ps as [|p ps IH]; intros cc [|d del] Hcc Hlen; try done.
  cbn [cache_missed]. cbv zeta. set (missed := negb d && _ && _).
  set (cc1 := if missed then _ else cc).
  assert (Hcc1 : is_Some cc1) by (unfold cc1; destruct missed; [by apply append_some|done]).
  injection Hlen as Hlen. destruct (IH cc1 del Hcc1 Hlen) as [IH1 IH2].
  assert (Hstep : forall r, r ∈ default [] cc -> cid r <> c \/ payload r = text -> r ∈ default [] cc1).
  { intros r Hr Hor. unfold cc1. destruct missed; [|done]. rewrite Hins. apply append_elem; [done|].
    destruct (same_change (p_id p) c r) eqn:E; [left|by right]. apply same_change_spec in E as [E1 E2].
    destruct r as [rt rc rp]. cbn in *. destruct Hor as [Hor|Hor]; [done|congruence]. }
  split; [|intros r Hr Hor; apply IH2; auto].
  constructor; [|exact IH1]. intros -> Hne Hemp. apply IH2; [|by right]. unfold cc1, missed.
  replace (String.eqb (p_id p) self) with false by (symmetry; by apply String.eqb_neq).
  replace (String.eqb (p_id p) "") with false by (symmetry; by apply String.eqb_neq).
  cbn [negb andb]. rewrite Hins. apply append_elem; [done|]. by left.
Qed.

Section write.
Context (ins : string -> bool) (cl : edb_cluster) (path : string) (now : Z) (rp : edb_repl).
Context (db text : string) (change : json) (partition keyspace : string).
Hypothesis parsed : json_parse text = Some change.
Hypothesis partition_given : get_string change "partition" = Some partition.
Hypothesis keyspace_given : get_string change "keyspace" = Some keyspace.

(** The id of the change, and what is sent. *)
Definition sent_cid : string := change_id (repl_self rp) now (change_seq rp + 1).
Definition sent_change : json := stamp_change (repl_self rp) sent_cid change.
Definition sent_text : string := json_print sent_change.

Definition acknowledged (holders : list string) (n : nat) : nat :=
  ((if id_in_holders (repl_self rp) holders then 1 else 0) + n)%nat.

(** The run of a write, cut at its two exchanges. *)
Lemma write_run s :
  let ps := edb_cluster_peers cl MAX_PEERS_SNAPSHOT in
  let '(rf, s1) := replication_factor db s in
  let holders := write_holders cl (repl_self rp) path partition keyspace rf in
  let '((delivered, n), s2) := fan_out (repl_self rp) holders sent_text ps s1 in
  let rp' := MkRepl (repl_self rp) (change_seq rp + 1)
               (cache_missed ins (repl_self rp) sent_cid sent_text ps delivered (cache rp))
               (syncing rp) (replaying rp) in
  edb_repl_write ins cl path now rp db text s =
  if (acknowledged holders n <? quorum (length holders))%nat then ((EDB_REPL_QUORUM_LOST, rp'), s2)
  else let '(ok, s3) := apply_change_local sent_change s2 in
       ((if ok : bool then EDB_REPL_OK else EDB_REPL_LOCAL_FAIL, rp'), s3).
Proof.
  cbv zeta. unfold edb_repl_write. rewrite parsed, partition_given, keyspace_given. cbv zeta.
  fold sent_cid sent_change sent_text. rewrite st_bind_run.
  destruct (replication_factor db s) as [rf s1]. cbn [fst snd]. rewrite st_bind_run.
  destruct (fan_out _ _ _ _ s1) as [[del n] s2]. cbn [fst snd]. unfold acknowledged.
  destruct (_ <? _)%nat; [done|]. rewrite st_bind_run. by destruct (apply_change_local _ s2).
Qed.

(** C22: No peer is forgotten: whatever a write returns, also when it is
    rejected or fails locally, afterwards each other member of the peer table
    has acknowledged the change or has it in the persistent cache, and no row
    of an earlier change is lost. *)
Theorem write_heard_or_cached (s : S) :
  net_ok s -> (forall id, ins id = true) -> is_Some (cache rp) ->
  let '((status, rp'), s') := edb_repl_write ins cl path now rp db text s in
  (forall p, p ∈ edb_cluster_peers cl MAX_PEERS_SNAPSHOT -> p_id p <> repl_self rp -> p_id p <> EmptyString ->
     heard_by s' p sent_text \/ Pending (p_id p) sent_cid sent_text ∈ default [] (cache rp')) /\
  (forall r, r ∈ default [] (cache rp) -> cid r <> sent_cid -> r ∈ default [] (cache rp')).
Proof.
  intros Hok Hins Hcache. pose proof (write_run s) as Hrun. cbv zeta in Hrun.
  set (ps := edb_cluster_peers cl MAX_PEERS_SNAPSHOT) in *. destruct (factor_remembers db s Hok) as [Hok1 _].
  destruct (replication_factor db s) as [rf s1]. set (holders := write_holders _ _ _ _ _ _) in *.
  pose proof (fan_out_spec (repl_self rp) holders sent_text ps s1 Hok1) as Hfan.
  destruct (fan_out _ _ _ _ s1) as [[del n] s2]. destruct Hfan as (Hdel & Hrem & _). destruct (Hrem Hok1) as [Hok2 _].
  destruct (cache_missed_spec ins (repl_self rp) sent_cid sent_text ps del (cache rp) Hins Hcache) as [Hmiss Hkeep];
    [symmetry; by eapply Forall2_length|].
  set (rp' := MkRepl _ _ _ _ _) in *.
  assert (Hall : forall s', (forall p, heard_by s2 p sent_text -> heard_by s' p sent_text) ->
    (forall p, p ∈ ps -> p_id p <> repl_self rp -> p_id p <> EmptyString ->
       heard_by s' p sent_text \/ Pending (p_id p) sent_cid sent_text ∈ default [] (cache rp')) /\
    (forall r, r ∈ default [] (cache rp) -> cid r <> sent_cid -> r ∈ default [] (cache rp'))).
  { intros s' Hmono. split; [|intros r Hr Hc; apply Hkeep; [done|by left]].
    intros p [i Hi]%list_elem_of_lookup Hne Hemp.
    destruct (Forall2_lookup_l _ _ _ _ _ Hdel Hi) as (d & Hd & Hheard).
    destruct (Forall2_lookup_l _ _ _ _ _ Hmiss Hi) as (d' & Hd' & Hpend).
    assert (d' = d) as -> by congruence. destruct d.
    - left. destruct (Hheard eq_refl) as [?|?]; [done|]. by apply Hmono.
    - right. by apply Hpend. }
  rewrite Hrun. destruct (_ <? _)%nat; [by apply Hall|].
  pose proof (apply_remembers sent_change s2) as Hk.
  destruct (apply_change_local sent_change s2) as [ok s3]. apply Hall. intros p. by apply remembers_by.
Qed.

(** A write that reports success has reached a majority. *)
Lemma write_majority (s : S) :
  net_ok s -> NoDup (map p_id (edb_cluster_peers cl MAX_PEERS_SNAPSHOT)) ->
  let '((status, rp'), s') := edb_repl_write ins cl path now rp db text s in
  status = EDB_REPL_OK ->
  let holders := write_holders cl (repl_self rp) path partition keyspace (replication_factor db s).1 in
  (exists hs, NoDup hs /\ (length holders < 2 * length hs)%nat /\
    Forall (fun h => h ∈ holders /\
              (h = repl_self rp \/
               exists p, p ∈ edb_cluster_peers cl MAX_PEERS_SNAPSHOT /\ p_id p = h /\ heard_by s' p sent_text)) hs) /\
  exists s2, net_ok s2 /\ apply_change_local sent_change s2 = (true, s').
Proof.
  intros Hok Hnd. pose proof (write_run s) as Hrun. cbv zeta in Hrun.
  set (ps := edb_cluster_peers cl MAX_PEERS_SNAPSHOT) in *. destruct (factor_remembers db s Hok) as [Hok1 _].
  destruct (replication_factor db s) as [rf s1]. cbn [fst]. set (holders := write_holders _ _ _ _ _ _) in *.
  pose proof (fan_out_spec (repl_self rp) holders sent_text ps s1 Hok1) as Hfan.
  destruct (fan_out _ _ _ _ s1) as [[del n] s2]. destruct Hfan as (_ & Hrem & hs & Hsub & Hlen & Hacked).
  destruct (Hrem Hok1) as [Hok2 _].
  rewrite Hrun. destruct (Nat.ltb_spec (acknowledged holders n) (quorum (length holders))) as [|Hq]; [done|].
  pose proof (apply_remembers sent_change s2) as Hk.
  destruct (apply_change_local sent_change s2) as [ok s3] eqn:Ea. destruct ok; [|done]. intros _. cbv zeta.
  split; [|by exists s2].
  assert (Hhs : NoDup hs) by (eapply sublist_NoDup; [exact Hnd|done]).
  assert (Hup : Forall (fun h => h ∈ holders /\ (h = repl_self rp \/
      exists p, p ∈ ps /\ p_id p = h /\ heard_by s3 p sent_text)) hs).
  { eapply Forall_impl; [exact Hacked|]. intros h (_ & Hin & p & Hp & Hid & Hh). split; [done|].
    right. exists p. split; [done|]. split; [done|]. by eapply remembers_by. }
  assert (Hmaj : (length holders < 2 * quorum (length holders))%nat).
  { unfold quorum. pose proof (Nat.div_mod_eq (length holders) 2).
    pose proof (Nat.mod_upper_bound (length holders) 2). lia. }
  unfold acknowledged in Hq. destruct (id_in_holders (repl_self rp) holders) eqn:Eself.
  - exists (repl_self rp :: hs). split; [|split; [cbn; lia|]].
    + constructor; [|done]. intros Hin. rewrite Forall_forall in Hacked. by destruct (Hacked _ Hin).
    + constructor; [|done]. split; [by apply id_in_holders_spec|by left].
  - exists hs. split; [done|]. split; [lia|done].
Qed.

(** C4: A write that reports success is held by a majority: more than half
    of the holders of the keyspace (as many as the replication factor, as far
    as there are members) are ourselves or have acknowledged the change, and
    it was applied to the local shard last. *)
Theorem write_quorum (s : S) :
  net_ok s -> NoDup (map p_id (edb_cluster_peers cl MAX_PEERS_SNAPSHOT)) ->
  let '((status, rp'), s') := edb_repl_write ins cl path now rp db text s in
  status = EDB_REPL_OK ->
  let holders := write_holders cl (repl_self rp) path partition keyspace (replication_factor db s).1 in
  (exists hs, NoDup hs /\ (length holders < 2 * length hs)%nat /\
    Forall (fun h => h ∈ holders /\
              (h = repl_self rp \/
               exists p, p ∈ edb_cluster_peers cl MAX_PEERS_SNAPSHOT /\ p_id p = h /\ heard_by s' p sent_text)) hs) /\
  exists s2, net_ok s2 /\ apply_change_local sent_change s2 = (true, s').
Proof. exact (write_majority s). Qed.

End write.
End facts.

End ReplFacts.
