(* ===== verification/ReplRead.v ===== *)
(** src/socket/epsilon_repl_read.c: quorum reads. The holders of a keyspace are
    asked, the local copy counts when we are one of them, and what enough
    copies agree on is returned. Documents are compared by the MD5 of their
    printed form. The worker threads of a fan-out run one after the other
    here; each talks on a connection of its own. *)

From S2P Require Import Prelude BlockHash Md5 Json Shard Manager Store Config Wire Cluster Repl.

Module ReplRead.

Import Json Store Config Wire Cluster Repl.

Definition MAX_REPLIES : nat := 16.

(** cJSON_GetObjectItem, which ignores the case of names. *)
Definition get_item_nocase (j : json) (name : string) : option json :=
  match j with
  | JObject ms => (fun p => p.2.2) <$> list_find (fun m => lower m.1 = lower name) ms
  | _ => None
  end.

(** [(long long)valuedouble] of the timestamp of a row, 0 when there is none. *)
Definition row_ts (row : json) : Z := default 0 (get_ll row "timestamp").

Definition object_item (j : json) (name : string) : option json :=
  match get_item j name with Some (JObject ms) => Some (JObject ms) | _ => None end.

Section merging.
Context `{JsonCodec}.

Definition value_fingerprint (v : json) : string := Manager.md5_of_string (json_print v).
#[global] Arguments value_fingerprint : simpl never.

(** ** Merging rows *)

Record entry := Entry { e_id : string; e_fp : string; e_best : option json; e_ts : Z; e_agree : nat }.

(** Another copy of the document of an entry. *)
Definition count_copy (v : json) (ts : Z) (e : entry) : entry :=
  let fp := value_fingerprint v in
  let same := match e_best e with
              | Some _ => negb (String.eqb (e_fp e) "") && negb (String.eqb fp "") && String.eqb fp (e_fp e)
              | None => false
              end in
  let agree := if same then S (e_agree e) else e_agree e in
  if match e_best e with None => true | Some _ => e_ts e <? ts end
  then Entry (e_id e) fp (Some v) ts (if same then agree else 1%nat)
  else Entry (e_id e) (e_fp e) (e_best e) (e_ts e) agree.

(** The entry of an id, or a new one at the end; ids are cut at 511. *)
Fixpoint update_entry (id : string) (f : entry -> entry) (es : list entry) : list entry :=
  match es with
  | [] => [f (Entry (String.substring 0 511 id) "" None 0 0)]
  | e :: es => if String.eqb (e_id e) id then f e :: es else e :: update_entry id f es
  end.

Definition merge_row (es : list entry) (row : json) : list entry :=
  match get_string row "id", object_item row "value" with
  | Some id, Some v => update_entry id (count_copy v (row_ts row)) es
  | _, _ => es
  end.

Definition rows_of (set : json) : list json :=
  match get_item_nocase set "rows" with Some (JArray l) => l | _ => [] end.

Definition merge_sets (sets : list json) : list entry := foldl merge_row [] (concat (map rows_of sets)).

Definition agreed (required : nat) (e : entry) : bool :=
  match e_best e with Some _ => (required <=? e_agree e)%nat | None => false end.

Definition merge_agreed_rows (sets : list json) (required : nat) : json :=
  JArray (omap e_best (List.filter (agreed required) (merge_sets sets))).

Definition meta_row (e : entry) : option json :=
  (fun v => JObject [("id", JString (e_id e)); ("timestamp", jnum (e_ts e)); ("value", v)]) <$> e_best e.

Definition merge_agreed_rows_meta (sets : list json) (required : nat) : json :=
  JArray (omap meta_row (List.filter (agreed required) (merge_sets sets))).

(** ** Merging ids *)

Fixpoint count_id (es : list (string * nat)) (id : string) : list (string * nat) :=
  match es with
  | [] => [(String.substring 0 511 id, 1%nat)]
  | e :: es => if String.eqb e.1 id then (e.1, S e.2) :: es else e :: count_id es id
  end.

Definition merge_agreed_ids (lists : list (list string)) (required : nat) : list string :=
  map fst (List.filter (fun e => (required <=? e.2)%nat) (foldl count_id [] (concat lists))).

(** ** One document *)

Record group := Group { g_fp : string; g_ts : Z; g_sample : json; g_votes : nat }.

Definition vote (ts : Z) (g : group) : group :=
  Group (g_fp g) (if g_ts g <? ts then ts else g_ts g) (g_sample g) (S (g_votes g)).

Fixpoint add_vote (v : json) (ts : Z) (gs : list group) : list group :=
  match gs with
  | [] => [vote ts (Group (value_fingerprint v) 0 v 0)]
  | g :: gs => if String.eqb (g_fp g) (value_fingerprint v) then vote ts g :: gs
               else g :: add_vote v ts gs
  end.

(** A copy of the document: [None] from a holder that has none. *)
Definition count_vote (st : list group * nat) (copy : option (json * Z)) : list group * nat :=
  match copy with
  | Some (v, ts) => (add_vote v ts st.1, st.2)
  | None => (st.1, S st.2)
  end.

Definition better (required : nat) (winner : option group) (g : group) : option group :=
  if (required <=? g_votes g)%nat && match winner with None => true | Some w => g_ts w <? g_ts g end
  then Some g else winner.

(** The document that enough copies agree on. *)
Definition elect (copies : list (option (json * Z))) (required : nat) : option json :=
  let '(gs, absent) := foldl count_vote ([], O) copies in
  if (absent <? required)%nat then g_sample <$> foldl (better required) None gs else None.

(** What a reply to a "get" holds. *)
Definition reply_copy (reply : json) : option (json * Z) :=
  match get_item_nocase reply "row" with
  | Some (JObject ms) => (fun v => (v, row_ts (JObject ms))) <$> object_item (JObject ms) "value"
  | _ => None
  end.

End merging.

(** ** Requests *)

Definition make_request (q db partition keyspace : string) (rest : list (string * json)) : json :=
  JObject ([("q", JString q); ("db", JString db); ("partition", JString partition);
            ("keyspace", JString keyspace)] ++ rest).

Definition filter_member (filters : option json) : list (string * json) :=
  match filters with Some f => [("filters", f)] | None => [] end.

(** The peers a request goes to: the dialable online holders other than us, at
    most 16. *)
Definition asked_peers (cl : edb_cluster) (self : string) (holders : list string) : list edb_peer_info :=
  take MAX_REPLIES
    (List.filter (fun p => negb (String.eqb (p_id p) self) && id_in_holders (p_id p) holders
                           && p_online p && dialable p)
       (edb_cluster_peers cl MAX_PEERS_SNAPSHOT)).

(** The strings of a reply's array; NULL without any. *)
Definition strings_from_json (j : option json) : list string :=
  match j with
  | Some (JArray l) => omap (fun i => match i with JString s => Some s | _ => None end) l
  | _ => []
  end.

Section reading.
Context {S : Type} `{RecordStore S} `{JsonCodec} `{DataEngine S} `{Network S}.
Context (cl : edb_cluster) (path self : string).

(** The replies that came and parse, in peer order. *)
Fixpoint ask (text : string) (ps : list edb_peer_info) : st S (list json) :=
  match ps with
  | [] => mret []
  | p :: ps =>
      r ← rpc_once (p_addr p) (p_port p) ESTP_QUERY text ESTP_RESULT;
      rest ← ask text ps;
      mret (match r with
            | Some (Some reply) => match json_parse reply with Some j => j :: rest | None => rest end
            | _ => rest
            end)
  end.

Definition query_all (db partition keyspace : string) (request : json) : st S (list json) :=
  rf ← replication_factor db;
  ask (json_print request) (asked_peers cl self (holder_ids cl self path partition keyspace rf)).

Definition quorum_applies (db : string) : st S bool :=
  d ← edb_database_get db;
  mret (match d with Some d => 1 <? d_replication_factor d | None => false end).

(** How many copies must agree, and whether ours is one. *)
Definition read_quorum (db partition keyspace : string) : st S (nat * bool) :=
  rf ← replication_factor db;
  mret (match holder_ids cl self path partition keyspace rf with
        | [] => (1%nat, true)
        | holders => (quorum (length holders), id_in_holders self holders)
        end).

(** The copies of a document a quorum read gathers, the replies' first. *)
Definition gather_copies (db partition keyspace id : string) (local : option (json * Z)) (self_holder : bool)
    : st S (list (option (json * Z))) :=
  replies ← query_all db partition keyspace
              (make_request "get" db partition keyspace [("id", JString id)]);
  mret (map reply_copy replies ++ (if self_holder then [local] else [])).

(** The flag [self_holder] starts true and quorum_applies is asked twice. *)
Definition edb_repl_read_get (db partition keyspace id : string) : st S (option json) :=
  q ← quorum_applies db;
  rq ← (if q : bool then read_quorum db partition keyspace else mret (1%nat, true));
  local ← (if rq.2 : bool then get_ts partition keyspace id else mret None);
  q ← quorum_applies db;
  if negb q then mret (fst <$> local)
  else
    copies ← gather_copies db partition keyspace id local rq.2;
    mret (if (length copies <? rq.1)%nat then None else elect copies rq.1).

(** Reads of several rows: the local rows, when there are any, come first. *)
Definition gather_sets (q db partition keyspace : string) (filters : option json)
    (local : st S (option json)) : st S (nat * list json) :=
  rq ← read_quorum db partition keyspace;
  rows ← (if rq.2 : bool then local else mret None);
  replies ← query_all db partition keyspace
              (make_request q db partition keyspace (filter_member filters));
  mret (rq.1, match rows with Some rows => JObject [("rows", rows)] :: replies | None => replies end).

Definition read_rows (q db partition keyspace : string) (filters : option json)
    (local : st S (option json)) (merge : list json -> nat -> json) : st S (option json) :=
  g ← gather_sets q db partition keyspace filters local;
  mret (Some (if (length g.2 <? g.1)%nat then JArray [] else merge g.2 g.1)).

Definition edb_repl_read_all (db partition keyspace : string) (filters : option json) : st S (option json) :=
  q ← quorum_applies db;
  if negb q then all_docs partition keyspace filters
  else read_rows "all_ts" db partition keyspace filters (all_ts partition keyspace filters) merge_agreed_rows.

Definition edb_repl_read_query (db partition keyspace : string) (filters : option json) : st S (option json) :=
  q ← quorum_applies db;
  if negb q then query_docs partition keyspace filters
  else read_rows "query_ts" db partition keyspace filters (query_ts partition keyspace filters) merge_agreed_rows.

Definition edb_repl_read_query_meta (db partition keyspace : string) (filters : option json)
    : st S (option json) :=
  q ← quorum_applies db;
  if negb q then query_ts partition keyspace filters
  else read_rows "query_ts" db partition keyspace filters (query_ts partition keyspace filters)
         merge_agreed_rows_meta.

Definition edb_repl_read_ids (db partition keyspace : string) (filters : option json)
    : st S (option (list string)) :=
  q ← quorum_applies db;
  if negb q then ids_of partition keyspace filters
  else
    rq ← read_quorum db partition keyspace;
    local ← (if rq.2 : bool then (l ← ids_of partition keyspace filters; mret [default [] l]) else mret []);
    replies ← query_all db partition keyspace
                (make_request "ids" db partition keyspace (filter_member filters));
    let lists := local ++ map (fun r => strings_from_json (get_item_nocase r "ids")) replies in
    mret (if (length lists <? rq.1)%nat then None else Some (merge_agreed_ids lists rq.1)).

End reading.

End ReplRead.
