(* ===== verification/ReplReadFacts.v ===== *)
(** Theorems about quorum reads (ReplRead.v): what the merges of several
    replicas' answers return, and from how many copies. *)

From S2P Require Import Prelude BlockHash Md5 Json Shard Manager Store MapStore Config ConfigFacts Wire Cluster.
From S2P Require Import Repl ReplFacts ReplRead Doubles.

Module ReplReadFacts.

Import Json Store Config Wire Cluster Repl ReplFacts ReplRead Doubles.

Section merging.
Context `{J : JsonCodec}.

Lemma fingerprint_nonempty v : String.eqb (value_fingerprint v) "" = false.
Proof.
  apply String.eqb_neq. intros Hf. apply (f_equal String.length) in Hf. revert Hf.
  unfold value_fingerprint, Manager.md5_of_string. by rewrite Md5.length_edb_md5_hex.
Qed.

#[local] Opaque value_fingerprint.

(** ** Electing one document *)

(** How many copies have that fingerprint. *)
Definition says (fp : string) (c : option (json * Z)) : bool :=
  match c with Some (v, _) => String.eqb (value_fingerprint v) fp | None => false end.
Definition copies_of (fp : string) (copies : list (option (json * Z))) : nat :=
  length (List.filter (says fp) copies).

(** What the groups are after some copies. *)
Record tallied (copies : list (option (json * Z))) (gs : list group) : Prop := {
  tallied_distinct : NoDup (map g_fp gs);
  tallied_votes g : g ∈ gs -> g_votes g = copies_of (g_fp g) copies;
  tallied_sample g : g ∈ gs ->
    value_fingerprint (g_sample g) = g_fp g /\ exists ts, Some (g_sample g, ts) ∈ copies;
  tallied_all v ts : Some (v, ts) ∈ copies -> value_fingerprint v ∈ map g_fp gs;
}.

Lemma copies_snoc fp copies c :
  copies_of fp (copies ++ [c]) = (copies_of fp copies + if says fp c then 1 else 0)%nat.
Proof. unfold copies_of. rewrite List.filter_app, length_app. simpl. by destruct (says fp c). Qed.

Lemma add_vote_fps v ts gs :
  map g_fp (add_vote v ts gs) =
  if bool_decide (value_fingerprint v ∈ map g_fp gs) then map g_fp gs else map g_fp gs ++ [value_fingerprint v].
Proof.
  induction gs as [|g gs IH]; [done|]. cbn [add_vote].
  destruct (String.eqb_spec (g_fp g) (value_fingerprint v)) as [He|He].
  - cbn [map]. rewrite bool_decide_true by (rewrite He; by left). done.
  - cbn [map]. rewrite IH. case_bool_decide as H1; case_bool_decide as H2; try done.
    + exfalso. apply H2. by right.
    + apply elem_of_cons in H2 as [H2|H2]; [congruence|done].
Qed.

Lemma add_vote_elem v ts gs g :
  NoDup (map g_fp gs) -> g ∈ add_vote v ts gs ->
  (g ∈ gs /\ g_fp g <> value_fingerprint v) \/
  (exists g0, g0 ∈ gs /\ g_fp g0 = value_fingerprint v /\ g = vote ts g0) \/
  (value_fingerprint v ∉ map g_fp gs /\ g = vote ts (Group (value_fingerprint v) 0 v 0)).
Proof.
  induction gs as [|g1 gs IH]; cbn [add_vote map].
  - intros _ ->%list_elem_of_singleton. right. right. split; [apply not_elem_of_nil|done].
  - intros [Hn Hnd]%NoDup_cons. destruct (String.eqb_spec (g_fp g1) (value_fingerprint v)) as [He|He].
    + intros [->|Hin]%elem_of_cons.
      * right. left. exists g1. split; [by left|done].
      * left. split; [by right|]. intros Hg. apply Hn. rewrite He, <-Hg. by apply list_elem_of_fmap_2.
    + intros [->|Hin]%elem_of_cons.
      * left. split; [by left|done].
      * destruct (IH Hnd Hin) as [[H1 H2]|[(g0 & H1 & H2 & H3)|[H1 H2]]].
        -- left. split; [by right|done].
        -- right. left. exists g0. split; [by right|done].
        -- right. right. split; [|done]. rewrite elem_of_cons. intros [?|?]; [congruence|done].
Qed.

Lemma tallied_step copies gs c :
  tallied copies gs ->
  tallied (copies ++ [c]) (match c with Some (v, ts) => add_vote v ts gs | None => gs end).
Proof.
  intros [Hd Hv Hs Ha]. destruct c as [[v ts]|].
  - split.
    + rewrite add_vote_fps. case_bool_decide as Hin; [done|]. apply NoDup_app. split; [done|].
      split; [|apply NoDup_singleton]. intros x Hx ->%list_elem_of_singleton. done.
    + intros g Hg. rewrite copies_snoc. cbn [says].
      destruct (add_vote_elem v ts gs g Hd Hg) as [[H1 H2]|[(g0 & H1 & H2 & ->)|[H1 ->]]].
      * rewrite (proj2 (String.eqb_neq _ _)) by congruence. rewrite Nat.add_0_r. by apply Hv.
      * cbn [vote g_votes g_fp]. rewrite H2, String.eqb_refl. rewrite (Hv g0 H1), H2. lia.
      * cbn [vote g_votes g_fp]. rewrite String.eqb_refl.
        assert (Hz : copies_of (value_fingerprint v) copies = 0%nat); [|lia].
        unfold copies_of. apply length_zero_iff_nil.
        destruct (List.filter _ copies) as [|c l] eqn:E; [done|]. exfalso.
        assert (Hc : c ∈ copies /\ says (value_fingerprint v) c = true)
          by (apply list_filter_elem; rewrite E; by left).
        destruct Hc as [Hc1 Hc2]. destruct c as [[w tw]|]; [|done]. cbn in Hc2. apply String.eqb_eq in Hc2.
        apply H1. rewrite <-Hc2. by eapply Ha.
    + intros g Hg. destruct (add_vote_elem v ts gs g Hd Hg) as [[H1 H2]|[(g0 & H1 & H2 & ->)|[H1 ->]]].
      * destruct (Hs g H1) as (E & t & Ht). split; [done|]. exists t. apply elem_of_app. by left.
      * destruct (Hs g0 H1) as (E & t & Ht). split; [done|]. exists t. apply elem_of_app. by left.
      * split; [done|]. exists ts. apply elem_of_app. right. by left.
    + intros w tw. rewrite elem_of_app, list_elem_of_singleton, add_vote_fps. intros [Hin|[= -> ->]].
      * apply Ha in Hin. case_bool_decide; [done|]. apply elem_of_app. by left.
      * case_bool_decide; [done|]. apply elem_of_app. right. by left.
  - split.
    + done.
    + intros g Hg. rewrite copies_snoc, Nat.add_0_r. by apply Hv.
    + intros g Hg. destruct (Hs g Hg) as (E & t & Ht). split; [done|]. exists t. apply elem_of_app. by left.
    + intros w tw. rewrite elem_of_app, list_elem_of_singleton. intros [Hin|?]; [by eapply Ha|done].
Qed.

Lemma count_votes copies :
  let '(gs, absent) := foldl count_vote ([], O) copies in
  tallied copies gs /\ absent = length (List.filter (fun c => bool_decide (c = None)) copies).
Proof.
  induction copies as [|c copies IH] using rev_ind.
  { cbn. split; [|done]. split; try done; try (intros g Hg; by apply not_elem_of_nil in Hg).
    - constructor.
    - intros v ts Hin. by apply not_elem_of_nil in Hin. }
  rewrite foldl_app. cbn [foldl]. destruct (foldl count_vote ([], O) copies) as [gs absent].
  destruct IH as [Ht ->]. pose proof (tallied_step copies gs c Ht) as Hstep.
  rewrite List.filter_app, length_app. destruct c as [[v ts]|]; cbn; (split; [exact Hstep|lia]).
Qed.

(** The winner has enough votes, and there is one if some group has. *)
Lemma best_spec required gs winner :
  match foldl (better required) winner gs with
  | Some g => (g ∈ gs /\ (required <= g_votes g)%nat) \/ winner = Some g
  | None => winner = None /\ forall g, g ∈ gs -> (g_votes g < required)%nat
  end.
Proof.
  revert winner. induction gs as [|g gs IH]; intros winner; cbn [foldl].
  { destruct winner; [by right|]. split; [done|]. intros g Hg. by apply not_elem_of_nil in Hg. }
  specialize (IH (better required winner g)). unfold better in *.
  destruct (Nat.leb_spec required (g_votes g)) as [Hle|Hlt]; cbn [andb] in *.
  - destruct (match winner with None => true | Some w => g_ts w <? g_ts g end) eqn:Ew.
    + destruct (foldl _ _ gs) as [w|]; [|by destruct IH]. destruct IH as [[H1 H2]|[= <-]].
      * left. split; [by right|done].
      * left. split; [by left|done].
    + destruct winner as [w0|]; [|done]. destruct (foldl _ _ gs) as [w|]; [|by destruct IH].
      destruct IH as [[H1 H2]|?]; [left; split; [by right|done]|by right].
  - destruct (foldl _ _ gs) as [w|].
    + destruct IH as [[H1 H2]|?]; [left; split; [by right|done]|by right].
    + destruct IH as [-> IH]. split; [done|]. intros x [->|Hx]%elem_of_cons; [done|by apply IH].
Qed.

(** Different fingerprints are said by different copies. *)
Lemma copies_disjoint fp fp' copies :
  fp <> fp' -> (copies_of fp copies + copies_of fp' copies <= length copies)%nat.
Proof.
  intros Hne. unfold copies_of. induction copies as [|c copies IH]; [done|]. cbn.
  destruct (says fp c) eqn:E1, (says fp' c) eqn:E2; cbn; try lia. exfalso.
  destruct c as [[v ts]|]; [|done]. cbn in E1, E2. apply String.eqb_eq in E1, E2. congruence.
Qed.

Lemma absent_bound fp copies :
  (length (List.filter (fun c => bool_decide (c = None)) copies) + copies_of fp copies <= length copies)%nat.
Proof.
  unfold copies_of. induction copies as [|c copies IH]; [done|]. cbn.
  destruct c as [[v ts]|]; cbn; [destruct (String.eqb _ _); cbn; lia|lia].
Qed.

Lemma copies_positive fp copies : (0 < copies_of fp copies)%nat -> exists v ts, Some (v, ts) ∈ copies /\ value_fingerprint v = fp.
Proof.
  unfold copies_of. destruct (List.filter _ copies) as [|c l] eqn:E; [cbn; lia|]. intros _.
  assert (Hc : c ∈ copies /\ says fp c = true) by (apply list_filter_elem; rewrite E; by left).
  destruct Hc as [H1 H2]. destruct c as [[v ts]|]; [|done]. cbn in H2. apply String.eqb_eq in H2. eauto.
Qed.

(** With a strict majority required there is at most one winner: the document
    is elected exactly when enough copies agree on its fingerprint. *)
Lemma elect_spec copies required fp :
  (0 < required)%nat -> (length copies < 2 * required)%nat ->
  (value_fingerprint <$> elect copies required = Some fp) <-> (required <= copies_of fp copies)%nat.
Proof.
  intros Hpos Hmaj. unfold elect. pose proof (count_votes copies) as Hc.
  destruct (foldl count_vote ([], O) copies) as [gs absent]. destruct Hc as [[Hd Hv Hs Ha] ->].
  pose proof (absent_bound fp copies) as Hab.
  destruct (Nat.ltb_spec (length (List.filter (fun c => bool_decide (c = None)) copies)) required) as [Hlt|Hge].
  2: { split; [done|lia]. }
  pose proof (best_spec required gs None) as Hb. destruct (foldl (better required) None gs) as [g|]; cbn.
  - destruct Hb as [[Hg Hvotes]|?]; [|done]. destruct (Hs g Hg) as [E _]. rewrite E. rewrite (Hv g Hg) in Hvotes. split.
    + by intros [= <-].
    + intros Hfp. f_equal. destruct (decide (g_fp g = fp)) as [|Hne]; [done|].
      pose proof (copies_disjoint (g_fp g) fp copies Hne). lia.
  - split; [done|]. intros Hfp. exfalso. destruct Hb as [_ Hb].
    destruct (copies_positive fp copies) as (v & ts & Hin & <-); [lia|].
    apply Ha in Hin. apply list_elem_of_fmap in Hin as (g & Hg1 & Hg2).
    specialize (Hb g Hg2). rewrite (Hv g Hg2), <-Hg1 in Hb. lia.
Qed.

Lemma elect_sample copies required v : elect copies required = Some v -> exists ts, Some (v, ts) ∈ copies.
Proof.
  unfold elect. pose proof (count_votes copies) as Hc. destruct (foldl count_vote ([], O) copies) as [gs absent].
  destruct Hc as [[_ _ Hs _] _]. destruct (_ <? _)%nat; [|done].
  pose proof (best_spec required gs None) as Hb. destruct (foldl (better required) None gs) as [g|]; [|done].
  intros [= <-]. destruct Hb as [[Hg _]|?]; [|done]. by apply Hs.
Qed.


(** ** Merging rows *)

(** What counts of a row: its id, document and timestamp. *)
Definition row_copy (row : json) : option (string * (json * Z)) :=
  id ← get_string row "id"; v ← object_item row "value"; Some (id, (v, row_ts row)).

Definition all_copies (sets : list json) : list (string * (json * Z)) :=
  omap row_copy (concat (map rows_of sets)).

(** The copies of a document (its id as far as an entry keeps it) with that
    fingerprint. *)
Definition agrees (id fp : string) (c : string * (json * Z)) : bool :=
  String.eqb (String.substring 0 511 c.1) id && String.eqb (value_fingerprint c.2.1) fp.
Definition agreeing (id fp : string) (cs : list (string * (json * Z))) : nat :=
  length (List.filter (agrees id fp) cs).

Definition add_copy (es : list entry) (c : string * (json * Z)) : list entry :=
  update_entry c.1 (count_copy c.2.1 c.2.2) es.

Lemma merge_sets_copies sets : merge_sets sets = foldl add_copy [] (all_copies sets).
Proof.
  unfold merge_sets, all_copies. generalize (concat (map rows_of sets)) as rows.
  intros rows. generalize (@nil entry). induction rows as [|row rows IH]; intros es; [done|].
  cbn [foldl omap list_omap]. unfold merge_row at 2, row_copy at 1.
  destruct (get_string row "id") as [id|]; cbn; [|by apply IH].
  destruct (object_item row "value") as [v|]; cbn; by apply IH.
Qed.

(** Entries count only copies that are there. *)
Definition entry_ok (cs : list (string * (json * Z))) (e : entry) : Prop :=
  (String.length (e_id e) <= 511)%nat /\ (e_agree e <= agreeing (e_id e) (e_fp e) cs)%nat /\
  forall v, e_best e = Some v -> value_fingerprint v = e_fp e /\
    exists id ts, (id, (v, ts)) ∈ cs /\ String.substring 0 511 id = e_id e.

Lemma agreeing_snoc id fp cs c :
  agreeing id fp (cs ++ [c]) = (agreeing id fp cs + if agrees id fp c then 1 else 0)%nat.
Proof. unfold agreeing. rewrite List.filter_app, length_app. simpl. by destruct (agrees id fp c). Qed.

Lemma entry_ok_snoc cs c e : entry_ok cs e -> entry_ok (cs ++ [c]) e.
Proof.
  intros (H1 & H2 & H3). split; [done|]. split; [rewrite agreeing_snoc; lia|].
  intros v Hv. destruct (H3 v Hv) as (E & id & ts & Hin & Hid). split; [done|]. exists id, ts. split; [|done].
  apply elem_of_app. by left.
Qed.

Lemma count_copy_ok cs id v ts e :
  entry_ok cs e -> String.substring 0 511 id = e_id e -> entry_ok (cs ++ [(id, (v, ts))]) (count_copy v ts e).
Proof.
  intros Hok Hid. destruct (entry_ok_snoc cs (id, (v, ts)) e Hok) as (H1 & H2 & H3).
  destruct Hok as (_ & H2' & _). unfold count_copy.
  set (same := match e_best e with Some _ => _ | None => false end).
  assert (Hsame : same = true -> value_fingerprint v = e_fp e).
  { unfold same. destruct (e_best e); [|done]. rewrite !andb_true_iff. intros [_ Heq]. by apply String.eqb_eq. }
  assert (Hgain : same = true -> (S (e_agree e) <= agreeing (e_id e) (e_fp e) (cs ++ [(id, (v, ts))]))%nat).
  { intros Hs. rewrite agreeing_snoc. unfold agrees. cbn [fst snd]. rewrite Hid, (Hsame Hs), !String.eqb_refl.
    cbn [andb]. lia. }
  assert (Hone : (1 <= agreeing (e_id e) (value_fingerprint v) (cs ++ [(id, (v, ts))]))%nat).
  { rewrite agreeing_snoc. unfold agrees. cbn [fst snd]. rewrite Hid, !String.eqb_refl. cbn [andb]. lia. }
  destruct (match e_best e with None => true | Some _ => e_ts e <? ts end).
  - split; [done|]. cbn [e_id e_fp e_agree e_best]. split.
    + destruct same; [|done]. rewrite (Hsame eq_refl). by apply Hgain.
    + intros w [= <-]. split; [done|]. exists id, ts. split; [|done]. apply elem_of_app. right. by left.
  - split; [done|]. cbn [e_id e_fp e_agree e_best]. split; [|done]. destruct same; [by apply Hgain|done].
Qed.

Lemma substring_length n s : (String.length (String.substring 0 n s) <= n)%nat.
Proof. revert s. induction n as [|n IH]; intros [|c s]; simpl; try lia. specialize (IH s). lia. Qed.

Lemma substring_twice n s : String.substring 0 n (String.substring 0 n s) = String.substring 0 n s.
Proof. apply substring_short, substring_length. Qed.

Lemma add_copy_ok cs es c : Forall (entry_ok cs) es -> Forall (entry_ok (cs ++ [c])) (add_copy es c).
Proof.
  destruct c as [id [v ts]]. unfold add_copy. cbn [fst snd]. induction es as [|e es IH]; intros Hes; cbn [update_entry].
  - constructor; [|constructor]. apply count_copy_ok; [|done]. split; [apply substring_length|].
    split; [cbn [e_agree]; lia|done].
  - apply Forall_cons in Hes as [He Hes]. destruct (String.eqb_spec (e_id e) id) as [Hid|Hid].
    + constructor.
      * apply count_copy_ok; [done|]. destruct He as [He _]. subst id. by apply substring_short.
      * eapply Forall_impl; [exact Hes|]. intros x. apply entry_ok_snoc.
    + constructor; [by apply entry_ok_snoc|by apply IH].
Qed.

Lemma merged_ok sets : Forall (entry_ok (all_copies sets)) (merge_sets sets).
Proof.
  rewrite merge_sets_copies. induction (all_copies sets) as [|c cs IH] using rev_ind; [constructor|].
  rewrite foldl_app. by apply add_copy_ok.
Qed.

Lemma merged_elem sets required v :
  (exists l, merge_agreed_rows sets required = JArray l /\ v ∈ l) <->
  exists e, e ∈ merge_sets sets /\ e_best e = Some v /\ (required <= e_agree e)%nat.
Proof.
  unfold merge_agreed_rows. split.
  - intros (l & [= <-] & (e & [He Ha]%list_filter_elem & Hb)%list_elem_of_omap). exists e. split; [done|].
    split; [done|]. unfold agreed in Ha. rewrite Hb in Ha. by apply Nat.leb_le.
  - intros (e & He & Hb & Ha). eexists. split; [done|]. apply list_elem_of_omap. exists e. split; [|done].
    apply list_filter_elem. split; [done|]. unfold agreed. rewrite Hb. by apply Nat.leb_le.
Qed.

(** A quorum read of many documents is sound: each document it returns is
    the document of some id for which at least the required number of the
    answered rows carry the same content, whatever the answers are, however
    they are ordered, and whether or not replicas disagree. *)
Theorem merged_rows_agree (sets : list json) (required : nat) (l : list json) (v : json) :
  merge_agreed_rows sets required = JArray l -> v ∈ l ->
  exists id ts, (id, (v, ts)) ∈ all_copies sets /\
    (required <= agreeing (String.substring 0 511 id) (value_fingerprint v) (all_copies sets))%nat.
Proof.
  intros Hl Hv. destruct (proj1 (merged_elem sets required v)) as (e & He & Hb & Ha); [by exists l|].
  pose proof (merged_ok sets) as Hok. rewrite Forall_forall in Hok.
  destruct (Hok e He) as (_ & Hcount & Hbest). destruct (Hbest v Hb) as (E & id & ts & Hin & Hid).
  exists id, ts. split; [done|]. rewrite Hid, E. lia.
Qed.

(** *** Completeness *)

Definition find_entry (id : string) (es : list entry) : option entry :=
  List.find (fun e => String.eqb (e_id e) id) es.
Definition fresh (id : string) : entry := Entry id "" None 0 0.

Lemma count_copy_id v ts e : e_id (count_copy v ts e) = e_id e.
Proof. unfold count_copy. by destruct (match e_best e with None => true | Some _ => _ end). Qed.

Lemma find_update_entry id c es :
  (String.length c.1 <= 511)%nat ->
  find_entry id (add_copy es c) =
  if String.eqb c.1 id then Some (count_copy c.2.1 c.2.2 (default (fresh id) (find_entry id es)))
  else find_entry id es.
Proof.
  destruct c as [id' [v ts]]. unfold add_copy. cbn [fst snd]. intros Hshort.
  induction es as [|e es IH]; cbn [update_entry find_entry List.find].
  - rewrite count_copy_id. cbn [e_id]. rewrite substring_short by done.
    destruct (String.eqb_spec id' id) as [->|]; [done|done].
  - destruct (String.eqb_spec (e_id e) id') as [He|He]; cbn [List.find].
    + rewrite count_copy_id, He. by destruct (String.eqb id' id).
    + destruct (String.eqb_spec (e_id e) id) as [Hid|Hid]; [|exact IH].
      rewrite (proj2 (String.eqb_neq id' id)) by congruence. done.
Qed.

(** The copies of one id decide its entry. *)
Definition copies_with (id : string) (cs : list (string * (json * Z))) : list (json * Z) :=
  omap (fun c => if String.eqb c.1 id then Some c.2 else None) cs.

Definition count_all (id : string) (l : list (json * Z)) : option entry :=
  foldl (fun o c => Some (count_copy c.1 c.2 (default (fresh id) o))) None l.

Lemma entry_of_copies id cs :
  Forall (fun c => (String.length c.1 <= 511)%nat) cs ->
  find_entry id (foldl add_copy [] cs) = count_all id (copies_with id cs).
Proof.
  intros Hs. induction cs as [|c cs IH] using rev_ind; [done|].
  apply Forall_app in Hs as [Hs Hc]. apply Forall_inv in Hc. specialize (IH Hs).
  rewrite foldl_app. cbn [foldl]. rewrite find_update_entry, IH by done.
  unfold copies_with. rewrite omap_app. cbn [omap list_omap]. destruct (String.eqb c.1 id); cbn.
  - unfold count_all. by rewrite foldl_app.
  - by rewrite app_nil_r.
Qed.

(** Copies none of which is newer than [ts] and whose versions identify their
    contents. *)
Definition newest (fp : string) (ts : Z) (l : list (json * Z)) : Prop :=
  Forall (fun c => c.2 <= ts /\ (c.2 = ts <-> value_fingerprint c.1 = fp)) l.

Lemma count_newest id fp ts l :
  newest fp ts l ->
  match count_all id l with
  | None => l = []
  | Some e =>
      e_id e = id /\ e_fp e <> EmptyString /\
      exists w, e_best e = Some w /\ value_fingerprint w = e_fp e /\
      if String.eqb (e_fp e) fp then e_ts e = ts /\ e_agree e = copies_of fp (map Some l)
      else e_ts e < ts /\ copies_of fp (map Some l) = O
  end.
Proof.
  induction l as [|[v t] l IH] using rev_ind; [done|].
  intros [Hl Hc]%Forall_app. apply Forall_inv in Hc as [Hle Hiff]. cbn [fst snd] in *. specialize (IH Hl).
  unfold count_all in *. rewrite foldl_app. cbn [foldl fst snd].
  rewrite map_app. cbn [map]. rewrite copies_snoc. cbn [says].
  pose proof (fingerprint_nonempty v) as Hne.
  destruct (foldl _ None l) as [e|]; cbn [from_option].
  - destruct IH as (Hid & Hnz & w & Hb & Hw & Hst). unfold count_copy, Datatypes.id. rewrite Hb. cbv zeta.
    apply String.eqb_neq in Hnz as Hnz'. rewrite Hnz', Hne. cbn [negb andb].
    destruct (String.eqb_spec (e_fp e) fp) as [Hefp|Hefp].
    + destruct Hst as [Hts Hag]. rewrite Hts. rewrite (proj2 (Z.ltb_ge ts t)) by lia. cbn [e_id e_fp e_best e_ts e_agree].
      split; [done|]. split; [done|]. exists w. split; [done|]. split; [done|].
      rewrite Hefp, !String.eqb_refl. split; [done|]. destruct (String.eqb (value_fingerprint v) fp); lia.
    + destruct Hst as [Hts Hag]. destruct (Z.ltb_spec (e_ts e) t) as [Hlt|Hge]; cbn [e_id e_fp e_best e_ts e_agree].
      * split; [done|]. split; [by apply String.eqb_neq|]. exists v. split; [done|]. split; [done|].
        destruct (String.eqb_spec (value_fingerprint v) fp) as [Hv|Hv].
        -- split; [by apply Hiff|]. rewrite (proj2 (String.eqb_neq _ _)) by congruence. lia.
        -- split; [|lia]. assert (t <> ts) by (intros Ht; by apply Hv, Hiff). lia.
      * split; [done|]. split; [done|]. exists w. split; [done|]. split; [done|].
        rewrite (proj2 (String.eqb_neq _ _)) by done. split; [done|].
        destruct (String.eqb_spec (value_fingerprint v) fp) as [Hv|Hv]; [|lia].
        apply Hiff in Hv. lia.
  - subst l. unfold count_copy. cbn [fresh e_best e_id e_fp e_ts e_agree]. split; [done|].
    split; [by apply String.eqb_neq|]. exists v. split; [done|]. split; [done|]. cbn [map].
    destruct (String.eqb_spec (value_fingerprint v) fp) as [Hv|Hv]; [split; [by apply Hiff|done]|].
    split; [|done]. assert (t <> ts) by (intros Ht; by apply Hv, Hiff). lia.
Qed.

(** A quorum read of many documents is complete when the replicas' rows
    are what last-write-wins makes them, that is when rows of one document
    carry the same content exactly if they carry the same timestamp: every
    document whose newest version is on enough of the answered replicas is
    returned, in that version. *)
Theorem merged_rows_complete (sets : list json) (required : nat) (id : string) (v : json) (ts : Z) :
  (0 < required)%nat -> Forall (fun c => (String.length c.1 <= 511)%nat) (all_copies sets) ->
  newest (value_fingerprint v) ts (copies_with id (all_copies sets)) ->
  (required <= copies_of (value_fingerprint v) (map Some (copies_with id (all_copies sets))))%nat ->
  exists l w, merge_agreed_rows sets required = JArray l /\ w ∈ l /\ value_fingerprint w = value_fingerprint v.
Proof.
  intros Hpos Hshort Hnew Hreq. pose proof (count_newest id _ _ _ Hnew) as Hc.
  rewrite <-(entry_of_copies id (all_copies sets) Hshort), <-merge_sets_copies in Hc.
  destruct (find_entry id (merge_sets sets)) as [e|] eqn:Ef; [|rewrite Hc in Hreq; cbn in Hreq; lia].
  destruct Hc as (_ & _ & w & Hb & Hw & Hst). apply List.find_some in Ef as [He%list_elem_of_In _].
  destruct (String.eqb_spec (e_fp e) (value_fingerprint v)) as [Heq|Hne]; [|lia].
  destruct Hst as [_ Hag]. destruct (proj2 (merged_elem sets required w)) as (l & Hl & Hin).
  - exists e. split; [done|]. split; [done|]. lia.
  - exists l, w. split; [done|]. split; [done|]. congruence.
Qed.

(** *** Disagreeing replicas *)

Definition answer_row (id : string) (v : json) (ts : Z) : json :=
  JObject [("id", JString id); ("timestamp", jnum ts); ("value", v)].
Definition answer (rows : list json) : json := JObject [("rows", JArray rows)].

Lemma answer_copy id v ts :
  is_object v = true -> exact ts -> row_copy (answer_row id v ts) = Some (id, (v, ts)).
Proof.
  intros Hv Hts. unfold row_copy. change (get_string (answer_row id v ts) "id") with (Some id).
  assert (Ho : object_item (answer_row id v ts) "value" = Some v) by (by destruct v).
  rewrite Ho. cbn [mbind option_bind]. unfold row_ts, get_ll.
  change (get_number (answer_row id v ts) "timestamp") with (Some (double_of_Z ts)).
  cbn [fmap option_fmap option_map default from_option]. by rewrite double_exact_signed.
Qed.

Lemma answers_copies (cs : list (string * (json * Z))) :
  Forall (fun c => is_object c.2.1 = true /\ exact c.2.2) cs ->
  all_copies (map (fun c => answer [answer_row c.1 c.2.1 c.2.2]) cs) = cs.
Proof.
  unfold all_copies. induction 1 as [|[id [v ts]] cs [Hv Hts] _ IH]; [done|].
  change (omap row_copy (answer_row id v ts :: concat (map rows_of (map (fun c => answer [answer_row c.1 c.2.1 c.2.2]) cs))) =
          (id, (v, ts)) :: cs).
  cbn [omap list_omap]. rewrite answer_copy by done. by rewrite IH.
Qed.

(** The four ways a copy meets an entry. *)
Lemma count_first i v t : count_copy v t (Entry i "" None 0 0) = Entry i (value_fingerprint v) (Some v) t 1.
Proof. done. Qed.
Lemma count_same i v x t n :
  count_copy v t (Entry i (value_fingerprint v) (Some x) t n) = Entry i (value_fingerprint v) (Some x) t (S n).
Proof.
  unfold count_copy. cbn [e_id e_fp e_best e_ts e_agree].
  by rewrite fingerprint_nonempty, String.eqb_refl, Z.ltb_irrefl.
Qed.
Lemma count_other i fp w x t u n :
  value_fingerprint w <> fp ->
  count_copy w u (Entry i fp (Some x) t n) =
  if t <? u then Entry i (value_fingerprint w) (Some w) u 1 else Entry i fp (Some x) t n.
Proof.
  intros Hne. unfold count_copy. cbn [e_id e_fp e_best e_ts e_agree].
  rewrite (proj2 (String.eqb_neq _ _) Hne), !andb_false_r. by destruct (t <? u).
Qed.

(** Reads of one document and of many disagree: with two of three replicas
    holding a version that a third, newer or equally old one differs from, a
    read of the document returns the majority's version, while listings miss
    it when the third is newer, and when it is equally old return it or miss
    it depending on the order of the answers. *)
Theorem listing_hides_majority (id : string) (v w : json) (t u : Z) :
  (String.length id <= 511)%nat -> is_object v = true -> is_object w = true -> exact t -> exact u ->
  t <= u -> value_fingerprint v <> value_fingerprint w ->
  let list_of cs := merge_agreed_rows (map (fun c => answer [answer_row id c.1 c.2]) cs) 2 in
  elect [Some (v, t); Some (v, t); Some (w, u)] 2 = Some v /\
  list_of [(w, u); (v, t); (v, t)] = JArray [] /\
  (t < u -> list_of [(v, t); (v, t); (w, u)] = JArray []) /\
  (t = u -> list_of [(v, t); (v, t); (w, u)] = JArray [v]).
Proof.
  intros Hid Hv Hw Ht Hu Hle Hne. cbv zeta.
  assert (Hmerge : forall cs, Forall (fun c => is_object c.1 = true /\ exact c.2) cs ->
    merge_sets (map (fun c => answer [answer_row id c.1 c.2]) cs) = foldl add_copy [] (map (fun c => (id, c)) cs)).
  { intros cs Hcs. rewrite merge_sets_copies. f_equal.
    rewrite <-(answers_copies (map (fun c => (id, c)) cs)); [by rewrite map_map|].
    apply Forall_fmap. exact Hcs. }
  assert (Hsub : String.substring 0 511 id = id) by by apply substring_short.
  assert (Hvw : String.eqb (value_fingerprint v) (value_fingerprint w) = false) by by apply String.eqb_neq.
  assert (Hwv : String.eqb (value_fingerprint w) (value_fingerprint v) = false)
    by (apply String.eqb_neq; congruence).
  assert (Hrun : forall c1 c2 c3, Forall (fun c => is_object c.1 = true /\ exact c.2) [c1; c2; c3] ->
    merge_agreed_rows (map (fun c => answer [answer_row id c.1 c.2]) [c1; c2; c3]) 2 =
    JArray (omap e_best (List.filter (agreed 2)
      [count_copy c3.1 c3.2 (count_copy c2.1 c2.2 (count_copy c1.1 c1.2 (Entry id "" None 0 0)))]))).
  { intros c1 c2 c3 Hcs. unfold merge_agreed_rows. rewrite Hmerge by done. unfold add_copy.
    cbn [map foldl fst snd update_entry]. rewrite Hsub. rewrite !count_copy_id. cbn [e_id].
    rewrite String.eqb_refl. cbn [update_entry]. rewrite !count_copy_id. cbn [e_id]. by rewrite String.eqb_refl. }
  split_and!.
  - unfold elect. cbn [foldl count_vote add_vote fst snd vote g_fp g_ts g_sample g_votes].
    rewrite String.eqb_refl. cbn [add_vote vote g_fp g_ts g_sample g_votes]. by rewrite Hvw.
  - rewrite Hrun by by rewrite !Forall_cons, Forall_nil. cbn [fst snd].
    rewrite count_first, !count_other by congruence. rewrite (proj2 (Z.ltb_ge u t)) by done.
    rewrite count_other by congruence. by rewrite (proj2 (Z.ltb_ge u t)).
  - intros Hlt. rewrite Hrun by by rewrite !Forall_cons, Forall_nil. cbn [fst snd].
    rewrite count_first, count_same, count_other by congruence. by rewrite (proj2 (Z.ltb_lt t u)).
  - intros <-. rewrite Hrun by by rewrite !Forall_cons, Forall_nil. cbn [fst snd].
    rewrite count_first, count_same, count_other by congruence. by rewrite Z.ltb_irrefl.
Qed.

End merging.

(** ** Reading one document *)

Section reading.
Context {S : Type} {R : RecordStore S} {J : JsonCodec} {D : DataEngine S} {N : Network S}.
#[local] Opaque value_fingerprint.

(** What reads depend on: the database records of the configuration, our own
    documents, and what the node at an address answers. *)
Class ReadView := {
  view_ok : S -> Prop;
  database : S -> string -> option edb_database_info;
  own : S -> string -> string -> string -> option (json * Z);
  held : S -> string -> Z -> string -> string -> string -> option (json * Z);
}.

Definition same_view {V : ReadView} (s s' : S) : Prop :=
  (forall db, database s' db = database s db) /\
  (forall pt ks id, own s' pt ks id = own s pt ks id) /\
  (forall addr port pt ks id, held s' addr port pt ks id = held s addr port pt ks id).

Definition sees {V : ReadView} (s s' : S) : Prop := view_ok s -> view_ok s' /\ same_view s s'.

(** Reads find it and leave it alone. *)
Class QueryLaws (V : ReadView) := {
  database_get db s : (edb_database_get db s).1 = database s db;
  database_sees db s : sees s (edb_database_get db s).2;
  own_get pt ks id s : (get_ts pt ks id s).1 = own s pt ks id;
  own_sees pt ks id s : sees s (get_ts pt ks id s).2;
  held_get s addr port hello db pt ks id reply doc :
    view_ok s ->
    snd <$> List.find (fun f => f.1 =? ESTP_RESULT)
      (exchange addr port [(ESTP_HELLO, hello);
         (ESTP_QUERY, json_print (make_request "get" db pt ks [("id", JString id)]))] s).1 = Some (Some reply) ->
    json_parse reply = Some doc -> reply_copy doc = held s addr port pt ks id;
  query_sees s addr port hello text :
    sees s (exchange addr port [(ESTP_HELLO, hello); (ESTP_QUERY, text)] s).2;
}.
Context {V : ReadView} {L : QueryLaws V}.

Lemma same_refl s : same_view s s.
Proof. by repeat split. Qed.
Lemma same_trans s s1 s2 : same_view s s1 -> same_view s1 s2 -> same_view s s2.
Proof. intros (A1 & A2 & A3) (B1 & B2 & B3). repeat split; intros; by rewrite ?B1, ?B2, ?B3, ?A1, ?A2, ?A3. Qed.

Context (cl : edb_cluster) (path self : string).
Context (db partition keyspace id : string).

Definition get_request : string := json_print (make_request "get" db partition keyspace [("id", JString id)]).

(** Each reply is the answer of one of the peers asked. *)
Lemma ask_spec ps s :
  view_ok s ->
  let '(replies, s') := ask get_request ps s in
  (view_ok s' /\ same_view s s') /\
  exists qs, sublist qs ps /\
    Forall2 (fun p r => reply_copy r = held s (p_addr p) (p_port p) partition keyspace id) qs replies.
Proof.
  revert s. induction ps as [|p ps IH]; intros s Hok.
  { cbn. split; [split; [done|apply same_refl]|]. by exists []. }
  cbn [ask]. unfold rpc_once. rewrite !st_bind_run. cbn [fst snd mret st_ret].
  pose proof (query_sees s (p_addr p) (p_port p) (json_print rpc_hello) get_request Hok) as [Hok1 Hs1].
  pose proof (held_get s (p_addr p) (p_port p) (json_print rpc_hello) db partition keyspace id) as Hget.
  specialize (fun reply doc => Hget reply doc Hok).
  fold get_request in Hget. destruct (exchange _ _ _ s) as [frames s1]. cbn [fst snd] in *.
  specialize (IH s1 Hok1). destruct (ask get_request ps s1) as [rest s2].
  cbn [fst snd mret st_ret]. destruct IH as ([Hok2 Hs2] & qs & Hsub & Hqs).
  split; [split; [done|exact (same_trans _ _ _ Hs1 Hs2)]|]. destruct Hs1 as (_ & _ & Hheld).
  assert (Hqs' : Forall2 (fun p r => reply_copy r = held s (p_addr p) (p_port p) partition keyspace id) qs rest).
  { eapply Forall2_impl; [exact Hqs|]. intros q r Hr. by rewrite Hr, Hheld. }
  assert (Hsame : exists qs, sublist qs (p :: ps) /\
    Forall2 (fun p r => reply_copy r = held s (p_addr p) (p_port p) partition keyspace id) qs rest).
  { exists qs. split; [by apply sublist_cons|done]. }
  destruct (snd <$> List.find _ frames) as [[reply|]|]; [|done|done].
  destruct (json_parse reply) as [doc|] eqn:Ed; [|done].
  exists (p :: qs). split; [by apply sublist_skip|]. constructor; [|done]. by apply (Hget reply).
Qed.

(** The holders that answered with that fingerprint. *)
Lemma answered qs replies s fp :
  Forall2 (fun p r => reply_copy r = held s (p_addr p) (p_port p) partition keyspace id) qs replies ->
  exists hs, sublist hs (map p_id qs) /\ length hs = copies_of fp (map reply_copy replies) /\
    Forall (fun h => exists p, p ∈ qs /\ p_id p = h /\ exists w ts,
              held s (p_addr p) (p_port p) partition keyspace id = Some (w, ts) /\ value_fingerprint w = fp) hs.
Proof.
  induction 1 as [|p r qs replies Hr _ (hs & Hsub & Hlen & Hall)]; [by exists []|].
  assert (Hup : Forall (fun h => exists q, q ∈ p :: qs /\ p_id q = h /\ exists w ts,
      held s (p_addr q) (p_port q) partition keyspace id = Some (w, ts) /\ value_fingerprint w = fp) hs).
  { eapply Forall_impl; [exact Hall|]. intros h (q & Hq & Hrest). exists q. split; [by right|done]. }
  unfold copies_of in *. cbn [map List.filter]. destruct (says fp (reply_copy r)) eqn:Es.
  - exists (p_id p :: hs). split; [by apply sublist_skip|]. split; [cbn; by rewrite Hlen|].
    constructor; [|done]. exists p. split; [by left|]. split; [done|]. rewrite <-Hr.
    destruct (reply_copy r) as [[w ts]|]; [|done]. cbn in Es. apply String.eqb_eq in Es. by exists w, ts.
  - exists hs. split; [by apply sublist_cons|done].
Qed.

Lemma factor_of d s :
  view_ok s -> database s db = Some d -> 1 < d_replication_factor d ->
  exists s', replication_factor db s = (d_replication_factor d, s') /\ view_ok s' /\ same_view s s'.
Proof.
  intros Hok Hd Hrf. unfold replication_factor. rewrite st_bind_run, database_get, Hd. cbn [mret st_ret].
  rewrite (proj2 (Z.ltb_lt 0 (d_replication_factor d))) by lia. eexists. split; [done|]. by apply database_sees.
Qed.

Lemma applies_of d s :
  view_ok s -> database s db = Some d -> 1 < d_replication_factor d ->
  exists s', quorum_applies db s = (true, s') /\ view_ok s' /\ same_view s s'.
Proof.
  intros Hok Hd Hrf. unfold quorum_applies. rewrite st_bind_run, database_get, Hd. cbn [mret st_ret].
  rewrite (proj2 (Z.ltb_lt 1 (d_replication_factor d))) by lia. eexists. split; [done|]. by apply database_sees.
Qed.

(** The run of a quorum read: the copies of the asked holders and our own. *)
Lemma read_get_run d s :
  view_ok s -> database s db = Some d -> 1 < d_replication_factor d ->
  let holders := write_holders cl self path partition keyspace (d_replication_factor d) in
  exists qs replies,
    sublist qs (edb_cluster_peers cl MAX_PEERS_SNAPSHOT) /\
    Forall (fun p => p_id p <> self /\ p_id p ∈ holders) qs /\
    Forall2 (fun p r => reply_copy r = held s (p_addr p) (p_port p) partition keyspace id) qs replies /\
    (edb_repl_read_get cl path self db partition keyspace id s).1 =
    let copies := map reply_copy replies ++
                  (if id_in_holders self holders then [own s partition keyspace id] else []) in
    if (length copies <? quorum (length holders))%nat then None else elect copies (quorum (length holders)).
Proof.
  intros Hok Hd Hrf. cbv zeta. set (hs := holder_ids cl self path partition keyspace (d_replication_factor d)).
  unfold edb_repl_read_get. destruct (applies_of d s Hok Hd Hrf) as (s1 & E1 & Hok1 & W1). rewrite st_bind_run, E1.
  cbn [fst snd]. assert (Hd1 : database s1 db = Some d) by by rewrite (proj1 W1).
  unfold read_quorum. destruct (factor_of d s1 Hok1 Hd1 Hrf) as (s2 & E2 & Hok2 & W2).
  rewrite !st_bind_run, E2. cbn [fst snd mret st_ret]. fold hs.
  set (wh := write_holders _ _ _ _ _ _).
  assert (Hrq : match hs with [] => (1%nat, true) | h :: hs' => (quorum (length (h :: hs')), id_in_holders self (h :: hs')) end =
                (quorum (length wh), id_in_holders self wh)).
  { unfold wh, write_holders. fold hs. destruct hs; [|done]. unfold id_in_holders. cbn. by rewrite String.eqb_refl. }
  rewrite Hrq. cbn [fst snd].
  set (local := if id_in_holders self wh then get_ts partition keyspace id else mret None).
  assert (Hlocal : (local s2).1 = (if id_in_holders self wh then own s partition keyspace id else None) /\
                   view_ok (local s2).2 /\ same_view s (local s2).2).
  { assert (W : same_view s s2) by by eapply same_trans. unfold local. destruct (id_in_holders self wh); [|done].
    rewrite own_get. split; [apply W|]. destruct (own_sees partition keyspace id s2 Hok2) as [? W'].
    split; [done|]. by eapply same_trans. }
  destruct (local s2) as [loc s3]. cbn [fst snd] in *. destruct Hlocal as (Hloc & Hok3 & W3).
  assert (Hd3 : database s3 db = Some d) by by rewrite (proj1 W3).
  destruct (applies_of d s3 Hok3 Hd3 Hrf) as (s4 & E4 & Hok4 & W4). rewrite ?st_bind_run, E4. cbn [fst snd negb].
  assert (Hd4 : database s4 db = Some d) by by rewrite (proj1 W4).
  unfold gather_copies, query_all. rewrite !st_bind_run.
  destruct (factor_of d s4 Hok4 Hd4 Hrf) as (s5 & E5 & Hok5 & W5). rewrite E5. cbn [fst snd]. fold hs get_request.
  set (asked := asked_peers cl self hs). pose proof (ask_spec asked s5 Hok5) as Hask.
  destruct (ask get_request asked s5) as [replies s6]. destruct Hask as (_ & qs & Hsub & Hqs).
  exists qs, replies. cbn [fst snd mret st_ret].
  assert (W : same_view s s5) by (eapply same_trans; [exact W3|]; by eapply same_trans).
  split_and!.
  - etransitivity; [exact Hsub|]. unfold asked, asked_peers.
    etransitivity; [apply sublist_take|]. apply ReplFacts.list_filter_sublist.
  - apply Forall_forall. intros p Hp. eapply elem_of_sublist in Hp; [|exact Hsub].
    unfold asked, asked_peers in Hp. eapply elem_of_take in Hp as (k & Hp%list_elem_of_lookup_2 & _).
    apply list_filter_elem in Hp as [_ [[[Hne Hin]%andb_prop _]%andb_prop _]%andb_prop].
    apply negb_true_iff, String.eqb_neq in Hne. split; [done|]. apply id_in_holders_spec in Hin.
    unfold wh, write_holders. fold hs. destruct hs; [by apply not_elem_of_nil in Hin|done].
  - eapply Forall2_impl; [exact Hqs|]. intros q r Hr. rewrite Hr. apply W.
  - rewrite Hloc. by destruct (id_in_holders self wh).
Qed.

(** Where the document of a holder is. *)
Definition holds (s : S) (h : string) (w : json) (ts : Z) : Prop :=
  (h = self /\ own s partition keyspace id = Some (w, ts)) \/
  exists p, p ∈ edb_cluster_peers cl MAX_PEERS_SNAPSHOT /\ p_id p = h /\
            held s (p_addr p) (p_port p) partition keyspace id = Some (w, ts).

(** What a quorum read returns a majority holds. *)
Lemma read_majority (d : edb_database_info) (s : S) (v : json) :
  view_ok s -> NoDup (map p_id (edb_cluster_peers cl MAX_PEERS_SNAPSHOT)) ->
  database s db = Some d -> 1 < d_replication_factor d ->
  (edb_repl_read_get cl path self db partition keyspace id s).1 = Some v ->
  let holders := write_holders cl self path partition keyspace (d_replication_factor d) in
  exists hs, NoDup hs /\ (length holders < 2 * length hs)%nat /\
    Forall (fun h => h ∈ holders /\ exists w ts, value_fingerprint w = value_fingerprint v /\ holds s h w ts) hs.
Proof.
  intros Hok Hnd Hd Hrf Hv. cbv zeta. destruct (read_get_run d s Hok Hd Hrf) as (qs & replies & Hsub & Hq & Hf2 & Hrun).
  rewrite Hrun in Hv. clear Hrun. set (holders := write_holders _ _ _ _ _ _) in *. cbv zeta in Hv.
  set (mine := if id_in_holders self holders then _ else _) in Hv. set (copies := _ ++ mine) in Hv.
  destruct (_ <? _)%nat; [done|].
  destruct (answered qs replies s (value_fingerprint v) Hf2) as (hs & Hhs & Hlen & Hall).
  assert (Hndq : NoDup (map p_id qs)) by (eapply sublist_NoDup; [exact Hnd|]; by apply fmap_sublist).
  assert (Hndh : NoDup hs) by by eapply sublist_NoDup.
  assert (Hmaj : (length holders < 2 * quorum (length holders))%nat).
  { unfold quorum. pose proof (Nat.div_mod_eq (length holders) 2).
    pose proof (Nat.mod_upper_bound (length holders) 2). lia. }
  assert (Hup : Forall (fun h => h <> self /\ h ∈ holders /\ exists w ts, value_fingerprint w = value_fingerprint v /\ holds s h w ts) hs).
  { eapply Forall_impl; [exact Hall|]. intros h (p & Hp & <- & w & ts & Hw & Hfp).
    rewrite Forall_forall in Hq. destruct (Hq p Hp) as [Hne Hin]. split; [done|]. split; [done|].
    exists w, ts. split; [done|]. right. exists p. split; [|done]. by eapply elem_of_sublist. }
  assert (Hhs_self : self ∉ hs) by (intros Hin; rewrite Forall_forall in Hup; by destruct (Hup self Hin)).
  assert (Hvotes : (quorum (length holders) <= copies_of (value_fingerprint v) copies)%nat).
  { apply elect_spec; [unfold quorum; lia| |by rewrite Hv].
    assert (Hids : forall x, x ∈ map p_id qs -> x <> self /\ x ∈ holders).
    { intros x (p & -> & Hp)%list_elem_of_fmap. rewrite Forall_forall in Hq. by apply Hq. }
    assert (Hcount : (length copies <= length holders)%nat); [|lia].
    unfold copies, mine. rewrite length_app, length_map, <-(Forall2_length _ _ _ Hf2), <-(length_map p_id qs).
    destruct (id_in_holders self holders) eqn:Eself; cbn [length].
    - rewrite Nat.add_1_r. change (Datatypes.S (length (map p_id qs))) with (length (self :: map p_id qs)).
      apply submseteq_length, NoDup_submseteq.
      + constructor; [|done]. intros Hin. by destruct (Hids self Hin).
      + intros x [->|Hin]%elem_of_cons; [by apply id_in_holders_spec|by apply Hids].
    - rewrite Nat.add_0_r. apply submseteq_length, NoDup_submseteq; [done|]. intros x Hin. by apply Hids. }
  unfold copies, copies_of in Hvotes. rewrite List.filter_app, length_app in Hvotes.
  fold (copies_of (value_fingerprint v) (map reply_copy replies)) in Hvotes. rewrite <-Hlen in Hvotes.
  assert (Hbase : Forall (fun h => h ∈ holders /\ exists w ts, value_fingerprint w = value_fingerprint v /\ holds s h w ts) hs).
  { eapply Forall_impl; [exact Hup|]. by intros h [_ ?]. }
  unfold mine in Hvotes. destruct (id_in_holders self holders) eqn:Eself; cbn [List.filter] in Hvotes.
  - destruct (own s partition keyspace id) as [[w ts]|] eqn:Eown; cbn [says length List.filter] in Hvotes;
      [| exists hs; split; [done|]; split; [lia|done]].
    destruct (String.eqb_spec (value_fingerprint w) (value_fingerprint v)) as [Hw|Hw]; cbn [length List.filter] in Hvotes.
    + exists (self :: hs). split; [by constructor|]. split; [cbn; lia|]. constructor; [|done].
      split; [by apply id_in_holders_spec|]. exists w, ts. split; [done|]. left. by rewrite Eown.
    + exists hs. split; [done|]. split; [lia|done].
  - cbn [length List.filter] in Hvotes. exists hs. split; [done|]. split; [lia|done].
Qed.

(** C5: A quorum read of a document returns only what a majority of the
    holders of its keyspace hold: with replication on, more than half of the
    holders (the same a write must reach) have a live copy with the content
    returned. *)
Theorem read_get_majority (d : edb_database_info) (s : S) (v : json) :
  view_ok s -> NoDup (map p_id (edb_cluster_peers cl MAX_PEERS_SNAPSHOT)) ->
  database s db = Some d -> 1 < d_replication_factor d ->
  (edb_repl_read_get cl path self db partition keyspace id s).1 = Some v ->
  let holders := write_holders cl self path partition keyspace (d_replication_factor d) in
  exists hs, NoDup hs /\ (length holders < 2 * length hs)%nat /\
    Forall (fun h => h ∈ holders /\ exists w ts, value_fingerprint w = value_fingerprint v /\ holds s h w ts) hs.
Proof. exact (read_majority d s v). Qed.

End reading.

(** ** Three answers, one of them old *)

Section sample.
#[local] Existing Instances MapStore.digit_codec MapStore.digit_codec_laws.

Definition new_doc : json := JObject [("v", jnum 2)].
Definition old_doc : json := JObject [("v", jnum 1)].
Definition sample_sets : list json :=
  [answer [answer_row "x" old_doc 4]; answer [answer_row "x" new_doc 5]; answer [answer_row "x" new_doc 5]].

Lemma sample_merged : merge_agreed_rows sample_sets 2 = JArray [new_doc].
Proof. by vm_compute. Qed.

Lemma sample_copies : all_copies sample_sets = [("x", (old_doc, 4)); ("x", (new_doc, 5)); ("x", (new_doc, 5))]%string.
Proof. by vm_compute. Qed.

Lemma merged_rows_agree_witness :
  merge_agreed_rows sample_sets 2 = JArray [new_doc] /\
  exists id ts, (id, (new_doc, ts)) ∈ all_copies sample_sets.
Proof.
  split; [exact sample_merged|].
  destruct (merged_rows_agree sample_sets 2 [new_doc] new_doc sample_merged (proj2 (list_elem_of_singleton _ _) eq_refl))
    as (id & ts & H & _). by exists id, ts.
Defined.

Lemma merged_rows_complete_witness :
  exists l w, merge_agreed_rows sample_sets 2 = JArray l /\ w ∈ l /\ value_fingerprint w = value_fingerprint new_doc.
Proof.
  refine (merged_rows_complete sample_sets 2 "x" new_doc 5 (Nat.lt_0_2) _ _ _); rewrite sample_copies.
  - apply (bool_decide_unpack _). vm_compute. exact I.
  - unfold newest. cbn [copies_with omap list_omap snd fst String.eqb Ascii.eqb Bool.eqb].
    assert (Hne : value_fingerprint old_doc <> value_fingerprint new_doc)
      by (apply (bool_decide_unpack _); vm_compute; exact I).
    rewrite !Forall_cons, Forall_nil. cbn [fst snd]. revert Hne.
    generalize (value_fingerprint old_doc) as a, (value_fingerprint new_doc) as b. intros a b Hne.
    split; [|split; [by split|split; [by split|exact I]]].
    split; [lia|]. split; [lia|]. intros Hab. by destruct Hne.
  - apply Nat.leb_le. by vm_compute.
Defined.

Lemma listing_hides_majority_witness :
  elect [Some (old_doc, 4); Some (old_doc, 4); Some (new_doc, 5)] 2 = Some old_doc /\
  merge_agreed_rows (map (fun c => answer [answer_row "x" c.1 c.2]) [(new_doc, 5); (old_doc, 4); (old_doc, 4)]) 2
    = JArray [].
Proof.
  destruct (listing_hides_majority "x" old_doc new_doc 4 5) as (H1 & H2 & _).
  - cbn; lia.
  - reflexivity.
  - reflexivity.
  - unfold exact; lia.
  - unfold exact; lia.
  - lia.
  - apply (bool_decide_unpack _). vm_compute. exact I.
  - by split.
Defined.
End sample.

End ReplReadFacts.
