(* ===== verification/ReplHandlers.v ===== *)
(** The replication handlers of src/api/epsilon_api.c: how a node applies a
    change and answers a read request of a peer, and how it replicates a
    configuration record; and the engine of Manager.v behind them. Running the
    scripts of an event is an argument. *)

From S2P Require Import Prelude Json Shard Manager Store Config Wire Cluster Repl.

Module ReplHandlers.

Import Json Store Config Wire Cluster Repl.

Inductive edb_lua_event :=
  EDB_LUA_BEFORE_INSERT | EDB_LUA_AFTER_INSERT | EDB_LUA_BEFORE_UPDATE | EDB_LUA_AFTER_UPDATE
| EDB_LUA_BEFORE_DELETE | EDB_LUA_AFTER_DELETE.

Section handlers.
Context {S : Type} `{RecordStore S} `{JsonCodec} `{DataEngine S}.
Context (cfg : edb_config S).

(** The scripts of an event on a document of (database, partition, keyspace,
    id), whose result the callers here ignore. *)
Context (fire : edb_lua_event -> string -> string -> string -> string -> option json -> st S unit).

(** Configuration writes never run scripts. *)
Definition api_fire_lua (event : edb_lua_event) (db partition keyspace id : string) (value : option json)
    : st S unit :=
  if String.eqb db EDB_SYSTEM_DB then mret tt else fire event db partition keyspace id value.

Definition from_script (change : json) : bool :=
  match get_item change "lua" with Some (JBool _) => true | _ => false end.

(** cJSON_Duplicate without recursion: an object loses its members. *)
Definition duplicate_shallow (v : json) : json :=
  match v with JArray _ => JArray [] | JObject _ => JObject [] | v => v end.

Definition apply_put (change : json) (db : string) (f : change_fields) : st S bool :=
  prior ← get_doc (c_partition f) (c_keyspace f) (c_id f);
  match get_item change "value" with
  | Some (JObject ms) =>
      ok ← replica_put_origin (c_partition f) (c_keyspace f) (c_id f) (json_print (JObject ms))
             (default (-1) (get_ll change "ttl_abs")) (c_ts f) (c_origin f);
      _ ← (if ok && negb (String.eqb db EDB_SYSTEM_DB)
           then edb_partition_ensure cfg db (c_partition f) (c_keyspace f) else mret (false, false));
      _ ← (if ok && negb (from_script change)
           then api_fire_lua (match prior with Some _ => EDB_LUA_AFTER_UPDATE | None => EDB_LUA_AFTER_INSERT end)
                  db (c_partition f) (c_keyspace f) (c_id f) (Some (duplicate_shallow (JObject ms)))
           else mret tt);
      mret ok
  | _ => mret false
  end.

Definition apply_delete (change : json) (db : string) (f : change_fields) : st S bool :=
  deleted ← get_doc (c_partition f) (c_keyspace f) (c_id f);
  ok ← replica_delete_origin (c_partition f) (c_keyspace f) (c_id f) (c_ts f) (c_origin f);
  _ ← (if ok && negb (from_script change)
       then api_fire_lua EDB_LUA_AFTER_DELETE db (c_partition f) (c_keyspace f) (c_id f) deleted
       else mret tt);
  mret ok.

(** While a restore holds the lock no change is applied. *)
Definition api_apply_change_impl (restore_locked : bool) (change : json) : st S bool :=
  if restore_locked then mret false
  else
    match get_string change "db", change_parts change with
    | Some db, Some f =>
        if String.eqb (c_op f) "put" then apply_put change db f
        else if String.eqb (c_op f) "delete" then apply_delete change db f
        else mret false
    | _, _ => mret false
    end.

Definition answer_get (partition keyspace : string) (id : option string) : st S json :=
  r ← match id with Some id => get_ts partition keyspace id | None => mret None end;
  mret (JObject [("row",
    match r, id with
    | Some (doc, ts), Some id =>
        JObject [("id", JString id); ("timestamp", jnum ts); ("value", doc)]
    | _, _ => JNull
    end)]).

Definition answer_rows (rows : option json) : json := JObject [("rows", default (JArray []) rows)].

Definition api_read_request (request : json) : st S (option json) :=
  let filters := get_item request "filters" in
  match get_string request "q", get_string request "partition", get_string request "keyspace" with
  | Some q, Some partition, Some keyspace =>
      if negb (Shard.edb_filters_valid filters) then mret None
      else if String.eqb q "get" then
        r ← answer_get partition keyspace (get_string request "id"); mret (Some r)
      else if String.eqb q "all_ts" then
        rows ← all_ts partition keyspace filters; mret (Some (answer_rows rows))
      else if String.eqb q "query_ts" then
        rows ← query_ts partition keyspace filters; mret (Some (answer_rows rows))
      else if String.eqb q "ids" then
        ids ← ids_of partition keyspace filters;
        mret (Some (JObject [("ids", JArray (map JString (default [] ids)))]))
      else mret None
  | _, _, _ => mret None
  end.

End handlers.

(** The change document of a configuration record; [None] for a record that
    does not parse. *)
Definition config_change `{JsonCodec} (now : Z) (keyspace id : string) (text : option string) : option json :=
  let head op := [("op", JString op); ("db", JString EDB_SYSTEM_DB); ("partition", JString EDB_SYSTEM_DB);
                  ("keyspace", JString keyspace); ("id", JString id); ("ts", jnum now)] in
  match text with
  | None => Some (JObject (head "delete"%string))
  | Some text => (fun v => JObject (head "put"%string ++ [("value", v); ("ttl_abs", jnum (-1))])) <$> json_parse text
  end.

Definition api_replicate_config {S : Type} `{RecordStore S} `{JsonCodec} `{DataEngine S} `{Network S}
    (ins : string -> bool) (cl : edb_cluster) (path : string) (now : Z) (rp : edb_repl)
    (keyspace id : string) (text : option string) : st S (bool * edb_repl) :=
  match config_change now keyspace id text with
  | None => mret (false, rp)
  | Some change =>
      r ← edb_repl_write ins cl path now rp EDB_SYSTEM_DB (json_print change);
      mret (match r.1 with EDB_REPL_OK => true | _ => false end, r.2)
  end.

(** ** The engine *)

(** The operations of Manager.v at time [now], every statement succeeding. *)
Section engine.
Context `{JsonCodec} `{Shard.JsonSql}.
Context (scan : Shard.table -> list (string * Shard.row)) (now : Z).

Definition engine_get_ts (partition keyspace id : string) : st Manager.engine (option (json * Z)) := fun e =>
  let '((doc, ts), e) := Manager.edb_get_ts e true Shard.SqlOk now partition keyspace id 0 in
  ((fun d => (d, ts)) <$> doc, e).

Definition engine_data : DataEngine Manager.engine := {|
  replica_put_origin p ks id text ttl ts origin e :=
    Manager.edb_replica_put_origin e true Shard.SqlOk Shard.SqlOk p ks id text ttl ts (Some origin);
  replica_delete_origin p ks id ts origin e :=
    Manager.edb_replica_delete_origin e true Shard.SqlOk Shard.SqlOk p ks id ts (Some origin);
  get_doc p ks id e := Manager.edb_get e true Shard.SqlOk now p ks id;
  get_ts := engine_get_ts;
  all_docs p ks f e := Manager.edb_all scan e true true now p ks f;
  all_ts p ks f e := Manager.edb_all_ts scan e true true now p ks f;
  query_docs p ks f e := Manager.edb_query scan e true true now p ks f;
  query_ts p ks f e := Manager.edb_query_ts scan e true true now p ks f;
  ids_of p ks f e := Manager.edb_ids scan e true true now p ks f;
|}.
End engine.

End ReplHandlers.
