(* ===== verification/World.v ===== *)
(** A cluster of nodes, each with the engine of Manager.v, the replication
    service of Repl.v and the handlers of ReplHandlers.v, that exchange frames
    over links that may be cut. It is the network the theorems about
    replicated writes and quorum reads are instantiated with. *)

From S2P Require Import Prelude BlockHash Md5 Json Shard ShardFacts Manager ManagerFacts EngineFacts.
From S2P Require Import Store Config StoreFacts Wire Cluster Repl ReplFacts ReplHandlers ReplRead ReplReadFacts.

Module World.

Import Json Store Config Wire Cluster Repl ReplFacts ReplHandlers ReplRead ReplReadFacts.
Import Shard ShardFacts Manager ManagerFacts EngineFacts StoreFacts.

(** ** Origins are compared cut to 63 characters *)

Lemma cut_le n s : String.le (String.substring 0 n s) s.
Proof.
  apply strcmp_not_gt. unfold strcmp. revert s. induction n as [|n IH]; intros [|c s]; simpl; try done.
  unfold Ascii.compare. rewrite N.compare_refl. apply IH.
Qed.

Lemma le_cut n o s : (String.length o <= n)%nat -> String.le o s -> String.le o (String.substring 0 n s).
Proof.
  rewrite <-!strcmp_not_gt. unfold strcmp. revert o s. induction n as [|n IH]; intros [|c o] s Hlen; simpl in *.
  - by destruct s.
  - lia.
  - by destruct s.
  - destruct s as [|d s]; [done|]. simpl. destruct (Ascii.compare c d); [|done|done]. apply IH. lia.
Qed.

(** ** An engine only gets newer *)

(** The version of a document. *)
Definition doc_version (e : engine) (k id : string) : option (Z * string) := engine_table e k !! id ≫= row_version.

(** The shards of user data: their keys are not those of the configuration. *)
Definition user_key (k : string) : Prop := Forall (fun ks => k <> config_key ks) system_keyspaces.

Definition newer_than (v : Z * string) (o : option (Z * string)) : Prop :=
  exists v', o = Some v' /\ version_le v v'.

Definition engine_le (e e' : engine) : Prop :=
  quiescent e ->
  quiescent e' /\
  forall k id v, user_key k -> newer_than v (doc_version e k id) -> newer_than v (doc_version e' k id).

#[export] Instance engine_le_preorder : PreOrder engine_le.
Proof.
  split.
  - intros e Hq. split; [done|auto].
  - intros e e1 e2 H1 H2 Hq. destruct (H1 Hq) as [Hq1 A1]. destruct (H2 Hq1) as [Hq2 A2]. split; [done|auto].
Qed.

(** Reads leave the tables alone. *)
Definition engine_same (e e' : engine) : Prop :=
  quiescent e -> quiescent e' /\ forall k, engine_table e' k = engine_table e k.

#[export] Instance engine_same_preorder : PreOrder engine_same.
Proof.
  split.
  - by intros e Hq.
  - intros e e1 e2 H1 H2 Hq. destruct (H1 Hq) as [Hq1 A1]. destruct (H2 Hq1) as [Hq2 A2].
    split; [done|]. intros k. by rewrite A2.
Qed.

Lemma engine_same_le e e' : engine_same e e' -> engine_le e e'.
Proof.
  intros H Hq. destruct (H Hq) as [Hq' Ht]. split; [done|]. intros k id v _. unfold doc_version. by rewrite Ht.
Qed.

Lemma on_shard_same {A} p ks (fail : A) f :
  (forall sh, key (f sh).2 = key sh /\ data (f sh).2 = data sh) ->
  within engine_same (fun e => on_shard e true p ks fail f).
Proof.
  intros Hf e Hq. destruct (on_shard_table e p ks fail f Hq (fun sh => proj1 (Hf sh))) as (Hq' & sh & Hd & _ & Ht & Ho).
  split; [done|]. intros k. destruct (decide (k = shard_key p ks)) as [->|Hne]; [|by apply Ho].
  by rewrite Ht, (proj2 (Hf sh)).
Qed.

Lemma on_shard_le {A} p ks (fail : A) f :
  (forall sh, key (f sh).2 = key sh) ->
  (p = EDB_SYSTEM_DB /\ ks ∈ system_keyspaces \/
   forall sh id v, newer_than v (data sh !! id ≫= row_version) -> newer_than v (data (f sh).2 !! id ≫= row_version)) ->
  within engine_le (fun e => on_shard e true p ks fail f).
Proof.
  intros Hk Hf e Hq. destruct (on_shard_table e p ks fail f Hq Hk) as (Hq' & sh & Hd & _ & Ht & Ho).
  split; [done|]. intros k id v Hu Hv. unfold doc_version in *.
  destruct (decide (k = shard_key p ks)) as [->|Hne]; [|by rewrite Ho].
  destruct Hf as [[-> Hks]|Hf]; [unfold user_key in Hu; rewrite Forall_forall in Hu; by destruct (Hu ks Hks)|]. rewrite Ht. apply Hf. by rewrite Hd.
Qed.

(** What last-write-wins leaves is newer than both. *)
Lemma lww_newer stored ts o r v :
  row_version r = Some (ts, String.substring 0 63 o) ->
  (forall vs, stored ≫= row_version = Some vs -> (String.length vs.2 <= 63)%nat) ->
  newer_than v (stored ≫= row_version) \/ v = (ts, String.substring 0 63 o) ->
  newer_than v (lww_row stored ts (Some o) r ≫= row_version).
Proof.
  intros Hr Hshort Hv. unfold lww_row. cbn [origin_text default from_option]. unfold Datatypes.id.
  destruct (stored ≫= row_version) as [vs|] eqn:Es.
  - specialize (Hshort vs eq_refl). destruct (stored_newer (Some vs) ts o) eqn:En.
    + rewrite Es. exists vs. split; [done|]. destruct Hv as [(v' & [= <-] & Hle)| ->]; [done|].
      assert (Hn : ~ version_le vs (ts, o)) by (rewrite <-stored_newer_spec; by rewrite En).
      destruct (version_le_total (ts, o) vs) as [Hle|?]; [|done].
      eapply version_le_trans; [|exact Hle]. right. split; [done|]. apply cut_le.
    + apply stored_newer_spec in En. cbn [mbind option_bind]. rewrite Hr. eexists. split; [done|].
      destruct Hv as [(v' & [= <-] & Hle)| ->]; [|apply version_le_refl].
      eapply version_le_trans; [exact Hle|]. destruct En as [?|[? ?]]; [by left|right].
      split; [done|]. by apply le_cut.
  - cbn [stored_newer mbind option_bind]. rewrite Hr. eexists. split; [done|].
    destruct Hv as [(v' & ? & _)| ->]; [done|apply version_le_refl].
Qed.

Lemma version_short r v : row_version r = Some v -> (String.length v.2 <= 63)%nat.
Proof. unfold row_version. destruct (r_timestamp r); [|done]. intros [= <-]. apply substring_length. Qed.

Lemma stored_short (stored : option row) vs : stored ≫= row_version = Some vs -> (String.length vs.2 <= 63)%nat.
Proof. destruct stored; [apply version_short|done]. Qed.

Lemma replica_put_newer sh id text ttl ts o (r := edb_shard_replica_put sh SqlOk SqlOk id text ttl ts (Some o)) :
  r.1 = true /\ newer_than (ts, String.substring 0 63 o) (data r.2 !! id ≫= row_version) /\
  forall j v, newer_than v (data sh !! j ≫= row_version) -> newer_than v (data r.2 !! j ≫= row_version).
Proof.
  destruct (replica_put_data sh id text ttl ts (Some o)) as [Hr Hd]. fold r in Hr, Hd. split; [done|]. split.
  - rewrite Hd, decide_True by done. apply lww_newer; [done|apply stored_short|by right].
  - intros j v Hv. rewrite Hd. case_decide as Hj; [subst j|done].
    apply lww_newer; [done|apply stored_short|by left].
Qed.

Lemma replica_delete_newer sh id ts o (r := edb_shard_replica_delete sh SqlOk SqlOk id ts (Some o)) :
  r.1 = true /\ newer_than (ts, String.substring 0 63 o) (data r.2 !! id ≫= row_version) /\
  forall j v, newer_than v (data sh !! j ≫= row_version) -> newer_than v (data r.2 !! j ≫= row_version).
Proof.
  destruct (replica_delete_data sh id ts (Some o)) as [Hr Hd]. fold r in Hr, Hd. split; [done|]. split.
  - rewrite Hd, decide_True by done. apply lww_newer; [done|apply stored_short|by right].
  - intros j v Hv. rewrite Hd. case_decide as Hj; [subst j|done].
    apply lww_newer; [done|apply stored_short|by left].
Qed.

(** ** Nodes and links *)

Record node := Node {
  n_addr : string; n_port : Z; n_path : string;
  n_cluster : edb_cluster; n_repl : edb_repl; n_engine : engine;
}.

(** [w_me] is the node that computes, [w_cut] the addresses no frame reaches. *)
Record world := MkWorld { w_nodes : list node; w_me : nat; w_cut : list string }.

Definition with_nodes (ns : list node) (w : world) : world := MkWorld ns (w_me w) (w_cut w).
Definition with_me (j : nat) (w : world) : world := MkWorld (w_nodes w) j (w_cut w).
Definition with_engine (e : engine) (n : node) : node :=
  Node (n_addr n) (n_port n) (n_path n) (n_cluster n) (n_repl n) e.
Definition with_repl (rp : edb_repl) (n : node) : node :=
  Node (n_addr n) (n_port n) (n_path n) (n_cluster n) rp (n_engine n).
Definition set_repl (j : nat) (rp : edb_repl) (w : world) : world :=
  with_nodes (alter (with_repl rp) j (w_nodes w)) w.

Definition node_at (addr : string) (port : Z) (w : world) : option (nat * node) :=
  list_find (fun n => n_addr n = addr /\ n_port n = port) (w_nodes w).

(** An operation on our own engine. *)
Definition on_engine {A} (fail : A) (f : st engine A) : st world A := fun w =>
  match w_nodes w !! w_me w with
  | Some n => let '(a, e) := f (n_engine n) in (a, with_nodes (<[w_me w := with_engine e n]> (w_nodes w)) w)
  | None => (fail, w)
  end.

(** *** How a world moves *)

(** The engines move along [R], everything else of a node is as it was. *)
Section moves.
Context (R : engine -> engine -> Prop) `{!PreOrder R}.

Definition node_moves (n n' : node) : Prop :=
  (n_addr n' = n_addr n /\ n_port n' = n_port n) /\ R (n_engine n) (n_engine n').

Definition world_moves (w w' : world) : Prop :=
  w_me w' = w_me w /\ w_cut w' = w_cut w /\ Forall2 node_moves (w_nodes w) (w_nodes w').

#[export] Instance node_moves_preorder : PreOrder node_moves.
Proof.
  split.
  - intros n. by split.
  - intros n n1 n2 [[A1 A2] A3] [[B1 B2] B3]. split; [by rewrite B1, B2|]. by etransitivity.
Qed.

#[export] Instance world_moves_preorder : PreOrder world_moves.
Proof.
  split.
  - intros w. split; [done|]. by split.
  - intros w w1 w2 (A1 & A2 & A3) (B1 & B2 & B3). split; [congruence|]. split; [congruence|]. by etransitivity.
Qed.

Lemma alter_moves j f ns : (forall n, node_moves n (f n)) -> Forall2 node_moves ns (alter f j ns).
Proof.
  intros Hf. apply Forall2_same_length_lookup. split; [by rewrite length_alter|]. intros i a b Ha Hb.
  destruct (decide (i = j)) as [->|Hne].
  - rewrite list_lookup_alter_eq, Ha in Hb. cbn in Hb. simplify_eq. apply Hf.
  - rewrite list_lookup_alter_ne in Hb by done. simplify_eq. reflexivity.
Qed.

Lemma insert_moves j n n' ns : ns !! j = Some n -> node_moves n n' -> Forall2 node_moves ns (<[j := n']> ns).
Proof.
  intros Hj Hn. apply Forall2_same_length_lookup. split; [by rewrite length_insert|]. intros i a b Ha Hb.
  destruct (decide (i = j)) as [->|Hne].
  - rewrite list_lookup_insert_eq in Hb by (by eapply lookup_lt_Some). by simplify_eq.
  - rewrite list_lookup_insert_ne in Hb by done. simplify_eq. reflexivity.
Qed.

Lemma on_engine_moves {A} (fail : A) f : within R f -> within world_moves (on_engine fail f).
Proof.
  intros Hf w. unfold on_engine. destruct (w_nodes w !! w_me w) as [n|] eqn:En; [|reflexivity].
  specialize (Hf (n_engine n)). destruct (f (n_engine n)) as [a e]. split; [done|]. split; [done|].
  cbn [with_nodes w_nodes snd]. by apply (insert_moves _ n).
Qed.

Lemma node_at_moves w w' addr port j n :
  Forall2 node_moves (w_nodes w) (w_nodes w') -> node_at addr port w = Some (j, n) ->
  exists n', node_at addr port w' = Some (j, n') /\ node_moves n n'.
Proof.
  unfold node_at. intros Hall (Hn & [Ha Hp] & Hfirst)%list_find_Some.
  destruct (Forall2_lookup_l _ _ _ _ _ Hall Hn) as (n' & Hn' & Hle). exists n'. split; [|done].
  destruct Hle as [[E1 E2] _]. apply list_find_Some. split; [done|]. split; [by rewrite E1, E2|].
  intros k y Hk Hlt [Hya Hyp]. destruct (Forall2_lookup_r _ _ _ _ _ Hall Hk) as (x & Hx & [[E3 E4] _]).
  apply (Hfirst k x Hx Hlt). by rewrite <-E3, <-E4.
Qed.
End moves.

Abbreviation world_le := (world_moves engine_le).
Abbreviation world_same := (world_moves engine_same).

Lemma world_same_le w w' : world_same w w' -> world_le w w'.
Proof.
  intros (? & ? & Hall). split; [done|]. split; [done|]. eapply Forall2_impl; [exact Hall|].
  intros n n' [? ?]. split; [done|]. by apply engine_same_le.
Qed.

(** *** The interfaces *)

Section world.
Context {C : JsonCodec} {CL : JsonCodecLaws C} {Q : JsonSql}.
Context (scan : table -> list (string * row)) (now : Z).

#[local] Instance node_store : RecordStore engine := engine_store scan now.
#[local] Instance node_data : DataEngine engine := engine_data scan now.

#[local] Instance world_store : RecordStore world := {|
  rs_get ks id := on_engine None (rs_get ks id);
  rs_put ks id text := on_engine false (rs_put ks id text);
  rs_delete ks id := on_engine false (rs_delete ks id);
  rs_all ks := on_engine None (rs_all ks);
|}.

#[local] Instance world_data : DataEngine world := {|
  replica_put_origin p ks id text ttl ts origin := on_engine false (replica_put_origin p ks id text ttl ts origin);
  replica_delete_origin p ks id ts origin := on_engine false (replica_delete_origin p ks id ts origin);
  get_doc p ks id := on_engine None (get_doc p ks id);
  get_ts p ks id := on_engine None (get_ts p ks id);
  all_docs p ks f := on_engine None (all_docs p ks f);
  all_ts p ks f := on_engine None (all_ts p ks f);
  query_docs p ks f := on_engine None (query_docs p ks f);
  query_ts p ks f := on_engine None (query_ts p ks f);
  ids_of p ks f := on_engine None (ids_of p ks f);
|}.

(** No scripts run. *)
Definition no_scripts (ev : edb_lua_event) (db p ks id : string) (v : option json) : st world unit := mret tt.

Definition serve (N : Network world) (nd : node) (ty : Z) (text : string) : st world (option (Z * string) * edb_repl) :=
  repl_dispatch true (n_cluster nd) (api_apply_change_impl edb_config_open no_scripts false)
    api_read_request (n_repl nd) ty text.

(** A connection: the peer greets us and answers our frame, unless the link is
    cut. A flush makes it send in turn, over the network below. *)
Definition connect (N : Network world) (addr : string) (port : Z) (sent : list (Z * string))
    : st world (list (Z * option string)) := fun w =>
  match node_at addr port w, sent with
  | Some (j, nd), [_; (ty, text)] =>
      if bool_decide (addr ∈ w_cut w) then ([], w)
      else
        let '((reply, rp), w1) := serve N nd ty text (with_me j w) in
        ((ESTP_HELLO, Some (json_print (hello_json (n_cluster nd) false)))
           :: match reply with Some (t, r) => [(t, Some r)] | None => [] end,
         with_me (w_me w) (set_repl j rp w1))
  | _, _ => ([], w)
  end.

Fixpoint network (depth : nat) : Network world :=
  match depth with
  | O => {| exchange _ _ _ := mret [] |}
  | Datatypes.S depth => {| exchange := connect (network depth) |}
  end.

(** *** Everything an engine does makes it newer *)

Lemma prepare_same sh sql o : key (prepare sh sql o).2 = key sh /\ data (prepare sh sql o).2 = data sh.
Proof. unfold prepare. by destruct (stmt_for _ _ _). Qed.

Lemma get_ts_same sh o nw id ts0 (r := edb_shard_get_ts sh o nw id ts0) :
  key r.2 = key sh /\ data r.2 = data sh.
Proof.
  unfold r, edb_shard_get_ts. destruct (prepare_same sh SQL_GET_TS o) as [Hk Hd].
  destruct (prepare sh SQL_GET_TS o) as [ok sh1]. cbn [snd] in *. destruct ok; cbn [negb]; [|done].
  case_decide; [done|]. by destruct (select_live sh1 nw id).
Qed.

Lemma replica_keys sh id text ttl ts o :
  key (edb_shard_replica_put sh SqlOk SqlOk id text ttl ts o).2 = key sh /\
  key (edb_shard_replica_delete sh SqlOk SqlOk id ts o).2 = key sh.
Proof.
  unfold edb_shard_replica_put, edb_shard_replica_delete, stored_version_locked.
  destruct (prepare_same sh SQL_VERSION SqlOk) as [Hk _].
  destruct (prepare sh SQL_VERSION SqlOk) as [ok sh1]. cbn [snd] in Hk.
  set (sv := if negb ok then _ else _).
  assert (Hsv : key sv.2 = key sh).
  { unfold sv. destruct ok; cbn [negb]; [|done]. case_decide; [done|]. by destruct (data sh1 !! id). }
  destruct sv as [v sh2]. cbn [snd] in Hsv. split; (destruct (stored_newer _ _ _); [done|]).
  - unfold do_put_locked. destruct (prepare_same sh2 SQL_PUT SqlOk) as [Hk2 _].
    destruct (prepare sh2 SQL_PUT SqlOk) as [ok2 sh3]. cbn [snd] in Hk2.
    destruct ok2; cbn [negb]; [|by rewrite <-Hsv]. case_decide; [by rewrite <-Hsv|]. by rewrite <-Hsv.
  - destruct (prepare_same sh2 SQL_TOMBSTONE SqlOk) as [Hk2 _].
    destruct (prepare sh2 SQL_TOMBSTONE SqlOk) as [ok2 sh3]. cbn [snd] in Hk2.
    destruct ok2; cbn [negb]; [|by rewrite <-Hsv]. case_decide; [by rewrite <-Hsv|]. by rewrite <-Hsv.
Qed.

Lemma get_same sh id : key (edb_shard_get sh SqlOk now id).2 = key sh /\ data (edb_shard_get sh SqlOk now id).2 = data sh.
Proof. destruct (StoreFacts.get_data sh SqlOk now id). by split. Qed.

(** Reads. *)
Lemma store_get_same ks id : within world_same (rs_get ks id).
Proof. apply on_engine_moves, on_shard_same; [exact _|]. intros sh. apply get_same. Qed.
Lemma store_all_same ks : within world_same (rs_all ks).
Proof. apply on_engine_moves; [exact _|]. by apply on_shard_same. Qed.
Lemma data_get_same p ks id : within world_same (get_doc p ks id).
Proof. apply on_engine_moves, on_shard_same; [exact _|]. intros sh. apply get_same. Qed.

Lemma engine_get_ts_same p ks id : within engine_same (engine_get_ts now p ks id).
Proof.
  intros e. unfold engine_get_ts.
  pose proof (on_shard_same p ks (None, 0) (fun sh => edb_shard_get_ts sh SqlOk now id 0)) as Hr.
  specialize (Hr (fun sh => get_ts_same sh SqlOk now id 0) e). cbv beta in Hr. unfold edb_get_ts.
  destruct (on_shard e true p ks (None, 0) _) as [[doc ts] e']. exact Hr.
Qed.
Lemma data_get_ts_same p ks id : within world_same (get_ts p ks id).
Proof. apply on_engine_moves; [exact _|]. apply engine_get_ts_same. Qed.
Lemma data_all_ts_same p ks f : within world_same (all_ts p ks f).
Proof. apply on_engine_moves; [exact _|]. by apply on_shard_same. Qed.
Lemma data_query_ts_same p ks f : within world_same (query_ts p ks f).
Proof. apply on_engine_moves; [exact _|]. by apply on_shard_same. Qed.
Lemma data_ids_same p ks f : within world_same (ids_of p ks f).
Proof. apply on_engine_moves; [exact _|]. by apply on_shard_same. Qed.

#[local] Hint Resolve store_get_same store_all_same data_get_same data_get_ts_same data_all_ts_same
  data_query_ts_same data_ids_same : core.

Lemma same_le {A} (m : st world A) : within world_same m -> within world_le m.
Proof. intros Hm w. apply world_same_le, Hm. Qed.

(** Writes. *)
Lemma store_put_le ks id text : ks ∈ system_keyspaces -> within world_le (rs_put ks id text).
Proof. intros Hks. apply on_engine_moves, on_shard_le; [exact _|intros; apply put_key|by left]. Qed.
Lemma data_put_le p ks id text ttl ts o : within world_le (replica_put_origin p ks id text ttl ts o).
Proof.
  apply on_engine_moves, on_shard_le; [exact _|intros sh; by apply (replica_keys sh id text ttl ts (Some o))|].
  right. intros sh j v. apply replica_put_newer.
Qed.
Lemma data_delete_le p ks id ts o : within world_le (replica_delete_origin p ks id ts o).
Proof.
  apply on_engine_moves, on_shard_le; [exact _|intros sh; by apply (replica_keys sh id "" 0 ts (Some o))|].
  right. intros sh j v. apply replica_delete_newer.
Qed.

#[local] Hint Resolve data_put_le data_delete_le : core.

(** *** So does everything a node does *)

Lemma cfg_store_le ks id obj :
  ks ∈ system_keyspaces -> within world_le (store (S := world) edb_config_open ks id obj).
Proof. unfold store. cbn [replicate edb_config_open]. apply store_put_le. Qed.

Lemma ensure_le db p ks : within world_le (edb_partition_ensure (S := world) edb_config_open db p ks).
Proof.
  unfold edb_partition_ensure, edb_partition_create, edb_partition_get, fetch.
  follow; first [by apply cfg_store_le, (bool_decide_unpack _)|by apply same_le].
Qed.
#[local] Hint Resolve ensure_le : core.

Lemma apply_le change :
  within world_le (api_apply_change_impl (S := world) edb_config_open no_scripts false change).
Proof.
  unfold api_apply_change_impl, apply_put, apply_delete, api_fire_lua, no_scripts. follow; by apply same_le.
Qed.

Lemma read_request_same req : within world_same (api_read_request (S := world) req).
Proof. unfold api_read_request, answer_get. cbv zeta. follow. Qed.

Section served.
Context {N : Network world}.
Hypothesis below : forall addr port sent, within world_le (exchange addr port sent).

Lemma rpc_le addr port ty text want : within world_le (rpc_once (S := world) addr port ty text want).
Proof. unfold rpc_once. follow. Qed.

Lemma send_change_le p text : within world_le (send_change (S := world) p text).
Proof. unfold send_change. follow; apply rpc_le. Qed.

Lemma deliver_batch_le del p rows rp : within world_le (deliver_batch (S := world) del p rows rp).
Proof.
  revert rp. induction rows as [|r rows IH]; intros rp; cbn [deliver_batch]; unfold deliver_cached; follow.
  all: apply send_change_le.
Qed.

Lemma drain_le del cl rp id : within world_le (edb_repl_drain_peer (S := world) del cl rp id).
Proof.
  unfold edb_repl_drain_peer. follow. generalize (with_replaying id rp). generalize ROUNDS.
  intros n. induction n as [|n IH]; intros rp0; cbn [drain_rounds]; follow; apply deliver_batch_le.
Qed.

Lemma serve_le nd ty text : within world_le (serve N nd ty text).
Proof.
  unfold serve, repl_dispatch. cbv zeta.
  follow; first [apply apply_le|apply drain_le|apply same_le, read_request_same].
Qed.

Lemma serve_same nd text : within world_same (serve N nd ESTP_QUERY text).
Proof.
  unfold serve, repl_dispatch. cbv zeta. replace (ESTP_QUERY =? ESTP_REPL) with false by done.
  replace (ESTP_QUERY =? ESTP_FLUSH) with false by done. rewrite Z.eqb_refl. follow. apply read_request_same.
Qed.

(** What a served frame leaves, back at the caller. *)
Lemma connect_moves R `{!PreOrder R} addr port hello ty text :
  (forall nd, within (world_moves R) (serve N nd ty text)) ->
  within (world_moves R) (connect N addr port [hello; (ty, text)]).
Proof.
  intros Hserve w. unfold connect. destruct (node_at addr port w) as [[j nd]|]; [|reflexivity].
  case_bool_decide; [reflexivity|].
  pose proof (Hserve nd (with_me j w)) as Hs.
  destruct (serve N nd ty text (with_me j w)) as [[reply rp] w1]. cbn [snd] in *.
  destruct Hs as (_ & Hcut & Hns). split; [done|]. split; [done|]. cbn.
  etransitivity; [exact Hns|]. apply alter_moves; [exact _|]. intros n. by split.
Qed.

Lemma connect_le addr port sent : within world_le (connect N addr port sent).
Proof.
  destruct sent as [|hello [|[ty text] [|]]].
  3: { apply connect_moves; [exact _|]. intros nd. apply serve_le. }
  all: intros w; unfold connect; by destruct (node_at addr port w) as [[]|].
Qed.
End served.

Lemma network_le depth addr port sent : within world_le (exchange (Network := network depth) addr port sent).
Proof.
  revert addr port sent. induction depth as [|depth IH]; intros addr port sent; cbn [network exchange].
  - follow.
  - by apply connect_le.
Qed.

(** *** What an acknowledgement means *)

(** The node there has the document of the change, at that version or a newer
    one. *)
Definition has_version (w : world) (addr : string) (port : Z) (f : change_fields) : Prop :=
  exists j n, node_at addr port w = Some (j, n) /\
    let k := shard_key (c_partition f) (c_keyspace f) in
    (user_key k -> newer_than (c_ts f, String.substring 0 63 (c_origin f)) (doc_version (n_engine n) k (c_id f))).

Definition world_ok (w : world) : Prop := Forall (fun n => quiescent (n_engine n)) (w_nodes w).

Lemma world_ok_le w w' : Forall2 (node_moves engine_le) (w_nodes w) (w_nodes w') -> world_ok w -> world_ok w'.
Proof.
  unfold world_ok. intros Hall Hok. apply Forall_lookup. intros i n' Hn'.
  destruct (Forall2_lookup_r _ _ _ _ _ Hall Hn') as (n & Hn & _ & Hle).
  rewrite Forall_lookup in Hok. by apply Hle, (Hok i n).
Qed.

Lemma node_ok w addr port j n : world_ok w -> node_at addr port w = Some (j, n) -> quiescent (n_engine n).
Proof.
  unfold world_ok, node_at. rewrite Forall_lookup. intros Hok (Hn & _)%list_find_Some. by apply (Hok j).
Qed.

Lemma has_version_le w w' addr port f :
  Forall2 (node_moves engine_le) (w_nodes w) (w_nodes w') -> world_ok w -> has_version w addr port f -> has_version w' addr port f.
Proof.
  intros Hall Hok (j & n & Hn & Hv). destruct (node_at_moves _ w w' addr port j n Hall Hn) as (n' & Hn' & _ & Hle).
  exists j, n'. split; [done|]. intros k Hu. apply (Hle (node_ok _ _ _ _ _ Hok Hn)); [done|]. by apply Hv.
Qed.

Definition own_version (w : world) (f : change_fields) : Prop :=
  exists n, w_nodes w !! w_me w = Some n /\
    let k := shard_key (c_partition f) (c_keyspace f) in
    (user_key k -> newer_than (c_ts f, String.substring 0 63 (c_origin f)) (doc_version (n_engine n) k (c_id f))).

Lemma own_version_le w w' f : world_le w w' -> world_ok w -> own_version w f -> own_version w' f.
Proof.
  intros (Hme & _ & Hall) Hok (n & Hn & Hv).
  destruct (Forall2_lookup_l _ _ _ _ _ Hall Hn) as (n' & Hn' & _ & Hle). exists n'. rewrite Hme.
  split; [done|]. intros k Hu. unfold world_ok in Hok. rewrite Forall_lookup in Hok.
  apply (Hle (Hok _ _ Hn)); [done|]. by apply Hv.
Qed.

Lemma on_engine_version f (m : st engine bool) w :
  world_ok w ->
  (forall e, quiescent e -> (m e).1 = true ->
     newer_than (c_ts f, String.substring 0 63 (c_origin f))
       (doc_version (m e).2 (shard_key (c_partition f) (c_keyspace f)) (c_id f))) ->
  (on_engine false m w).1 = true -> own_version (on_engine false m w).2 f.
Proof.
  unfold on_engine, world_ok. rewrite Forall_lookup. intros Hok Hm. destruct (w_nodes w !! w_me w) as [n|] eqn:En; [|done].
  specialize (Hm (n_engine n) (Hok _ _ En)). destruct (m (n_engine n)) as [ok e]. cbn [fst snd] in *.
  intros ->. exists (with_engine e n). split; [|auto]. apply list_lookup_insert_eq. by eapply lookup_lt_Some.
Qed.

Lemma put_version f text ttl w (m := replica_put_origin (c_partition f) (c_keyspace f) (c_id f) text ttl (c_ts f) (c_origin f)) :
  world_ok w -> (m w).1 = true -> own_version (m w).2 f.
Proof.
  intros Hok. apply on_engine_version; [done|]. intros e Hq _. unfold doc_version.
  destruct (on_shard_table e (c_partition f) (c_keyspace f) false
    (fun sh => edb_shard_replica_put sh SqlOk SqlOk (c_id f) text ttl (c_ts f) (Some (c_origin f))) Hq)
    as (_ & sh & _ & _ & Ht & _); [intros sh; by apply (replica_keys sh)|].
  unfold replica_put_origin, node_data, engine_data, edb_replica_put_origin. rewrite Ht.
  by destruct (replica_put_newer sh (c_id f) text ttl (c_ts f) (c_origin f)) as (_ & ? & _).
Qed.

Lemma delete_version f w (m := replica_delete_origin (c_partition f) (c_keyspace f) (c_id f) (c_ts f) (c_origin f)) :
  world_ok w -> (m w).1 = true -> own_version (m w).2 f.
Proof.
  intros Hok. apply on_engine_version; [done|]. intros e Hq _. unfold doc_version.
  destruct (on_shard_table e (c_partition f) (c_keyspace f) false
    (fun sh => edb_shard_replica_delete sh SqlOk SqlOk (c_id f) (c_ts f) (Some (c_origin f))) Hq)
    as (_ & sh & _ & _ & Ht & _); [intros sh; by apply (replica_keys sh (c_id f) "" 0)|].
  unfold replica_delete_origin, node_data, engine_data, edb_replica_delete_origin. rewrite Ht.
  by destruct (replica_delete_newer sh (c_id f) (c_ts f) (c_origin f)) as (_ & ? & _).
Qed.

(** Applying a change, as the writer does and as a replica does. *)
Lemma local_version change w :
  world_ok w -> (apply_change_local change w).1 = true ->
  exists f, change_parts change = Some f /\ own_version (apply_change_local change w).2 f.
Proof.
  intros Hok. unfold apply_change_local. destruct (change_parts change) as [f|]; [|done]. intros Hr. exists f.
  split; [done|]. revert Hr. unfold apply_fields. destruct (String.eqb _ _).
  - destruct (get_item change "value") as [[]|]; try done. by apply put_version.
  - destruct (String.eqb _ _); [by apply delete_version|done].
Qed.

Lemma within_ok {A} (m : st world A) w : within world_le m -> world_ok w -> world_ok (m w).2.
Proof. intros Hm. destruct (Hm w) as (_ & _ & Hall). by apply world_ok_le. Qed.

(** An operation that succeeds, amid others. *)
Lemma amid {A B} (before : st world A) (m : st world bool) (after : A -> bool -> st world B) f w :
  within world_le before -> within world_le m -> (forall a b, within world_le (after a b)) ->
  (forall w, world_ok w -> (m w).1 = true -> own_version (m w).2 f) -> world_ok w ->
  (m (before w).2).1 = true -> own_version ((before ≫= fun a => m ≫= after a) w).2 f.
Proof.
  intros Hb Hm Ha Hv Hok Hr. rewrite !st_bind_run. pose proof (within_ok _ _ Hb Hok) as Hok1.
  eapply own_version_le; [apply Ha| |by apply Hv]. by apply within_ok.
Qed.

Lemma ensured_le b db p ks :
  within world_le (if b : bool then edb_partition_ensure (S := world) edb_config_open db p ks else mret (false, false)).
Proof. destruct b; follow. Qed.

Lemma fired_le b ev db p ks id v :
  within world_le (if b : bool then api_fire_lua (S := world) no_scripts ev db p ks id v else mret tt).
Proof. unfold api_fire_lua, no_scripts. follow. Qed.

Lemma applied_version change w (m := api_apply_change_impl edb_config_open no_scripts false change) :
  world_ok w -> (m w).1 = true -> exists f, change_parts change = Some f /\ own_version (m w).2 f.
Proof.
  intros Hok. unfold m, api_apply_change_impl. destruct (get_string change "db") as [db|]; [|done].
  destruct (change_parts change) as [f|]; [|done]. intros Hr. exists f. split; [done|]. revert Hr.
  destruct (String.eqb (c_op f) "put").
  - unfold apply_put. destruct (get_item change "value") as [[]|]; try (by rewrite st_bind_run).
    intros Hr. apply (amid (get_doc _ _ _)); [by apply same_le|auto| |intros w0; apply put_version|done|].
    + intros a b. apply within_bind; [exact _|apply ensured_le|intros _].
      apply within_bind; [exact _|apply fired_le|intros _]. follow.
    + revert Hr. rewrite !st_bind_run. done.
  - destruct (String.eqb (c_op f) "delete"); [|done]. unfold apply_delete. intros Hr.
    apply (amid (get_doc _ _ _)); [by apply same_le|auto| |intros w0; apply delete_version|done|].
    + intros a b. apply within_bind; [exact _|apply fired_le|intros _]. follow.
    + revert Hr. rewrite !st_bind_run. done.
Qed.

#[local] Instance world_view : NetworkView := {|
  net_ok := world_ok;
  heard w addr port text :=
    exists change f, json_parse text = Some change /\ change_parts change = Some f /\ has_version w addr port f;
|}.

Lemma world_remembers {A} (m : st world A) : within world_le m -> forall w, remembers w (m w).2.
Proof.
  intros Hm w Hok. destruct (Hm w) as (_ & _ & Hall). split; [by apply (world_ok_le w)|].
  intros addr port text (change & f & Hp & Hf & Hv). exists change, f. split; [done|]. split; [done|].
  by apply (has_version_le w).
Qed.

#[local] Instance world_quiet : QuietEngine.
Proof. split; intros; apply world_remembers; auto using same_le. Qed.

(** A frame served with a positive acknowledgement was applied. *)
Lemma served_version (N : Network world) nd text w t r rp w' :
  world_ok w -> serve N nd ESTP_REPL text w = ((Some (t, r), rp), w') -> ack_ok (Some r) = true ->
  exists change f, json_parse text = Some change /\ change_parts change = Some f /\ own_version w' f.
Proof.
  intros Hok. unfold serve, repl_dispatch. destruct (json_parse text) as [change|]; [|done].
  rewrite (Z.eqb_refl ESTP_REPL). rewrite st_bind_run.
  destruct (syncing (n_repl nd)).
  - cbn [fst snd mret st_ret]. intros [= <- <- <- <-]. unfold ack_ok. cbn [mbind option_bind].
    by rewrite json_parse_print.
  - pose proof (applied_version change w Hok) as Hv.
    destruct (api_apply_change_impl _ _ _ _ w) as [ok w1]. cbn [fst snd mret st_ret] in *.
    intros [= <- <- <- <-]. unfold ack_ok. cbn [mbind option_bind]. rewrite json_parse_print by done.
    replace (get_item (ack_json ok) "ok") with (Some (JBool ok)) by by destruct ok. intros ->. destruct (Hv eq_refl) as (f & Hf & Ho). by exists change, f.
Qed.

Lemma connect_ack (N : Network world) addr port hello text reply w :
  (forall addr port sent, within world_le (exchange addr port sent)) -> world_ok w ->
  snd <$> List.find (fun f => f.1 =? ESTP_ACK) (connect N addr port [(ESTP_HELLO, hello); (ESTP_REPL, text)] w).1
    = Some reply ->
  ack_ok reply = true ->
  heard (connect N addr port [(ESTP_HELLO, hello); (ESTP_REPL, text)] w).2 addr port text.
Proof.
  intros Hbelow Hok. unfold connect. destruct (node_at addr port w) as [[j nd]|] eqn:En; [|done].
  case_bool_decide; [done|]. pose proof (serve_le (N := N) Hbelow nd ESTP_REPL text (with_me j w)) as Hle.
  pose proof (served_version N nd text (with_me j w)) as Hs.
  destruct (serve N nd ESTP_REPL text (with_me j w)) as [[[[t r]|] rp] w1]; cbn [fst snd List.find]; [|done].
  replace (ESTP_HELLO =? ESTP_ACK) with false by done. destruct (t =? ESTP_ACK); [|done].
  intros [= <-] Hack. destruct (Hs t r rp w1 Hok eq_refl Hack) as (change & f & Hp & Hf & n & Hn & Hv).
  exists change, f. split; [done|]. split; [done|]. destruct Hle as (Hme & _ & Hall). cbn [snd] in *.
  destruct (node_at_moves _ _ w1 addr port j nd Hall En) as (n' & Hn' & _). rewrite Hme in Hn.
  assert (n' = n) as -> by (apply list_find_Some in Hn' as [Hn' _]; cbn in Hn; congruence).
  apply (has_version_le w1); [|by apply (world_ok_le (with_me j w))|by exists j, n].
  apply alter_moves; [exact _|]. intros n0. by split.
Qed.

#[local] Instance world_network (depth : nat) : Network world := network depth.

#[local] Instance world_laws depth : NetworkLaws (N := network depth) world_view.
Proof.
  split.
  - intros addr port sent. apply world_remembers, network_le.
  - intros w addr port hello text reply Hok. destruct depth as [|depth]; [done|].
    apply connect_ack; [|done]. apply network_le.
Qed.

(** *** What a reply holds *)

(** The live document of a node, with its timestamp. *)
Definition node_copy (e : engine) (p ks id : string) : option (json * Z) :=
  r ← engine_table e (shard_key p ks) !! id;
  if live now r then (fun d => (d, row_timestamp 0 r)) <$> row_document r else None.

Lemma get_ts_copy e p ks id : quiescent e -> (engine_get_ts now p ks id e).1 = node_copy e p ks id.
Proof.
  intros Hq. unfold engine_get_ts, edb_get_ts.
  destruct (on_shard_table e p ks (None, 0) (fun sh => edb_shard_get_ts sh SqlOk now id 0) Hq)
    as (_ & sh & Hd & Hr & _); [intros sh; apply get_ts_same|].
  destruct (on_shard e true p ks (None, 0) _) as [[doc ts] e']. cbn [fst snd] in *.
  unfold node_copy. rewrite <-Hd. clear Hd. revert Hr. unfold edb_shard_get_ts.
  destruct (prepare_same sh SQL_GET_TS SqlOk) as [_ Hd]. pose proof (prepare_ok sh SQL_GET_TS SqlOk) as Hok.
  destruct (prepare sh SQL_GET_TS SqlOk) as [ok sh1]. cbn [fst snd] in *. rewrite Hok by done. cbn [negb].
  rewrite decide_False by done. unfold select_live. rewrite Hd.
  destruct (data sh !! id) as [r|]; cbn; [|by intros [= -> ->]]. destruct (live now r); by intros [= -> ->].
Qed.

Lemma node_copy_same e e' p ks id :
  engine_same e e' -> quiescent e -> node_copy e' p ks id = node_copy e p ks id.
Proof. intros H Hq. destruct (H Hq) as [_ Ht]. unfold node_copy. by rewrite Ht. Qed.

(** What the reply of a node to a read request says once printed and parsed. *)
Definition reply_of (copy : option (json * Z)) (id : string) : option (json * Z) :=
  json_parse (json_print (JObject [("row",
    match copy with
    | Some (doc, ts) => JObject [("id", JString id); ("timestamp", jnum ts); ("value", doc)]
    | None => JNull
    end)])) ≫= reply_copy.

#[local] Instance world_reads : ReadView := {|
  view_ok := world_ok;
  ReplReadFacts.database w db := (edb_database_get db w).1;
  ReplReadFacts.own w p ks id := (get_ts p ks id w).1;
  ReplReadFacts.held w addr port p ks id :=
    match node_at addr port w with
    | Some (_, n) => reply_of (node_copy (n_engine n) p ks id) id
    | None => None
    end;
|}.

(** Reading a table of our own engine. *)
Lemma on_engine_same {A} (fail : A) (m : st engine A) w w' :
  (forall e e', quiescent e -> engine_same e e' -> (m e').1 = (m e).1) ->
  world_ok w -> world_same w w' -> (on_engine fail m w').1 = (on_engine fail m w).1.
Proof.
  intros Hm Hok (Hme & _ & Hall). unfold on_engine, world_ok in *. rewrite Forall_lookup in Hok. rewrite Hme.
  destruct (w_nodes w !! w_me w) as [n|] eqn:En.
  - destruct (Forall2_lookup_l _ _ _ _ _ Hall En) as (n' & -> & _ & Hs).
    specialize (Hm _ _ (Hok _ _ En) Hs). destruct (m (n_engine n')), (m (n_engine n)). done.
  - destruct (w_nodes w' !! w_me w) as [n'|] eqn:En'; [|done].
    destruct (Forall2_lookup_r _ _ _ _ _ Hall En') as (n & ? & _). congruence.
Qed.

Lemma get_copy e p ks id : quiescent e -> (edb_get e true SqlOk now p ks id).1 = fst <$> node_copy e p ks id.
Proof.
  intros Hq. destruct (on_shard_table e p ks None (fun sh => edb_shard_get sh SqlOk now id) Hq)
    as (_ & sh & Hd & Hr & _); [intros sh; apply get_same|].
  unfold edb_get. rewrite Hr, get_result. unfold node_copy, select_live. rewrite Hd.
  destruct (engine_table e (shard_key p ks) !! id) as [r|]; [|done]. cbn.
  destruct (live now r); [|done]. cbn. by destruct (row_document r).
Qed.

Lemma world_sees {A} (m : st world A) : within world_same m -> forall w, sees w (m w).2.
Proof.
  intros Hm w Hok. specialize (Hm w). split; [eapply world_ok_le; [|exact Hok]; apply world_same_le, Hm|].
  split_and!.
  - intros db. cbn [ReplReadFacts.database world_reads]. unfold edb_database_get, fetch. rewrite !st_bind_run. cbn [fst mret st_ret].
    assert (Hg : (rs_get CFG_KEYSPACE_DATABASES db (m w).2).1 = (rs_get CFG_KEYSPACE_DATABASES db w).1); [|by rewrite Hg].
    apply on_engine_same; [|done|done]. intros e e' Hq Hs. cbn [rs_get node_store engine_store].
    rewrite !get_copy by (done || by apply Hs). by rewrite (node_copy_same e e').
  - intros p ks id. apply on_engine_same; [|done|done]. intros e e' Hq Hs. cbn [get_ts node_data engine_data].
    rewrite !get_ts_copy by (done || by apply Hs). by rewrite (node_copy_same e e').
  - intros addr port p ks id. cbn [ReplReadFacts.held world_reads]. destruct Hm as (_ & _ & Hall).
    destruct (node_at addr port w) as [[j n]|] eqn:En.
    + destruct (node_at_moves _ _ _ _ _ _ _ Hall En) as (n' & -> & _ & Hs).
      by rewrite (node_copy_same _ _ _ _ _ Hs (node_ok _ _ _ _ _ Hok En)).
    + destruct (node_at addr port (m w).2) as [[j' n']|] eqn:En'; [|done]. exfalso.
      apply list_find_Some in En' as (Hn' & Ha & _). destruct (Forall2_lookup_r _ _ _ _ _ Hall Hn') as (n & Hn & [[E1 E2] _]).
      apply list_find_None in En. rewrite Forall_lookup in En. apply (En _ _ Hn). by rewrite <-E1, <-E2.
Qed.

Lemma get_request_run db p ks id :
  api_read_request (S := world) (make_request "get" db p ks [("id", JString id)]) =
  (r ← answer_get p ks (Some id); mret (Some r)).
Proof. reflexivity. Qed.

Lemma on_engine_here {A} (fail : A) (m : st engine A) j n w :
  w_nodes w !! j = Some n -> (on_engine fail m (with_me j w)).1 = (m (n_engine n)).1.
Proof. intros Hn. unfold on_engine. cbn [with_me w_nodes w_me]. rewrite Hn. by destruct (m (n_engine n)). Qed.

(** How a node answers a read request. *)
Lemma served_copy (N : Network world) j nd db p ks id w :
  world_ok w -> w_nodes w !! j = Some nd ->
  (serve N nd ESTP_QUERY (json_print (make_request "get" db p ks [("id", JString id)])) (with_me j w)).1.1 =
  Some (ESTP_RESULT, json_print (JObject [("row",
    match node_copy (n_engine nd) p ks id with
    | Some (doc, ts) => JObject [("id", JString id); ("timestamp", jnum ts); ("value", doc)]
    | None => JNull
    end)])).
Proof.
  intros Hok Hn. unfold serve, repl_dispatch. rewrite json_parse_print by done.
  replace (ESTP_QUERY =? ESTP_REPL) with false by done. replace (ESTP_QUERY =? ESTP_FLUSH) with false by done.
  rewrite Z.eqb_refl, get_request_run, !st_bind_run. unfold answer_get. rewrite st_bind_run.
  cbn [fst snd mret st_ret default]. do 4 f_equal.
  assert (Hc : (get_ts p ks id (with_me j w)).1 = node_copy (n_engine nd) p ks id).
  { cbn [get_ts world_data]. rewrite (on_engine_here None _ j nd w Hn). apply get_ts_copy.
    unfold world_ok in Hok. rewrite Forall_lookup in Hok. by apply (Hok j). }
  by rewrite Hc.
Qed.

#[local] Instance world_queries depth : QueryLaws (N := network depth) world_reads.
Proof.
  split; try done.
  - intros db w. apply (world_sees (edb_database_get db)). unfold edb_database_get, fetch. follow.
  - intros p ks id w. apply world_sees, data_get_ts_same.
  - intros w addr port hello db p ks id reply doc Hok. destruct depth as [|depth]; [done|].
    cbn [network exchange ReplReadFacts.held world_reads]. unfold connect.
    destruct (node_at addr port w) as [[j nd]|] eqn:En; [|done]. case_bool_decide; [done|].
    assert (Hn : w_nodes w !! j = Some nd) by by apply list_find_Some in En as [? _].
    pose proof (served_copy (network depth) j nd db p ks id w Hok Hn) as Hs.
    destruct (serve _ _ _ _ _) as [[r rp] w1]. cbn [fst snd] in *. subst r. cbn [List.find fst].
    replace (ESTP_HELLO =? ESTP_RESULT) with false by done. rewrite Z.eqb_refl. cbn [fmap option_fmap option_map snd].
    intros [= <-] Hd. unfold reply_of. by rewrite Hd.
  - intros w addr port hello text. destruct depth as [|depth].
    + apply (world_sees (mret [])). follow.
    + apply (world_sees (exchange (Network := network (Datatypes.S depth)) addr port [(ESTP_HELLO, hello); (ESTP_QUERY, text)])).
      apply connect_moves; [exact _|]. intros nd. apply serve_same.
Qed.

End world.
End World.
