(* ===== verification/WorldFacts.v ===== *)
(** Replicated writes and quorum reads together, on the cluster of World.v: a
    quorum read never returns a version older than a write that was
    acknowledged to its client. *)

From S2P Require Import Prelude BlockHash Md5 Json Shard ShardFacts Manager ManagerFacts EngineFacts.
From S2P Require Import Store MapStore Config StoreFacts Wire Cluster Repl ReplFacts ReplHandlers ReplRead ReplReadFacts.
From S2P Require Import World.

Module WorldFacts.

Import Json Store Config Wire Cluster Repl ReplFacts ReplHandlers ReplRead ReplReadFacts.
Import Shard ShardFacts Manager ManagerFacts EngineFacts StoreFacts World.

(** Two majorities of the same holders meet. *)
Lemma majorities_meet {A} `{EqDecision A} (hs1 hs2 holders : list A) :
  NoDup hs1 -> NoDup hs2 -> Forall (fun h => h ∈ holders) hs1 -> Forall (fun h => h ∈ holders) hs2 ->
  (length holders < 2 * length hs1)%nat -> (length holders < 2 * length hs2)%nat ->
  exists h, h ∈ hs1 /\ h ∈ hs2.
Proof.
  intros N1 N2 F1 F2 L1 L2. destruct (decide (Exists (fun h => h ∈ hs2) hs1)) as [He|Hn].
  { apply Exists_exists in He as (h & H1 & H2). by exists h. }
  exfalso. assert (Hd : NoDup (hs1 ++ hs2)).
  { apply NoDup_app. split; [done|]. split; [|done]. intros h H1 H2. apply Hn, Exists_exists. by exists h. }
  assert (Hle : (length (hs1 ++ hs2) <= length holders)%nat).
  { apply submseteq_length, NoDup_submseteq; [done|]. rewrite Forall_forall in F1, F2.
    intros h [?|?]%elem_of_app; auto. }
  rewrite length_app in Hle. lia.
Qed.

Section facts.
Context {C : JsonCodec} {CL : JsonCodecLaws C} {Q : JsonSql}.
Context (scan : table -> list (string * row)) (now : Z) (depth : nat).

#[local] Instance store_of : RecordStore world := world_store scan now.
#[local] Instance data_of : DataEngine world := world_data scan now.
#[local] Instance network_of : Network world := network scan now depth.
#[local] Instance view_of : NetworkView := world_view.
#[local] Instance laws_of : NetworkLaws view_of := world_laws scan now depth.
#[local] Instance quiet_of : QuietEngine := world_quiet scan now.
#[local] Instance reads_of : ReadView := world_reads scan now.
#[local] Instance queries_of : QueryLaws reads_of := world_queries scan now depth.

(** The node that computes is where the cluster's directory says it is, and so
    are the peers it knows. *)
Definition at_home (cl : edb_cluster) (self : string) (dir : string -> string * Z) (w : world) : Prop :=
  (exists n, node_at (dir self).1 (dir self).2 w = Some (w_me w, n)) /\
  forall p, p ∈ edb_cluster_peers cl MAX_PEERS_SNAPSHOT -> (p_addr p, p_port p) = dir (p_id p).

Lemma fan_out_le self holders text ps : within world_le (fan_out (S := world) self holders text ps).
Proof. induction ps as [|p ps IH]; cbn [fan_out]; cbv zeta; follow; apply network_le. Qed.

Lemma local_le change : within world_le (apply_change_local (S := world) change).
Proof. unfold apply_change_local, apply_fields. follow; [apply data_put_le|apply data_delete_le]. Qed.

Lemma write_le ins cl path t rp db text :
  within world_le (edb_repl_write (S := world) ins cl path t rp db text).
Proof.
  unfold edb_repl_write, replication_factor, edb_database_get, fetch. cbv zeta.
  follow; first [apply same_le, store_get_same|apply fan_out_le|apply local_le].
Qed.

Lemma applied_here change w w' :
  world_ok w -> apply_change_local (S := world) change w = (true, w') ->
  exists f, change_parts change = Some f /\ own_version w' f.
Proof.
  intros Hok Hr. destruct (local_version scan now change w Hok (f_equal fst Hr)) as (f & Hf & Hv).
  exists f. split; [done|]. exact (eq_ind _ (fun w => own_version w f) Hv _ (f_equal snd Hr)).
Qed.

(** A node's copy as a reader sees it. *)
Lemma reply_of_copy copy id v ts :
  reply_of copy id = Some (v, ts) -> exists doc t, copy = Some (doc, t) /\
    (finite_json doc = true -> finite_json (jnum t) = true -> doc = v).
Proof.
  unfold reply_of. destruct copy as [[doc t]|].
  - intros Hr. exists doc, t. split; [done|]. intros Hd Ht. rewrite json_parse_print in Hr.
    2: { cbn [finite_json forallb snd andb]. by rewrite Hd, Ht. }
    destruct doc; try discriminate Hr. by injection Hr.
  - rewrite json_parse_print by done. discriminate.
Qed.

Lemma node_copy_row e p ks id doc t :
  node_copy now e p ks id = Some (doc, t) ->
  exists r, engine_table e (shard_key p ks) !! id = Some r /\ live now r = true /\
            row_document r = Some doc /\ row_timestamp 0 r = t.
Proof.
  unfold node_copy. destruct (engine_table e (shard_key p ks) !! id) as [r|]; [|done]. cbn.
  destruct (live now r) eqn:El; [|done]. destruct (row_document r) as [d|] eqn:Ed; [|done].
  intros [= <- <-]. by exists r.
Qed.

(** Where a reader finds its document. *)
Lemma holds_row cl self dir w p ks id h v ts :
  world_ok w -> at_home cl self dir w -> holds cl self p ks id w h v ts ->
  exists j n r doc, node_at (dir h).1 (dir h).2 w = Some (j, n) /\
    engine_table (n_engine n) (shard_key p ks) !! id = Some r /\ live now r = true /\ row_document r = Some doc /\
    (finite_json doc = true -> finite_json (jnum (row_timestamp 0 r)) = true -> doc = v).
Proof.
  intros Hok [[n Hn] Hdir] [[-> Ho]|(q & Hq & <- & Hh)].
  - assert (Hn' : w_nodes w !! w_me w = Some n) by by apply list_find_Some in Hn as [? _].
    assert (Hc : node_copy now (n_engine n) p ks id = Some (v, ts)).
    { rewrite <-Ho, <-(get_ts_copy now (n_engine n) p ks id (node_ok _ _ _ _ _ Hok Hn)).
      pose proof (on_engine_here None (engine_get_ts now p ks id) (w_me w) n w Hn') as Hh.
      replace (with_me (w_me w) w) with w in Hh by by destruct w. exact (eq_sym Hh). }
    apply node_copy_row in Hc as (r & ? & ? & ? & ?). by exists (w_me w), n, r, v.
  - specialize (Hdir q Hq). rewrite <-Hdir. cbn [fst snd]. cbn [ReplReadFacts.held reads_of world_reads] in Hh.
    destruct (node_at (p_addr q) (p_port q) w) as [[j m]|] eqn:En; [|done].
    apply reply_of_copy in Hh as (doc & t & (r & ? & ? & ? & <-)%node_copy_row & ?). by exists j, m, r, doc.
Qed.

(** C3: No stale reads: after a write was acknowledged to its client, and
    whatever traffic follows, a quorum read that returns a document - at any
    node, of any holder's view, with links cut at will - returns the live
    content of a holder whose version of the document is the written one or a
    newer one, provided reader and writer place the keyspace on the same
    holders. *)
Theorem no_stale_read (ins : string -> bool) (cl cl' : edb_cluster) (path path' self' db db' text : string)
    (t : Z) (rp rp' : edb_repl) (dir : string -> string * Z) (w w1 w2 : world)
    (change : json) (f : change_fields) (d : edb_database_info) (v : json) :
  world_ok w -> at_home cl (repl_self rp) dir w -> NoDup (map p_id (edb_cluster_peers cl MAX_PEERS_SNAPSHOT)) ->
  json_parse text = Some change ->
  get_string change "partition" = Some (c_partition f) -> get_string change "keyspace" = Some (c_keyspace f) ->
  user_key (shard_key (c_partition f) (c_keyspace f)) ->
  let sent := sent_change t rp change in
  finite_json sent = true -> change_parts sent = Some f ->
  edb_repl_write ins cl path t rp db text w = ((EDB_REPL_OK, rp'), w1) ->
  Forall2 (node_moves engine_le) (w_nodes w1) (w_nodes w2) ->
  at_home cl' self' dir w2 -> NoDup (map p_id (edb_cluster_peers cl' MAX_PEERS_SNAPSHOT)) ->
  (edb_database_get db' w2).1 = Some d -> 1 < d_replication_factor d ->
  write_holders cl' self' path' (c_partition f) (c_keyspace f) (d_replication_factor d) =
  write_holders cl (repl_self rp) path (c_partition f) (c_keyspace f) (replication_factor db w).1 ->
  (edb_repl_read_get cl' path' self' db' (c_partition f) (c_keyspace f) (c_id f) w2).1 = Some v ->
  exists h j n r doc, node_at (dir h).1 (dir h).2 w2 = Some (j, n) /\
    engine_table (n_engine n) (shard_key (c_partition f) (c_keyspace f)) !! c_id f = Some r /\
    live now r = true /\ row_document r = Some doc /\
    (finite_json doc = true -> finite_json (jnum (row_timestamp 0 r)) = true ->
       value_fingerprint doc = value_fingerprint v) /\
    newer_than (c_ts f, String.substring 0 63 (c_origin f)) (row_version r).
Proof.
  intros Hok Hhome Hnd Hp Hpt Hks Hu sent Hfin Hsent Hw Hlater Hhome' Hnd' Hd Hrf Hholders Hread.
  pose proof (write_le ins cl path t rp db text w) as Hle. rewrite Hw in Hle. cbn [snd] in Hle.
  destruct Hle as (Hme & _ & Hmoved). assert (Hok1 : world_ok w1) by by apply (world_ok_le w).
  assert (Hok2 : world_ok w2) by by apply (world_ok_le w1).
  pose proof (write_majority (V := view_of) ins cl path t rp db text change (c_partition f) (c_keyspace f) Hp Hpt Hks w Hok Hnd) as Hwm.
  rewrite Hw in Hwm. destruct (Hwm eq_refl) as ((hs1 & N1 & L1 & F1) & s2 & Hs2 & Hlocal). clear Hwm.
  destruct (read_majority cl' path' self' db' (c_partition f) (c_keyspace f) (c_id f) d w2 v)
    as (hs2 & N2 & L2 & F2); try done.
  cbv zeta in L1, F1, L2, F2. rewrite Hholders in L2, F2. set (holders := write_holders cl _ _ _ _ _) in *.
  destruct (majorities_meet hs1 hs2 holders N1 N2) as (h & H1 & H2); [..|exact L1|exact L2|].
  { eapply Forall_impl; [exact F1|]. by intros ? [? _]. }
  { eapply Forall_impl; [exact F2|]. by intros ? [? _]. }
  rewrite Forall_forall in F1, F2. destruct (F1 h H1) as [_ Hwrote]. destruct (F2 h H2) as (_ & x & ts & Hx & Hread').
  destruct (holds_row cl' self' dir w2 _ _ _ h x ts Hok2 Hhome' Hread') as (j & n & r & doc & Hn & Hr & Hl & Hdoc & Hval).
  exists h, j, n, r, doc. do 4 (split; [assumption|]).
  split; [intros Hd1 Hd2; by rewrite (Hval Hd1 Hd2)|].
  assert (Hv : has_version w1 (dir h).1 (dir h).2 f).
  { destruct Hhome as [[m Hm] Hdir]. destruct Hwrote as [->|(q & Hq & <- & change' & f' & Hp' & Hf' & Hv)].
    - destruct (applied_here sent s2 w1 Hs2 Hlocal) as (f' & Hf' & n' & Hn' & Hv). rewrite Hsent in Hf'. injection Hf' as <-.
      destruct (node_at_moves _ _ _ _ _ _ _ Hmoved Hm) as (m' & Hm' & _). exists (w_me w), m'. split; [done|].
      assert (w_nodes w1 !! w_me w = Some m') by by apply list_find_Some in Hm' as [? _].
      rewrite Hme in Hn'. assert (n' = m') as -> by congruence. exact Hv.
    - rewrite <-(Hdir q Hq). cbn [fst snd]. unfold sent_text in Hp'. rewrite json_parse_print in Hp' by done.
      injection Hp' as <-. fold sent in Hf'. rewrite Hsent in Hf'. by injection Hf' as <-. }
  destruct (has_version_le w1 w2 _ _ _ Hlater Hok1 Hv) as (j' & n' & Hn' & Hnew). rewrite Hn in Hn'. injection Hn' as <- <-.
  specialize (Hnew Hu). unfold doc_version in Hnew. by rewrite Hr in Hnew.
Qed.

End facts.

(** ** A cluster of three *)

#[local] Existing Instances MapStore.digit_codec MapStore.digit_codec_laws.
#[local] Instance demo_sql : JsonSql :=
  {| sqlval := Z; json_type := fun _ _ => None; json_extract := fun _ _ => 0;
     sql_is := Z.eqb; sql_compare := fun _ a b => a <? b |}.

Definition demo_dir (id : string) : string * Z :=
  (if String.eqb id "a" then "10.0.0.1" else if String.eqb id "b" then "10.0.0.2" else "10.0.0.3", 7000)%string.

Definition demo_peers : list edb_peer_info :=
  map (fun id => Peer id (demo_dir id).1 7000 8080 true 0 false 0) ["a"; "b"; "c"].

Definition demo_cluster (self : string) : edb_cluster :=
  MkCluster self (demo_dir self).1 7000 8080 demo_peers 1 0 [] 0 [] true "".

(** An engine whose configuration has a database replicated three times. *)
Definition demo_engine : engine :=
  (edb_put (empty_manager ∅ ∅) true SqlOk 0 EDB_SYSTEM_DB CFG_KEYSPACE_DATABASES "db"
     (json_print (JObject [("name", JString "db"); ("replication_factor", jnum 3)])) (-1)).2.

Definition demo_repl (self : string) (rows : list pending_row) : edb_repl := MkRepl self 0 (Some rows) false "".

Definition demo_node (id : string) : node :=
  Node (demo_dir id).1 7000 "/data" (demo_cluster id) (demo_repl id []) demo_engine.

(** No frame reaches the nodes of [cut]; node a computes. *)
Definition demo_world (cut : list string) : world :=
  MkWorld (map demo_node ["a"; "b"; "c"]) 0 (map (fun id => (demo_dir id).1) cut).

Definition demo_value : json := JObject [("v", jnum 1)].
Definition demo_change (ts : Z) : json :=
  JObject [("op", JString "put"); ("db", JString "db"); ("partition", JString "p"); ("keyspace", JString "ks");
           ("id", JString "x"); ("ts", jnum ts); ("value", demo_value)].

Section demo.
#[local] Hint Extern 0 (RecordStore world) => exact (store_of map_to_list 7) : typeclass_instances.
#[local] Hint Extern 0 (DataEngine world) => exact (data_of map_to_list 7) : typeclass_instances.
#[local] Hint Extern 0 (Network world) => exact (network_of map_to_list 7 2) : typeclass_instances.
#[local] Hint Extern 0 (NetworkView) => exact view_of : typeclass_instances.
#[local] Hint Extern 0 (NetworkLaws _) => exact (laws_of map_to_list 7 2) : typeclass_instances.
#[local] Hint Extern 0 (QuietEngine) => exact (quiet_of map_to_list 7) : typeclass_instances.
#[local] Hint Extern 0 (ReadView) => exact (reads_of map_to_list 7) : typeclass_instances.
#[local] Hint Extern 0 (QueryLaws _) => exact (queries_of map_to_list 7 2) : typeclass_instances.

Definition demo_write (cut : list string) : (edb_repl_status * edb_repl) * world :=
  edb_repl_write (S := world) (fun _ => true) (demo_cluster "a") "/data" 7 (demo_repl "a" []) "db"
    (json_print (demo_change 1000)) (demo_world cut).

Lemma demo_quiescent : quiescent demo_engine.
Proof.
  refine (proj1 (on_shard_table _ _ _ _ (fun sh => edb_shard_put sh SqlOk 0 _ _ _) _ _)).
  - by apply files_empty.
  - intros sh. apply put_key.
Qed.
#[local] Opaque demo_engine.

Lemma demo_ok cut : world_ok (demo_world cut).
Proof. do 3 (constructor; [exact demo_quiescent|]). constructor. Qed.

Lemma demo_ids : NoDup (map p_id (edb_cluster_peers (demo_cluster "a") MAX_PEERS_SNAPSHOT)).
Proof. apply (bool_decide_unpack _). vm_compute. exact I. Qed.

Lemma demo_homes self j w :
  Forall2 (node_moves engine_le) (w_nodes (demo_world [])) (w_nodes w) -> w_me w = j ->
  node_at (demo_dir self).1 (demo_dir self).2 (demo_world []) = Some (j, demo_node self) ->
  at_home (demo_cluster self) self demo_dir w.
Proof.
  intros Hall <- Hn. split.
  - destruct (node_at_moves _ _ _ _ _ _ _ Hall Hn) as (n & Hn' & _). by exists n.
  - intros p Hp. eapply elem_of_take in Hp as (i & Hp%list_elem_of_lookup_2 & _).
    apply list_elem_of_fmap in Hp as (id & -> & Hid). by repeat (apply elem_of_cons in Hid as [->|Hid]; [done|]).
Qed.

Lemma demo_parse : json_parse (json_print (demo_change 1000)) = Some (demo_change 1000).
Proof. by apply json_parse_print. Qed.

Lemma with_me_nodes j w : w_nodes (with_me j w) = w_nodes w.
Proof. done. Qed.
Lemma with_me_me j w : w_me (with_me j w) = j.
Proof. done. Qed.
Lemma with_me_ok j w : world_ok w -> world_ok (with_me j w).
Proof. done. Qed.

(** A later state of the cluster. *)
Lemma demo_moved cut : Forall2 (node_moves engine_le) (w_nodes (demo_world [])) (w_nodes (demo_write cut).2).
Proof.
  exact (proj2 (proj2 (write_le map_to_list 7 2 (fun _ => true) (demo_cluster "a") "/data" 7 (demo_repl "a" []) "db"
    (json_print (demo_change 1000)) (demo_world cut)))).
Qed.

Lemma demo_later cut : world_ok (demo_write cut).2.
Proof. eapply world_ok_le; [apply demo_moved|apply demo_ok]. Qed.

Lemma write_quorum_witness :
  (demo_write ["b"]).1.1 = EDB_REPL_OK /\
  exists hs : list string, NoDup hs /\ (3 < 2 * length hs)%nat.
Proof.
  assert (Hs : (demo_write ["b"]).1.1 = EDB_REPL_OK) by by vm_compute.
  split; [exact Hs|].
  pose proof (write_quorum (fun _ => true) (demo_cluster "a") "/data" 7 (demo_repl "a" []) "db"
    (json_print (demo_change 1000)) (demo_change 1000) "p" "ks" demo_parse
    eq_refl eq_refl (demo_world ["b"]) (demo_ok _) demo_ids) as H.
  fold (demo_write ["b"]) in H. destruct (demo_write ["b"]) as [[status rp'] w']. cbn [fst] in Hs. subst status.
  destruct (H eq_refl) as ((hs & N & L & _) & _). exists hs. split; [exact N|].
  assert (Hlen : length (write_holders (demo_cluster "a") (repl_self (demo_repl "a" [])) "/data" "p" "ks"
                           (replication_factor "db" (demo_world ["b"])).1) = 3%nat) by by vm_compute.
  rewrite Hlen in L. exact L.
Defined.

Lemma write_heard_or_cached_witness :
  (demo_write ["b"; "c"]).1.1 = EDB_REPL_QUORUM_LOST /\
  forall p, p ∈ demo_peers -> p_id p <> "a"%string -> p_id p <> ""%string ->
    heard_by (demo_write ["b"; "c"]).2 p (sent_text 7 (demo_repl "a" []) (demo_change 1000)) \/
    Pending (p_id p) (sent_cid 7 (demo_repl "a" [])) (sent_text 7 (demo_repl "a" []) (demo_change 1000))
      ∈ default [] (Repl.cache (demo_write ["b"; "c"]).1.2).
Proof.
  split; [by vm_compute|].
  pose proof (write_heard_or_cached (fun _ => true) (demo_cluster "a") "/data" 7 (demo_repl "a" []) "db"
    (json_print (demo_change 1000)) (demo_change 1000) "p" "ks" demo_parse
    eq_refl eq_refl (demo_world ["b"; "c"]) (demo_ok _) (fun _ => eq_refl) (ex_intro _ [] eq_refl)) as H.
  fold (demo_write ["b"; "c"]) in H. destruct (demo_write ["b"; "c"]) as [[status rp'] w'].
  destruct H as [H _]. exact H.
Defined.

Definition demo_pending : edb_repl := demo_repl "a" [Pending "b" "a-7-1" (json_print (demo_change 1000))].

Lemma drain_delivers_in_order_witness :
  let r := edb_repl_drain_peer (S := world) true (demo_cluster "a") demo_pending "b" (demo_world []) in
  r.1.1 = O /\ exists k, pending_rows (Repl.cache r.1.2) "b" = drop k (pending_rows (Repl.cache demo_pending) "b").
Proof.
  cbv zeta. split; [by vm_compute|].
  pose proof (drain_delivers_in_order (demo_cluster "a") demo_pending "b"
    (Peer "b" (demo_dir "b").1 7000 8080 true 0 false 0) (demo_world []) (demo_ok _)) as H.
  destruct (edb_repl_drain_peer _ _ _ _ _) as [[pending rp'] w']. destruct H as (k & Hk & _); [|done|done|by exists k].
  split; cbn [default Repl.cache demo_pending demo_repl from_option map].
  - apply NoDup_singleton.
  - apply Forall_singleton. apply (bool_decide_unpack _). vm_compute. exact I.
Defined.

(** Node c reads what a wrote while b could not be reached. *)
Definition demo_reader : world := with_me 2 (demo_write ["b"]).2.

Lemma demo_read :
  (edb_repl_read_get (demo_cluster "c") "/data" "c" "db" "p" "ks" "x" demo_reader).1 = Some demo_value /\
  (edb_database_get "db" demo_reader).1 = Some {| d_name := "db"; d_replication_factor := 3 |}.
Proof. by vm_compute. Qed.

Lemma nodes_le_refl ns : Forall2 (node_moves engine_le) ns ns.
Proof. reflexivity. Qed.

Lemma demo_acked : (demo_write ["b"]).1.1 = EDB_REPL_OK ->
  edb_repl_write (S := world) (fun _ => true) (demo_cluster "a") "/data" 7 (demo_repl "a" []) "db"
    (json_print (demo_change 1000)) (demo_world ["b"]) = ((EDB_REPL_OK, (demo_write ["b"]).1.2), (demo_write ["b"]).2).
Proof. fold (demo_write ["b"]). destruct (demo_write ["b"]) as [[status rp] w]. cbn [fst snd]. by intros ->. Qed.

(** The links are repaired and the cache of node a drained to b and c. *)
Definition demo_repaired : world * edb_repl :=
  let '((_, rp), w) := demo_write ["b"; "c"] in
  let '((_, rp), w) := edb_repl_drain_peer (S := world) true (demo_cluster "a") rp "b"
                         (MkWorld (w_nodes w) (w_me w) []) in
  let '((_, rp), w) := edb_repl_drain_peer (S := world) true (demo_cluster "a") rp "c" w in
  (w, rp).

(** A rejected write takes effect: node a cannot reach b and c, so its
    client is told that the write found no quorum; once the links are back the
    cached change is delivered to both, a quorum read at c returns the rejected
    value, and the node that rejected it is the only one without it. *)
Theorem rejected_write_spreads :
  (demo_write ["b"; "c"]).1.1 = EDB_REPL_QUORUM_LOST /\
  edb_repl_pending_total demo_repaired.2 = O /\
  (edb_repl_read_get (demo_cluster "c") "/data" "c" "db" "p" "ks" "x" (with_me 2 demo_repaired.1)).1
    = Some demo_value /\
  map (fun n => node_copy 7 (n_engine n) "p" "ks" "x") (w_nodes demo_repaired.1)
    = [None; Some (demo_value, 1000); Some (demo_value, 1000)].
Proof. by vm_compute. Qed.

#[local] Opaque demo_write value_fingerprint.

Lemma demo_reader_ok : world_ok demo_reader.
Proof. exact (with_me_ok 2 (demo_write ["b"]).2 (demo_later ["b"])). Qed.

Lemma read_get_majority_witness :
  (edb_repl_read_get (demo_cluster "c") "/data" "c" "db" "p" "ks" "x" demo_reader).1 = Some demo_value /\
  exists hs, NoDup hs /\ Forall (fun h => exists w ts, value_fingerprint w = value_fingerprint demo_value /\
                                    holds (demo_cluster "c") "c" "p" "ks" "x" demo_reader h w ts) hs.
Proof.
  split; [exact (proj1 demo_read)|].
  destruct (read_get_majority (V := reads_of map_to_list 7) (demo_cluster "c") "/data" "c" "db" "p" "ks" "x"
    {| d_name := "db"; d_replication_factor := 3 |} demo_reader demo_value demo_reader_ok demo_ids
    (proj2 demo_read) eq_refl (proj1 demo_read)) as (hs & N & _ & F).
  exists hs. split; [exact N|]. eapply Forall_impl; [exact F|]. intros h [_ H]. exact H.
Defined.

Lemma no_stale_read_witness :
  (demo_write ["b"]).1.1 = EDB_REPL_OK /\
  exists h j n r, node_at (demo_dir h).1 (demo_dir h).2 demo_reader = Some (j, n) /\
    engine_table (n_engine n) (shard_key "p" "ks") !! "x"%string = Some r /\ newer_than (1000, "a"%string) (row_version r).
Proof.
  assert (Hs : (demo_write ["b"]).1.1 = EDB_REPL_OK) by by vm_compute. split; [exact Hs|].
  set (f := Fields "put" "p" "ks" "x" 1000 "a").
  destruct (no_stale_read map_to_list 7 2 (fun _ => true) (demo_cluster "a") (demo_cluster "c") "/data" "/data" "c"
    "db" "db" (json_print (demo_change 1000)) 7 (demo_repl "a" []) (demo_write ["b"]).1.2 demo_dir
    (demo_world ["b"]) (demo_write ["b"]).2 demo_reader (demo_change 1000) f
    {| d_name := "db"; d_replication_factor := 3 |} demo_value) as (h & j & n & r & doc & Hn & Hr & _ & _ & _ & Hv).
  - apply demo_ok.
  - apply demo_homes with 0%nat; [reflexivity|reflexivity|by vm_compute].
  - exact demo_ids.
  - exact demo_parse.
  - reflexivity.
  - reflexivity.
  - apply (bool_decide_unpack _). vm_compute. exact I.
  - reflexivity.
  - by vm_compute.
  - exact (demo_acked Hs).
  - unfold demo_reader. rewrite with_me_nodes. exact (nodes_le_refl _).
  - apply demo_homes with 2%nat; [|unfold demo_reader; by rewrite with_me_me|by vm_compute].
    unfold demo_reader. rewrite with_me_nodes. exact (demo_moved _).
  - exact demo_ids.
  - exact (proj2 demo_read).
  - reflexivity.
  - by vm_compute.
  - exact (proj1 demo_read).
  - exists h, j, n, r. split; [exact Hn|]. split; [exact Hr|exact Hv].
Defined.

End demo.

End WorldFacts.
