(* ===== verification/EqlExec.v ===== *)
(** src/eql/epsilon_eql.c, the executor: permissions, the shadow tables of a
    statement, the statement itself in a private SQLite database under an
    authorizer and row hooks, and the write-back of the rows it changed.
    SQLite is a library behind the interface [Sqlite]; the engine, the
    configuration and replication are those of the other files. Allocation
    failures, the watchdog's clock (its effect is an outcome of SQLite's) and
    the pause between attempts are not modelled. *)

From S2P Require Import Prelude Json Shard Manager Store Config Cluster Repl ReplRead ReplHandlers EqlScan.
From Stdlib Require Import SpecFloat.

Module EqlExec.

Import Json Store Config Cluster Repl ReplRead ReplHandlers EqlScan.

(** ** SQLite *)

(** A value of a row or a binding. *)
Inductive sqlval :=
| SQLITE_NULL
| SQLITE_INTEGER (z : Z)
| SQLITE_FLOAT (d : spec_float)
| SQLITE_TEXT (s : string)
| SQLITE_BLOB (b : bytes).

(** The action codes an authorizer is asked about. *)
Inductive sql_action :=
| ACT_INSERT | ACT_UPDATE | ACT_DELETE
| ACT_ATTACH | ACT_DETACH
| ACT_CREATE_INDEX | ACT_CREATE_TABLE | ACT_CREATE_TEMP_INDEX | ACT_CREATE_TEMP_TABLE
| ACT_CREATE_TEMP_TRIGGER | ACT_CREATE_TEMP_VIEW | ACT_CREATE_TRIGGER | ACT_CREATE_VIEW
| ACT_PRAGMA | ACT_TRANSACTION | ACT_SAVEPOINT | ACT_REINDEX | ACT_ANALYZE | ACT_ALTER_TABLE
| ACT_OTHER (code : Z).

#[export] Instance sql_action_eq_dec : EqDecision sql_action.
Proof. solve_decision. Defined.

(** How stepping ends, with [sqlite3_errmsg] where it is read. *)
Inductive step_end := StepDone | StepRow (msg : string) | StepInterrupt | StepError (msg : string).

(** A row event of the update hook: the action, the table, the rowid. *)
Abbreviation row_event := (sql_action * string * Z)%type.

Inductive prepared (stmt : Type) :=
| PrepareFailed (auth : bool) (msg : string)
| Prepared (s : option stmt) (tail : string).
Arguments PrepareFailed {_}.
Arguments Prepared {_}.

(** A private in-memory database, the operations on it the code calls: one
    CREATE TABLE, one INSERT with its bindings (and the rowid), preparing under
    an authorizer, running a statement for its rows or under the row hook, and
    reading a row by its rowid ([None]: the reader does not prepare, [Some
    None]: no such row). [sq_text] is [sqlite3_column_text], "" for a NULL. *)
Class Sqlite := {
  sq_db : Type;
  sq_stmt : Type;
  sq_open : option sq_db;
  sq_create : string -> sq_db -> bool * sq_db;
  sq_insert : string -> list sqlval -> sq_db -> option Z * sq_db;
  sq_prepare : (sql_action -> string -> bool) -> string -> sq_db -> prepared sq_stmt;
  sq_readonly : sq_stmt -> bool;
  sq_columns : sq_stmt -> list string;
  sq_query : sq_stmt -> sq_db -> list (list sqlval) * step_end;
  sq_step : option sq_stmt -> sq_db -> list row_event * step_end * sq_db;
  sq_read : string -> Z -> sq_db -> option (option (list sqlval));
  sq_text : sqlval -> string;
}.

(** ** Row events *)

Definition EQL_MAX_EVENTS : Z := 2 ^ 20.
Definition EQL_ID_CAP : nat := 512.

(** A table is its index in the statement's tables. *)
Record eql_dml_ev := Ev { ev_t : nat; ev_op : sql_action; ev_rowid : Z }.
Record eql_trapbuf := Trapbuf { b_ev : list eql_dml_ev; b_cap : Z; b_overflow : bool }.

Definition empty_buf : eql_trapbuf := Trapbuf [] 0 false.

Definition traps_push (b : eql_trapbuf) (t : nat) (op : sql_action) (rowid : Z) : eql_trapbuf :=
  if b_overflow b then b
  else
    let push cap := Trapbuf (b_ev b ++ [Ev t op rowid]) cap false in
    if Z.of_nat (length (b_ev b)) =? b_cap b then
      let grown := if b_cap b =? 0 then 256 else b_cap b * 2 in
      if EQL_MAX_EVENTS <? grown then Trapbuf (b_ev b) (b_cap b) true else push grown
    else push (b_cap b).

Definition trap_row_update (ts : list eql_table) (b : eql_trapbuf) (e : row_event) : eql_trapbuf :=
  match table_index (fun t => String.eqb (t_alias t) e.1.2) ts with
  | Some i => traps_push b i e.1.1 e.2
  | None => b
  end.

(** ** The row map *)

Record eql_rowrec := Rowrec { rr_t : nat; rr_rowid : Z; rr_id : string; rr_ks : string }.

Definition map_add_ks (m : list eql_rowrec) (t : nat) (rowid : Z) (id ks : string) : list eql_rowrec :=
  m ++ [Rowrec t rowid (cut EQL_ID_CAP id) (cut 128 ks)].

Definition same_row (t : nat) (rowid : Z) (r : eql_rowrec) : bool := (rr_t r =? t)%nat && (rr_rowid r =? rowid).

(** The last record of a row, removed. *)
Fixpoint map_take (m : list eql_rowrec) (t : nat) (rowid : Z) : option (string * string * list eql_rowrec) :=
  match m with
  | [] => None
  | r :: m =>
      match map_take m t rowid with
      | Some (id, ks, m) => Some (id, ks, r :: m)
      | None => if same_row t rowid r then Some (rr_id r, rr_ks r, m) else None
      end
  end.

(** ** The authorizer *)

Definition is_dml_act (a : sql_action) : bool :=
  bool_decide (a = ACT_INSERT) || bool_decide (a = ACT_UPDATE) || bool_decide (a = ACT_DELETE).

(** [true] is SQLITE_OK; [allow_op] is the one action class of the execution. *)
Definition deny_authorizer (ts : list eql_table) (allow_op : option sql_action) (a : sql_action) (a1 : string) : bool :=
  if is_dml_act a then
    match allow_op with
    | Some op => bool_decide (op = a) && existsb (fun t => String.eqb (t_alias t) a1) ts
    | None => false
    end
  else match a with ACT_OTHER _ => true | _ => false end.

(** ** Columns and values *)

Definition structured (v : json) : bool := is_object v || is_array v.

Definition with_cols (cols : list (string * bool)) (t : eql_table) : eql_table :=
  Table (t_db t) (t_part t) (t_ks t) (t_dotted t) (t_alias t) cols (t_pw t) (t_keyspaces t).
Definition with_keyspaces (kss : list string) (t : eql_table) : eql_table :=
  Table (t_db t) (t_part t) (t_ks t) (t_dotted t) (t_alias t) (t_cols t) (t_pw t) kss.

Fixpoint mark_structured (key : string) (cols : list (string * bool)) : list (string * bool) :=
  match cols with
  | [] => []
  | c :: cols => if String.eqb c.1 key then (c.1, true) :: cols else c :: mark_structured key cols
  end.

Definition union_member (cols : list (string * bool)) (m : string * json) : list (string * bool) :=
  if existsb (fun c => String.eqb c.1 m.1) cols
  then if structured m.2 then mark_structured m.1 cols else cols
  else if (length cols <? EQL_MAX_COLS)%nat then cols ++ [(cut 128 m.1, structured m.2)] else cols.

Definition members (j : json) : list (string * json) := match j with JObject ms => ms | _ => [] end.

Definition union_columns (t : eql_table) (doc : json) : eql_table :=
  with_cols (foldl union_member (t_cols t) (members doc)) t.

(** A number SQLite gets as an integer. *)
Definition LIMIT : spec_float := double_of_Z 9200000000000000000.
Definition integral (d : spec_float) : bool :=
  SFleb (SFopp LIMIT) d && SFleb d LIMIT && SFeqb d (double_of_Z (Z_of_double d)).

Definition bind_json `{JsonCodec} (v : option json) : sqlval :=
  match v with
  | None | Some JNull => SQLITE_NULL
  | Some (JBool b) => SQLITE_INTEGER (if b then 1 else 0)
  | Some (JNumber d) => if integral d then SQLITE_INTEGER (Z_of_double d) else SQLITE_FLOAT d
  | Some (JString s) => SQLITE_TEXT s
  | Some v => SQLITE_TEXT (json_print v)
  end.

(** A value of a result row. *)
Definition cell_json (v : sqlval) : json :=
  match v with
  | SQLITE_INTEGER z => JNumber (double_of_Z z)
  | SQLITE_FLOAT d => JNumber d
  | SQLITE_TEXT s => JString s
  | SQLITE_BLOB b => JString (hex_of_bytes b)
  | SQLITE_NULL => JNull
  end.

(** A value of a row written back: text of a column that carried objects or
    arrays is parsed. *)
Definition cell_doc `{JsonCodec} (structured : bool) (v : sqlval) : json :=
  match v with
  | SQLITE_TEXT s =>
      match (if structured then json_parse s else None) with Some j => j | None => JString s end
  | v => cell_json v
  end.

(** The document of a row; the first column is the record key. *)
Definition row_to_doc `{JsonCodec} (t : eql_table) (row : list sqlval) : json :=
  JObject (zip_with (fun c v => (c.1, cell_doc c.2 v)) (tail (t_cols t)) (tail row)).

(** ** Statement texts *)

Definition dq (s : string) : string := String DQUOTE (s +:+ String DQUOTE EmptyString).

(** The pieces written one after another into a buffer of [cap] bytes, as long
    as each leaves room for the final zero. *)
Fixpoint append_within (cap : nat) (s : string) (pieces : list string) : option string :=
  match pieces with
  | [] => Some s
  | p :: ps => if (cap - String.length s <=? String.length p)%nat then None else append_within cap (s +:+ p) ps
  end.

Definition close_paren (cap : nat) (s : string) : string := cut cap (s +:+ ")").

Definition create_sql (t : eql_table) : option string :=
  match t_cols t with
  | [] => None
  | _ :: cols =>
      close_paren 4096 <$>
        append_within 4096 ("CREATE TABLE " +:+ dq (t_alias t) +:+ " (" +:+ dq "id" +:+ " TEXT PRIMARY KEY")
          (map (fun c => ", " +:+ dq c.1) cols)
  end.

Definition insert_sql (create : string) (t : eql_table) : option string :=
  let cap := (String.length create + 16)%nat in
  close_paren cap <$>
    append_within cap ("INSERT OR REPLACE INTO " +:+ dq (t_alias t) +:+ " VALUES (?")
      (map (fun _ => ",?") (tail (t_cols t))).

Fixpoint comma_join (ss : list string) : string :=
  match ss with
  | [] => ""
  | [s] => s
  | s :: ss => s +:+ "," +:+ comma_join ss
  end.

Definition reader_sql (t : eql_table) : string :=
  "SELECT " +:+ comma_join (map (fun c => dq c.1) (t_cols t)) +:+ " FROM " +:+ dq (t_alias t) +:+ " WHERE rowid=?".

(** ** Responses *)

Definition error_response `{JsonCodec} (message : string) : string :=
  json_print (JObject [("status", JString "error"); ("message", JString message)]).

Definition result_columns (names : list string) (rows : list (list sqlval)) : json :=
  JObject [("columns", JArray (map JString names)); ("rows", JArray (map (fun r => JArray (map cell_json r)) rows));
           ("status", JString "ok")].

(** ** The executor *)

Inductive edb_permission := EDB_PERM_CREATE | EDB_PERM_READ | EDB_PERM_UPDATE | EDB_PERM_DELETE.

Definition needed (k : eql_kind) : edb_permission :=
  match k with
  | EQL_KIND_DELETE => EDB_PERM_DELETE
  | EQL_KIND_UPDATE => EDB_PERM_UPDATE
  | EQL_KIND_INSERT => EDB_PERM_CREATE
  | _ => EDB_PERM_READ
  end.

Definition mask_of (perm : edb_permission) (p : edb_partition_info) : Z :=
  match perm with
  | EDB_PERM_CREATE => p_create_mask p
  | EDB_PERM_UPDATE => p_update_mask p
  | EDB_PERM_DELETE => p_delete_mask p
  | EDB_PERM_READ => p_read_mask p
  end.

Definition dml_op (k : eql_kind) : option sql_action :=
  match k with
  | EQL_KIND_DELETE => Some ACT_DELETE
  | EQL_KIND_UPDATE => Some ACT_UPDATE
  | EQL_KIND_INSERT => Some ACT_INSERT
  | _ => None
  end.

Definition op_name (k : eql_kind) : string :=
  match k with EQL_KIND_DELETE => "delete" | EQL_KIND_UPDATE => "update" | _ => "insert" end.

(** The engine's local writes (src/engine/manager.c). *)
Class LocalWrites (S : Type) := {
  eng_put : forall (partition keyspace id text : string) (ttl : Z), st S bool;
  eng_delete : forall (partition keyspace id : string), st S bool;
}.

(** The replication service, when one is attached. *)
Record repl_service (S : Type) := ReplService {
  svc_query_meta : forall (db partition keyspace : string) (filters : option json), st S (option json);
  svc_write : forall (db text : string), st S edb_repl_status;
}.
Arguments svc_query_meta {_}.
Arguments svc_write {_}.

Section executor.
Context {S : Type} `{RecordStore S} `{JsonCodec} `{DataEngine S} `{LocalWrites S} `{Sqlite}.
Context (cfg : edb_config S) (repl : option (repl_service S)) (now : Z).
Context (fire : edb_lua_event -> string -> string -> string -> string -> option json -> st S unit).

(** *** Permissions *)

Definition perm_denied (t : eql_table) (groups : Z) (trusted : bool) (perm : edb_permission) : st S bool :=
  if trusted then mret false
  else
    part ← edb_partition_get (t_db t) (t_part t);
    mret (match part with
          | None => false
          | Some p => negb (edb_check_perm (mask_of perm p) groups)
          end).

Fixpoint any_denied (ts : list eql_table) (groups : Z) (trusted : bool) (perm : edb_permission) : st S bool :=
  match ts with
  | [] => mret false
  | t :: ts =>
      denied ← perm_denied t groups trusted perm;
      if denied : bool then mret true else any_denied ts groups trusted perm
  end.

(** *** Fetching *)

(** A live document with its key and its keyspace. *)
Record fetched := Fetched { f_id : string; f_ks : string; f_doc : json }.

Definition fetched_row (ks : string) (row : json) : option fetched :=
  match get_item row "value" with
  | Some (JObject ms) => Some (Fetched (default EmptyString (get_string row "id")) ks (JObject ms))
  | _ => None
  end.

Definition fetch_shard_docs (db part ks : string) : st S (list fetched) :=
  meta ← match repl with
         | Some r => svc_query_meta r db part ks None
         | None => query_ts part ks None
         end;
  mret (omap (fetched_row ks) (array_items meta)).

Fixpoint fetch_keyspaces (db part : string) (kss : list string) : st S (list fetched) :=
  match kss with
  | [] => mret []
  | ks :: kss => docs ← fetch_shard_docs db part ks; rest ← fetch_keyspaces db part kss; mret (docs ++ rest)
  end.

Definition fetch_docs (t : eql_table) : st S (list fetched * eql_table) :=
  if negb (t_pw t) then
    docs ← fetch_shard_docs (t_db t) (t_part t) (t_ks t); mret (docs, t)
  else
    l ← edb_keyspace_list;
    let kss := take 64 (map (fun k => cut 128 (k_name k))
                 (List.filter (fun k => String.eqb (k_database k) (t_db t) && String.eqb (k_partition k) (t_part t)) l)) in
    docs ← fetch_keyspaces (t_db t) (t_part t) kss;
    mret (docs, with_keyspaces kss t).

(** *** Materialization *)

Definition bindings (t : eql_table) (f : fetched) : list sqlval :=
  SQLITE_TEXT (f_id f) :: map (fun c => bind_json (get_item (f_doc f) c.1)) (tail (t_cols t)).

(** The rows inserted and recorded; [None] when an insert fails. *)
Fixpoint insert_docs (sql : string) (i : nat) (t : eql_table) (docs : list fetched) (db : sq_db) (m : list eql_rowrec)
    : option (sq_db * list eql_rowrec) :=
  match docs with
  | [] => Some (db, m)
  | f :: docs =>
      match sq_insert sql (bindings t f) db with
      | (None, _) => None
      | (Some rowid, db) => insert_docs sql i t docs db (map_add_ks m i rowid (f_id f) (f_ks f))
      end
  end.

(** [None] is the status 500. *)
Definition materialize (i : nat) (t : eql_table) (docs : list fetched) (db : sq_db) (m : list eql_rowrec)
    : option (sq_db * list eql_rowrec) :=
  match create_sql t with
  | None => None
  | Some create =>
      match sq_create create db with
      | (false, _) => None
      | (true, db) =>
          match insert_sql create t with
          | None => None
          | Some sql => insert_docs sql i t docs db m
          end
      end
  end.

(** Every table of the statement, from the [i]-th on: the tables with their
    columns, the database and the row map. *)
Fixpoint materialize_all (i : nat) (ts : list eql_table) (db : sq_db) (m : list eql_rowrec)
    : st S (option (list eql_table * sq_db * list eql_rowrec)) :=
  match ts with
  | [] => mret (Some ([], db, m))
  | t :: ts =>
      r ← fetch_docs t;
      let t := foldl union_columns r.2 (map f_doc r.1) in
      match materialize i t r.1 db m with
      | None => mret None
      | Some (db, m) =>
          rest ← materialize_all (Datatypes.S i) ts db m;
          mret (match rest with
                | Some (ts, db, m) => Some (t :: ts, db, m)
                | None => None
                end)
      end
  end.

(** *** Write-back *)

(** The text of a put, written by hand into its buffer: the names and the
    record key are not escaped. *)
Definition put_text (t : eql_table) (ks id vtxt : string) : string :=
  snprintf (String.length vtxt + EQL_ID_CAP + String.length (t_db t) + String.length (t_part t) + String.length ks + 128)
    ("{" +:+ dq "op" +:+ ":" +:+ dq "put" +:+ "," +:+ dq "db" +:+ ":" +:+ dq (t_db t) +:+ "," +:+
     dq "partition" +:+ ":" +:+ dq (t_part t) +:+ "," +:+ dq "keyspace" +:+ ":" +:+ dq ks +:+ "," +:+
     dq "id" +:+ ":" +:+ dq id +:+ "," +:+ dq "value" +:+ ":" +:+ vtxt +:+ "," +:+
     dq "ttl_abs" +:+ ":-1," +:+ dq "ts" +:+ ":" +:+ print_i64 now +:+ "}").

Definition change_text (t : eql_table) (ks id : string) (value : option json) : string :=
  match value with
  | Some v => put_text t ks id (json_print v)
  | None =>
      json_print (JObject [("op", JString "delete"); ("db", JString (t_db t)); ("partition", JString (t_part t));
                           ("keyspace", JString ks); ("id", JString id); ("ts", jnum now)])
  end.

Definition EQL_WRITE_ATTEMPTS : nat := 3.

(** One attempt: the HTTP-style code. *)
Definition write_once (t : eql_table) (ks id text : string) (value : option json) : st S Z :=
  match repl with
  | Some r =>
      s ← svc_write r (t_db t) text;
      mret (match s with EDB_REPL_OK => 200 | EDB_REPL_QUORUM_LOST => 503 | EDB_REPL_LOCAL_FAIL => 500 end)
  | None =>
      ok ← match value with
           | Some v => eng_put (t_part t) ks id (json_print v) (-1)
           | None => eng_delete (t_part t) ks id
           end;
      mret (if ok : bool then 200 else 500)
  end.

(** Up to [n] attempts, until one succeeds; [code] so far. *)
Fixpoint write_attempts (n : nat) (t : eql_table) (ks id text : string) (value : option json) (code : Z) : st S Z :=
  match n with
  | O => mret code
  | Datatypes.S n =>
      code ← write_once t ks id text value;
      if code =? 200 then mret code else write_attempts n t ks id text value code
  end.

Definition after_event (value existing : option json) : edb_lua_event :=
  match value, existing with
  | Some _, Some _ => EDB_LUA_AFTER_UPDATE
  | Some _, None => EDB_LUA_AFTER_INSERT
  | None, _ => EDB_LUA_AFTER_DELETE
  end.

Definition replicate_record (t : eql_table) (ks id : string) (value : option json) : st S Z :=
  let text := change_text t ks id value in
  existing ← get_doc (t_part t) ks id;
  code ← write_attempts EQL_WRITE_ATTEMPTS t ks id text value 0;
  _ ← match value with
      | Some _ => if code =? 200 then edb_partition_ensure cfg (t_db t) (t_part t) ks else mret (false, false)
      | None => mret (false, false)
      end;
  _ ← (if (code =? 200) && negb (String.eqb (t_db t) EDB_SYSTEM_DB) &&
          match repl with None => true | Some _ => false end
       then fire (after_event value existing) (t_db t) (t_part t) ks id
              match value with Some _ => None | None => existing end
       else mret tt);
  mret code.

(** The keys applied and the keys that failed, in order. *)
Record outcome := Outcome { o_applied : list string; o_failed : list string }.

Definition report (o : outcome) (ok : bool) (id : string) : outcome :=
  if ok then Outcome (o_applied o ++ [id]) (o_failed o) else Outcome (o_applied o) (o_failed o ++ [id]).

(** What is in the buffer [old_ks] of a row the map does not know: it is
    copied into the map without having been set. *)
Context (junk : string).

Definition process_delete (t : eql_table) (ev : eql_dml_ev) (m : list eql_rowrec) (o : outcome)
    : st S (list eql_rowrec * outcome) :=
  match map_take m (ev_t ev) (ev_rowid ev) with
  | None => mret (m, report o false "-")
  | Some (id, ks, m) =>
      code ← replicate_record t ks id None;
      mret (m, report o (code =? 200) id)
  end.

(** The row as it is now: an update of the record key deletes the old one. *)
Definition process_row (t : eql_table) (ev : eql_dml_ev) (row : list sqlval) (m : list eql_rowrec) (o : outcome)
    : st S (list eql_rowrec * outcome) :=
  let cur_id := cut EQL_ID_CAP (sq_text (nth 0 row SQLITE_NULL)) in
  let old := map_take m (ev_t ev) (ev_rowid ev) in
  let m := map_add_ks (match old with Some (_, _, m) => m | None => m end) (ev_t ev) (ev_rowid ev) cur_id
             (match old with Some (_, ks, _) => ks | None => junk end) in
  o ← match old with
      | Some (old_id, old_ks, _) =>
          if String.eqb old_id cur_id then mret o
          else
            code ← replicate_record t old_ks old_id None;
            mret (report o (code =? 200) old_id)
      | None => mret o
      end;
  code ← replicate_record t (match old with Some (_, ks, _) => ks | None => if t_pw t then EmptyString else t_ks t end)
           cur_id (Some (row_to_doc t row));
  mret (m, report o (code =? 200) cur_id).

Definition process_write (db : sq_db) (t : eql_table) (ev : eql_dml_ev) (m : list eql_rowrec) (o : outcome)
    : st S (list eql_rowrec * outcome) :=
  match sq_read (reader_sql t) (ev_rowid ev) db with
  | None => mret (m, report o false "-")
  | Some None =>
      mret (match map_take m (ev_t ev) (ev_rowid ev) with
            | Some (id, _, m) => (m, report o true id)
            | None => (m, report o false "-")
            end)
  | Some (Some row) => process_row t ev row m o
  end.

Fixpoint process_events (ts : list eql_table) (db : sq_db) (evs : list eql_dml_ev) (m : list eql_rowrec) (o : outcome)
    : st S outcome :=
  match evs with
  | [] => mret o
  | ev :: evs =>
      match ts !! ev_t ev with
      | None => process_events ts db evs m o
      | Some t =>
          r ← (if bool_decide (ev_op ev = ACT_DELETE) then process_delete t ev m o else process_write db t ev m o);
          process_events ts db evs r.1 r.2
      end
  end.

(** *** The statement *)

Fixpoint skip_tail (s : string) : string :=
  match s with
  | String c r =>
      if bool_decide (c = ";"%char) || bool_decide (c = " "%char) || bool_decide (Ascii.N_of_ascii c ∈ [9; 10; 13]%N)
      then skip_tail r else s
  | EmptyString => EmptyString
  end.

Abbreviation answer := (Z * option string)%type.

Definition only_select : answer := (400, Some (error_response "only SELECT statements are supported")).
Definition too_slow : string := "statement exceeded the execution time limit".

Definition run_select (stmt : option sq_stmt) (db : sq_db) : answer :=
  match stmt with
  | None => only_select
  | Some s =>
      if negb (sq_readonly s) then only_select
      else
        match sq_query s db with
        | (rows, StepDone) => (200, Some (json_print (result_columns (sq_columns s) rows)))
        | (_, StepInterrupt) => (400, Some (error_response too_slow))
        | (_, (StepError msg | StepRow msg)) => (400, Some (error_response msg))
        end
  end.

Definition dml_answer (kind : eql_kind) (o : outcome) : answer :=
  let napplied := length (o_applied o) in
  let total := (napplied + length (o_failed o))%nat in
  let counts := [("count", jnum (Z.of_nat total)); ("applied", JArray (map JString (o_applied o)));
                 ("failed", JArray (map JString (o_failed o)))] in
  if (0 <? napplied)%nat || (total =? 0)%nat
  then (200, Some (json_print (JObject ([("status", JString "ok"); ("op", JString (op_name kind))] ++ counts))))
  else (503, Some (json_print (JObject ([("status", JString "error");
          ("message", JString "no records were replicated for this statement")] ++ counts)))).

Definition run_dml (kind : eql_kind) (ts : list eql_table) (stmt : option sq_stmt) (db : sq_db) (m : list eql_rowrec)
    : st S answer :=
  let '(events, e, db) := sq_step stmt db in
  let buf := foldl (trap_row_update ts) empty_buf events in
  match e with
  | StepInterrupt => mret (400, Some (error_response too_slow))
  | _ =>
      if b_overflow buf then mret (400, Some (error_response "too many changes for one statement"))
      else
        match e with
        | StepError msg | StepRow msg => mret (400, Some (error_response msg))
        | _ => o ← process_events ts db (b_ev buf) m (Outcome [] []); mret (dml_answer kind o)
        end
  end.

Definition is_dml (k : eql_kind) : bool := match dml_op k with Some _ => true | None => false end.

Definition run_statement (kind : eql_kind) (rewritten : string) (ts : list eql_table) (db : sq_db) (m : list eql_rowrec)
    : st S answer :=
  match sq_prepare (deny_authorizer ts (dml_op kind)) rewritten db with
  | PrepareFailed auth msg =>
      mret (if negb (is_dml kind) && auth then only_select else (400, Some (error_response msg)))
  | Prepared stmt tail =>
      if negb (String.eqb (skip_tail tail) "") then mret (400, Some (error_response "one statement per request"))
      else if is_dml kind then run_dml kind ts stmt db m
      else mret (run_select stmt db)
  end.

(** The columns a statement introduces. *)
Definition scan_columns (kind : eql_kind) (sql : string) (ts : list eql_table) : list eql_table :=
  match kind with
  | EQL_KIND_INSERT => scan_insert_columns sql ts
  | EQL_KIND_UPDATE => scan_update_columns sql ts
  | _ => ts
  end.

Definition NO_REFERENCE : string := "no Database.Partition.Keyspace reference found in FROM/JOIN".
Definition EXPLICIT_KEYSPACE : string := "INSERT requires an explicit Database.Partition.Keyspace reference".

Definition edb_eql_execute (sql : string) (groups : Z) (trusted : bool) : st S answer :=
  if String.eqb sql "" then mret (400, None)
  else
    let kind := classify_statement sql in
    match collect_refs sql with
    | [] => mret (400, Some (error_response NO_REFERENCE))
    | ts =>
        if bool_decide (kind = EQL_KIND_INSERT) && existsb t_pw ts
        then mret (400, Some (error_response EXPLICIT_KEYSPACE))
        else
          denied ← any_denied ts groups trusted (needed kind);
          if denied : bool then mret (403, Some (error_response "permission denied"))
          else
            let ts := scan_columns kind sql (map (with_cols [("id"%string, false)]) ts) in
            let rewritten := rewrite_sql sql ts in
            match sq_open with
            | None => mret (500, None)
            | Some db =>
                r ← materialize_all 0 ts db [];
                match r with
                | None => mret (500, None)
                | Some (ts, db, m) => run_statement kind rewritten ts db m
                end
            end
    end.

End executor.

End EqlExec.
