(* ===== verification/EqlFacts.v ===== *)
(** Theorems about the EQL executor (EqlExec.v): what a statement may touch,
    how permissions are decided, the row events, the authorizer, and what the
    write-back of a row stores. *)

From S2P Require Import Prelude Json Shard Manager Store Config ConfigFacts Cluster Repl ReplRead ReplHandlers.
From S2P Require Import MapStore EqlScan EqlScanFacts EqlExec.
From Stdlib Require Import SpecFloat.

Module EqlFacts.

Import Json Store Config ConfigFacts Cluster Repl ReplRead ReplHandlers EqlScan EqlScanFacts EqlExec.

(** ** Tables along the stages *)

(** The shard a table stands for, which no stage changes. *)
Definition source (t : eql_table) : string * string * string * bool * string := (t_db t, t_part t, t_ks t, t_pw t, t_alias t).

Lemma sources_alter f i ts : (forall t, source (f t) = source t) -> map source (alter f i ts) = map source ts.
Proof.
  intros Hf. revert i. induction ts as [|t ts IH]; intros i; [done|]. destruct i as [|i]; cbn.
  - by rewrite Hf.
  - f_equal. apply IH.
Qed.

Lemma source_add_column col t : source (table_add_column col t) = source t.
Proof. unfold table_add_column. destruct (existsb _ _); [done|]. by destruct (_ <? _)%nat. Qed.

Lemma sources_column_list n i ts s : map source (column_list n i ts s).1 = map source ts.
Proof.
  revert ts s. induction n as [|n IH]; intros ts s; cbn [column_list]; [done|].
  destruct (read_ident 128 _) as [[col r]|]; [|done]. cbv zeta. destruct (expect _ _) as [r'|].
  - rewrite IH. apply sources_alter, source_add_column.
  - apply sources_alter, source_add_column.
Qed.

Lemma sources_set_clause n i depth ts s : map source (set_clause n i depth ts s).1 = map source ts.
Proof.
  revert depth ts s. induction n as [|n IH]; intros depth ts s; cbn [set_clause]; [done|].
  destruct (skip_spaces_comments s) as [|c r]; [done|]. destruct (is_literal c); [apply IH|].
  do 3 (match goal with |- context [if ?b then _ else _] => destruct b end; [apply IH|]).
  destruct (read_ident 128 (String c r)) as [[col r']|]; [|apply IH]. destruct (_ && _); [done|].
  destruct (expect _ _) as [r2|]; [|apply IH]. destruct (depth =? 0)%nat; [|apply IH].
  rewrite IH. apply sources_alter, source_add_column.
Qed.

Lemma sources_scan_columns kind sql ts : map source (scan_columns kind sql ts) = map source ts.
Proof.
  destruct kind; [done|done| | |done]; cbn [scan_columns].
  - apply (scan_words_inv (fun ts' => map source ts' = map source ts)); [|done]. intros w ts' r E. rewrite <-E.
    unfold update_word. destruct (String.eqb _ _); [|done]. destruct (parse_ref2 r) as [[p|] r']; [|done].
    destruct (table_index _ ts') as [i|]; [|done]. destruct (find_set _ _) as [[] r2]; [|done].
    apply sources_set_clause.
  - apply (scan_words_inv (fun ts' => map source ts' = map source ts)); [|done]. intros w ts' r E. rewrite <-E.
    unfold insert_word. destruct (String.eqb _ _); [|done]. destruct (parse_ref2 r) as [[p|] r']; [|done].
    destruct (table_index _ ts') as [i|]; [|done]. cbv zeta. destruct (expect _ _) as [r2|]; [|done].
    apply sources_column_list.
Qed.

Lemma sources_with_cols cols ts : map source (map (with_cols cols) ts) = map source ts.
Proof. rewrite map_map. by apply map_ext. Qed.

Lemma source_unions t docs : source (foldl union_columns t docs) = source t.
Proof. revert t. induction docs as [|d docs IH]; intros t; [done|]. cbn [foldl]. by rewrite IH. Qed.

(** ** What a statement touches *)

Section touches.
Context {S : Type} `{RecordStore S} `{JsonCodec} `{DataEngine S} `{LocalWrites S} `{Sqlite}.
Context (cfg : edb_config S) (repl : option (repl_service S)) (now : Z).
Context (fire : edb_lua_event -> string -> string -> string -> string -> option json -> st S unit) (junk : string).

(** The codes of a statement that was let through. *)
Lemma dml_codes kind ts stmt db m s :
  (run_dml cfg repl now fire junk kind ts stmt db m s).1.1 ∈ [200; 400; 503].
Proof.
  unfold run_dml. destruct (sq_step stmt db) as [[events e] db']. cbv zeta. destruct e; cbn [mret st_ret fst snd];
    try (set_solver); destruct (b_overflow _); cbn [mret st_ret fst snd]; try set_solver.
  rewrite st_bind_run. cbn [mret st_ret fst snd]. unfold dml_answer. cbv zeta. destruct (_ || _); set_solver.
Qed.

Lemma select_codes stmt db : (run_select stmt db).1 ∈ [200; 400].
Proof.
  unfold run_select. destruct stmt as [st|]; [|set_solver]. destruct (negb _); [set_solver|].
  destruct (sq_query st db) as [rows []]; set_solver.
Qed.

Lemma statement_codes kind sql ts db m s :
  (run_statement cfg repl now fire junk kind sql ts db m s).1.1 ∈ [200; 400; 503].
Proof.
  unfold run_statement. destruct (sq_prepare _ sql db) as [auth msg|stmt tl]; cbn [mret st_ret fst].
  - destruct (_ && _); set_solver.
  - destruct (negb _); [set_solver|]. destruct (is_dml kind); [apply dml_codes|]. cbn [mret st_ret fst].
    pose proof (select_codes stmt db). set_solver.
Qed.

(** A statement as its stages: refused early, denied, or run on its tables. *)
Definition statement_tables (sql : string) : list eql_table :=
  scan_columns (classify_statement sql) sql (map (with_cols [("id"%string, false)]) (collect_refs sql)).

Definition run_tables (sql : string) : st S (Z * option string) :=
  match sq_open with
  | None => mret (500, None)
  | Some db =>
      r ← materialize_all repl 0 (statement_tables sql) db [];
      match r with
      | None => mret (500, None)
      | Some (ts, db, m) =>
          run_statement cfg repl now fire junk (classify_statement sql) (rewrite_sql sql (statement_tables sql)) ts db m
      end
  end.

Lemma execute_cases sql groups trusted :
  (exists a, edb_eql_execute cfg repl now fire junk sql groups trusted = mret a /\ a.1 = 400) \/
  edb_eql_execute cfg repl now fire junk sql groups trusted =
    (denied ← any_denied (collect_refs sql) groups trusted (needed (classify_statement sql));
     if denied : bool then mret (403, Some (error_response "permission denied")) else run_tables sql).
Proof.
  unfold edb_eql_execute, run_tables, statement_tables. destruct (String.eqb sql ""); [left; by eexists|].
  destruct (collect_refs sql) as [|t ts]; [left; by eexists|]. cbv zeta.
  destruct (_ && _); [left; by eexists|]. by right.
Qed.

Lemma run_tables_code sql s : (run_tables sql s).1.1 <> 403.
Proof.
  unfold run_tables. destruct sq_open as [db|]; [|done]. rewrite st_bind_run.
  destruct (materialize_all _ _ _ _ _ _) as [[[[ts db'] m]|] s']; [|done]. cbn [fst snd].
  pose proof (statement_codes (classify_statement sql) (rewrite_sql sql (statement_tables sql)) ts db' m s') as Hc.
  intros E. rewrite E in Hc. apply list_elem_of_In in Hc. cbn in Hc. lia.
Qed.

Context (R : S -> S -> Prop) `{!PreOrder R}.

(** Reads move within [R]. *)
Record reads_within : Prop := {
  in_get ks id : within R (rs_get ks id);
  in_all ks : within R (rs_all ks);
  in_doc p ks id : within R (get_doc p ks id);
  in_query p ks f : within R (query_ts p ks f);
  in_meta r db p ks f : repl = Some r -> within R (svc_query_meta r db p ks f);
}.

Hypothesis reads : reads_within.

Lemma partition_get_within db p : within R (edb_partition_get db p).
Proof. unfold edb_partition_get, fetch. follow. apply (in_get reads). Qed.

Lemma any_denied_within ts groups trusted perm : within R (any_denied ts groups trusted perm).
Proof.
  induction ts as [|t ts IH]; cbn [any_denied]; [follow|]. apply within_bind; [exact _| |intros []; [follow|exact IH]].
  unfold perm_denied. destruct trusted; [follow|]. apply within_bind; [exact _|apply partition_get_within|follow].
Qed.

Lemma fetch_shard_within db p ks : within R (fetch_shard_docs repl db p ks).
Proof.
  unfold fetch_shard_docs. destruct repl as [r|] eqn:E; follow; [by apply (in_meta reads)|apply (in_query reads)].
Qed.

Lemma fetch_keyspaces_within db p kss : within R (fetch_keyspaces repl db p kss).
Proof.
  induction kss as [|ks kss IH]; cbn [fetch_keyspaces]; [follow|].
  apply within_bind; [exact _|apply fetch_shard_within|intros docs]. apply within_bind; [exact _|exact IH|follow].
Qed.

Lemma fetch_docs_within t : within R (fetch_docs repl t).
Proof.
  unfold fetch_docs. destruct (negb _).
  - apply within_bind; [exact _|apply fetch_shard_within|follow].
  - apply within_bind; [exact _|unfold edb_keyspace_list, collect; follow; apply (in_all reads)|intros l].
    apply within_bind; [exact _|apply fetch_keyspaces_within|follow].
Qed.

Lemma materialize_all_within i ts db m : within R (materialize_all repl i ts db m).
Proof.
  revert i db m. induction ts as [|t ts IH]; intros i db m; cbn [materialize_all]; [follow|].
  apply within_bind; [exact _|apply fetch_docs_within|intros r]. cbv zeta.
  destruct (materialize _ _ _ _ _) as [[db' m']|]; [|follow]. apply within_bind; [exact _|apply IH|follow].
Qed.

Lemma run_tables_reads sql : is_dml (classify_statement sql) = false -> within R (run_tables sql).
Proof.
  intros Hk. unfold run_tables, run_statement. destruct sq_open as [db|]; [|follow]. apply within_bind; [exact _| |].
  - apply materialize_all_within.
  - intros [[[ts db'] m]|]; [|follow]. rewrite Hk. follow.
Qed.

(** A statement that changes no rows (SELECT, VALUES, EXPLAIN or
    anything that is not INSERT, REPLACE, UPDATE or DELETE) leaves the store
    where reading leaves it, whatever SQLite makes of its text, and so does a
    statement the permissions deny, which is answered with 403. *)
Theorem select_or_denied_writes_nothing sql groups trusted s :
  is_dml (classify_statement sql) = false \/
  (edb_eql_execute cfg repl now fire junk sql groups trusted s).1.1 = 403 ->
  R s (edb_eql_execute cfg repl now fire junk sql groups trusted s).2.
Proof.
  destruct (execute_cases sql groups trusted) as [(a & E & _)|E]; rewrite E; [intros _; cbn; reflexivity|].
  rewrite st_bind_run. pose proof (any_denied_within (collect_refs sql) groups trusted (needed (classify_statement sql)) s) as Hr.
  destruct (any_denied _ _ _ _ s) as [[] s']; cbn [fst snd] in *; [done|].
  intros [Hk|Hc]; [|by apply run_tables_code in Hc]. etransitivity; [exact Hr|]. by apply run_tables_reads.
Qed.

(** *** Writes *)

(** The keyspaces of a table's partition a row of it may be written to: any
    for a partition-wide table, the table's own otherwise - and, for a row the
    map learned of without its keyspace, what was in the buffer. *)
Definition allowed (t : eql_table) (ks : string) : Prop :=
  t_pw t = true \/ ks = t_ks t \/ ks = cut 128 junk.

Lemma allowed_source t t' ks : source t = source t' -> allowed t ks -> allowed t' ks.
Proof. unfold source, allowed. intros E. injection E as _ _ E3 E4 _. by rewrite E3, E4. Qed.

Definition map_ok (ts : list eql_table) (m : list eql_rowrec) : Prop :=
  Forall (fun r => forall t, ts !! rr_t r = Some t -> allowed t (rr_ks r)) m.

Lemma map_ok_sources ts ts' m : map source ts = map source ts' -> map_ok ts m -> map_ok ts' m.
Proof.
  intros E Hm. eapply Forall_impl; [exact Hm|]. intros r Hr t Ht. cbn beta in Hr.
  assert (Hs : map source ts !! rr_t r = Some (source t)) by (by rewrite E, list_lookup_fmap, Ht).
  rewrite list_lookup_fmap in Hs. destruct (ts !! rr_t r) as [u|]; [|discriminate Hs].
  cbn [fmap option_fmap option_map] in Hs. assert (Hs' : source u = source t) by congruence.
  eapply allowed_source; [exact Hs'|by apply Hr].
Qed.

Lemma map_take_spec m t rowid id ks m' : map_take m t rowid = Some (id, ks, m') ->
  exists r, r ∈ m /\ rr_t r = t /\ rr_ks r = ks /\ m' ⊆ m.
Proof.
  revert m'. induction m as [|r m IH]; intros m'; cbn [map_take]; [done|].
  destruct (map_take m t rowid) as [[[id' ks'] m2]|] eqn:E.
  - intros [= <- <- <-]. destruct (IH _ eq_refl) as (r' & G1 & G2 & G3 & G4). exists r'. set_solver.
  - destruct (same_row t rowid r) eqn:Er; [|done]. intros [= <- <- <-]. exists r.
    apply andb_prop in Er as [Er%Nat.eqb_eq _]. set_solver.
Qed.

Lemma map_ok_take ts m t rowid id ks m' : map_ok ts m -> map_take m t rowid = Some (id, ks, m') ->
  map_ok ts m' /\ forall u, ts !! t = Some u -> allowed u ks.
Proof.
  intros Hm (r & Hr & <- & <- & Hsub)%map_take_spec. split.
  - apply Forall_forall. intros x Hx. apply (proj1 (Forall_forall _ _) Hm). by apply Hsub.
  - by apply (proj1 (Forall_forall _ _) Hm).
Qed.

Lemma map_ok_add ts m t rowid id ks : map_ok ts m ->
  (forall u, ts !! t = Some u -> allowed u (cut 128 ks)) -> map_ok ts (map_add_ks m t rowid id ks).
Proof. intros Hm Hks. apply Forall_app. split; [done|]. constructor; [exact Hks|constructor]. Qed.

Lemma fetched_ks ks (rows : list json) (f : fetched) : f ∈ omap (fetched_row ks) rows -> f_ks f = ks.
Proof.
  intros (row & _ & Hf)%list_elem_of_omap. unfold fetched_row in Hf.
  destruct (get_item row "value") as [[]|]; try done. by injection Hf as <-.
Qed.

Lemma fetch_shard_ks db p ks s f : f ∈ (fetch_shard_docs repl db p ks s).1 -> f_ks f = ks.
Proof. unfold fetch_shard_docs. rewrite st_bind_run. cbn [mret st_ret fst]. apply fetched_ks. Qed.

Lemma fetch_docs_spec t s :
  source (fetch_docs repl t s).1.2 = source t /\
  forall f, f ∈ (fetch_docs repl t s).1.1 -> t_pw t = true \/ f_ks f = t_ks t.
Proof.
  unfold fetch_docs. destruct (t_pw t) eqn:E; cbn [negb].
  - rewrite st_bind_run. cbv zeta. rewrite st_bind_run. cbn [mret st_ret fst snd]. split; [done|]. by left.
  - rewrite st_bind_run. cbn [mret st_ret fst snd]. split; [done|]. intros f Hf%fetch_shard_ks. by right.
Qed.

Lemma insert_docs_map sql i t docs db m db' m' ts :
  insert_docs sql i t docs db m = Some (db', m') -> map_ok ts m ->
  (forall u f, ts !! i = Some u -> f ∈ docs -> allowed u (cut 128 (f_ks f))) -> map_ok ts m'.
Proof.
  revert db m. induction docs as [|f docs IH]; intros db m; cbn [insert_docs]; [by intros [= _ <-]|].
  destruct (sq_insert sql (bindings t f) db) as [[rowid|] db2]; [|done]. intros E Hm Hf.
  eapply IH; [exact E| |intros u f' Hu Hf'; apply Hf; [done|set_solver]].
  apply map_ok_add; [done|]. intros u Hu. apply Hf; [done|set_solver].
Qed.

Lemma materialize_map i t docs db m db' m' ts :
  materialize i t docs db m = Some (db', m') -> map_ok ts m ->
  (forall u f, ts !! i = Some u -> f ∈ docs -> allowed u (cut 128 (f_ks f))) -> map_ok ts m'.
Proof.
  unfold materialize. destruct (create_sql t) as [create|]; [|done]. destruct (sq_create create db) as [[] db2]; [|done].
  destruct (insert_sql create t) as [sql|]; [|done]. apply insert_docs_map.
Qed.

Definition names_short (ts : list eql_table) : Prop := Forall (fun t => (String.length (t_ks t) <= 127)%nat) ts.

(** The tables [done] are those before the [i]-th. *)
Lemma materialize_all_spec before ts db m s ts' db' m' :
  (materialize_all repl (length before) ts db m s).1 = Some (ts', db', m') ->
  names_short ts -> map_ok (before ++ ts) m ->
  map source ts' = map source ts /\ map_ok (before ++ ts) m'.
Proof.
  revert before db m s ts' db' m'. induction ts as [|t ts IH]; intros before db m s ts' db' m'; cbn [materialize_all].
  - by intros [= <- <- <-].
  - rewrite st_bind_run. cbv zeta. pose proof (fetch_docs_spec t s) as [Hsrc Hks].
    destruct (fetch_docs repl t s) as [[docs t1] s1]. cbn [fst snd] in *.
    destruct (materialize _ _ docs db m) as [[db2 m2]|] eqn:Em; [|done]. rewrite st_bind_run. cbn [mret st_ret fst].
    intros E Hshort Hm. apply Forall_cons in Hshort as [Ht Hshort].
    assert (Hm2 : map_ok (before ++ t :: ts) m2).
    { eapply materialize_map; [exact Em|exact Hm|]. intros u f Hu Hf. rewrite list_lookup_middle in Hu by done.
      injection Hu as <-. destruct (Hks f Hf) as [Hp|Hk]; [by left|]. right. left. rewrite Hk.
      unfold cut. by apply substring_short. }
    destruct (materialize_all repl (Datatypes.S (length before)) ts db2 m2 s1) as [[[[ts2 db3] m3]|] s2] eqn:E2; [|done].
    cbn [fst] in E. injection E as <- <- <-.
    replace (Datatypes.S (length before)) with (length (before ++ [t])) in E2 by (rewrite length_app; cbn; lia).
    destruct (IH (before ++ [t]) db2 m2 s1 ts2 db3 m3) as [IH1 IH2]; [by rewrite E2|done|by rewrite <-app_assoc|].
    rewrite <-app_assoc in IH2. split; [|done]. cbn [map]. rewrite IH1. f_equal. by rewrite source_unions.
Qed.

Section writes.
Context (P : string -> string -> string -> Prop).

(** Writes to the shards of [P] move within [R]. *)
Record writes_within : Prop := {
  in_put db p ks id text ttl : P db p ks -> within R (eng_put p ks id text ttl);
  in_delete db p ks id : P db p ks -> within R (eng_delete p ks id);
  in_write r t ks id v : repl = Some r -> P (t_db t) (t_part t) ks ->
    within R (svc_write r (t_db t) (change_text now t ks id v));
  in_ensure db p ks : P db p ks -> within R (edb_partition_ensure cfg db p ks);
  in_fire ev db p ks id v : P db p ks -> within R (fire ev db p ks id v);
}.

Hypothesis writes : writes_within.

Definition writable (t : eql_table) : Prop := forall ks, allowed t ks -> P (t_db t) (t_part t) ks.

Lemma writable_source t t' : source t = source t' -> writable t -> writable t'.
Proof.
  intros E Ht ks Hks. assert (Hk : allowed t ks) by (by eapply allowed_source).
  specialize (Ht ks Hk). unfold source in E. injection E as E1 E2 _ _ _. by rewrite E1, E2 in Ht.
Qed.

Lemma attempts_within n t ks id v code :
  P (t_db t) (t_part t) ks -> within R (write_attempts repl n t ks id (change_text now t ks id v) v code).
Proof.
  intros HP. revert code. induction n as [|n IH]; intros code; cbn [write_attempts]; [follow|].
  apply within_bind; [exact _| |intros c; destruct (c =? 200); [follow|apply IH]].
  unfold write_once. destruct repl as [r|] eqn:E.
  - apply within_bind; [exact _|by apply (in_write writes)|follow].
  - destruct v; (apply within_bind; [exact _| |follow]); [by eapply (in_put writes)|by eapply (in_delete writes)].
Qed.

Lemma replicate_within t ks id v :
  P (t_db t) (t_part t) ks -> within R (replicate_record cfg repl now fire t ks id v).
Proof.
  intros HP. unfold replicate_record. cbv zeta. apply within_bind; [exact _|apply (in_doc reads)|intros ex].
  apply within_bind; [exact _|by apply attempts_within|intros code].
  apply within_bind; [exact _| |intros _].
  - destruct v; [|follow]. destruct (code =? 200); [|follow]. by apply (in_ensure writes).
  - apply within_bind; [exact _| |follow]. destruct (_ && _); [|follow]. by apply (in_fire writes).
Qed.

(** A step of the write-back keeps the map and moves within [R]. *)
Definition step_ok (ts : list eql_table) (f : st S (list eql_rowrec * outcome)) : Prop :=
  within R f /\ forall s, map_ok ts (f s).1.1.

Lemma cut_cut n s : cut n (cut n s) = cut n s.
Proof. unfold cut at 1. apply substring_short, cut_length. Qed.

Lemma allowed_cut ts i t ks : names_short ts -> ts !! i = Some t -> allowed t ks -> allowed t (cut 128 ks).
Proof.
  intros Hn Ht Hks. pose proof (proj1 (Forall_lookup _ _) Hn i t Ht) as Hl. cbn beta in Hl.
  destruct Hks as [Hp|[E|E]]; [by left|right; left|right; right]; rewrite E; [|apply cut_cut].
  unfold cut. by apply substring_short.
Qed.

Lemma row_ok ts t ev row m o :
  names_short ts -> ts !! ev_t ev = Some t -> writable t -> map_ok ts m ->
  step_ok ts (process_row cfg repl now fire junk t ev row m o).
Proof.
  intros Hn Ht Hw Hm. unfold process_row. cbv zeta. destruct (map_take m (ev_t ev) (ev_rowid ev)) as [[[id ks] m']|] eqn:E.
  - destruct (map_ok_take _ _ _ _ _ _ _ Hm E) as [Hm' Hks]. specialize (Hks t Ht). split.
    + apply within_bind; [exact _| |intros o']; [|apply within_bind; [exact _|by apply replicate_within, Hw|follow]].
      destruct (String.eqb _ _); [follow|]. apply within_bind; [exact _|by apply replicate_within, Hw|follow].
    + intros s. rewrite st_bind_run. rewrite st_bind_run. cbn [mret st_ret fst]. apply map_ok_add; [done|].
      intros u Hu. assert (u = t) as -> by congruence. by eapply allowed_cut.
  - split.
    + apply within_bind; [exact _|follow|intros o']. apply within_bind; [exact _| |follow]. apply replicate_within, Hw.
      destruct (t_pw t) eqn:Ep; [by left|by right; left].
    + intros s. rewrite st_bind_run. rewrite st_bind_run. cbn [mret st_ret fst]. apply map_ok_add; [done|].
      intros u Hu. by right; right.
Qed.

Lemma delete_ok ts t ev m o :
  ts !! ev_t ev = Some t -> writable t -> map_ok ts m ->
  step_ok ts (process_delete cfg repl now fire t ev m o).
Proof.
  intros Ht Hw Hm. unfold process_delete. destruct (map_take m (ev_t ev) (ev_rowid ev)) as [[[id ks] m']|] eqn:E.
  - destruct (map_ok_take _ _ _ _ _ _ _ Hm E) as [Hm' Hks]. split.
    + apply within_bind; [exact _|by apply replicate_within, Hw, Hks|follow].
    + intros s. by rewrite st_bind_run.
  - by split; [follow|].
Qed.

Lemma write_ok ts t db ev m o :
  names_short ts -> ts !! ev_t ev = Some t -> writable t -> map_ok ts m ->
  step_ok ts (process_write cfg repl now fire junk db t ev m o).
Proof.
  intros Hn Ht Hw Hm. unfold process_write. destruct (sq_read _ _ db) as [[row|]|]; [by apply row_ok| |by split; [follow|]].
  split; [follow|]. intros s. destruct (map_take m (ev_t ev) (ev_rowid ev)) as [[[id ks] m']|] eqn:E; [|done].
  by destruct (map_ok_take _ _ _ _ _ _ _ Hm E).
Qed.

Lemma process_events_within ts db evs m o :
  names_short ts -> Forall writable ts -> map_ok ts m ->
  within R (process_events cfg repl now fire junk ts db evs m o).
Proof.
  intros Hn Hw. revert m o. induction evs as [|ev evs IH]; intros m o Hm; cbn [process_events]; [follow|].
  destruct (ts !! ev_t ev) as [t|] eqn:Ht; [|by apply IH].
  assert (Hwt : writable t) by (by eapply (proj1 (Forall_lookup _ _) Hw)).
  assert (Hs : step_ok ts (if bool_decide (ev_op ev = ACT_DELETE) then process_delete cfg repl now fire t ev m o
                           else process_write cfg repl now fire junk db t ev m o)).
  { case_bool_decide; [by apply delete_ok|by apply write_ok]. }
  destruct Hs as [Hs1 Hs2]. intros s. rewrite st_bind_run. etransitivity; [apply Hs1|]. apply IH. apply Hs2.
Qed.

Lemma statement_within kind sql ts db m :
  names_short ts -> Forall writable ts -> map_ok ts m ->
  within R (run_statement cfg repl now fire junk kind sql ts db m).
Proof.
  intros Hn Hw Hm. unfold run_statement. destruct (sq_prepare _ sql db) as [auth msg|stmt tl]; [follow|].
  destruct (negb _); [follow|]. destruct (is_dml kind); [|follow]. unfold run_dml.
  destruct (sq_step stmt db) as [[events e] db']. cbv zeta. destruct e; try (follow; fail); destruct (b_overflow _); try (follow; fail).
  apply within_bind; [exact _|by apply process_events_within|follow].
Qed.

Lemma statement_tables_sources sql : map source (statement_tables sql) = map source (collect_refs sql).
Proof. unfold statement_tables. by rewrite sources_scan_columns, sources_with_cols. Qed.

Lemma sources_forall (Q : eql_table -> Prop) ts ts' :
  (forall t t', source t = source t' -> Q t -> Q t') -> map source ts = map source ts' -> Forall Q ts -> Forall Q ts'.
Proof.
  intros HQ E HF. revert ts' E. induction HF as [|t ts Ht HF IH]; intros [|t' ts'] E; try discriminate; [constructor|].
  injection E as E1 E2 E3 E4 E5 E'. constructor; [|by apply IH]. eapply HQ; [|exact Ht]. unfold source. congruence.
Qed.

Lemma short_source t t' : source t = source t' -> (String.length (t_ks t) <= 127)%nat -> (String.length (t_ks t') <= 127)%nat.
Proof. unfold source. intros E. injection E as _ _ E _ _. by rewrite E. Qed.

Lemma collected_short sql : names_short (collect_refs sql).
Proof. apply Forall_lookup. intros i t Ht. by apply (collected_bounds sql i t). Qed.

(** Whatever a statement says and whatever SQLite makes of it, it
    writes only to shards of the tables it names: documents of the keyspace of
    a reference, or of any keyspace of the partition of a partition-wide one,
    and the configuration records that register those. (A row the row map does
    not know is written to its table's keyspace, and an event that follows on
    the same row to the keyspace whose name is in a buffer nobody has set.) *)
Theorem writes_stay_in_statement_tables sql groups trusted s :
  (forall t ks, t ∈ collect_refs sql -> allowed t ks -> P (t_db t) (t_part t) ks) ->
  R s (edb_eql_execute cfg repl now fire junk sql groups trusted s).2.
Proof.
  intros HP. destruct (execute_cases sql groups trusted) as [(a & E & _)|E]; rewrite E; [cbn; reflexivity|].
  apply within_bind; [exact _|apply any_denied_within|intros [|]; [follow|]].
  unfold run_tables. destruct sq_open as [db|]; [|follow].
  assert (Hsrc : map source (collect_refs sql) = map source (statement_tables sql)) by (by rewrite statement_tables_sources).
  assert (Hn : names_short (statement_tables sql)) by (eapply sources_forall; [exact short_source|exact Hsrc|apply collected_short]).
  assert (Hw : Forall writable (statement_tables sql)).
  { eapply sources_forall; [exact writable_source|exact Hsrc|]. apply Forall_forall. intros t Ht ks. by apply HP. }
  clear s. intros s. rewrite st_bind_run. pose proof (materialize_all_within 0 (statement_tables sql) db [] s) as HR.
  pose proof (materialize_all_spec [] (statement_tables sql) db [] s) as Hspec. cbn [length app] in Hspec.
  destruct (materialize_all repl 0 (statement_tables sql) db [] s) as [[[[ts db'] m]|] s']; cbn [fst snd] in *; [|exact HR].
  etransitivity; [exact HR|].
  destruct (Hspec ts db' m eq_refl Hn ltac:(constructor)) as [Hs Hm].
  apply statement_within.
  - eapply sources_forall; [exact short_source|by symmetry|exact Hn].
  - eapply sources_forall; [exact writable_source|by symmetry|exact Hw].
  - by eapply map_ok_sources.
Qed.

End writes.

End touches.

(** ** Permissions *)

Section permissions.
Context {S : Type} {RS : RecordStore S} {JC : JsonCodec} {RL : RecordStoreLaws S}.
Context {DE : DataEngine S} {LW : LocalWrites S} {SQ : Sqlite}.
Context (cfg : edb_config S) (repl : option (repl_service S)) (now : Z).
Context (fire : edb_lua_event -> string -> string -> string -> string -> option json -> st S unit) (junk : string).
Hypothesis covers : forall ks, ks ∈ system_keyspaces -> ks ∈ rs_keyspaces (S := S).

(** The record of a table's partition denies the operation; a partition
    without a record allows everything. *)
Definition denied_by (V : gmap string json) (groups : Z) (perm : edb_permission) (t : eql_table) : bool :=
  match partition_of V (t_db t) (t_part t) with
  | Some p => negb (edb_check_perm (mask_of perm p) groups)
  | None => false
  end.

Lemma any_denied_spec ts groups trusted perm s : rs_ok s ->
  (any_denied ts groups trusted perm s).1 =
    negb trusted && existsb (denied_by (rs_view s CFG_KEYSPACE_PARTITIONS) groups perm) ts.
Proof.
  intros Hs. set (V := rs_view s CFG_KEYSPACE_PARTITIONS).
  assert (HV : rs_view s CFG_KEYSPACE_PARTITIONS = V) by done. clearbody V. revert s Hs HV.
  induction ts as [|t ts IH]; intros s Hs HV; cbn [any_denied existsb]; [by rewrite andb_false_r|].
  rewrite st_bind_run. unfold perm_denied. destruct trusted; cbn [mret st_ret fst snd negb andb].
  - rewrite (IH s Hs HV). done.
  - rewrite st_bind_run. destruct (partition_get_spec covers (t_db t) (t_part t) s Hs) as (s' & E & Hs' & Hv).
    rewrite E. cbn [mret st_ret fst snd]. unfold denied_by at 1. rewrite HV.
    destruct (partition_of V (t_db t) (t_part t)) as [p|].
    + destruct (negb (edb_check_perm _ _)); [done|]. cbn [orb]. rewrite (IH s' Hs'); [done|].
      rewrite Hv; [done|]. by apply (bool_decide_unpack _).
    + cbn [orb]. rewrite (IH s' Hs'); [done|]. rewrite Hv; [done|]. by apply (bool_decide_unpack _).
Qed.

Lemma denial_cases sql groups trusted s : rs_ok s ->
  (edb_eql_execute cfg repl now fire junk sql groups trusted s).1.1 = 403 <->
  sql <> ""%string /\ ~ (classify_statement sql = EQL_KIND_INSERT /\ existsb t_pw (collect_refs sql) = true) /\
  trusted = false /\
  existsb (denied_by (rs_view s CFG_KEYSPACE_PARTITIONS) groups (needed (classify_statement sql))) (collect_refs sql) = true.
Proof.
  intros Hs. split.
  - destruct (String.eqb_spec sql "") as [->|Hne]; [done|]. intros H403. split; [done|].
    destruct (execute_cases cfg repl now fire junk sql groups trusted) as [(a & E & Ha)|E].
    { rewrite E in H403. cbn in H403. congruence. }
    split.
    { intros [Hk Hp]. revert H403. unfold edb_eql_execute. rewrite (proj2 (String.eqb_neq _ _) Hne), Hk.
      destruct (collect_refs sql) as [|t ts]; [done|]. cbv zeta. by rewrite Hp. }
    rewrite E, st_bind_run in H403. pose proof (any_denied_spec (collect_refs sql) groups trusted
      (needed (classify_statement sql)) s Hs) as Hd.
    destruct (any_denied _ _ _ _ s) as [[] s']; cbn [fst snd] in *; [|by apply run_tables_code in H403].
    symmetry in Hd. apply andb_prop in Hd as [Ht Hd]. by apply negb_true_iff in Ht.
  - intros (Hne & Hi & -> & Hex). unfold edb_eql_execute. rewrite (proj2 (String.eqb_neq _ _) Hne).
    pose proof (any_denied_spec (collect_refs sql) groups false (needed (classify_statement sql)) s Hs) as Ha.
    rewrite Hex in Ha. destruct (collect_refs sql) as [|t0 ts]; [done|]. cbv zeta.
    destruct (bool_decide _ && _) eqn:Eb.
    { exfalso. apply Hi. by apply andb_prop in Eb as [Eb%bool_decide_eq_true ?]. }
    rewrite st_bind_run. destruct (any_denied _ _ _ _ s) as [d s']. cbn [fst] in Ha. by subst d.
Qed.

Lemma denied_by_mask V groups perm t : denied_by V groups perm t = true <->
  exists p, partition_of V (t_db t) (t_part t) = Some p /\
    let mask := match perm with
                | EDB_PERM_CREATE => p_create_mask p
                | EDB_PERM_UPDATE => p_update_mask p
                | EDB_PERM_DELETE => p_delete_mask p
                | EDB_PERM_READ => p_read_mask p
                end in
    mask <> 0 /\ Z.land mask groups = 0.
Proof using.
  unfold denied_by, edb_check_perm, mask_of. destruct (partition_of V (t_db t) (t_part t)) as [p|]; [|by split; [|intros (? & ? & _)]].
  set (mask := match perm with EDB_PERM_CREATE => p_create_mask p | _ => _ end). change EDB_MASK_ALLOW_ALL with 0. split.
  - intros H. exists p. split; [done|]. destruct (Z.eqb_spec mask 0); [done|]. split; [done|].
    by destruct (Z.eqb_spec (Z.land mask groups) 0).
  - intros (p' & [= <-] & Hm & Hl). fold mask in Hm, Hl. rewrite (proj2 (Z.eqb_neq _ _) Hm). by rewrite Hl.
Qed.

(** C7: A statement that is not empty, and is not an INSERT that names a
    partition-wide table (those are answered 400), is answered with 403 exactly
    if its caller is not trusted and the partition record of one of its tables
    has a mask for the one permission of the statement's class that is not 0
    (allow all) and has no bit in common with the caller's groups: the read mask
    for a query, and the create, update or delete mask for the others, on every
    table it names. So an INSERT ... SELECT needs no READ permission on the
    tables it reads, whose documents it copies. *)
Theorem permission_decision sql groups trusted s :
  rs_ok s ->
  (edb_eql_execute cfg repl now fire junk sql groups trusted s).1.1 = 403 <->
  sql <> ""%string /\ ~ (classify_statement sql = EQL_KIND_INSERT /\ existsb t_pw (collect_refs sql) = true) /\
  trusted = false /\
  exists t p, t ∈ collect_refs sql /\
    partition_of (rs_view s CFG_KEYSPACE_PARTITIONS) (t_db t) (t_part t) = Some p /\
    let mask := match classify_statement sql with
                | EQL_KIND_INSERT => p_create_mask p
                | EQL_KIND_UPDATE => p_update_mask p
                | EQL_KIND_DELETE => p_delete_mask p
                | EQL_KIND_SELECT | EQL_KIND_OTHER => p_read_mask p
                end in
    mask <> 0 /\ Z.land mask groups = 0.
Proof.
  intros Hs. assert (Heq : (exists t p, t ∈ collect_refs sql /\
    partition_of (rs_view s CFG_KEYSPACE_PARTITIONS) (t_db t) (t_part t) = Some p /\
    let mask := match classify_statement sql with
                | EQL_KIND_INSERT => p_create_mask p
                | EQL_KIND_UPDATE => p_update_mask p
                | EQL_KIND_DELETE => p_delete_mask p
                | EQL_KIND_SELECT | EQL_KIND_OTHER => p_read_mask p
                end in
    mask <> 0 /\ Z.land mask groups = 0) <->
    existsb (denied_by (rs_view s CFG_KEYSPACE_PARTITIONS) groups (needed (classify_statement sql))) (collect_refs sql) = true).
  { rewrite existsb_exists. split.
    - intros (t & p & Hin & Hp & Hm). exists t. split; [by apply list_elem_of_In|]. apply denied_by_mask. exists p. split; [done|].
      by destruct (classify_statement sql).
    - intros (t & Hin%list_elem_of_In & (p & Hp & Hm)%denied_by_mask). exists t, p. split; [done|]. split; [done|].
      by destruct (classify_statement sql). }
  rewrite Heq. clear Heq. apply denial_cases, Hs.
Qed.

End permissions.

(** ** Row events *)

Definition event_of (ts : list eql_table) (e : row_event) : option eql_dml_ev :=
  (fun i => Ev i e.1.1 e.2) <$> table_index (fun t => String.eqb (t_alias t) e.1.2) ts.

(** A buffer is full at its capacity, which is 256 times a power of two. *)
Definition buf_ok (b : eql_trapbuf) : Prop :=
  if b_overflow b then Z.of_nat (length (b_ev b)) = EQL_MAX_EVENTS
  else Z.of_nat (length (b_ev b)) <= b_cap b /\
       (b_cap b = 0 \/ exists k, 0 <= k <= 12 /\ b_cap b = 2 ^ (8 + k)).

Lemma push_ok b t op rowid : buf_ok b ->
  buf_ok (traps_push b t op rowid) /\
  b_overflow (traps_push b t op rowid) = (EQL_MAX_EVENTS <? Z.of_nat (length (b_ev b)) + 1) /\
  (b_overflow (traps_push b t op rowid) = false -> b_overflow b = false /\
   b_ev (traps_push b t op rowid) = b_ev b ++ [Ev t op rowid]).
Proof.
  unfold buf_ok, traps_push, EQL_MAX_EVENTS. destruct b as [ev cap ovf]. cbn [b_ev b_cap b_overflow]. destruct ovf.
  { intros E. split_and!; [exact E|by rewrite E|done..]. }
  intros [Hn Hc]. assert (Hcap : cap <= 2 ^ 20).
  { destruct Hc as [->|(k & Hk & ->)]; [lia|]. apply Z.pow_le_mono_r; lia. }
  assert (Hl : Z.of_nat (length (ev ++ [Ev t op rowid])) = Z.of_nat (length ev) + 1) by (rewrite length_app; cbn; lia).
  destruct (Z.eqb_spec (Z.of_nat (length ev)) cap) as [E|E].
  - destruct (Z.eqb_spec cap 0) as [E0|E0].
    + change (2 ^ 20 <? 256) with false. cbn [b_ev b_cap b_overflow]. rewrite Hl. split_and!; [lia| |lia|done].
      right. exists 0. lia.
    + destruct Hc as [?|(k & Hk & Ec)]; [done|]. assert (Hk12 : k = 12 \/ k < 12) by lia. destruct Hk12 as [->|Hk12].
      * rewrite Ec. change (2 ^ 20 <? 2 ^ (8 + 12) * 2) with true. cbn [b_ev b_cap b_overflow].
        split_and!; [by rewrite E|by rewrite E, Ec|done..].
      * assert (H2 : cap * 2 = 2 ^ (8 + (k + 1))) by (rewrite Ec, (Z.add_assoc 8 k 1), (Z.pow_add_r 2 (8 + k) 1) by lia; lia).
        assert (Hle : 2 ^ (8 + (k + 1)) <= 2 ^ 20) by (apply Z.pow_le_mono_r; lia).
        rewrite (proj2 (Z.ltb_ge (2 ^ 20) (cap * 2)) ltac:(lia)). cbn [b_ev b_cap b_overflow]. rewrite Hl.
        split_and!; [lia|right; exists (k + 1); lia|symmetry; apply Z.ltb_ge; lia|done].
  - cbn [b_ev b_cap b_overflow]. rewrite Hl. split_and!; [lia|done|symmetry; apply Z.ltb_ge; lia|done].
Qed.

Lemma trap_events ts b evs : buf_ok b ->
  let matched := omap (event_of ts) evs in
  let b' := foldl (trap_row_update ts) b evs in
  b_overflow b' = b_overflow b || (EQL_MAX_EVENTS <? Z.of_nat (length (b_ev b) + length matched)) /\
  (b_overflow b' = false -> b_ev b' = b_ev b ++ matched).
Proof.
  cbv zeta. revert b. induction evs as [|e evs IH]; intros b Hb; cbn [foldl omap list_omap].
  - rewrite app_nil_r, Nat.add_0_r. split; [|done]. unfold buf_ok in Hb. destruct (b_overflow b); [done|]. cbn [orb].
    symmetry. apply Z.ltb_ge. destruct Hb as [Hn [Hc|(k & Hk & Hc)]]; [unfold EQL_MAX_EVENTS; lia|].
    assert (2 ^ (8 + k) <= EQL_MAX_EVENTS) by (apply Z.pow_le_mono_r; lia). lia.
  - assert (Et : trap_row_update ts b e = match event_of ts e with Some ev => traps_push b (ev_t ev) (ev_op ev) (ev_rowid ev) | None => b end).
    { unfold trap_row_update, event_of. by destruct (table_index _ ts). }
    rewrite Et. destruct (event_of ts e) as [[t op rowid]|]; cbn [ev_t ev_op ev_rowid length]; [|by apply IH].
    destruct (push_ok b t op rowid Hb) as (Hok & Ho & He). destruct (IH _ Hok) as [IH1 IH2].
    destruct (b_overflow (traps_push b t op rowid)) eqn:E.
    + rewrite IH1. cbn [orb]. split; [|done]. symmetry. apply orb_true_iff. right. symmetry in Ho.
      apply Z.ltb_lt in Ho. apply Z.ltb_lt. lia.
    + destruct (He eq_refl) as [Hb0 Hev]. rewrite Hev, length_app in IH1. cbn [length orb] in IH1. rewrite Hb0. cbn [orb].
      rewrite IH1. split; [f_equal; lia|]. intros Hf. rewrite IH2 by (by rewrite IH1, Hf). by rewrite Hev, <-app_assoc.
Qed.

Section rows.
Context {S : Type} {RS : RecordStore S} {JC : JsonCodec} {DE : DataEngine S} {LW : LocalWrites S} {SQ : Sqlite}.
Context (cfg : edb_config S) (repl : option (repl_service S)) (now : Z).
Context (fire : edb_lua_event -> string -> string -> string -> string -> option json -> st S unit) (junk : string).

(** C36: A statement that changes rows is all or nothing up to the
    write-back: unless SQLite runs it to the end and it has at most 2^20 row
    events, nothing is written and the answer is 400 (so it is for every
    statement with RETURNING, whose first step yields a row); otherwise the
    events written back are exactly the events on the statement's tables, in
    their order. *)
Theorem dml_all_or_nothing kind ts stmt db m s :
  let '(events, e, db') := sq_step stmt db in
  let matched := omap (event_of ts) events in
  match e with
  | StepDone =>
      run_dml cfg repl now fire junk kind ts stmt db m s =
        if EQL_MAX_EVENTS <? Z.of_nat (length matched)
        then ((400, Some (error_response "too many changes for one statement")), s)
        else let r := process_events cfg repl now fire junk ts db' matched m (Outcome [] []) s in
             (dml_answer kind r.1, r.2)
  | _ => exists text, run_dml cfg repl now fire junk kind ts stmt db m s = ((400, Some text), s)
  end.
Proof.
  unfold run_dml. destruct (sq_step stmt db) as [[events e] db']. cbv zeta.
  destruct (trap_events ts empty_buf events) as [Ho He]; [by split; [|left]|]. cbn [empty_buf b_overflow b_ev orb length app] in Ho, He.
  rewrite Nat.add_0_l in Ho. destruct e; [|destruct (b_overflow _); by eexists..].
  rewrite Ho. destruct (EQL_MAX_EVENTS <? _) eqn:E; [done|]. rewrite He by by rewrite Ho. by rewrite st_bind_run.
Qed.

(** A statement whose row events do not reach the hook is answered with
    success and changes nothing; SQLite documents that a DELETE without WHERE,
    which it runs by truncating the table, is one. *)
Lemma no_events_report_success kind ts stmt db m s :
  (sq_step stmt db).1 = ([], StepDone) ->
  run_dml cfg repl now fire junk kind ts stmt db m s = (dml_answer kind (Outcome [] []), s) /\
  (dml_answer kind (Outcome [] [])).1 = 200.
Proof. intros E. split; [|done]. unfold run_dml. destruct (sq_step stmt db) as [[events e] db2].
  cbn [fst] in E. by simplify_eq. Qed.

(** What the code relies on: a statement's row events are changes the
    authorizer let it make. *)
Class SqliteLaws := {
  sq_authorized auth sql db stmt tl events e db' :
    sq_prepare auth sql db = Prepared (Some stmt) tl -> sq_step (Some stmt) db = (events, e, db') ->
    Forall (fun ev : row_event => is_dml_act ev.1.1 = true /\ auth ev.1.1 ev.1.2 = true) events;
}.

Lemma table_index_some (f : eql_table -> bool) ts t : t ∈ ts -> f t = true -> exists i, table_index f ts = Some i.
Proof.
  intros Hin Hf. unfold table_index. destruct (list_find _ ts) as [[i u]|] eqn:E; [by exists i|].
  apply list_find_None in E. apply (proj1 (Forall_forall _ _) E) in Hin. by rewrite Hf in Hin.
Qed.

(** The rows a statement changes are rows of the shadow tables of
    its own references, changed the way its first word says: an UPDATE
    statement only updates rows, a DELETE only deletes, an INSERT or REPLACE
    only inserts, and a query changes none; no row event is dropped for want
    of a table. *)
Theorem events_are_declared `{!SqliteLaws} kind sql ts db stmt tl events e db' :
  sq_prepare (deny_authorizer ts (dml_op kind)) sql db = Prepared (Some stmt) tl ->
  sq_step (Some stmt) db = (events, e, db') ->
  length (omap (event_of ts) events) = length events /\
  forall ev, ev ∈ omap (event_of ts) events ->
    dml_op kind = Some (ev_op ev) /\ (ev_t ev < length ts)%nat.
Proof.
  intros Hp Hs. pose proof (sq_authorized _ _ _ _ _ _ _ _ Hp Hs) as Hall. clear Hp Hs.
  induction Hall as [|ev evs [Hact Hauth] Hall [IH1 IH2]]; [by split; [|intros ev ?%elem_of_nil]|].
  unfold deny_authorizer in Hauth. rewrite Hact in Hauth. destruct (dml_op kind) as [op|]; [|done].
  apply andb_prop in Hauth as [Hop%bool_decide_eq_true Hex]. apply existsb_exists in Hex as (t & Hin & Ht).
  apply list_elem_of_In in Hin. destruct (table_index_some (fun t => String.eqb (t_alias t) ev.1.2) ts t Hin Ht) as [i Hi].
  assert (E : event_of ts ev = Some (Ev i ev.1.1 ev.2)) by (unfold event_of; by rewrite Hi). cbn [omap list_omap]. rewrite E.
  split; [cbn; by f_equal|]. intros ev' [->|Hev']%elem_of_cons; [|by apply IH2]. cbn [ev_op ev_t]. split; [by rewrite Hop|].
  unfold table_index in Hi. destruct (list_find _ ts) as [[j u]|] eqn:Ej; [|done]. injection Hi as <-.
  apply list_find_Some in Ej as [Hj _]. by apply lookup_lt_Some in Hj.
Qed.

End rows.

(** ** Write-back *)

Section write_back.
Context {JC : JsonCodec} {JL : JsonCodecLaws JC}.

(** The first column of a name: whether it carried objects or arrays. *)
Definition kind_of (cols : list (string * bool)) (name : string) : option bool :=
  snd <$> List.find (fun c => String.eqb c.1 name) cols.

Lemma kind_of_cons c cols name :
  kind_of (c :: cols) name = if String.eqb c.1 name then Some c.2 else kind_of cols name.
Proof. unfold kind_of. cbn. by destruct (String.eqb _ _). Qed.

Lemma kind_of_app cols c name :
  kind_of (cols ++ [c]) name =
    match kind_of cols name with Some k => Some k | None => if String.eqb c.1 name then Some c.2 else None end.
Proof.
  induction cols as [|d cols IH]; cbn [app]; [by rewrite kind_of_cons|]. rewrite !kind_of_cons, IH. by destruct (String.eqb d.1 name).
Qed.

Lemma kind_of_exists cols name : existsb (fun c => String.eqb c.1 name) cols = bool_decide (is_Some (kind_of cols name)).
Proof.
  induction cols as [|c cols IH]; [done|]. cbn [existsb]. rewrite IH, kind_of_cons. by destruct (String.eqb c.1 name).
Qed.

Lemma kind_of_mark key cols name :
  kind_of (mark_structured key cols) name =
    if String.eqb key name then (fun _ => true) <$> kind_of cols name else kind_of cols name.
Proof.
  induction cols as [|c cols IH]; cbn [mark_structured]; [by destruct (String.eqb _ _)|].
  destruct (String.eqb_spec c.1 key) as [<-|Hne].
  - rewrite !kind_of_cons. cbn [fst snd]. by destruct (String.eqb _ _).
  - rewrite !kind_of_cons, IH. destruct (String.eqb_spec c.1 name) as [<-|]; [|done].
    by rewrite (proj2 (String.eqb_neq key c.1)) by congruence.
Qed.

(** Columns only get more, and more of them structured. *)
Definition cols_le (cols cols' : list (string * bool)) : Prop :=
  (length cols <= length cols')%nat /\
  forall name k, kind_of cols name = Some k -> exists k', kind_of cols' name = Some k' /\ (k = true -> k' = true).

#[local] Instance cols_le_preorder : PreOrder cols_le.
Proof.
  split.
  - intros c. split; [done|]. intros name k H. by exists k.
  - intros a b c [L1 H1] [L2 H2]. split; [lia|]. intros name k Hk. destruct (H1 _ _ Hk) as (k1 & Hk1 & Hi1).
    destruct (H2 _ _ Hk1) as (k2 & Hk2 & Hi2). exists k2. auto.
Qed.

Lemma mark_length key cols : length (mark_structured key cols) = length cols.
Proof. induction cols as [|c cols IH]; [done|]. cbn. destruct (String.eqb _ _); cbn; auto. Qed.

Lemma union_member_le cols m : cols_le cols (union_member cols m).
Proof.
  unfold union_member. destruct (existsb _ cols).
  - destruct (structured m.2); [|reflexivity]. split; [by rewrite mark_length|]. intros name k Hk. rewrite kind_of_mark, Hk.
    destruct (String.eqb _ _); [by exists true|by exists k].
  - destruct (_ <? _)%nat; [|reflexivity]. split; [rewrite length_app; lia|]. intros name k Hk.
    rewrite kind_of_app, Hk. by exists k.
Qed.

Lemma union_member_has cols m :
  (String.length m.1 <= 127)%nat -> (length (union_member cols m) < EQL_MAX_COLS)%nat ->
  exists k, kind_of (union_member cols m) m.1 = Some k /\ (structured m.2 = true -> k = true).
Proof.
  intros Hl. unfold union_member. rewrite kind_of_exists. case_bool_decide as Hex.
  - destruct Hex as [k Hk]. destruct (structured m.2) eqn:E; intros _; [|by exists k].
    rewrite kind_of_mark, String.eqb_refl, Hk. by exists true.
  - destruct (Nat.ltb_spec (length cols) EQL_MAX_COLS) as [_|Hge]; [|lia]. intros _. rewrite kind_of_app.
    unfold cut. rewrite substring_short by lia. cbn [fst snd]. rewrite String.eqb_refl.
    destruct (kind_of cols m.1); [by contradict Hex|]. by eexists.
Qed.

Lemma union_members_le cols ms : cols_le cols (foldl union_member cols ms).
Proof.
  revert cols. induction ms as [|m ms IH]; intros cols; [reflexivity|]. cbn [foldl].
  etransitivity; [apply union_member_le|apply IH].
Qed.

Lemma members_has cols ms m :
  m ∈ ms -> (String.length m.1 <= 127)%nat -> (length (foldl union_member cols ms) < EQL_MAX_COLS)%nat ->
  exists k, kind_of (foldl union_member cols ms) m.1 = Some k /\ (structured m.2 = true -> k = true).
Proof.
  intros Hin Hl. revert cols. induction ms as [|m' ms IH]; intros cols Hlen; [by apply elem_of_nil in Hin|].
  cbn [foldl] in *. apply elem_of_cons in Hin as [<-|Hin]; [|by apply IH].
  pose proof (union_members_le (union_member cols m) ms) as [Hle Hk].
  destruct (union_member_has cols m Hl ltac:(lia)) as (k & E & Hs). destruct (Hk _ _ E) as (k' & E' & Hi).
  exists k'. auto.
Qed.

Lemma docs_le t docs : cols_le (t_cols t) (t_cols (foldl union_columns t docs)).
Proof.
  revert t. induction docs as [|d docs IH]; intros t; [reflexivity|]. cbn [foldl].
  etransitivity; [|apply IH]. apply union_members_le.
Qed.

Lemma docs_has t docs doc m :
  doc ∈ docs -> m ∈ members doc -> (String.length m.1 <= 127)%nat ->
  (length (t_cols (foldl union_columns t docs)) < EQL_MAX_COLS)%nat ->
  exists k, kind_of (t_cols (foldl union_columns t docs)) m.1 = Some k /\ (structured m.2 = true -> k = true).
Proof.
  intros Hd Hm Hl. revert t. induction docs as [|d docs IH]; intros t Hlen; [by apply elem_of_nil in Hd|].
  cbn [foldl] in *. apply elem_of_cons in Hd as [<-|Hd]; [|by apply IH].
  pose proof (docs_le (union_columns t doc) docs) as [Hle Hk].
  assert (H1 : exists k, kind_of (t_cols (union_columns t doc)) m.1 = Some k /\ (structured m.2 = true -> k = true)).
  { change (t_cols (union_columns t doc)) with (foldl union_member (t_cols t) (members doc)) in *.
    apply members_has; [done..|lia]. }
  destruct H1 as (k & E & Hs). destruct (Hk _ _ E) as (k' & E' & Hi). exists k'. auto.
Qed.

(** The first column stays where it is. *)
Lemma head_members c cols ms : exists k cols', foldl union_member (c :: cols) ms = (c.1, k) :: cols'.
Proof.
  revert c cols. induction ms as [|m ms IH]; intros c cols; [by exists c.2, cols; destruct c|]. cbn [foldl].
  assert (H : exists k cols', union_member (c :: cols) m = (c.1, k) :: cols').
  { unfold union_member. destruct (existsb _ _).
    - destruct (structured m.2); [|by exists c.2, cols; destruct c]. cbn [mark_structured].
      destruct (String.eqb _ _); [by exists true, cols|]. exists c.2. eexists. by destruct c.
    - destruct (_ <? _)%nat; exists c.2; eexists; by destruct c. }
  destruct H as (k & cols' & ->). exact (IH (c.1, k) cols').
Qed.

Lemma head_docs t docs c cols : t_cols t = c :: cols ->
  exists k cols', t_cols (foldl union_columns t docs) = (c.1, k) :: cols'.
Proof.
  revert t c cols. induction docs as [|d docs IH]; intros t c cols E; [exists c.2, cols; cbn [foldl]; rewrite E; by destruct c|].
  cbn [foldl]. destruct (head_members c cols (members d)) as (k & cols' & E').
  apply (IH (union_columns t d) (c.1, k) cols'). unfold union_columns. cbn [t_cols with_cols]. by rewrite E.
Qed.

(** What a row that was materialized from a document, and left alone, is
    written back as. *)
Definition stored_form (structured : bool) (v : option json) : json :=
  match v with
  | None => JNull
  | Some (JBool b) => JNumber (double_of_Z (if b then 1 else 0))
  | Some (JNumber d) => JNumber (if integral d then double_of_Z (Z_of_double d) else d)
  | Some (JString s) => match (if structured then json_parse s else None) with Some j => j | None => JString s end
  | Some v => v
  end.

(** Values the way back does not depend on: structured values in structured
    columns that print finite numbers only. *)
Definition printable (v : option json) : bool :=
  match v with Some (JArray _ as v) | Some (JObject _ as v) => finite_json v | _ => true end.

Definition structured_opt (v : option json) : bool := match v with Some v => structured v | None => false end.

Lemma cell_stored k v : printable v = true -> (structured_opt v = true -> k = true) ->
  cell_doc k (bind_json v) = stored_form k v.
Proof.
  destruct v as [[|b|d|s|l|ms]|]; cbn; intros Hp Hk; try done.
  - by destruct (integral d).
  - rewrite (Hk eq_refl), json_parse_print; done.
  - rewrite (Hk eq_refl), json_parse_print; done.
Qed.

Lemma zip_row_get (cols : list (string * bool)) (doc : json) name :
  get_item (JObject (zip_with (fun c v => (c.1, cell_doc c.2 v)) cols (map (fun c => bind_json (get_item doc c.1)) cols))) name =
    (fun k => cell_doc k (bind_json (get_item doc name))) <$> kind_of cols name.
Proof.
  induction cols as [|c cols IH]; [done|]. cbn [map zip_with]. rewrite get_item_cons, kind_of_cons.
  destruct (String.eqb_spec c.1 name) as [<-|Hne]; [by rewrite decide_True|]. by rewrite decide_False.
Qed.

Lemma get_item_member doc name v : get_item doc name = Some v -> (name, v) ∈ members doc.
Proof.
  destruct doc as [| | | | |ms]; try done. cbn. destruct (list_find _ ms) as [[i [n x]]|] eqn:E; [|done]. cbn. intros [= <-].
  apply list_find_Some in E as (Hi & Hn & _). cbn in Hn. subst n. by apply list_elem_of_lookup_2 in Hi.
Qed.

(** What an UPDATE writes back for a row it matched, column by
    column of the shadow table (whose columns are all names of all documents of
    the shard): the value the document had, but with [null] for every name
    the document does not have, 1 or 0 for a boolean, and for a text in a
    column where another document has an object or array whatever that text
    parses to. *)
Theorem write_back_form t docs f name b cols :
  let t' := foldl union_columns t (map f_doc docs) in
  let v := get_item (f_doc f) name in
  t_cols t = ("id", b) :: cols -> f ∈ docs -> name <> "id"%string -> (String.length name <= 127)%nat ->
  (length (t_cols t') < EQL_MAX_COLS)%nat -> printable v = true ->
  get_item (row_to_doc t' (bindings t' f)) name = (fun k => stored_form k v) <$> kind_of (t_cols t') name /\
  (v <> None -> is_Some (kind_of (t_cols t') name)).
Proof.
  cbv zeta. intros Hcols Hf Hid Hl Hlen Hp. destruct (head_docs t (map f_doc docs) _ _ Hcols) as (k0 & cols' & E).
  assert (Hkind : forall v, get_item (f_doc f) name = Some v ->
    exists k, kind_of (t_cols (foldl union_columns t (map f_doc docs))) name = Some k /\ (structured v = true -> k = true)).
  { intros v Hv. apply (docs_has t (map f_doc docs) (f_doc f) (name, v)); [|by apply get_item_member|done..].
    apply list_elem_of_In, in_map. by apply list_elem_of_In. }
  split.
  - unfold row_to_doc, bindings. rewrite E. cbn [tail]. rewrite zip_row_get. rewrite E in Hkind.
    rewrite kind_of_cons. cbn [fst]. rewrite kind_of_cons in Hkind. cbn [fst] in Hkind.
    rewrite (proj2 (String.eqb_neq "id" name)) in * by congruence.
    destruct (kind_of cols' name) as [k|] eqn:Ek; cbn [fmap option_fmap option_map]; [|done]. f_equal.
    apply cell_stored; [done|]. destruct (get_item (f_doc f) name) as [v|]; [|done]. cbn [structured_opt].
    destruct (Hkind v eq_refl) as (k' & E' & Hk). intros Hs. specialize (Hk Hs). congruence.
  - destruct (get_item (f_doc f) name) as [v|]; [|done]. intros _. destruct (Hkind v eq_refl) as (k & Ek & _). by exists k.
Qed.

(** The values that come back as they were, in a column of that kind. *)
Definition survives (k : bool) (v : json) : bool :=
  match v with
  | JNull => true
  | JBool _ => false
  | JNumber (S754_finite _ _ _ | S754_zero false) => true
  | JNumber _ => false
  | JString s => negb k || match json_parse s with None => true | Some _ => false end
  | JArray _ | JObject _ => finite_json v
  end.

Lemma SFeqb_finite s m e d : SFeqb (S754_finite s m e) d = true -> d = S754_finite s m e.
Proof.
  destruct d as [s'|s'| |s' m' e']; try (by destruct s; cbn); [by destruct s, s'|]. unfold SFeqb, SFcompare.
  destruct s, s'; try done; destruct (Z.compare e e') eqn:Ee; try done; apply Z.compare_eq in Ee as <-;
    destruct (Pos.compare_cont Eq m m') eqn:Em; try done; apply Pos.compare_eq in Em as <-; done.
Qed.

Lemma survives_stored k v : survives k v = true -> stored_form k (Some v) = v.
Proof.
  destruct v as [|b|d|s|l|ms]; cbn [survives stored_form]; try done.
  - intros Hd. f_equal. destruct (integral d) eqn:E; [|done]. apply andb_prop in E as [_ E].
    destruct d as [[]|s| |s m e]; try done. by apply SFeqb_finite in E.
  - destruct k; [|done]. cbn [negb orb]. by destruct (json_parse s).
Qed.

(** C32: Round trip of a document through the shadow table: a member
    of a document that a row was made from and that is written back unchanged
    has the value it had, if its name is not [id] and of at most 127 characters,
    the table has fewer than 256 columns, and the value is null, a number other
    than minus zero, a string (not itself JSON where other documents have
    objects or arrays), or an object or array of finite numbers. Booleans do not
    come back, and the other members are lost or changed. *)
Theorem write_back_roundtrip t docs f name v b cols :
  let t' := foldl union_columns t (map f_doc docs) in
  t_cols t = ("id", b) :: cols -> f ∈ docs -> name <> "id"%string -> (String.length name <= 127)%nat ->
  (length (t_cols t') < EQL_MAX_COLS)%nat ->
  get_item (f_doc f) name = Some v -> (forall k, kind_of (t_cols t') name = Some k -> survives k v = true) ->
  get_item (row_to_doc t' (bindings t' f)) name = Some v.
Proof.
  cbv zeta. intros Hcols Hf Hid Hl Hlen Hv Hs. destruct (head_docs t (map f_doc docs) _ _ Hcols) as (k0 & cols' & E).
  destruct (docs_has t (map f_doc docs) (f_doc f) (name, v)) as (k & Ek & Hk);
    [apply list_elem_of_In, in_map; by apply list_elem_of_In|by apply get_item_member|done..|].
  cbn [fst snd] in *. specialize (Hs k Ek).
  assert (Hp : printable (Some v) = true) by by destruct v.
  unfold row_to_doc, bindings. rewrite E in *. cbn [tail]. rewrite zip_row_get.
  rewrite kind_of_cons in Ek. cbn [fst] in Ek. rewrite (proj2 (String.eqb_neq "id" name)) in Ek by congruence.
  rewrite Ek, Hv. cbn [fmap option_fmap option_map]. f_equal.
  rewrite (cell_stored k (Some v) Hp Hk). by apply survives_stored.
Qed.

End write_back.

End EqlFacts.
