(* ===== verification/EqlNode.v ===== *)
(** EQL on a node of its own: the executor of EqlExec.v over the engine of
    Manager.v, without replication. A query changes no table of any shard; a
    statement that changes rows changes tables of the shards it names and of
    the configuration only. A small SQLite shows the interface can be
    implemented. *)

From S2P Require Import Prelude BlockHash Md5 Json Shard ShardFacts Manager ManagerFacts EngineFacts.
From S2P Require Import Store MapStore Config ConfigFacts StoreFacts Wire Cluster Repl ReplHandlers World.
From S2P Require Import EqlScan EqlScanFacts EqlExec EqlFacts.

Module EqlNode.

Import Json Store Config Cluster Repl ReplHandlers Shard ShardFacts Manager ManagerFacts EngineFacts StoreFacts World.
Import EqlScan EqlScanFacts EqlExec EqlFacts.

(** Only tables of [K] differ. *)
Definition engine_only (K : string -> Prop) (e e' : engine) : Prop :=
  quiescent e -> quiescent e' /\ forall k, ~ K k -> engine_table e' k = engine_table e k.

#[export] Instance engine_only_preorder K : PreOrder (engine_only K).
Proof.
  split.
  - by intros e Hq.
  - intros e e1 e2 H1 H2 Hq. destruct (H1 Hq) as [Hq1 A1]. destruct (H2 Hq1) as [Hq2 A2].
    split; [done|]. intros k Hk. by rewrite A2, A1.
Qed.

Lemma same_only K e e' : engine_same e e' -> engine_only K e e'.
Proof. intros H Hq. destruct (H Hq) as [Hq' Ht]. split; [done|]. intros k _. apply Ht. Qed.

Lemma on_shard_only {A} (K : string -> Prop) p ks (fail : A) f :
  (forall sh, key (f sh).2 = key sh) -> K (shard_key p ks) ->
  within (engine_only K) (fun e => on_shard e true p ks fail f).
Proof.
  intros Hf HK e Hq. destruct (on_shard_table e p ks fail f Hq Hf) as (Hq' & sh & Hd & _ & Ht & Ho).
  split; [done|]. intros k Hk. apply Ho. by intros ->.
Qed.

(** Registering a keyspace writes the two registers only. *)
Lemma ensure_within {S} `{RecordStore S} `{JsonCodec} (cfg : edb_config S) (R : S -> S -> Prop) `{!PreOrder R} db p ks :
  (forall ks id, within R (rs_get ks id)) ->
  (forall id obj, within R (store cfg CFG_KEYSPACE_PARTITIONS id obj)) ->
  (forall id obj, within R (store cfg CFG_KEYSPACE_KEYSPACES id obj)) ->
  within R (edb_partition_ensure cfg db p ks).
Proof.
  intros Hg H1 H2. unfold edb_partition_ensure, edb_partition_create, edb_partition_get, fetch. follow.
Qed.

Section node.
Context {C : JsonCodec} {Q : JsonSql} {SQ : Sqlite}.
Context (scan : table -> list (string * row)) (now : Z) (junk : string).

#[local] Instance eql_store : RecordStore engine := engine_store scan now.
#[local] Instance eql_data : DataEngine engine := engine_data scan now.
#[local] Instance eql_writes : LocalWrites engine := {|
  eng_put p ks id text ttl e := edb_put e true SqlOk now p ks id text ttl;
  eng_delete p ks id e := edb_delete e true SqlOk now p ks id;
|}.

Definition quiet_scripts (ev : edb_lua_event) (db p ks id : string) (v : option json) : st engine unit := mret tt.

Definition execute (sql : string) (groups : Z) (trusted : bool) : st engine (Z * option string) :=
  edb_eql_execute edb_config_open None now quiet_scripts junk sql groups trusted.

Lemma node_get_same p ks id : within engine_same (fun e => edb_get e true SqlOk now p ks id).
Proof. apply on_shard_same. intros sh. destruct (StoreFacts.get_data sh SqlOk now id). by split. Qed.

Lemma node_reads : reads_within (S := engine) None engine_same.
Proof.
  constructor.
  - intros ks id. apply node_get_same.
  - intros ks. by apply on_shard_same.
  - intros p ks id. apply node_get_same.
  - intros p ks f. by apply on_shard_same.
  - by intros r db p ks f [=].
Qed.

Lemma reads_only K : reads_within (S := engine) None (engine_only K).
Proof.
  destruct node_reads as [H1 H2 H3 H4 H5]. constructor.
  - intros ks id e. apply same_only, H1.
  - intros ks e. apply same_only, H2.
  - intros p ks id e. apply same_only, H3.
  - intros p ks f e. apply same_only, H4.
  - by intros r db p ks f [=].
Qed.

(** The tables a statement may change: those of its shards and the two
    registers of partitions and keyspaces. *)
Definition statement_keys (sql : string) (k : string) : Prop :=
  (exists t ks, t ∈ collect_refs sql /\ allowed junk t ks /\ k = shard_key (t_part t) ks) \/
  k = config_key CFG_KEYSPACE_PARTITIONS \/ k = config_key CFG_KEYSPACE_KEYSPACES.

Definition statement_shard (sql db p ks : string) : Prop :=
  exists t, t ∈ collect_refs sql /\ allowed junk t ks /\ t_db t = db /\ t_part t = p.

Lemma store_only K ks id obj : K (config_key ks) ->
  within (engine_only K) (store (S := engine) edb_config_open ks id obj).
Proof.
  intros HK. unfold store. cbn [replicate edb_config_open]. apply on_shard_only; [|exact HK]. intros sh. apply put_key.
Qed.

Lemma ensure_only K db p ks :
  K (config_key CFG_KEYSPACE_PARTITIONS) -> K (config_key CFG_KEYSPACE_KEYSPACES) ->
  within (engine_only K) (edb_partition_ensure (S := engine) edb_config_open db p ks).
Proof.
  intros H1 H2. apply ensure_within; [exact _| | |].
  - intros ks' id. apply (in_get _ _ (reads_only K)).
  - intros id obj. by apply store_only.
  - intros id obj. by apply store_only.
Qed.

(** Scripts whose writes stay in the tables [F]. *)
Context (fire : edb_lua_event -> string -> string -> string -> string -> option json -> st engine unit) (F : string -> Prop).

Definition statement_or_scripts (sql : string) (k : string) : Prop := statement_keys sql k \/ F k.

Lemma node_writes sql : (forall ev db p ks id v, within (engine_only F) (fire ev db p ks id v)) ->
  writes_within (S := engine) edb_config_open None now fire (engine_only (statement_or_scripts sql)) (statement_shard sql).
Proof using.
  intros Hfire.
  assert (Hkey : forall db p ks, statement_shard sql db p ks -> statement_or_scripts sql (shard_key p ks)).
  { intros db p ks (t & Hin & Ha & _ & <-). left; left. by exists t, ks. }
  constructor.
  - intros db p ks id text ttl HP. apply on_shard_only; [|by eapply Hkey]. intros sh. apply put_key.
  - intros db p ks id HP. apply on_shard_only; [|by eapply Hkey]. intros sh. apply delete_key.
  - by intros r t ks id v [=].
  - intros db p ks _. apply ensure_only; left; [by right; left|by right; right].
  - intros ev db p ks id v _ e Hq. destruct (Hfire ev db p ks id v e Hq) as [Hq' Ho]. split; [done|].
    intros k Hk. apply Ho. intros HF. apply Hk. by right.
Qed.

(** C6: On a node of its own, whatever a statement says and whatever
    SQLite makes of it, it changes only tables of the partitions it names: of
    the keyspace of a reference, of any keyspace of the partition of a
    partition-wide one, and - for a second event on a row the row map learned of
    from the first - of the keyspace whose name happens to be in a buffer nobody
    has set; the two registers of partitions and keyspaces; and what the scripts
    it fires change. *)
Theorem statement_writes_confined sql groups trusted :
  (forall ev db p ks id v, within (engine_only F) (fire ev db p ks id v)) ->
  within (engine_only (fun k =>
      (exists t ks, t ∈ collect_refs sql /\ k = shard_key (t_part t) ks /\
         (t_pw t = true \/ ks = t_ks t \/ ks = cut 128 junk)) \/
      k = config_key CFG_KEYSPACE_PARTITIONS \/ k = config_key CFG_KEYSPACE_KEYSPACES \/ F k))
    (edb_eql_execute edb_config_open None now fire junk sql groups trusted).
Proof using.
  intros Hfire e Hq.
  destruct (writes_stay_in_statement_tables edb_config_open None now fire junk _ (reads_only _) (statement_shard sql) (node_writes sql Hfire)
    sql groups trusted e) as [Hq' Ho]; [|done|].
  - intros t ks Hin Ha. by exists t.
  - split; [done|]. intros k Hk. apply Ho. intros [[(t & ks & Hin & Ha & ->)|[->| ->]]|HF]; apply Hk; [left|right; left|right; right; left|right; right; right]; try done.
    by exists t, ks.
Qed.

End node.

(** ** A small SQLite *)

(** One table, and statements that change every row in the first way the
    authorizer allows; the rows keep their contents unless they are deleted. *)
Definition toy_sqlite : Sqlite := {|
  sq_db := list (Z * list sqlval);
  sq_stmt := option sql_action;
  sq_open := Some [];
  sq_create _ db := (true, db);
  sq_insert _ vs db := (Some (Z.of_nat (S (length db))), db ++ [(Z.of_nat (S (length db)), vs)]);
  sq_prepare auth _ _ := Prepared (Some (List.find (fun a => auth a "eql_t0"%string) [ACT_INSERT; ACT_UPDATE; ACT_DELETE])) "";
  sq_readonly s := match s with None => true | Some _ => false end;
  sq_columns _ := ["id"%string];
  sq_query _ db := (map snd db, StepDone);
  sq_step s db :=
    match s with
    | Some (Some a) =>
        (map (fun r => (a, "eql_t0"%string, r.1)) db, StepDone, if bool_decide (a = ACT_DELETE) then [] else db)
    | _ => ([], StepDone, db)
    end;
  sq_read _ id db := Some (snd <$> List.find (fun r => r.1 =? id) db);
  sq_text v := match v with SQLITE_TEXT s => s | _ => EmptyString end;
|}.

#[export] Instance toy_laws : @SqliteLaws toy_sqlite.
Proof.
  constructor. intros auth sql db stmt tl events e db' Hp Hs. cbn in Hp, Hs. injection Hp as <- <-.
  set (w := if auth ACT_INSERT "eql_t0"%string then Some ACT_INSERT else _) in Hs.
  assert (Hw : forall a, w = Some a -> is_dml_act a = true /\ auth a "eql_t0"%string = true).
  { subst w. intros a Ha. destruct (auth ACT_INSERT _) eqn:E1; [by injection Ha as <-|].
    destruct (auth ACT_UPDATE _) eqn:E2; [by injection Ha as <-|].
    destruct (auth ACT_DELETE _) eqn:E3; [by injection Ha as <-|done]. }
  clearbody w. destruct w as [a|]; injection Hs as <- _ _; [|constructor].
  apply Forall_forall. intros ev (r & -> & _)%list_elem_of_fmap. by apply Hw.
Qed.

Section demo.
#[local] Existing Instance MapStore.digit_codec.
#[local] Existing Instance StoreFacts.sample_sql.
#[local] Existing Instance toy_sqlite.

(** A node with two documents in the shard [db.p.k]. *)
Definition demo_doc : json := JObject [("b", JBool true); ("n", jnum 7)].
Definition demo_other : json := JObject [("s", JString "t")].
Definition node_start : engine :=
  let put id doc e := (edb_put e true SqlOk 5 "p" "k" id (json_print doc) 100).2 in
  put "y"%string demo_other (put "x"%string demo_doc (empty_manager ∅ ∅)).

Definition run (sql : string) : (Z * option string) * engine :=
  execute map_to_list 9 "" sql 1 false node_start.

Definition read_back (e : engine) (id : string) : option json := (edb_get e true SqlOk 9 "p" "k" id).1.

(** A DELETE deletes; an UPDATE that touches neither [b] nor [s] turns the
    boolean into a number and gives every document the names of the others. *)
Example delete_run :
  (run "DELETE FROM db.p.k WHERE 1").1.1 = 200 /\ read_back (run "DELETE FROM db.p.k WHERE 1").2 "x" = None.
Proof. by vm_compute. Qed.

(** An UPDATE changes members it does not mention: on a shard with
    the documents [{b: true, n: 7}] and [{s: t}], an UPDATE that SQLite
    finds nothing to set in leaves [{n: 7, s: null, b: 1}] and
    [{n: null, s: t, b: null}], and documents that were to expire live for
    ever. *)
Theorem update_rewrites_documents :
  let e := (run "UPDATE db.p.k SET n = n").2 in
  (run "UPDATE db.p.k SET n = n").1.1 = 200 /\
  read_back node_start "x" = Some demo_doc /\ read_back node_start "y" = Some demo_other /\
  read_back e "x" = Some (JObject [("n", jnum 7); ("s", JNull); ("b", jnum 1)]) /\
  read_back e "y" = Some (JObject [("n", JNull); ("s", JString "t"); ("b", JNull)]) /\
  (edb_get node_start true SqlOk 106 "p" "k" "x").1 = None /\
  (edb_get e true SqlOk 1000000 "p" "k" "x").1 <> None.
Proof. by vm_compute. Qed.

End demo.

(** ** Instances of the theorems *)

Section witnesses.
#[local] Existing Instance MapStore.digit_codec.
#[local] Existing Instance MapStore.digit_codec_laws.
#[local] Existing Instance StoreFacts.sample_sql.
#[local] Existing Instance toy_sqlite.

Lemma select_or_denied_writes_nothing_witness :
  engine_same (empty_manager ∅ ∅) (execute map_to_list 9 "" "SELECT * FROM db.p.k" 1 false (empty_manager ∅ ∅)).2.
Proof.
  apply (select_or_denied_writes_nothing edb_config_open None 9 quiet_scripts "" engine_same (node_reads map_to_list 9)).
  left. vm_compute. done.
Defined.

(** Documents of another keyspace, and of the same one in another partition,
    outlive a DELETE. *)
Lemma statement_writes_confined_witness :
  let e := (edb_put node_start true SqlOk 5 "q" "k" "x" (json_print demo_doc) 100).2 in
  let e' := (execute map_to_list 9 "" "DELETE FROM db.p.k WHERE 1" 1 false e).2 in
  engine_table e' (shard_key "p" "k") <> engine_table e (shard_key "p" "k") /\
  engine_table e (shard_key "q" "k") <> ∅ /\ engine_table e' (shard_key "q" "k") = engine_table e (shard_key "q" "k").
Proof.
  intros e e'. split; [vm_compute; intros [=]|]. split; [vm_compute; intros [=]|].
  destruct (statement_writes_confined map_to_list 9 "" quiet_scripts (fun _ => False) "DELETE FROM db.p.k WHERE 1" 1 false) with (s := e) as [_ H].
  - intros. apply within_ret. exact _.
  - assert (Hput : forall d p ks id v, quiescent d -> quiescent (edb_put d true SqlOk 5 p ks id v 100).2).
    { intros d p ks id v Hd. apply (on_shard_table d p ks false (fun sh => edb_shard_put sh SqlOk 5 id v 100) Hd). intros sh. apply put_key. }
    unfold e, node_start. cbv zeta. repeat apply Hput. apply files_empty; intros n; intros; by rewrite lookup_empty in *.
  - assert (Hrefs : collect_refs "DELETE FROM db.p.k WHERE 1" = [demo_table]) by (vm_compute; reflexivity).
    assert (Hp : String.eqb (shard_key "q" "k") (config_key CFG_KEYSPACE_PARTITIONS) = false) by (vm_compute; reflexivity).
    assert (Hk : String.eqb (shard_key "q" "k") (config_key CFG_KEYSPACE_KEYSPACES) = false) by (vm_compute; reflexivity).
    assert (H1 : String.eqb (shard_key "q" "k") (shard_key "p" "k") = false) by (vm_compute; reflexivity).
    assert (H2 : String.eqb (shard_key "q" "k") (shard_key "p" (cut 128 "")) = false) by (vm_compute; reflexivity).
    apply String.eqb_neq in Hp, Hk, H1, H2.
    apply H. rewrite Hrefs. intros [(t & ks & Hin & E & Hks)|[E|[E|[]]]]; [|exact (Hp E)|exact (Hk E)].
    apply list_elem_of_singleton in Hin as ->. destruct Hks as [Hpw|[->| ->]]; [discriminate Hpw|exact (H1 E)|exact (H2 E)].
Defined.

Lemma events_are_declared_witness :
  let '(events, e, db') := sq_step (Sqlite := toy_sqlite) (Some (Some ACT_DELETE)) [(1, [SQLITE_TEXT "x"])] in
  length (omap (event_of [demo_table]) events) = 1%nat /\
  forall ev, ev ∈ omap (event_of [demo_table]) events -> Some ACT_DELETE = Some (ev_op ev) /\ (ev_t ev < 1)%nat.
Proof.
  apply (events_are_declared (SQ := toy_sqlite) EQL_KIND_DELETE "DELETE FROM eql_t0" [demo_table] [(1, [SQLITE_TEXT "x"])]
    (Some ACT_DELETE) "" [(ACT_DELETE, "eql_t0"%string, 1)] StepDone []); by vm_compute.
Defined.

Lemma collected_tables_typed_witness :
  t_alias demo_table = "eql_t0"%string /\ t_dotted demo_table = "db.p.k"%string.
Proof.
  destruct (proj2 (collected_tables_typed "SELECT 1 FROM db.p.k") 0%nat demo_table) as (Ha & _ & _ & _ & _ & _ & Hd & _);
    [by vm_compute|]. split; [exact Ha|]. rewrite Hd. reflexivity.
Defined.

(** The shard of two documents of which the first is [demo_doc]. *)
Definition demo_fetched : fetched := Fetched "x" "k" demo_doc.
Definition demo_docs : list fetched := [demo_fetched; Fetched "y" "k" demo_other].
Definition demo_shadow : eql_table := with_cols [("id"%string, false)] demo_table.

Lemma write_back_form_witness :
  let t' := foldl union_columns demo_shadow (map f_doc demo_docs) in
  get_item (row_to_doc t' (bindings t' demo_fetched)) "s" = Some JNull /\
  get_item (row_to_doc t' (bindings t' demo_fetched)) "b" = Some (JNumber (double_of_Z 1)).
Proof.
  assert (Hin : demo_fetched ∈ demo_docs) by (apply list_elem_of_In; by left).
  split.
  - destruct (write_back_form demo_shadow demo_docs demo_fetched "s" false []) as [E _];
      [done|exact Hin|done|cbn; lia|vm_compute; lia|done|]. rewrite E. reflexivity.
  - destruct (write_back_form demo_shadow demo_docs demo_fetched "b" false []) as [E _];
      [done|exact Hin|done|cbn; lia|vm_compute; lia|done|]. rewrite E. reflexivity.
Defined.

Lemma write_back_roundtrip_witness :
  let t' := foldl union_columns demo_shadow (map f_doc demo_docs) in
  get_item (row_to_doc t' (bindings t' demo_fetched)) "n" = Some (jnum 7).
Proof.
  apply (write_back_roundtrip demo_shadow demo_docs demo_fetched "n" (jnum 7) false []); try done.
  - apply list_elem_of_In. by left.
  - cbn. lia.
  - vm_compute. lia.
Defined.
End witnesses.

(** *** Permissions *)

Section permission_demo.
Import MapStore.
#[local] Existing Instance digit_codec.
#[local] Existing Instance toy_sqlite.
#[local] Instance perm_laws : RecordStoreLaws map_store := map_store_laws system_keyspaces.

(** A store with configuration records only. *)
#[local] Instance no_documents : DataEngine map_store := {|
  replica_put_origin _ _ _ _ _ _ _ := mret false;
  replica_delete_origin _ _ _ _ _ := mret false;
  get_doc _ _ _ := mret None;
  get_ts _ _ _ := mret None;
  all_docs _ _ _ := mret None;
  all_ts _ _ _ := mret None;
  query_docs _ _ _ := mret None;
  query_ts _ _ _ := mret None;
  ids_of _ _ _ := mret None;
|}.
#[local] Instance no_writes : LocalWrites map_store := {|
  eng_put _ _ _ _ _ := mret false;
  eng_delete _ _ _ := mret false;
|}.

(** Partition q may be read by group 2 only. *)
Definition secret : map_store := (edb_partition_create (S := map_store) edb_config_open "db" "q" 0 0 2 0 ∅).2.

Definition ask_as (sql : string) (groups : Z) : st map_store (Z * option string) :=
  edb_eql_execute edb_config_open None 9 (fun _ _ _ _ _ _ => mret tt) "" sql groups false.

(** Group 1 may not query q, but may copy it. *)
Lemma permission_decision_witness :
  (ask_as "SELECT * FROM db.q.k" 1 secret).1.1 = 403 /\
  (ask_as "INSERT INTO db.p.k SELECT * FROM db.q.k" 1 secret).1.1 <> 403.
Proof.
  assert (Hc : forall ks, ks ∈ system_keyspaces -> ks ∈ rs_keyspaces (S := map_store)) by done.
  split.
  - apply (permission_decision edb_config_open None 9 (fun _ _ _ _ _ _ => mret tt) "" Hc "SELECT * FROM db.q.k" 1 false secret I).
    split; [done|]. split; [by intros [? _]|]. split; [done|]. eexists (make_table 0 ("db", "q", "k")), _.
    split; [apply list_elem_of_In; vm_compute; by left|]. split; [vm_compute; reflexivity|]. by vm_compute.
  - intros H. apply (permission_decision edb_config_open None 9 (fun _ _ _ _ _ _ => mret tt) "" Hc) in H; [|exact I].
    destruct H as (_ & _ & _ & t & p & Hin & Hp & Hm).
    assert (Et : t = make_table 0 ("db", "p", "k") \/ t = make_table 1 ("db", "q", "k")).
    { assert (Hrefs : collect_refs "INSERT INTO db.p.k SELECT * FROM db.q.k" = [make_table 0 ("db", "p", "k"); make_table 1 ("db", "q", "k")])
        by (vm_compute; reflexivity).
      rewrite Hrefs, !elem_of_cons, elem_of_nil in Hin. destruct Hin as [Hin|[Hin|[]]]; [left|right]; exact Hin. }
    destruct Et as [-> | ->]; vm_compute in Hp; [done|]. injection Hp as <-. destruct Hm as [Hm _]. by apply Hm.
Defined.
End permission_demo.

End EqlNode.
