(* ===== verification/Http.v ===== *)
(** src/httpd/epsilon_http.c: one connection of the HTTP server. The socket is
    the list of segments it will deliver, the handlers and the files behind
    the static route are arguments. A request is cut out of a receive buffer,
    whose C strings end at the first NUL, and the headers of a request are
    pointers into it that can be left behind; the loops that read take fuel, and
    the bytes that are still to come plus one are enough (HttpFacts.v). *)

From S2P Require Import Prelude Json Store Config.

Module Http.

Import Store Config.

Definition EDB_HTTP_MAX_HEADERS : nat := 32.
Definition EDB_HTTP_MAX_HEADER_BYTES : Z := 32 * 1024.
Definition EDB_HTTP_MAX_BODY_BYTES : Z := 16 * 1024 * 1024.
Definition EDB_HTTP_MAX_ROUTES : nat := 64.

(** [edb_http_request] and [edb_http_response]. *)
Record edb_http_request := Request {
  rq_method : string; rq_path : string; rq_query : string;
  rq_headers : list (string * string);
  rq_body : string;
  rq_peer_ip : string; rq_trusted : bool;
}.
Record edb_http_response := Response {
  res_status : Z; res_content_type : string; res_body : option string;
}.

(** ** Text in the buffer *)

Abbreviation text := (list Ascii.ascii).
Definition str (l : text) : string := String.string_of_list_ascii l.
Definition chars (s : string) : text := String.list_ascii_of_string s.

Definition NUL : Ascii.ascii := Ascii.ascii_of_nat 0.
Definition TAB : Ascii.ascii := Ascii.ascii_of_nat 9.
Definition LF : Ascii.ascii := Ascii.ascii_of_nat 10.
Definition CR : Ascii.ascii := Ascii.ascii_of_nat 13.
Definition SP : Ascii.ascii := Ascii.ascii_of_nat 32.
Definition CRLF2 : text := [CR; LF; CR; LF].
Definition LF2 : text := [LF; LF].

(** What precedes the first [c] and what follows it: [strchr]. *)
Fixpoint split_at (c : Ascii.ascii) (l : text) : option (text * text) :=
  match l with
  | [] => None
  | x :: l => if decide (x = c) then Some ([], l) else (fun p => (x :: p.1, p.2)) <$> split_at c l
  end.

(** The C string that starts at [l]. *)
Definition cstr (l : text) : text := default l (fst <$> split_at NUL l).

Fixpoint span_text (f : Ascii.ascii -> bool) (l : text) : text * text :=
  match l with
  | x :: l' => if f x then (x :: (span_text f l').1, (span_text f l').2) else ([], l)
  | [] => ([], [])
  end.

Fixpoint buf_find (hay needle : text) : option nat :=
  if decide (take (length needle) hay = needle) then Some O
  else match hay with [] => None | _ :: hay => S <$> buf_find hay needle end.

Definition is_blank (c : Ascii.ascii) : bool := bool_decide (c = SP \/ c = TAB).
Definition is_blank_or_cr (c : Ascii.ascii) : bool := bool_decide (c = SP \/ c = TAB \/ c = CR).

Definition trim (l : text) : text :=
  reverse (span_text is_blank_or_cr (reverse (span_text is_blank l).2)).2.

(** ** Receiving *)

Record recv_buf := RecvBuf { rb_data : text; rb_cap : Z }.

Definition blen (l : text) : Z := Z.of_nat (length l).
Definition SIZE_MAX : Z := 2 ^ 64 - 1.

(** Doubling until [need] fits; 64 doublings exceed [SIZE_MAX]. *)
Fixpoint double_until (fuel : nat) (newcap need : Z) : option Z :=
  if need <=? newcap then Some newcap
  else match fuel with
       | O => None
       | S fuel => if SIZE_MAX / 2 <? newcap then None else double_until fuel (newcap * 2) need
       end.

Definition recv_reserve (rb : recv_buf) (need : Z) : option recv_buf :=
  if need <=? rb_cap rb then Some rb
  else RecvBuf (rb_data rb) <$> double_until 64 (if rb_cap rb =? 0 then 8192 else rb_cap rb) need.

(** [recv] into [room] bytes: at most one segment; an empty segment is an end
    of the stream, and so are a timeout and an error. *)
Definition recv (room : Z) (net : list text) : option (text * list text) :=
  match net with
  | [] | [] :: _ => None
  | seg :: net =>
      let got := take (Z.to_nat room) seg in
      let left := drop (Z.to_nat room) seg in
      Some (got, match left with [] => net | _ => left :: net end)
  end.

(** The bytes received, the buffer and the rest of the stream. *)
Definition recv_append (rb : recv_buf) (net : list text) : option (Z * recv_buf * list text) :=
  rb ← (if rb_cap rb - blen (rb_data rb) <? 4096 then recv_reserve rb (blen (rb_data rb) + 4096) else Some rb);
  '(got, net) ← recv (rb_cap rb - blen (rb_data rb)) net;
  Some (blen got, RecvBuf (rb_data rb ++ got) (rb_cap rb), net).

(** ** The head *)

(** The length of the head, its terminator included. *)
Definition find_head_end (l : text) : option nat :=
  match (if 4 <=? blen l then buf_find l CRLF2 else None) with
  | Some i => Some (i + 4)%nat
  | None => if 2 <=? blen l then (fun i => (i + 2)%nat) <$> buf_find l LF2 else None
  end.

Fixpoint read_head (fuel : nat) (rb : recv_buf) (net : list text) (header_total : Z)
    : option (nat * recv_buf * list text) :=
  match find_head_end (rb_data rb) with
  | Some n => Some (n, rb, net)
  | None =>
      if EDB_HTTP_MAX_HEADER_BYTES <? header_total then None
      else match fuel with
           | O => None
           | S fuel => '(n, rb, net) ← recv_append rb net; read_head fuel rb net (header_total + n)
           end
  end.

(** One "%[n]s" of [sscanf]. *)
Definition scan_word (n : nat) (l : text) : option (text * text) :=
  let l := (span_text is_space l).2 in
  let w := take n (span_text (fun c => negb (is_space c)) l).1 in
  match w with [] => None | _ => Some (w, drop (length w) l) end.

(** Method, path and query of the request line. *)
Definition request_line (line : text) : option (string * string * string) :=
  '(method, rest) ← scan_word 15 line;
  '(target, _) ← scan_word 3071 rest;
  let '(path, query) := default (target, []) (split_at "?"%char target) in
  Some (str method, snprintf 1024 (str path), snprintf 2048 (str query)).

(** The lines that end, each without its newline. *)
Fixpoint lines_of (l cur : text) : list text :=
  match l with
  | [] => []
  | c :: l => if decide (c = LF) then reverse cur :: lines_of l [] else lines_of l (c :: cur)
  end.

Definition blank_line (l : text) : bool :=
  match l with [] => true | c :: _ => bool_decide (c = CR) end.

(** The headers up to a blank line, after [acc]; [None] when there are too
    many. A line without a colon is ignored. *)
Fixpoint header_lines (ls : list text) (acc : list (string * string)) : option (list (string * string)) :=
  match ls with
  | [] => Some acc
  | l :: ls =>
      if blank_line l then Some acc
      else if (EDB_HTTP_MAX_HEADERS <=? length acc)%nat then None
      else match split_at ":"%char l with
           | Some (n, v) => header_lines ls (acc ++ [(str (trim n), str (trim v))])
           | None => header_lines ls acc
           end
  end.

Definition strcasecmp_eq (a b : string) : bool := String.eqb (lower a) (lower b).

Definition find_header (headers : list (string * string)) (name : string) : option string :=
  (fun h => h.2) <$> List.find (fun h => strcasecmp_eq h.1 name) headers.

Definition edb_http_header (req : edb_http_request) (name : string) : option string :=
  find_header (rq_headers req) name.

Fixpoint all_digits (s : string) : bool :=
  match s with EmptyString => true | String c s => char_in c 48 57 && all_digits s end.

(** The length of the body; [None] for framing the server refuses. *)
Definition content_length (headers : list (string * string)) : option Z :=
  match find_header headers "Content-Length" with
  | None => Some 0
  | Some cl =>
      if (1 <? length (List.filter (fun h => strcasecmp_eq h.1 "Content-Length") headers))%nat then None
      else if String.eqb cl "" || negb (all_digits cl) then None
      else
        let '(parsed, rest, erange) := strtoull cl in
        if erange || negb (String.eqb rest "") || (EDB_HTTP_MAX_BODY_BYTES <? parsed) then None else Some parsed
  end.

(** Everything the head says: the request without its body, and the length of that. *)
Definition parse_head (head : text) : option (edb_http_request * Z) :=
  let block := cstr (removelast head) in
  '(line, rest) ← split_at LF block;
  '(method, path, query) ← request_line line;
  headers ← header_lines (lines_of rest []) [];
  n ← content_length headers;
  match find_header headers "Transfer-Encoding" with
  | Some _ => None
  | None => Some (Request method path query headers EmptyString EmptyString false, n)
  end.

(** ** One request *)

Fixpoint read_body (fuel : nat) (rb : recv_buf) (net : list text) (need : Z) : option (recv_buf * list text) :=
  if need <=? blen (rb_data rb) then Some (rb, net)
  else match fuel with
       | O => None
       | S fuel => '(_, rb, net) ← recv_append rb net; read_body fuel rb net need
       end.

Definition pending (net : list text) : nat := length (concat net).

Definition with_body (req : edb_http_request) (body : string) : edb_http_request :=
  Request (rq_method req) (rq_path req) (rq_query req) (rq_headers req) body (rq_peer_ip req) (rq_trusted req).

Definition with_headers (req : edb_http_request) (headers : list (string * string)) : edb_http_request :=
  Request (rq_method req) (rq_path req) (rq_query req) headers (rq_body req) (rq_peer_ip req) (rq_trusted req).

(** Names and values of the headers are pointers into the buffer. They are set
    again when room for the body is reserved, but not when the buffer grows
    while the body is read, which frees what they point to: [stale] is what is
    read through them then (the headers themselves, if [realloc] extends the
    buffer in place). *)
Definition headers_after (stale : list (string * string) -> list (string * string)) (rb rb' : recv_buf)
    (headers : list (string * string)) : list (string * string) :=
  if rb_cap rb' =? rb_cap rb then headers else stale headers.

(** The request at the start of the buffer; the buffer that is returned starts
    behind it (the worker moves it to the front before the next one). *)
Definition parse_request_full (stale : list (string * string) -> list (string * string)) (rb : recv_buf) (net : list text)
    : option (edb_http_request * recv_buf * list text) :=
  '(head_len, rb, net) ← read_head (S (pending net)) rb net 0;
  if EDB_HTTP_MAX_HEADER_BYTES <? Z.of_nat head_len then None
  else
    '(req, n) ← parse_head (take head_len (rb_data rb));
    rb ← recv_reserve rb (Z.of_nat head_len + n + 1);
    '(rb', net) ← read_body (S (pending net)) rb net (Z.of_nat head_len + n);
    let req := with_headers req (headers_after stale rb rb' (rq_headers req)) in
    let after := drop head_len (rb_data rb') in
    Some (with_body req (str (take (Z.to_nat n) after)), RecvBuf (drop (Z.to_nat n) after) (rb_cap rb'), net).

(** ** Responses *)

Definition status_text (status : Z) : string :=
  if status =? 200 then "OK" else if status =? 201 then "Created" else if status =? 204 then "No Content"
  else if status =? 400 then "Bad Request" else if status =? 401 then "Unauthorized"
  else if status =? 403 then "Forbidden" else if status =? 404 then "Not Found"
  else if status =? 405 then "Method Not Allowed" else if status =? 409 then "Conflict"
  else if status =? 500 then "Internal Server Error" else "Unknown".

Definition CRLF : string := str [CR; LF].

(** What [write_response] sends, when the socket takes it. *)
Definition write_response (res : edb_http_response) (keep_alive : bool) : string :=
  let body := default EmptyString (res_body res) in
  "HTTP/1.1 " +:+ print_i64 (res_status res) +:+ " " +:+ status_text (res_status res) +:+ CRLF +:+
  "Content-Type: " +:+ res_content_type res +:+ CRLF +:+
  "Content-Length: " +:+ print_i64 (Z.of_nat (String.length body)) +:+ CRLF +:+
  "Connection: " +:+ (if keep_alive then "keep-alive" else "close") +:+ CRLF +:+ CRLF +:+ body.

(** The extension behind the last dot. *)
Fixpoint after_last_dot (s : string) : option string :=
  match s with
  | EmptyString => None
  | String c s => match after_last_dot s with Some e => Some e | None => if decide (c = "."%char) then Some s else None end
  end.

Definition content_types : list (string * string) :=
  [("html", "text/html"); ("htm", "text/html"); ("js", "text/javascript"); ("css", "text/css");
   ("json", "application/json"); ("png", "image/png"); ("jpg", "image/jpeg"); ("jpeg", "image/jpeg");
   ("svg", "image/svg+xml"); ("ico", "image/x-icon")]%string.

Definition guess_content_type (path : string) : string :=
  match after_last_dot path with
  | None => "application/octet-stream"
  | Some ext => default "application/octet-stream"%string
                  (snd <$> List.find (fun t => strcasecmp_eq ext t.1) content_types)
  end.

(** [strstr(s, w) != NULL]. *)
Definition contains (w s : string) : bool := bool_decide (is_Some (buf_find (chars s) (chars w))).

Definition path_is_safe (rel : string) : bool := negb (contains ".." rel).

Fixpoint skip_chars (n : nat) (s : string) : string :=
  match n, s with S n, String _ s => skip_chars n s | _, _ => s end.

(** ** The server *)

Section server.
Context {G : Type}.

(** Whether to keep the connection, and the response. *)
Definition edb_http_handler : Type := edb_http_request -> st G (bool * edb_http_response).

Record http_route := Route { rt_method : string; rt_prefix : string; rt_handler : option edb_http_handler }.

Record edb_http_server := Server {
  routes : list http_route; static_route : option nat; static_root : string;
}.

Definition edb_http_start : edb_http_server := Server [] None EmptyString.

Definition edb_http_add_handler (srv : edb_http_server) (method prefix : string) (h : edb_http_handler)
    : bool * edb_http_server :=
  if (EDB_HTTP_MAX_ROUTES <=? length (routes srv))%nat then (false, srv)
  else (true, Server (routes srv ++ [Route (snprintf 16 method) (snprintf 256 prefix) (Some h)])
                     (static_route srv) (static_root srv)).

Definition edb_http_serve_static (srv : edb_http_server) (prefix root : string) : bool * edb_http_server :=
  if bool_decide (is_Some (static_route srv)) || (256 <=? String.length prefix)%nat
     || (1024 <=? String.length root)%nat || (EDB_HTTP_MAX_ROUTES <=? length (routes srv))%nat
  then (false, srv)
  else (true, Server (routes srv ++ [Route "GET" prefix None]) (Some (length (routes srv))) root).

Definition route_matches (req : edb_http_request) (r : http_route) : bool :=
  has_prefix (rt_prefix r) (rq_path req) && String.eqb (rq_method req) (rt_method r).

(** The loop over the routes from number [i] on: the last of the longest. *)
Fixpoint best_route (req : edb_http_request) (static : option nat) (i : nat) (rs : list http_route)
    (best : option http_route) (best_len : nat) : option http_route :=
  match rs with
  | [] => best
  | r :: rs =>
      let plen := String.length (rt_prefix r) in
      if negb (bool_decide (Some i = static)) && route_matches req r && (best_len <=? plen)%nat
      then best_route req static (S i) rs (Some r) plen
      else best_route req static (S i) rs best best_len
  end.

Definition find_route (srv : edb_http_server) (req : edb_http_request) : option http_route :=
  best_route req (static_route srv) 0 (routes srv) None 0.

(** Files: the contents by path, [None] when it cannot be opened. *)
Context (files : string -> option string).

(** What is read of headers whose buffer was freed. *)
Context (stale : list (string * string) -> list (string * string)).

Definition JSON_TYPE : string := "application/json".

(** [None] when the route does not handle the path. *)
Definition serve_static_file (srv : edb_http_server) (prefix : string) (req : edb_http_request)
    : option edb_http_response :=
  if negb (has_prefix prefix (rq_path req)) then None
  else
    let rel := skip_chars (String.length prefix) (rq_path req) in
    let rel := match rel with String "/"%char r => r | r => r end in
    let rel := if String.eqb rel "" then "index.html"%string else rel in
    if negb (path_is_safe rel) then Some (Response 404 "text/plain" None)
    else
      let full := snprintf 2048 (static_root srv +:+ "/" +:+ rel) in
      match files full with
      | None => Some (Response 404 "text/plain" (Some ("not found" +:+ str [LF])))
      | Some data =>
          if EDB_HTTP_MAX_BODY_BYTES <? Z.of_nat (String.length data)
          then Some (Response 404 JSON_TYPE None)
          else Some (Response 200 (guess_content_type full) (Some data))
      end.

Definition dquote : string := str [Ascii.ascii_of_nat 34].

Definition not_found (req : edb_http_request) : edb_http_response :=
  Response 404 JSON_TYPE
    (Some ("{" +:+ dquote +:+ "error" +:+ dquote +:+ ":" +:+ dquote +:+ "not found" +:+ dquote +:+ "," +:+
           dquote +:+ "path" +:+ dquote +:+ ":" +:+ dquote +:+ rq_path req +:+ dquote +:+ "}")).

Definition static_prefix (srv : edb_http_server) : option string :=
  i ← static_route srv; r ← routes srv !! i; Some (rt_prefix r).

Definition dispatch (srv : edb_http_server) (req : edb_http_request) : st G (bool * edb_http_response) :=
  match find_route srv req with
  | Some (Route _ _ (Some h)) => h req
  | _ =>
      mret (true, default (not_found req)
                    (prefix ← static_prefix srv; serve_static_file srv prefix req))
  end.

Definition wants_close (req : edb_http_request) : bool :=
  match edb_http_header req "Connection" with Some v => strcasecmp_eq v "close" | None => false end.

Definition from_peer (trusted : bool) (peer_ip : string) (req : edb_http_request) : edb_http_request :=
  Request (rq_method req) (rq_path req) (rq_query req) (rq_headers req) (rq_body req) (snprintf 64 peer_ip) trusted.

(** The responses a connection gets, in order, until it is closed. *)
Fixpoint conn_loop (fuel : nat) (srv : edb_http_server) (trusted : bool) (peer_ip : string)
    (rb : recv_buf) (net : list text) : st G (list string) :=
  match fuel with
  | O => mret []
  | S fuel =>
      match parse_request_full stale rb net with
      | None => mret []
      | Some (req, rb, net) =>
          let req := from_peer trusted peer_ip req in
          r ← dispatch srv req;
          let keep := r.1 && negb (wants_close req) in
          rest ← (if keep : bool then conn_loop fuel srv trusted peer_ip rb net else mret []);
          mret (write_response r.2 keep :: rest)
      end
  end.

Definition conn_main (srv : edb_http_server) (trusted : bool) (peer_ip : string) (net : list text)
    : st G (list string) :=
  conn_loop (S (pending net)) srv trusted peer_ip (RecvBuf [] 0) net.

End server.
Arguments http_route : clear implicits.
Arguments edb_http_server : clear implicits.
Arguments edb_http_handler : clear implicits.

End Http.
