(* ===== verification/HttpFacts.v ===== *)
(** Theorems about the HTTP connection (Http.v). A well-formed request is cut
    out of the stream exactly, however the stream is segmented, except that the
    headers of a long one with a body can be left in a buffer that was freed; a
    connection dispatches the requests it is sent one by one in order; what the
    server accepts is within its bounds, and so is its buffer. Where heads end
    in bare newlines the segmentation decides what is a request. *)

From S2P Require Import Prelude Json Store Config ConfigFacts Http.

Module HttpFacts.

Import Store Config ConfigFacts Http.

(** ** Strings as lists *)

Lemma chars_str l : chars (str l) = l.
Proof. apply String.list_ascii_of_string_of_list_ascii. Qed.
Lemma str_chars s : str (chars s) = s.
Proof. apply String.string_of_list_ascii_of_string. Qed.
Lemma chars_app a b : chars (a +:+ b) = chars a ++ chars b.
Proof. induction a as [|c a IH]; [done|]. exact (f_equal (cons c) IH). Qed.
Lemma length_chars s : length (chars s) = String.length s.
Proof. induction s as [|c s IH]; [done|]. exact (f_equal S IH). Qed.
Lemma length_str l : String.length (str l) = length l.
Proof. by rewrite <-length_chars, chars_str. Qed.
Lemma snprintf_short cap s : (String.length s < cap)%nat -> snprintf cap s = s.
Proof. intros H. apply substring_short. lia. Qed.

(** ** Searching *)

Lemma buf_find_nil n : n <> [] -> buf_find [] n = None.
Proof. by destruct n. Qed.

Lemma buf_find_Some hay needle i : buf_find hay needle = Some i ->
  take (length needle) (drop i hay) = needle /\ (i <= length hay)%nat /\
  forall j, (j < i)%nat -> take (length needle) (drop j hay) <> needle.
Proof.
  revert i. induction hay as [|c hay IH]; intros i; cbn [buf_find].
  - destruct (decide _) as [E|]; [|done]. intros [= <-]. split; [done|]. split; [simpl; lia|]. lia.
  - destruct (decide _) as [E|Hne].
    + intros [= <-]. split; [done|]. split; [simpl; lia|]. lia.
    + destruct (buf_find hay needle) as [k|]; [|done]. intros [= <-].
      destruct (IH k eq_refl) as (H1 & H2 & H3). split; [done|]. split; [simpl; lia|].
      intros [|j] Hj; [done|]. apply H3. lia.
Qed.

Lemma buf_find_None hay needle : buf_find hay needle = None -> forall i, take (length needle) (drop i hay) <> needle.
Proof.
  induction hay as [|c hay IH]; cbn [buf_find]; destruct (decide _) as [E|Hne]; try done; intros H i.
  - by rewrite drop_nil.
  - destruct (buf_find hay needle); [done|]. destruct i as [|i]; [done|]. by apply IH.
Qed.

Lemma buf_find_complete hay needle i :
  take (length needle) (drop i hay) = needle -> (forall j, (j < i)%nat -> take (length needle) (drop j hay) <> needle) ->
  (i <= length hay)%nat -> buf_find hay needle = Some i.
Proof.
  intros H1 H2 H3. destruct (buf_find hay needle) as [k|] eqn:E.
  - destruct (buf_find_Some _ _ _ E) as (E1 & _ & E2). f_equal.
    destruct (decide (k < i)%nat) as [Hk|Hk]; [by destruct (H2 k Hk)|].
    destruct (decide (i < k)%nat) as [Hi|Hi]; [by destruct (E2 i Hi)|]. lia.
  - by destruct (buf_find_None _ _ E i).
Qed.

(** What a text does not contain none of its beginnings does. *)
Lemma buf_find_prefix p hay needle : needle <> [] -> p `prefix_of` hay ->
  buf_find hay needle = None -> buf_find p needle = None.
Proof.
  intros Hn [q ->] H. destruct (buf_find p needle) as [i|] eqn:E; [|done].
  destruct (buf_find_Some _ _ _ E) as (E1 & E2 & _). exfalso. apply (buf_find_None _ _ H i).
  rewrite drop_app_le, take_app_le; [done| |done].
  rewrite <-E1 at 1. rewrite length_take. lia.
Qed.

(** A needle that is not in [l] without its last byte, and ends [l], is found
    there first, whatever follows. *)
Lemma buf_find_last l needle x rest : needle <> [] ->
  buf_find l needle = None -> drop (length l + 1 - length needle) (l ++ [x]) = needle ->
  (length needle <= length l + 1)%nat ->
  buf_find (l ++ [x] ++ rest) needle = Some (length l + 1 - length needle)%nat.
Proof.
  intros Hn HN Hd Hle. set (n := length needle) in *. apply buf_find_complete.
  - fold n. rewrite app_assoc, drop_app_le by (rewrite length_app; simpl; lia). rewrite Hd. apply take_app_length.
  - intros j Hj E. fold n in E. apply (buf_find_None _ _ HN j). fold n.
    rewrite drop_app_le, take_app_le in E by (rewrite ?length_drop; lia). done.
  - rewrite !length_app. simpl. lia.
Qed.

Lemma buf_find_skip c l d needle : c <> d -> buf_find (c :: l) (d :: needle) = S <$> buf_find l (d :: needle).
Proof. intros Hne. cbn [buf_find]. destruct (decide _) as [E|]; [|done]. by injection E. Qed.

(** ** The socket *)

(** The capacity of a receive buffer: nothing, or at least its first. *)
Definition buf_ok (rb : recv_buf) : Prop := blen (rb_data rb) <= rb_cap rb /\ (rb_cap rb = 0 \/ 8192 <= rb_cap rb).

Definition stream_ok (rb : recv_buf) (net : list text) : Prop :=
  buf_ok rb /\ Forall (fun seg => seg <> []) net /\ blen (rb_data rb ++ concat net) < 2 ^ 60.

Lemma double_until_ok fuel c need : 0 < c -> need < 2 ^ 61 -> need <= c * 2 ^ Z.of_nat fuel ->
  exists r, double_until fuel c need = Some r /\ need <= r /\ c <= r.
Proof.
  revert c. induction fuel as [|fuel IH]; intros c Hc Hn Hp; cbn [double_until].
  - destruct (Z.leb_spec need c); [by exists c|]. change (2 ^ Z.of_nat 0) with 1 in Hp. lia.
  - destruct (Z.leb_spec need c); [by exists c|]. destruct (Z.ltb_spec (SIZE_MAX / 2) c) as [Hb|_].
    + exfalso. assert (2 ^ 61 <= SIZE_MAX / 2) by by vm_compute. lia.
    + destruct (IH (c * 2)) as (r & E & H1 & H2); [lia|done| |exists r; split; [done|lia]].
      rewrite Nat2Z.inj_succ, Z.pow_succ_r in Hp by lia. lia.
Qed.

Lemma blen_nonneg l : 0 <= blen l.
Proof. unfold blen. lia. Qed.

Lemma double_until_bound fuel c need r : 0 <= c -> double_until fuel c need = Some r ->
  need <= r /\ c <= r /\ (r = c \/ 2 * c <= r) /\ r <= Z.max c (2 * need).
Proof.
  revert c. induction fuel as [|fuel IH]; intros c Hc; cbn [double_until]; (destruct (Z.leb_spec need c); [intros [= <-]; lia|]); [done|].
  destruct (_ <? _); [done|]. intros H1. destruct (IH (c * 2) ltac:(lia) H1). lia.
Qed.

(** A buffer that is grown is at least doubled, and no larger than twice what
    was asked for. *)
Lemma recv_reserve_bound rb need rb' : buf_ok rb -> recv_reserve rb need = Some rb' ->
  rb_data rb' = rb_data rb /\ buf_ok rb' /\ need <= rb_cap rb' /\
  (rb' = rb \/ rb_cap rb < need /\ 8192 <= rb_cap rb' /\ 2 * rb_cap rb <= rb_cap rb') /\
  rb_cap rb' <= Z.max (rb_cap rb) (Z.max 8192 (2 * need)).
Proof.
  intros [Hd Hc] H. pose proof (blen_nonneg (rb_data rb)) as H0. unfold recv_reserve in H.
  destruct (Z.leb_spec need (rb_cap rb)) as [Hle|Hlt]; [injection H as <-; split_and!; [done..|lia|by left|lia]|].
  set (c := if rb_cap rb =? 0 then 8192 else rb_cap rb) in *.
  assert (Hc' : 8192 <= c /\ rb_cap rb <= c /\ (c = rb_cap rb \/ rb_cap rb = 0 /\ c = 8192))
    by (unfold c; destruct (Z.eqb_spec (rb_cap rb) 0); lia).
  clearbody c. destruct (double_until 64 c need) as [r|] eqn:E; [|done]. injection H as <-.
  destruct (double_until_bound 64 c need r) as (? & ? & ? & ?); [lia|done|]. unfold buf_ok. cbn [rb_data rb_cap].
  split_and!; [done|lia|lia|lia|right; lia|lia].
Qed.

Lemma recv_reserve_ok rb need : buf_ok rb -> need < 2 ^ 61 -> exists rb', recv_reserve rb need = Some rb'.
Proof.
  intros [Hd Hc'] Hn. pose proof (blen_nonneg (rb_data rb)) as Hc. unfold recv_reserve. destruct (Z.leb_spec need (rb_cap rb)); [by exists rb|].
  set (c := if rb_cap rb =? 0 then 8192 else rb_cap rb).
  assert (Hcp : 0 < c) by (unfold c; destruct (Z.eqb_spec (rb_cap rb) 0); lia).
  destruct (double_until_ok 64 c need) as (r & -> & H1 & H2); [done|done| |by eexists].
  change (2 ^ Z.of_nat 64) with (2 ^ 61 * 8). nia.
Qed.

(** What is in the buffer once there is room for a [recv]: a buffer with
    less than 4096 bytes left is grown. *)
Lemma recv_room rb rb1 : buf_ok rb ->
  (if rb_cap rb - blen (rb_data rb) <? 4096 then recv_reserve rb (blen (rb_data rb) + 4096) else Some rb) = Some rb1 ->
  rb_data rb1 = rb_data rb /\ buf_ok rb1 /\ 4096 <= rb_cap rb1 - blen (rb_data rb1) /\
  (blen (rb_data rb) + 4096 <= rb_cap rb -> rb1 = rb) /\ rb_cap rb1 <= Z.max (rb_cap rb) (2 * (blen (rb_data rb) + 4096)).
Proof.
  intros Hb H. pose proof (blen_nonneg (rb_data rb)). destruct (Z.ltb_spec (rb_cap rb - blen (rb_data rb)) 4096).
  - destruct (recv_reserve_bound _ _ _ Hb H) as (-> & Hb1 & Hn1 & _ & Hc1). split_and!; [done|done|lia|lia|lia].
  - injection H as <-. split_and!; [done|done|lia|done|lia].
Qed.

Lemma recv_append_inv rb net n rb' net' : buf_ok rb -> recv_append rb net = Some (n, rb', net') ->
  exists got, n = blen got /\ got <> [] /\ rb_data rb' = rb_data rb ++ got /\ concat net = got ++ concat net' /\ buf_ok rb' /\
    (blen (rb_data rb) + 4096 <= rb_cap rb -> rb_cap rb' = rb_cap rb) /\
    rb_cap rb' <= Z.max (rb_cap rb) (2 * (blen (rb_data rb) + 4096)) /\
    (Forall (fun seg => seg <> []) net -> Forall (fun seg => seg <> []) net').
Proof.
  intros Hb H. unfold recv_append in H.
  destruct (if rb_cap rb - blen (rb_data rb) <? 4096 then _ else _) as [rb1|] eqn:E1; [|done].
  destruct (recv_room _ _ Hb E1) as (Hd & Hb1 & Hroom & Hsame & Hcap).
  cbn [mbind option_bind] in H. unfold recv in H. destruct net as [|[|x seg] net]; [done|done|]. cbn [mbind option_bind] in H.
  set (room := rb_cap rb1 - blen (rb_data rb1)) in *.
  set (got := take (Z.to_nat room) (x :: seg)) in *. set (left := drop (Z.to_nat room) (x :: seg)) in *.
  assert (Hsplit : x :: seg = got ++ left) by (symmetry; apply take_drop).
  assert (Hgot : got <> []) by (unfold got; destruct (Z.to_nat room) eqn:E; [lia|done]).
  assert (Hlen : blen got <= room) by (unfold got, blen; rewrite length_take; lia).
  injection H as <- <- <-. exists got. cbn [rb_data rb_cap]. rewrite Hd. split_and!; try done.
  - cbn [concat]. rewrite Hsplit, <-app_assoc. f_equal. by destruct left.
  - destruct Hb1. split; cbn [rb_data rb_cap]; [|done]. unfold room, blen in Hlen. rewrite Hd in Hlen. unfold blen. rewrite length_app. lia.
  - by intros Hle; rewrite Hsame.
  - intros Hne. inversion Hne; subst. destruct left eqn:El; [done|]. by constructor.
Qed.

(** One [recv_append] moves some bytes from the socket to the buffer. *)
Lemma recv_append_ok rb net : stream_ok rb net -> net <> [] ->
  exists got rb' net', recv_append rb net = Some (blen got, rb', net') /\ got <> [] /\
    rb_data rb' = rb_data rb ++ got /\ concat net = got ++ concat net' /\ stream_ok rb' net' /\
    (pending net' < pending net)%nat /\ (blen (rb_data rb) + 4096 <= rb_cap rb -> rb_cap rb' = rb_cap rb).
Proof.
  intros (Hc & Hne & Hb) Hnet.
  assert (exists r, recv_append rb net = Some r) as [[[n rb'] net'] E].
  { unfold recv_append. destruct net as [|[|x seg] net]; [done|by inversion Hne|].
    assert (Hlen : blen (rb_data rb) < 2 ^ 60) by (unfold blen in *; rewrite length_app in Hb; lia).
    destruct (recv_reserve_ok rb (blen (rb_data rb) + 4096)) as [rb1 E1]; [done|lia|].
    destruct (_ <? 4096); [rewrite E1|]; by eexists. }
  destruct (recv_append_inv _ _ _ _ _ Hc E) as (got & -> & Hg & Hd & Hcat & Hb' & Hsame & _ & Hsegs).
  exists got, rb', net'. split_and!; try done.
  - split_and!; [done|by apply Hsegs|]. by rewrite Hd, <-app_assoc, <-Hcat.
  - unfold pending. rewrite Hcat, length_app. destruct got; [done|]. simpl. lia.
Qed.

(** ** Reading a head and a body *)

(** A text whose end is found at its end, and not before. *)
Definition is_head (h : text) : Prop :=
  h <> [] /\ (forall rest, find_head_end (h ++ rest) = Some (length h)) /\
  (forall p, p `prefix_of` h -> p <> h -> find_head_end p = None).

Lemma prefix_split {A} (a b c d : list A) : a ++ b = c ++ d -> (length a < length c)%nat -> a `prefix_of` c /\ a <> c.
Proof.
  intros E Hl. split; [|by intros ->; lia]. exists (take (length c - length a) b).
  assert (E2 : take (length c) (a ++ b) = c) by (by rewrite E, take_app_length).
  rewrite take_app, take_ge in E2 by lia. done.
Qed.

Lemma stream_rest rb net rb' net' got : rb_data rb' = rb_data rb ++ got -> concat net = got ++ concat net' ->
  rb_data rb ++ concat net = rb_data rb' ++ concat net'.
Proof. intros -> ->. by rewrite app_assoc. Qed.

Lemma read_head_ok h rest fuel rb net total :
  is_head h -> blen h <= EDB_HTTP_MAX_HEADER_BYTES -> stream_ok rb net -> rb_data rb ++ concat net = h ++ rest ->
  (pending net < fuel)%nat -> total <= blen (rb_data rb) ->
  exists rb' net', read_head fuel rb net total = Some (length h, rb', net') /\ stream_ok rb' net' /\
    rb_data rb' ++ concat net' = h ++ rest /\ (length h <= length (rb_data rb'))%nat /\ (pending net' <= pending net)%nat.
Proof.
  intros Hh Hmax. revert rb net total. induction fuel as [|fuel IH]; intros rb net total Hok E Hf Ht; [lia|].
  destruct Hh as (Hne & Hfull & Hpart). cbn [read_head].
  destruct (decide (length h <= length (rb_data rb))%nat) as [Hle|Hlt].
  - assert (exists q, rb_data rb = h ++ q) as [q Hq].
    { exists (drop (length h) (rb_data rb)). rewrite <-(take_drop (length h) (rb_data rb)) at 1. f_equal.
      rewrite <-(take_app_le _ (concat net)) by done. by rewrite E, take_app_length. }
    assert (Hf1 : find_head_end (rb_data rb) = Some (length h)) by (by rewrite Hq, Hfull).
    rewrite Hf1. by exists rb, net.
  - destruct (prefix_split _ _ _ _ E) as [Hpre Hneq]; [lia|]. rewrite (Hpart _ Hpre Hneq).
    destruct (Z.ltb_spec EDB_HTTP_MAX_HEADER_BYTES total); [unfold blen in *; lia|].
    assert (Hnet : net <> []).
    { intros ->. apply (f_equal length) in E. rewrite !length_app in E. simpl in E. lia. }
    destruct (recv_append_ok rb net Hok Hnet) as (got & rb' & net' & -> & _ & Hd & Hcat & Hok' & Hp).
    cbn [mbind option_bind]. destruct (IH rb' net' (total + blen got)) as (rb2 & net2 & -> & H1 & H2 & H3 & H4).
    + done.
    + by rewrite <-(stream_rest _ _ _ _ _ Hd Hcat).
    + lia.
    + unfold blen in *. rewrite Hd, length_app. lia.
    + exists rb2, net2. repeat (split; [done|]). lia.
Qed.

Lemma read_body_ok all fuel rb net need :
  stream_ok rb net -> rb_data rb ++ concat net = all -> need <= blen all -> (pending net < fuel)%nat ->
  exists rb' net', read_body fuel rb net need = Some (rb', net') /\ stream_ok rb' net' /\
    rb_data rb' ++ concat net' = all /\ need <= blen (rb_data rb') /\
    (need <= blen (rb_data rb) \/ need + 4096 <= rb_cap rb -> rb_cap rb' = rb_cap rb).
Proof.
  revert rb net. induction fuel as [|fuel IH]; intros rb net Hok E Hn Hf; [lia|]. cbn [read_body].
  destruct (Z.leb_spec need (blen (rb_data rb))) as [Hle|Hlt]; [by exists rb, net|].
  assert (Hnet : net <> []).
  { intros ->. rewrite <-E in Hn. simpl in Hn. rewrite app_nil_r in Hn. lia. }
  destruct (recv_append_ok rb net Hok Hnet) as (got & rb' & net' & -> & _ & Hd & Hcat & Hok' & Hp & Hsame).
  cbn [mbind option_bind]. destruct (IH rb' net') as (rb2 & net2 & E2 & H1 & H2 & H3 & H4); [done| |done|lia|].
  { by rewrite <-(stream_rest _ _ _ _ _ Hd Hcat). }
  exists rb2, net2. split_and!; try done. intros [|Hroom]; [lia|]. rewrite H4; [apply Hsame; lia|]. right. rewrite Hsame; lia.
Qed.

(** *** A stream of one segment *)

(** As long as something is left of it, the buffer is full. *)
Definition one_left (rb : recv_buf) (net : list text) : Prop :=
  net = [] \/ exists seg, net = [seg] /\ seg <> [] /\ blen (rb_data rb) = rb_cap rb.

Lemma recv_append_one rb net n rb' net' : buf_ok rb -> one_left rb net -> recv_append rb net = Some (n, rb', net') -> one_left rb' net'.
Proof.
  intros Hb [->|(seg & -> & Hne & Hfull)] H; unfold recv_append in H;
    (destruct (if rb_cap rb - blen (rb_data rb) <? 4096 then _ else _) as [rb1|] eqn:E1; [|done]); [done|].
  destruct (recv_room _ _ Hb E1) as (Hd & [Hb1 _] & Hroom & _ & _). cbn [mbind option_bind] in H. unfold recv in H.
  destruct seg as [|x seg]; [done|]. cbn [mbind option_bind] in H. injection H as <- <- <-.
  set (room := Z.to_nat _). destruct (drop room (x :: seg)) as [|y l] eqn:El; [by left|right].
  exists (y :: l). split; [done|]. split; [done|]. cbn [rb_data rb_cap].
  assert (Hlt : (room < length (x :: seg))%nat).
  { destruct (decide (room < length (x :: seg))%nat) as [|Hge]; [done|]. by rewrite drop_ge in El by lia. }
  subst room. unfold blen in *. rewrite length_app, length_take. lia.
Qed.

Lemma read_head_one fuel rb net total n rb' net' : buf_ok rb -> one_left rb net ->
  read_head fuel rb net total = Some (n, rb', net') -> one_left rb' net'.
Proof.
  revert rb net total. induction fuel as [|fuel IH]; intros rb net total Hb Ho; cbn [read_head];
    (destruct (find_head_end (rb_data rb)); [by intros [= _ <- <-]|]); (destruct (_ <? _); [done|]); [done|].
  destruct (recv_append rb net) as [[[m rb1] net1]|] eqn:E1; [|done]. cbn [mbind option_bind].
  destruct (recv_append_inv _ _ _ _ _ Hb E1) as (_ & _ & _ & _ & _ & Hb1 & _).
  apply IH; [done|]. exact (recv_append_one _ _ _ _ _ Hb Ho E1).
Qed.

(** A buffer with room for all that is still to come is not moved. *)
Lemma read_body_one fuel rb net need rb' net' :
  (forall seg, net = [seg] -> 4096 <= rb_cap rb - blen (rb_data rb) /\ blen (rb_data rb) + blen seg <= rb_cap rb /\ need <= blen (rb_data rb) + blen seg) ->
  net = [] \/ (exists seg, net = [seg]) -> read_body fuel rb net need = Some (rb', net') -> rb_cap rb' = rb_cap rb.
Proof.
  intros Hseg Hnet. destruct fuel as [|fuel]; cbn [read_body]; (destruct (Z.leb_spec need (blen (rb_data rb))); [by intros [= <- <-]|]); [done|].
  unfold recv_append. destruct Hnet as [->|[seg ->]].
  - destruct (if _ <? 4096 then _ else _); done.
  - destruct (Hseg seg eq_refl) as (H1 & H2 & H3). destruct (Z.ltb_spec (rb_cap rb - blen (rb_data rb)) 4096); [lia|].
    cbn [mbind option_bind]. unfold recv. destruct seg as [|x seg]; [done|]. cbn [mbind option_bind].
    assert (Hall : (length (x :: seg) <= Z.to_nat (rb_cap rb - blen (rb_data rb)))%nat) by (unfold blen in *; lia).
    rewrite take_ge, drop_ge by done. destruct fuel as [|fuel]; cbn [read_body rb_data rb_cap];
      (destruct (Z.leb_spec need (blen (rb_data rb ++ x :: seg))) as [|Hlt]; [by intros [= <- <-]|]);
      unfold blen in *; rewrite length_app in Hlt; lia.
Qed.

(** ** Heads of lines *)

Definition ended (ls : list text) : text := concat (map (fun l => l ++ [CR; LF]) ls).
Definition line_ok (l : text) : Prop := l <> [] /\ CR ∉ l /\ LF ∉ l.

Lemma buf_find_skip_none c l t n : c ∉ l -> buf_find t (c :: n) = None -> buf_find (l ++ t) (c :: n) = None.
Proof.
  induction l as [|x l IH]; [done|]. intros Hin Ht. apply not_elem_of_cons in Hin as [Hx Hin].
  cbn [app]. rewrite buf_find_skip by done. by rewrite IH.
Qed.

Lemma buf_find_once c l needle : take (length needle) (c :: l) <> needle -> buf_find (c :: l) needle = S <$> buf_find l needle.
Proof. intros Hne. cbn [buf_find]. by rewrite decide_False. Qed.

Lemma ended_starts ls c t : Forall line_ok ls -> ended ls ++ [CR] = c :: t -> c <> LF /\ take 2 (c :: t) <> [CR; LF].
Proof.
  intros H. destruct H as [|l ls (Hne & Hc & Hl) _]; [by intros [= <- <-]|].
  destruct l as [|x l]; [done|]. cbn. intros [= -> _]. apply not_elem_of_cons in Hc as [Hc _], Hl as [Hl _].
  split; [done|]. by intros [= -> _].
Qed.

Lemma ended_no_end ls : Forall line_ok ls ->
  buf_find (ended ls ++ [CR]) CRLF2 = None /\ buf_find (ended ls ++ [CR]) LF2 = None.
Proof.
  intros H. induction H as [|l ls (Hne & Hc & Hl) Hls [IH1 IH2]]; [by split|].
  change (ended (l :: ls)) with ((l ++ [CR; LF]) ++ ended ls).
  pose proof (ended_starts ls) as Hs. set (t := ended ls ++ [CR]) in *.
  assert (Et : exists c t', t = c :: t').
  { unfold t. destruct (ended ls); [by exists CR, []|]. by eexists _, _. }
  destruct Et as (c & t' & Et). destruct (Hs c t' Hls Et) as [H1 H2].
  replace (((l ++ [CR; LF]) ++ ended ls) ++ [CR]) with (l ++ CR :: LF :: t) by (unfold t; by rewrite <-!app_assoc).
  split; apply buf_find_skip_none; try done.
  - rewrite buf_find_once.
    + rewrite buf_find_skip by done. change [CR; LF; CR; LF] with CRLF2. by rewrite IH1.
    + cbn [take length CRLF2]. intros [= E]. apply H2. rewrite <-Et. done.
  - rewrite buf_find_skip by done. rewrite buf_find_once; [change [LF; LF] with LF2; by rewrite IH2|].
    rewrite Et. cbn [take length LF2]. by intros [= E].
Qed.

Lemma ended_last ls l : ended (ls ++ [l]) = (ended ls ++ l) ++ [CR; LF].
Proof. unfold ended. rewrite map_app, concat_app. cbn. by rewrite app_nil_r, app_assoc. Qed.

(** Lines and a blank line are a head. *)
Lemma lines_are_head ls l : Forall line_ok (ls ++ [l]) -> is_head (ended (ls ++ [l]) ++ [CR; LF]).
Proof.
  intros H. destruct (ended_no_end _ H) as [H1 H2]. set (b := ended (ls ++ [l]) ++ [CR]) in *.
  assert (Eb : ended (ls ++ [l]) ++ [CR; LF] = b ++ [LF]) by (unfold b; by rewrite <-app_assoc).
  assert (Em : b ++ [LF] = (ended ls ++ l) ++ CRLF2).
  { rewrite <-Eb, ended_last, <-app_assoc. done. }
  clearbody b.
  assert (Hlb : (length b + 1 = length (ended ls ++ l) + 4)%nat).
  { apply (f_equal length) in Em. rewrite (length_app b), (length_app (_ ++ _)) in Em. simpl in Em. lia. }
  rewrite Eb. split; [by destruct b|]. split.
  - intros rest. unfold find_head_end. rewrite <-app_assoc, (buf_find_last b CRLF2 LF rest); try done.
    + destruct (Z.leb_spec 4 (blen (b ++ [LF] ++ rest))) as [_|Hlt].
      * f_equal. rewrite length_app. cbn [length CRLF2]. lia.
      * unfold blen in Hlt. rewrite !length_app in Hlt. simpl in Hlt. lia.
    + cbn [length CRLF2]. replace (length b + 1 - 4)%nat with (length (ended ls ++ l)) by lia.
      rewrite Em. apply drop_app_length.
    + cbn [length CRLF2]. lia.
  - intros p [q Hq] Hne. assert (Hp : p `prefix_of` b).
    { destruct q as [|x q _] using rev_ind; [by rewrite app_nil_r in Hq|].
      rewrite app_assoc in Hq. apply app_inj_tail in Hq as [Hq _]. by exists q. }
    unfold find_head_end. rewrite (buf_find_prefix p b CRLF2), (buf_find_prefix p b LF2) by done.
    by destruct (4 <=? blen p), (2 <=? blen p).
Qed.

(** ** What a client sends *)

Definition visible (c : Ascii.ascii) : Prop := is_space c = false /\ c <> NUL.
Definition in_line (c : Ascii.ascii) : Prop := c <> NUL /\ c <> CR /\ c <> LF.

Record sent := Sent {
  s_method : string; s_target : string; s_first : list (string * string); s_headers : list (string * string); s_body : string;
}.

Definition header_text (h : string * string) : text := chars h.1 ++ ":"%char :: SP :: chars h.2.
Definition length_header (s : sent) : string * string := ("Content-Length"%string, print_u64 (Z.of_nat (String.length (s_body s)))).
Definition sent_headers (s : sent) : list (string * string) := s_first s ++ length_header s :: s_headers s.
Definition request_text (s : sent) : text := chars (s_method s) ++ SP :: chars (s_target s) ++ SP :: chars "HTTP/1.1".
Definition head_text (s : sent) : text := ended (request_text s :: map header_text (sent_headers s)) ++ [CR; LF].
Definition print_request (s : sent) : text := head_text s ++ chars (s_body s).

(** A word of the request line, and a header, the server reads as it is. *)
Definition word_ok (n : nat) (w : string) : Prop := w <> ""%string /\ (String.length w <= n)%nat /\ Forall visible (chars w).
Definition header_shape (h : string * string) : Prop :=
  Forall in_line (chars h.1) /\ Forall in_line (chars h.2) /\ ":"%char ∉ chars h.1 /\ h.1 <> ""%string /\
  trim (chars h.1) = chars h.1.
Definition header_printable (h : string * string) : Prop :=
  header_shape h /\ strcasecmp_eq h.1 "Content-Length" = false /\ strcasecmp_eq h.1 "Transfer-Encoding" = false.

Definition target_path (t : string) : string := str (default (chars t, []) (split_at "?"%char (chars t))).1.
Definition target_query (t : string) : string := str (default (chars t, []) (split_at "?"%char (chars t))).2.

Record well_formed (s : sent) : Prop := {
  wf_method : word_ok 15 (s_method s);
  wf_target : word_ok 3071 (s_target s);
  wf_path : (String.length (target_path (s_target s)) < 1024)%nat;
  wf_query : (String.length (target_query (s_target s)) < 2048)%nat;
  wf_headers : Forall header_printable (s_first s ++ s_headers s);
  wf_count : (length (s_first s ++ s_headers s) < EDB_HTTP_MAX_HEADERS)%nat;
  wf_head : blen (head_text s) <= EDB_HTTP_MAX_HEADER_BYTES;
  wf_body : Z.of_nat (String.length (s_body s)) <= EDB_HTTP_MAX_BODY_BYTES;
}.

(** Blanks around a value are not part of it. *)
Definition trimmed (h : string * string) : string * string := (h.1, str (trim (chars h.2))).
Definition received (s : sent) : edb_http_request :=
  Request (s_method s) (target_path (s_target s)) (target_query (s_target s)) (map trimmed (sent_headers s)) (s_body s) EmptyString false.

(** ** Reading the lines *)

Lemma split_at_app c l t : c ∉ l -> split_at c (l ++ c :: t) = Some (l, t).
Proof.
  induction l as [|x l IH]; cbn [app split_at].
  - intros _. by rewrite decide_True.
  - intros [Hx Hl]%not_elem_of_cons. rewrite decide_False by done. by rewrite IH.
Qed.

Lemma split_at_none c l : c ∉ l -> split_at c l = None.
Proof.
  induction l as [|x l IH]; cbn [split_at]; [done|].
  intros [Hx Hl]%not_elem_of_cons. rewrite decide_False by done. by rewrite IH.
Qed.

Lemma cstr_id l : NUL ∉ l -> cstr l = l.
Proof. intros H. unfold cstr. by rewrite split_at_none. Qed.

Lemma span_text_app f l t : Forall (fun c => f c = true) l -> (forall c t', t = c :: t' -> f c = false) ->
  span_text f (l ++ t) = (l, t).
Proof.
  intros Hl Ht. induction Hl as [|c l Hc _ IH]; cbn [app span_text].
  - destruct t as [|c t]; [done|]. cbn [span_text]. by rewrite (Ht c t).
  - by rewrite Hc, IH.
Qed.

Lemma span_text_cat f l : (span_text f l).1 ++ (span_text f l).2 = l.
Proof. induction l as [|c l IH]; [done|]. cbn [span_text]. destruct (f c); [|done]. cbn. by rewrite IH. Qed.

Lemma scan_word_ok n w t : word_ok n w -> (forall c t', t = c :: t' -> is_space c = true) ->
  scan_word n (SP :: chars w ++ t) = Some (chars w, t) /\ scan_word n (chars w ++ t) = Some (chars w, t).
Proof.
  intros (Hne & Hlen & Hv) Ht.
  assert (Hw : Forall (fun c => negb (is_space c) = true) (chars w)).
  { eapply Forall_impl; [exact Hv|]. intros c [-> _]. done. }
  assert (Hc : exists c l, chars w = c :: l) by (destruct w as [|c w]; [done|]; by eexists _, _).
  destruct Hc as (c & l & Ec).
  assert (Hscan : (span_text is_space (chars w ++ t)).2 = chars w ++ t).
  { rewrite Ec. cbn [app span_text]. rewrite Ec in Hv. apply Forall_cons_1 in Hv as [[-> _] _]. done. }
  assert (Hmain : scan_word n (chars w ++ t) = Some (chars w, t)).
  { unfold scan_word. rewrite Hscan, span_text_app; [|done|].
    - cbn [fst]. rewrite take_ge by (rewrite length_chars; lia). rewrite drop_app_length, Ec. done.
    - intros c' t' ->. by rewrite (Ht c' t'). }
  split; [|done]. unfold scan_word in *. cbn [span_text is_space]. exact Hmain.
Qed.

Lemma lines_of_cons l t cur : LF ∉ l -> lines_of (l ++ LF :: t) cur = (reverse cur ++ l) :: lines_of t [].
Proof.
  revert cur. induction l as [|c l IH]; intros cur; cbn [app lines_of].
  - intros _. rewrite decide_True by done. by rewrite app_nil_r.
  - intros [Hc Hl]%not_elem_of_cons. rewrite decide_False by done. rewrite IH by done.
    by rewrite reverse_cons, <-app_assoc.
Qed.

Lemma lines_of_ended ls : Forall (fun l => LF ∉ l) ls -> lines_of (ended ls ++ [CR]) [] = map (fun l => l ++ [CR]) ls.
Proof.
  intros H. induction H as [|l ls Hl _ IH]; [done|].
  change (ended (l :: ls)) with ((l ++ [CR; LF]) ++ ended ls). rewrite <-!app_assoc. cbn [app].
  change (l ++ CR :: LF :: ended ls ++ [CR]) with (l ++ [CR] ++ LF :: (ended ls ++ [CR])).
  rewrite app_assoc, lines_of_cons; [by rewrite IH|].
  intros [?|?%list_elem_of_singleton]%elem_of_app; done.
Qed.

(** ** Headers *)

Lemma span_same f l : (length l <= length (span_text f l).2)%nat -> (span_text f l).2 = l.
Proof.
  intros H. pose proof (span_text_cat f l) as E. destruct (span_text f l).1 as [|c p]; [done|].
  apply (f_equal length) in E. rewrite length_app in E. simpl in E. lia.
Qed.

Lemma span_shorter f l : (length (span_text f l).2 <= length l)%nat.
Proof. rewrite <-(span_text_cat f l) at 2. rewrite length_app. lia. Qed.

Lemma span_text_snoc f l c : f c = false -> (span_text f (l ++ [c])).2 = (span_text f l).2 ++ [c].
Proof.
  intros H. induction l as [|x l IH]; cbn [app span_text]; [by rewrite H|]. destruct (f x); [|done].
  destruct (span_text f (l ++ [c])), (span_text f l). exact IH.
Qed.

Lemma trim_value v : trim (SP :: v ++ [CR]) = trim v.
Proof.
  unfold trim. cbn [span_text]. change (is_blank SP) with true. cbn [snd].
  destruct (span_text is_blank (v ++ [CR])) as [p q] eqn:E. cbn [snd].
  pose proof (span_text_snoc is_blank v CR eq_refl) as H. rewrite E in H. cbn [snd] in H. subst q.
  rewrite reverse_snoc. cbn [span_text]. change (is_blank_or_cr CR) with true. by destruct (span_text is_blank_or_cr _).
Qed.

Lemma header_lines_ok hs acc : Forall header_shape hs -> (length acc + length hs <= EDB_HTTP_MAX_HEADERS)%nat ->
  header_lines (map (fun h => header_text h ++ [CR]) hs) acc = Some (acc ++ map trimmed hs).
Proof.
  intros H. revert acc. induction H as [|[n v] hs Hh _ IH]; intros acc Hlen; [by rewrite app_nil_r|].
  destruct Hh as (Hn & Hv & Hcol & Hne & Htn). cbn [fst snd] in *. cbn [map header_lines].
  assert (Hb : blank_line (header_text (n, v) ++ [CR]) = false).
  { unfold header_text. cbn [fst snd]. destruct n as [|c n]; [done|]. cbn [chars String.list_ascii_of_string app blank_line].
    apply Forall_cons_1 in Hn as [(_ & Hc & _) _]. by apply bool_decide_eq_false_2. }
  rewrite Hb. simpl in Hlen. destruct (Nat.leb_spec EDB_HTTP_MAX_HEADERS (length acc)); [lia|].
  unfold header_text. cbn [fst snd]. rewrite <-app_assoc. cbn [app]. rewrite split_at_app by done.
  rewrite Htn, trim_value, str_chars. rewrite IH; [by rewrite <-app_assoc|]. rewrite length_app. simpl. lia.
Qed.

Lemma all_digits_decimal fuel n t : 0 <= n -> all_digits t = true -> all_digits (decimal fuel n t) = true.
Proof.
  assert (Hd : forall d, 0 <= d < 10 -> char_in (digit_char d) 48 57 = true).
  { intros d Hd. pose proof (digit_cases d Hd) as Hc. repeat destruct Hc as [->|Hc]; try subst d; done. }
  revert n t. induction fuel as [|fuel IH]; intros n t Hn Ht; [done|]. cbn [decimal].
  destruct (Z.ltb_spec n 10).
  - cbn [all_digits]. by rewrite Hd, Ht by lia.
  - apply IH; [apply Z.div_pos; lia|]. cbn [all_digits]. rewrite Ht, Hd; [done|]. apply Z.mod_pos_bound. lia.
Qed.

Lemma find_header_none hs name : Forall (fun h => strcasecmp_eq h.1 name = false) hs -> find_header hs name = None.
Proof. intros H. unfold find_header. induction H as [|h hs Hh _ IH]; [done|]. cbn [List.find]. by rewrite Hh. Qed.

Lemma find_header_some n v hs hs' name : Forall (fun h => strcasecmp_eq h.1 name = false) hs -> strcasecmp_eq n name = true ->
  find_header (hs ++ (n, v) :: hs') name = Some v.
Proof.
  intros H Hn. unfold find_header. induction H as [|h hs Hh _ IH]; cbn [app List.find]; cbn [fst].
  - by rewrite Hn.
  - by rewrite Hh.
Qed.

Lemma filter_headers_none hs name : Forall (fun h => strcasecmp_eq h.1 name = false) hs ->
  List.filter (fun h : string * string => strcasecmp_eq h.1 name) hs = [].
Proof. intros H. induction H as [|h hs Hh _ IH]; [done|]. cbn [List.filter]. by rewrite Hh. Qed.

Lemma content_length_ok hs hs' n : 0 <= n <= EDB_HTTP_MAX_BODY_BYTES ->
  Forall (fun h => strcasecmp_eq h.1 "Content-Length" = false) (hs ++ hs') ->
  content_length (hs ++ ("Content-Length"%string, print_u64 n) :: hs') = Some n.
Proof.
  intros Hn [H H']%Forall_app. assert (Hb : EDB_HTTP_MAX_BODY_BYTES < 2 ^ 64) by done.
  unfold content_length. rewrite find_header_some by done. cbn iota beta.
  rewrite List.filter_app, filter_headers_none by done. cbn [app List.filter fst].
  change (strcasecmp_eq "Content-Length" "Content-Length") with true. cbn iota. rewrite filter_headers_none by done.
  change (1 <? length [("Content-Length"%string, print_u64 n)])%nat with false. cbn iota.
  assert (Hd : all_digits (print_u64 n) = true) by (apply all_digits_decimal; [lia|done]).
  assert (Hne : String.eqb (print_u64 n) "" = false).
  { destruct (decimal_head 20 n "") as (d & s & _ & E); [lia|lia|]. unfold print_u64. by rewrite E. }
  rewrite Hd, Hne. cbn [negb orb]. pose proof (text_print_u64 n ltac:(lia)) as Ht. unfold text_u64 in Ht.
  destruct (strtoull (print_u64 n)) as [[parsed rest] erange]. destruct erange; [done|]. cbn [negb andb orb] in *.
  destruct (String.eqb rest ""); [|done]. injection Ht as ->. cbn [negb orb].
  by destruct (Z.ltb_spec EDB_HTTP_MAX_BODY_BYTES n); [lia|].
Qed.

Lemma trim_id l : Forall (fun c => is_blank_or_cr c = false) l -> trim l = l.
Proof.
  assert (Hs : forall f l, Forall (fun c => f c = false) l -> (span_text f l).2 = l).
  { intros f k Hk. destruct Hk as [|c k Hc _]; [done|]. cbn [span_text]. by rewrite Hc. }
  intros H. unfold trim. rewrite (Hs is_blank l).
  - rewrite (Hs is_blank_or_cr (reverse l)); [apply reverse_involutive|]. by apply Forall_reverse.
  - eapply Forall_impl; [exact H|]. intros c. unfold is_blank_or_cr, is_blank.
    rewrite !bool_decide_eq_false. tauto.
Qed.

Lemma digits_shape s : all_digits s = true ->
  Forall in_line (chars s) /\ Forall (fun c => is_blank_or_cr c = false) (chars s).
Proof.
  intros H. induction s as [|c s IH]; [by split; constructor|]. cbn [all_digits] in H.
  apply andb_prop in H as [Hc H]. destruct (IH H) as [I1 I2].
  assert (Hc' : in_line c /\ is_blank_or_cr c = false).
  { unfold in_line, is_blank_or_cr. rewrite bool_decide_eq_false. split_and!; try (intros ->; discriminate Hc).
    intros [-> | [-> | ->]]; discriminate Hc. }
  split; constructor; tauto.
Qed.

Lemma length_header_shape n : 0 <= n -> header_shape ("Content-Length"%string, print_u64 n).
Proof.
  intros Hn. destruct (digits_shape (print_u64 n)) as [H1 H2]; [apply all_digits_decimal; [lia|done]|].
  split_and!; cbn [fst snd]; try done.
  - repeat constructor; by intros [=].
  - by apply (bool_decide_unpack _).
Qed.

Lemma visible_in_line c : visible c -> in_line c.
Proof. intros [Hs Hn]. split; [done|]. by split; intros ->. Qed.

Lemma in_line_ok l : l <> [] -> Forall in_line l -> line_ok l.
Proof.
  intros Hne H. rewrite Forall_forall in H. split; [done|].
  split; intros Hin; by destruct (H _ Hin) as (? & ? & ?).
Qed.

Section sent.
Context (s : sent) (Hwf : well_formed s).

Lemma request_in_line : Forall in_line (request_text s).
Proof using Hwf.
  destruct (wf_method s Hwf) as (_ & _ & Hm), (wf_target s Hwf) as (_ & _ & Ht).
  assert (Hsp : in_line SP) by (repeat split; by intros [=]).
  unfold request_text. apply Forall_app_2; [|constructor; [done|]; apply Forall_app_2; [|constructor; [done|]]].
  - eapply Forall_impl; [exact Hm|]. apply visible_in_line.
  - eapply Forall_impl; [exact Ht|]. apply visible_in_line.
  - repeat constructor; by intros [=].
Qed.

Lemma header_in_line h : header_shape h -> Forall in_line (header_text h).
Proof.
  intros (Hn & Hv & _). unfold header_text. apply Forall_app_2; [done|].
  constructor; [by repeat split; intros [=]|]. constructor; [by repeat split; intros [=]|done].
Qed.

Lemma sent_headers_shape : Forall header_shape (sent_headers s).
Proof using Hwf.
  pose proof (wf_headers s Hwf) as [H1 H2]%Forall_app. unfold sent_headers.
  assert (Hs : forall l, Forall header_printable l -> Forall header_shape l)
    by (intros l Hl; eapply Forall_impl; [exact Hl|]; by intros h [? _]).
  apply Forall_app_2; [by apply Hs|]. constructor; [apply length_header_shape; lia|by apply Hs].
Qed.

Lemma lines_in_line : Forall (Forall in_line) (request_text s :: map header_text (sent_headers s)).
Proof using Hwf.
  constructor; [apply request_in_line|]. apply Forall_map. eapply Forall_impl; [apply sent_headers_shape|].
  apply header_in_line.
Qed.

Lemma lines_ok : Forall line_ok (request_text s :: map header_text (sent_headers s)).
Proof using Hwf.
  constructor.
  - apply in_line_ok; [unfold request_text; by destruct (chars (s_method s))|apply request_in_line].
  - apply Forall_map. eapply Forall_impl; [apply sent_headers_shape|]. intros h Hh.
    apply in_line_ok; [unfold header_text; by destruct (chars h.1)|by apply header_in_line].
Qed.

Lemma head_is_head : is_head (head_text s).
Proof using Hwf.
  pose proof lines_ok as H. unfold head_text.
  destruct (request_text s :: map header_text (sent_headers s)) as [|l ls _] eqn:E using rev_ind; [done|].
  by apply lines_are_head.
Qed.

Lemma request_line_ok :
  request_line (request_text s ++ [CR]) =
    Some (s_method s, target_path (s_target s), target_query (s_target s)).
Proof using Hwf.
  unfold request_line, request_text. rewrite <-app_assoc. cbn [app]. rewrite <-app_assoc.
  destruct (scan_word_ok 15 (s_method s) (SP :: chars (s_target s) ++ (SP :: chars "HTTP/1.1") ++ [CR])) as [_ ->];
    [apply (wf_method s Hwf)|by intros c t' [= <- _]|].
  cbn [mbind option_bind].
  destruct (scan_word_ok 3071 (s_target s) ((SP :: chars "HTTP/1.1") ++ [CR])) as [-> _];
    [apply (wf_target s Hwf)|by intros c t' [= <- _]|].
  cbn [mbind option_bind]. pose proof (wf_path s Hwf) as Hp. pose proof (wf_query s Hwf) as Hq.
  unfold target_path, target_query in *.
  destruct (default (chars (s_target s), []) (split_at "?"%char (chars (s_target s)))) as [path query].
  cbn [fst snd] in *. by rewrite !snprintf_short, str_chars.
Qed.

Lemma sent_headers_trimmed :
  map trimmed (sent_headers s) = map trimmed (s_first s) ++ length_header s :: map trimmed (s_headers s).
Proof.
  unfold sent_headers. rewrite map_app. cbn [map]. do 2 f_equal. unfold trimmed, length_header. cbn [fst snd].
  by rewrite trim_id, str_chars by (apply digits_shape, all_digits_decimal; [lia|done]).
Qed.

Lemma parse_head_ok :
  parse_head (head_text s) = Some (with_body (received s) EmptyString, Z.of_nat (String.length (s_body s))).
Proof using Hwf.
  unfold parse_head, head_text. set (ls := map header_text (sent_headers s)).
  replace (ended (request_text s :: ls) ++ [CR; LF]) with ((ended (request_text s :: ls) ++ [CR]) ++ [LF])
    by (by rewrite <-app_assoc).
  rewrite removelast_last. pose proof lines_in_line as Hl. fold ls in Hl.
  assert (Hn : Forall (fun c => c <> NUL) (ended (request_text s :: ls) ++ [CR])).
  { apply Forall_app_2; [|by repeat constructor; intros [=]]. apply Forall_concat, Forall_map.
    eapply Forall_impl; [exact Hl|]. intros l Hin. apply Forall_app_2; [|by repeat constructor; intros [=]].
    eapply Forall_impl; [exact Hin|]. by intros c [? _]. }
  rewrite cstr_id by (intros Hin; rewrite Forall_forall in Hn; by apply (Hn _ Hin)).
  change (ended (request_text s :: ls)) with ((request_text s ++ [CR; LF]) ++ ended ls).
  replace (((request_text s ++ [CR; LF]) ++ ended ls) ++ [CR]) with ((request_text s ++ [CR]) ++ LF :: (ended ls ++ [CR]))
    by (by rewrite <-!app_assoc).
  assert (Hno : forall l, Forall in_line l -> LF ∉ l).
  { intros l Hin Hlf. rewrite Forall_forall in Hin. by destruct (Hin _ Hlf) as (_ & _ & ?). }
  rewrite split_at_app.
  2: { intros [Hin|Hin%list_elem_of_singleton]%elem_of_app; [|done]. by apply (Hno _ request_in_line). }
  cbn [mbind option_bind]. rewrite request_line_ok. cbn [mbind option_bind].
  rewrite lines_of_ended.
  2: { apply Forall_inv_tail in Hl. eapply Forall_impl; [exact Hl|]. apply Hno. }
  unfold ls. rewrite map_map, header_lines_ok; [|apply sent_headers_shape|].
  2: { pose proof (wf_count s Hwf) as Hc. unfold sent_headers. rewrite length_app in *. simpl. lia. }
  cbn [mbind option_bind app].
  pose proof (wf_headers s Hwf) as Hh. rewrite sent_headers_trimmed.
  assert (Hall : forall name, (forall h, header_printable h -> strcasecmp_eq h.1 name = false) ->
    Forall (fun h => strcasecmp_eq h.1 name = false) (map trimmed (s_first s) ++ map trimmed (s_headers s))).
  { intros name Hname. rewrite <-map_app. apply Forall_map. eapply Forall_impl; [exact Hh|]. apply Hname. }
  unfold length_header. rewrite content_length_ok; [|pose proof (wf_body s Hwf); lia|apply Hall; by intros h (_ & ? & _)].
  cbn [mbind option_bind]. destruct (proj1 (Forall_app _ _ _) (Hall "Transfer-Encoding"%string ltac:(by intros h (_ & _ & ?)))) as [H1 H2].
  rewrite find_header_none; [|apply Forall_app_2; [done|by constructor]].
  unfold received, with_body. rewrite sent_headers_trimmed. done.
Qed.

Context (stale : list (string * string) -> list (string * string)).

(** The steps that cut the request out of any buffer and any segments. *)
Lemma parse_steps rb net rest (need := Z.of_nat (length (print_request s))) :
  stream_ok rb net -> rb_data rb ++ concat net = print_request s ++ rest ->
  exists rb1 net1 rb2 rb3 net3 rb',
    read_head (S (pending net)) rb net 0 = Some (length (head_text s), rb1, net1) /\
    recv_reserve rb1 (need + 1) = Some rb2 /\ read_body (S (pending net1)) rb2 net1 need = Some (rb3, net3) /\
    parse_request_full stale rb net = Some (with_headers (received s) (headers_after stale rb2 rb3 (rq_headers (received s))), rb', net3) /\
    stream_ok rb1 net1 /\ rb_data rb1 ++ concat net1 = print_request s ++ rest /\ (length (head_text s) <= length (rb_data rb1))%nat /\
    (need <= blen (rb_data rb1) \/ need + 4096 <= rb_cap rb2 -> rb_cap rb3 = rb_cap rb2) /\
    stream_ok rb' net3 /\ rb_data rb' ++ concat net3 = rest.
Proof using Hwf.
  intros Hok E. unfold parse_request_full, print_request in *. rewrite <-app_assoc in E.
  destruct (read_head_ok (head_text s) (chars (s_body s) ++ rest) (S (pending net)) rb net 0) as (rb1 & net1 & Eh & Hok1 & E1 & Hl1 & _);
    [apply head_is_head|apply (wf_head s Hwf)|done|done|lia|apply blen_nonneg|].
  rewrite Eh. cbn [mbind option_bind].
  destruct (Z.ltb_spec EDB_HTTP_MAX_HEADER_BYTES (Z.of_nat (length (head_text s)))) as [Hgt|_].
  { pose proof (wf_head s Hwf). unfold blen in *. lia. }
  replace (take (length (head_text s)) (rb_data rb1)) with (head_text s).
  2: { rewrite <-(take_app_le _ (concat net1)) by done. by rewrite E1, take_app_length. }
  rewrite parse_head_ok. cbn [mbind option_bind]. set (n := String.length (s_body s)).
  assert (Hneed : Z.of_nat (length (head_text s)) + Z.of_nat n = need).
  { unfold need, n. rewrite length_app, length_chars. lia. }
  rewrite Hneed. pose proof (wf_head s Hwf) as Hmh. pose proof (wf_body s Hwf) as Hmb. fold n in Hmb.
  assert (Hbig : EDB_HTTP_MAX_HEADER_BYTES + EDB_HTTP_MAX_BODY_BYTES + 1 < 2 ^ 61) by done.
  destruct (recv_reserve_ok rb1 (need + 1)) as [rb2 E2]; [apply Hok1|unfold blen in *; lia|].
  destruct (recv_reserve_bound _ _ _ (proj1 Hok1) E2) as (Hd2 & Hb2 & _). rewrite E2. cbn [mbind option_bind].
  assert (Hok2 : stream_ok rb2 net1) by (destruct Hok1 as (_ & ? & ?); split; [done|]; by rewrite Hd2).
  destruct (read_body_ok (head_text s ++ chars (s_body s) ++ rest) (S (pending net1)) rb2 net1 need)
    as (rb3 & net3 & E3' & Hok3 & E3 & Hl3 & Hsame).
  { done. } { by rewrite Hd2. } { rewrite <-Hneed. unfold blen, n. rewrite !length_app, length_chars. lia. } { lia. }
  rewrite E3'. cbn [mbind option_bind].
  assert (exists q, rb_data rb3 = head_text s ++ chars (s_body s) ++ q) as [q Hq].
  { exists (drop (length (head_text s ++ chars (s_body s))) (rb_data rb3)). rewrite app_assoc.
    rewrite <-(take_drop (length (head_text s ++ chars (s_body s))) (rb_data rb3)) at 1. f_equal.
    rewrite <-(take_app_le _ (concat net3)).
    - by rewrite E3, app_assoc, take_app_length.
    - unfold need, blen in Hl3. lia. }
  assert (Hn : Z.to_nat (Z.of_nat n) = length (chars (s_body s))) by (rewrite length_chars; lia).
  rewrite Hq, Hn, drop_app_length, take_app_length, drop_app_length, str_chars.
  rewrite Hq, <-!app_assoc in E3. apply app_inv_head, app_inv_head in E3.
  eexists rb1, net1, rb2, rb3, net3, _. rewrite <-app_assoc. rewrite Hd2 in Hsame. cbn [rb_data]. split_and!; try done.
  destruct Hok3 as ([H1 H1'] & H2 & H3). cbn [rb_data]. unfold blen in *. rewrite Hq in H1, H3. repeat rewrite length_app in H1. repeat rewrite length_app in H3.
  split_and!; [split; cbn [rb_data rb_cap]; [unfold blen; lia|done]|done|]. cbn [rb_data]. unfold blen. rewrite !length_app. lia.
Qed.

(** A request as a handler may get it: as it was sent, unless it is of more
    than 4096 bytes and has a body, so that the buffer can be moved under its
    headers. *)
Definition arrives (req : edb_http_request) : Prop :=
  req = received s \/
  (4096 < blen (print_request s) /\ s_body s <> ""%string /\ req = with_headers (received s) (stale (rq_headers (received s)))).

(** The request and what follows it, from any buffer and any segments. *)
Lemma parse_sent rb net rest :
  stream_ok rb net -> rb_data rb ++ concat net = print_request s ++ rest ->
  exists req rb' net', parse_request_full stale rb net = Some (req, rb', net') /\ arrives req /\ stream_ok rb' net' /\
    rb_data rb' ++ concat net' = rest.
Proof using Hwf.
  intros Hok E. destruct (parse_steps rb net rest Hok E) as (rb1 & net1 & rb2 & rb3 & net3 & rb' & _ & E2 & _ & Ep & Hok1 & E1 & Hl1 & Hsame & Hok' & E').
  eexists _, rb', net3. split; [exact Ep|]. split; [|done]. unfold arrives, headers_after.
  destruct (Z.eqb_spec (rb_cap rb3) (rb_cap rb2)) as [|Hmoved]; [by left|right].
  destruct (recv_reserve_bound _ _ _ (proj1 Hok1) E2) as (_ & [_ Hb2] & Hn2 & _ & _).
  split_and!; [| |done].
  - destruct (decide (4096 < blen (print_request s))) as [|Hle]; [done|]. destruct Hmoved. apply Hsame. right. unfold blen in *. lia.
  - intros Hempty. destruct Hmoved. apply Hsame. left. unfold print_request, blen. rewrite Hempty. cbn [chars String.list_ascii_of_string].
    rewrite app_nil_r. lia.
Qed.

(** A request that comes as one segment arrives as it was sent. *)
Lemma parse_whole : blen (print_request s) < 2 ^ 60 ->
  exists rb', parse_request_full stale (RecvBuf [] 0) [print_request s] = Some (received s, rb', []) /\ rb_data rb' = [].
Proof using Hwf.
  intros Hlen. assert (Hne : print_request s <> []) by (unfold print_request, head_text; by destruct (ended _)).
  assert (Hok : stream_ok (RecvBuf [] 0) [print_request s]).
  { split_and!; [by split; [|left]|by constructor|]. cbn [rb_data concat app]. by rewrite app_nil_r. }
  destruct (parse_steps (RecvBuf [] 0) [print_request s] [] Hok) as (rb1 & net1 & rb2 & rb3 & net3 & rb' & Eh & E2 & E3 & Ep & Hok1 & E1 & Hl1 & Hsame & (_ & Hsegs & _) & E').
  { done. }
  assert (Ho : one_left rb1 net1).
  { eapply read_head_one; [exact (proj1 Hok)| |exact Eh]. right. by exists (print_request s). }
  destruct (recv_reserve_bound _ _ _ (proj1 Hok1) E2) as (Hd2 & [_ Hb2] & Hn2 & Hgrown & _).
  rewrite app_nil_r in E1. apply (f_equal blen) in E1.
  assert (Hcap : rb_cap rb3 = rb_cap rb2).
  { eapply read_body_one; [| |exact E3].
    - intros seg ->. destruct Ho as [|(seg' & [= <-] & Hseg & Hfull)]; [done|].
      unfold blen in *. rewrite length_app in E1. cbn [concat] in E1. rewrite app_nil_r in E1. rewrite Hd2.
      destruct Hgrown as [->|(Hlt & H8 & H2)]; [destruct seg; [done|]; cbn [length] in *; lia|].
      destruct Hok1 as ([_ Hb1] & _). assert (0 < length (head_text s))%nat by (unfold head_text; rewrite length_app; simpl; lia). lia.
    - destruct Ho as [->|(seg & -> & _)]; [by left|right; by eexists]. }
  apply app_eq_nil in E' as [Ed En]. assert (net3 = []) as -> by (destruct Hsegs as [|[|??] ? ?]; done).
  exists rb'. split; [|done]. rewrite Ep. unfold headers_after. rewrite Hcap, Z.eqb_refl. done.
Qed.

(** C28: A well-formed request is cut out of the stream exactly,
    however the stream is cut into segments and however much of it is in the
    buffer already: method, path, query and body are those that were sent, and
    what follows the request is left for the next one. The headers are those
    that were sent too (values without the blanks around them) when the request
    has no body or is of at most 4096 bytes; otherwise they may be what is read
    through pointers into a buffer that was moved. *)
Theorem parse_printed rb net rest :
  stream_ok rb net -> rb_data rb ++ concat net = print_request s ++ rest ->
  exists req rb' net', parse_request_full stale rb net = Some (req, rb', net') /\ stream_ok rb' net' /\
    rb_data rb' ++ concat net' = rest /\
    req = with_headers (received s) (rq_headers req) /\
    (rq_headers req = map trimmed (sent_headers s) \/ rq_headers req = stale (map trimmed (sent_headers s))) /\
    (s_body s = ""%string \/ blen (print_request s) <= 4096 -> req = received s).
Proof using Hwf.
  intros Hok E. destruct (parse_sent rb net rest Hok E) as (req & rb' & net' & Ep & Ha & Hok' & E').
  exists req, rb', net'. split; [done|]. split; [done|]. split; [done|].
  destruct Ha as [->|(Hbig & Hbody & ->)]; split_and!; try done; [by left|by right|]. intros [|]; [done|lia].
Qed.
End sent.

(** ** A connection *)

Lemma print_request_length s : (0 < length (print_request s))%nat.
Proof. unfold print_request, head_text. rewrite !length_app. simpl. lia. Qed.

Lemma parse_nothing stale rb : rb_data rb = [] -> parse_request_full stale rb [] = None.
Proof.
  intros E. unfold parse_request_full. cbn [pending concat length read_head]. rewrite E.
  change (find_head_end []) with (@None nat). cbn iota.
  destruct (Z.ltb_spec EDB_HTTP_MAX_HEADER_BYTES 0); [done|]. unfold recv_append.
  destruct (if rb_cap rb - blen (rb_data rb) <? 4096 then recv_reserve rb (blen (rb_data rb) + 4096) else Some rb); done.
Qed.

Lemma concat_nil (net : list text) : Forall (fun seg => seg <> []) net -> concat net = [] -> net = [].
Proof. intros [|[|c seg] net' Hne _]; [done|done|]. by intros [=]. Qed.

(** What of a request is copied out of the buffer. *)
Definition method_target_and_body (req : edb_http_request) : string * string * string * string :=
  (rq_method req, rq_path req, rq_query req, rq_body req).

Section connection.
Context {G : Type} (files : string -> option string) (stale : list (string * string) -> list (string * string)).
Context (srv : edb_http_server G) (trusted : bool) (peer_ip : string).

(** The requests one after the other, each dispatched and answered, until a
    handler or a client wants the connection closed. *)
Fixpoint serve (rs : list edb_http_request) : st G (list string) :=
  match rs with
  | [] => mret []
  | req :: rs =>
      let req := from_peer trusted peer_ip req in
      r ← dispatch files srv req;
      let keep := r.1 && negb (wants_close req) in
      rest ← (if keep : bool then serve rs else mret []);
      mret (write_response r.2 keep :: rest)
  end.

Lemma conn_loop_step fuel req reqs rb net rb' net' g : parse_request_full stale rb net = Some (req, rb', net') ->
  (forall g, conn_loop files stale fuel srv trusted peer_ip rb' net' g = serve reqs g) ->
  conn_loop files stale (S fuel) srv trusted peer_ip rb net g = serve (req :: reqs) g.
Proof.
  intros E H. cbn [conn_loop serve]. rewrite E, !st_bind_run. set (r := dispatch files srv (from_peer trusted peer_ip req) g). cbn zeta.
  destruct (r.1.1 && negb (wants_close (from_peer trusted peer_ip req))); [|done]. by rewrite H.
Qed.

Lemma conn_loop_serve rs fuel rb net :
  Forall well_formed rs -> stream_ok rb net -> rb_data rb ++ concat net = concat (map print_request rs) ->
  (length (rb_data rb ++ concat net) < fuel)%nat ->
  exists reqs, Forall2 (fun s => arrives s stale) rs reqs /\
    forall g, conn_loop files stale fuel srv trusted peer_ip rb net g = serve reqs g.
Proof.
  intros H. revert fuel rb net. induction H as [|s rs Hs _ IH]; intros fuel rb net Hok E Hf.
  - exists []. split; [done|]. intros g. apply app_eq_nil in E as [Ed En]. rewrite (concat_nil net) by (apply Hok || done).
    destruct fuel as [|fuel]; [lia|]. cbn [conn_loop]. by rewrite parse_nothing.
  - destruct fuel as [|fuel]; [lia|]. cbn [map concat] in E.
    destruct (parse_sent s Hs stale rb net _ Hok E) as (req & rb' & net' & Ep & Ha & Hok' & E').
    destruct (IH fuel rb' net' Hok' E') as (reqs & Hreqs & Hrun).
    { rewrite E', <-(app_nil_r (concat _)). rewrite E, length_app in Hf. pose proof (print_request_length s). rewrite app_nil_r. lia. }
    exists (req :: reqs). split; [by constructor|]. intros g. by apply (conn_loop_step _ _ _ _ _ _ _ _ Ep).
Qed.

(** One request in one segment. *)
Lemma conn_main_whole s g : well_formed s -> blen (print_request s) < 2 ^ 60 ->
  conn_main files stale srv trusted peer_ip [print_request s] g = serve [received s] g.
Proof.
  intros Hs Hlen. unfold conn_main. destruct (parse_whole s Hs stale Hlen) as (rb' & Ep & Ed).
  apply (conn_loop_step _ _ _ _ _ _ _ _ Ep). intros g'. unfold pending. cbn [concat]. rewrite app_nil_r.
  pose proof (print_request_length s) as Hp. destruct (length (print_request s)); [lia|]. cbn [conn_loop]. by rewrite parse_nothing.
Qed.

(** C27: A connection on which well-formed requests arrive, however
    segmented and however many at once, dispatches them one by one in order and
    sends one response for each, until a handler or a [Connection: close] ends
    it or the requests are used up. Each is dispatched as it was sent when it
    has no body or is of at most 4096 bytes; of a longer one the headers may be
    what is read through pointers into a buffer that was moved. *)
Theorem connection_in_order rs net
  (Hrs : Forall well_formed rs) (Hnet : Forall (fun seg => seg <> []) net)
  (Hall : concat net = concat (map print_request rs)) (Hlen : blen (concat net) < 2 ^ 60) :
  exists reqs,
    (forall g, conn_main files stale srv trusted peer_ip net g = serve reqs g) /\
    Forall2 (fun s req => method_target_and_body req = method_target_and_body (received s) /\
      (s_body s = ""%string \/ blen (print_request s) <= 4096 -> req = received s)) rs reqs.
Proof.
  unfold conn_main. destruct (conn_loop_serve rs (S (pending net)) (RecvBuf [] 0) net) as (reqs & Hreqs & Hrun); [done| |done|unfold pending; cbn [rb_data app]; lia|].
  { split_and!; [by split; [|left]|done|done]. }
  exists reqs. split; [exact Hrun|]. eapply Forall2_impl; [exact Hreqs|].
  intros s req [->|(Hbig & Hbody & ->)]; split; try done. intros [|]; [done|lia].
Qed.
End connection.

(** ** What is accepted *)

Lemma recv_append_stream rb net n rb' net' : recv_append rb net = Some (n, rb', net') ->
  rb_data rb' ++ concat net' = rb_data rb ++ concat net.
Proof.
  unfold recv_append. intros H.
  destruct (if rb_cap rb - blen (rb_data rb) <? 4096 then recv_reserve rb (blen (rb_data rb) + 4096) else Some rb)
    as [rb1|] eqn:E1; [|done].
  assert (Hd : rb_data rb1 = rb_data rb).
  { destruct (_ <? _); [|by injection E1 as <-]. unfold recv_reserve in E1.
    destruct (_ <=? _); [by injection E1 as <-|]. destruct (double_until _ _ _); [|done]. by injection E1 as <-. }
  cbn [mbind option_bind] in H. unfold recv in H. destruct net as [|[|c seg] net]; [done|done|].
  cbn [mbind option_bind] in H. injection H as _ <- <-. cbn [rb_data]. rewrite Hd, <-app_assoc. f_equal.
  cbn [concat]. rewrite <-(take_drop (Z.to_nat (rb_cap rb1 - blen (rb_data rb))) (c :: seg)) at 3.
  rewrite <-app_assoc. f_equal. by destruct (drop _ (c :: seg)).
Qed.

Lemma read_head_stream fuel rb net total n rb' net' : read_head fuel rb net total = Some (n, rb', net') ->
  rb_data rb' ++ concat net' = rb_data rb ++ concat net /\ find_head_end (rb_data rb') = Some n.
Proof.
  revert rb net total. induction fuel as [|fuel IH]; intros rb net total; cbn [read_head];
    destruct (find_head_end (rb_data rb)) as [k|] eqn:E; try (by intros [= -> -> ->]);
    destruct (_ <? _); try done.
  destruct (recv_append rb net) as [[[m rb1] net1]|] eqn:E1; [|done]. cbn [mbind option_bind].
  intros H. destruct (IH _ _ _ H) as [H1 H2]. split; [|done]. by rewrite H1, (recv_append_stream _ _ _ _ _ E1).
Qed.

Lemma read_body_stream fuel rb net need rb' net' : read_body fuel rb net need = Some (rb', net') ->
  rb_data rb' ++ concat net' = rb_data rb ++ concat net /\ need <= blen (rb_data rb').
Proof.
  revert rb net. induction fuel as [|fuel IH]; intros rb net; cbn [read_body];
    destruct (Z.leb_spec need (blen (rb_data rb))) as [Hle|Hlt]; try (by intros [= -> ->]); try done.
  destruct (recv_append rb net) as [[[m rb1] net1]|] eqn:E1; [|done]. cbn [mbind option_bind].
  intros H. destruct (IH _ _ H) as [H1 H2]. split; [|done]. by rewrite H1, (recv_append_stream _ _ _ _ _ E1).
Qed.

Lemma find_head_end_length l n : find_head_end l = Some n -> (n <= length l)%nat.
Proof.
  assert (Hf : forall needle i, buf_find l needle = Some i -> (i + length needle <= length l)%nat).
  { intros needle i Hi. destruct (buf_find_Some _ _ _ Hi) as (H1 & H2 & _).
    apply (f_equal length) in H1. rewrite length_take, length_drop in H1. lia. }
  unfold find_head_end. destruct (4 <=? blen l); [destruct (buf_find l CRLF2) as [i|] eqn:E1|].
  - intros [= <-]. by apply (Hf CRLF2).
  - destruct (2 <=? blen l); [|done]. destruct (buf_find l LF2) as [i|] eqn:E2; [|done].
    intros [= <-]. by apply (Hf LF2).
  - destruct (2 <=? blen l); [|done]. destruct (buf_find l LF2) as [i|] eqn:E2; [|done].
    intros [= <-]. by apply (Hf LF2).
Qed.

Lemma digit_of_nonneg c d : digit_of c = Some d -> 0 <= d.
Proof. unfold digit_of. destruct (_ && _) eqn:E; [|done]. intros [= <-]. apply andb_prop in E as [E _]. lia. Qed.

Lemma read_digits_nonneg acc s : 0 <= acc -> 0 <= (read_digits acc s).1.
Proof.
  revert acc. induction s as [|c s IH]; intros acc Hacc; cbn [read_digits]; [done|].
  destruct (digit_of c) as [d|] eqn:E; [|done]. apply IH. pose proof (digit_of_nonneg c d E). lia.
Qed.

Lemma strtoull_nonneg s : 0 <= (strtoull s).1.1.
Proof.
  unfold strtoull, read_number. set (p := match skip_space s with String "-"%char s' => (true, s') | _ => _ end).
  destruct p as [neg t]. destruct t as [|c t]; [done|]. destruct (digit_of c); [|done].
  pose proof (read_digits_nonneg 0 (String c t) ltac:(lia)) as Hd. destruct (read_digits 0 (String c t)) as [v rest].
  cbn [fst] in Hd. destruct (2 ^ 64 <=? v); [done|]. destruct neg; [apply u64_range|done].
Qed.

Lemma content_length_bounds hs n : content_length hs = Some n -> 0 <= n <= EDB_HTTP_MAX_BODY_BYTES.
Proof.
  unfold content_length. destruct (find_header hs "Content-Length") as [cl|]; [|by intros [= <-]].
  destruct (1 <? _)%nat; [done|]. destruct (_ || _); [done|].
  pose proof (strtoull_nonneg cl) as H. destruct (strtoull cl) as [[parsed rest] erange].
  destruct erange; [done|]. destruct (negb _); [done|]. cbn [orb].
  destruct (Z.ltb_spec EDB_HTTP_MAX_BODY_BYTES parsed); [done|]. intros [= <-]. done.
Qed.

Lemma scan_word_bounds n l w r : scan_word n l = Some (w, r) -> (1 <= length w <= n)%nat.
Proof.
  unfold scan_word. set (k := take n _). assert (Hk : (length k <= n)%nat) by (unfold k; rewrite length_take; lia).
  clearbody k. destruct k as [|c k]; [done|]. intros [= <- _]. simpl in *. lia.
Qed.

Lemma header_lines_bounds ls acc hs : header_lines ls acc = Some hs ->
  (length acc <= EDB_HTTP_MAX_HEADERS)%nat -> (length hs <= EDB_HTTP_MAX_HEADERS)%nat.
Proof.
  revert acc. induction ls as [|l ls IH]; intros acc; cbn [header_lines]; [by intros [= <-]|].
  destruct (blank_line l); [by intros [= <-]|].
  destruct (Nat.leb_spec EDB_HTTP_MAX_HEADERS (length acc)) as [|Hlt]; [done|].
  destruct (split_at ":"%char l) as [[n v]|]; [|by apply IH].
  intros H _. eapply IH; [exact H|]. rewrite length_app. simpl. lia.
Qed.

Lemma length_snprintf cap s : (0 < cap)%nat -> (String.length (snprintf cap s) < cap)%nat.
Proof.
  intros Hc. unfold snprintf. assert (forall m t, (String.length (String.substring 0 m t) <= m)%nat) as H.
  { intros m t. revert m. induction t as [|c t IH]; intros [|m]; simpl; try lia. specialize (IH m). lia. }
  specialize (H (cap - 1)%nat s). lia.
Qed.

(** What the server takes from a connection. *)
Record within_bounds (req : edb_http_request) : Prop := {
  wb_method : (1 <= String.length (rq_method req) <= 15)%nat;
  wb_path : (String.length (rq_path req) < 1024)%nat;
  wb_query : (String.length (rq_query req) < 2048)%nat;
  wb_headers : (length (rq_headers req) <= EDB_HTTP_MAX_HEADERS)%nat;
  wb_length : content_length (rq_headers req) = Some (Z.of_nat (String.length (rq_body req)));
  wb_body : Z.of_nat (String.length (rq_body req)) <= EDB_HTTP_MAX_BODY_BYTES;
  wb_chunked : edb_http_header req "Transfer-Encoding" = None;
}.

Lemma parse_head_bounds head req n body : parse_head head = Some (req, n) -> 0 <= n /\
  (Z.of_nat (String.length body) = n -> within_bounds (with_body req body)).
Proof.
  unfold parse_head. intros H.
  destruct (split_at LF _) as [[line rest]|]; [|done]. cbn [mbind option_bind] in H. unfold request_line in H.
  destruct (scan_word 15 line) as [[m r1]|] eqn:Em; [|done]. cbn [mbind option_bind] in H.
  destruct (scan_word 3071 r1) as [[t r2]|]; [|done]. cbn [mbind option_bind] in H.
  destruct (default (t, []) (split_at "?"%char t)) as [path query]. cbn [mbind option_bind] in H.
  destruct (header_lines (lines_of rest []) []) as [hs|] eqn:Eh; [|done]. cbn [mbind option_bind] in H.
  destruct (content_length hs) as [k|] eqn:Ec; [|done]. cbn [mbind option_bind] in H.
  destruct (find_header hs "Transfer-Encoding") eqn:Et; [done|]. injection H as <- ->.
  destruct (content_length_bounds _ _ Ec). split; [done|]. intros Hb. constructor; cbn [with_body rq_method rq_path rq_query rq_headers rq_body].
  - rewrite length_str. by apply scan_word_bounds in Em.
  - apply length_snprintf. lia.
  - apply length_snprintf. lia.
  - eapply header_lines_bounds; [exact Eh|]. simpl. lia.
  - by rewrite Hb.
  - lia.
  - exact Et.
Qed.


(** *** The size of the buffer *)

(** A head that is found in more than was there before ends behind that. *)
Lemma head_end_beyond p q k : find_head_end p = None -> find_head_end (p ++ q) = Some k -> (length p < k)%nat.
Proof.
  intros Hp Hq. destruct (decide (length p < k)%nat) as [|Hle]; [done|]. exfalso.
  assert (Hf : forall needle i, buf_find (p ++ q) needle = Some i -> (i + length needle <= length p)%nat -> is_Some (buf_find p needle)).
  { intros needle i Hi Hin. destruct (buf_find p needle) as [j|] eqn:E; [by eexists|]. destruct (buf_find_Some _ _ _ Hi) as (H1 & _ & _).
    destruct (buf_find_None _ _ E i). rewrite drop_app_le, take_app_le in H1 by (rewrite ?length_drop; lia). done. }
  unfold find_head_end, blen in *. rewrite length_app in Hq.
  destruct (4 <=? Z.of_nat (length p + length q)) eqn:E4; [destruct (buf_find (p ++ q) CRLF2) as [i|] eqn:E1|].
  - injection Hq as <-. destruct (Hf CRLF2 i E1) as [j Hj]; [cbn [length CRLF2]; lia|].
    destruct (Z.leb_spec 4 (Z.of_nat (length p))); [by rewrite Hj in Hp|lia].
  - destruct (2 <=? Z.of_nat (length p + length q)); [|done]. destruct (buf_find (p ++ q) LF2) as [i|] eqn:E2; [|done].
    injection Hq as <-. destruct (Hf LF2 i E2) as [j Hj]; [cbn [length LF2]; lia|].
    destruct (if 4 <=? _ then _ else _); [done|]. destruct (Z.leb_spec 2 (Z.of_nat (length p))); [by rewrite Hj in Hp|lia].
  - destruct (2 <=? Z.of_nat (length p + length q)); [|done]. destruct (buf_find (p ++ q) LF2) as [i|] eqn:E2; [|done].
    injection Hq as <-. destruct (Hf LF2 i E2) as [j Hj]; [cbn [length LF2]; lia|].
    destruct (if 4 <=? _ then _ else _); [done|]. destruct (Z.leb_spec 2 (Z.of_nat (length p))); [by rewrite Hj in Hp|lia].
Qed.

Lemma read_head_prefix fuel rb net total k rb' net' : buf_ok rb -> read_head fuel rb net total = Some (k, rb', net') ->
  rb_data rb `prefix_of` rb_data rb'.
Proof.
  revert rb net total. induction fuel as [|fuel IH]; intros rb net total Hb; cbn [read_head];
    (destruct (find_head_end (rb_data rb)); [by intros [= _ <- _]|]); (destruct (_ <? _); [done|]); [done|].
  destruct (recv_append rb net) as [[[m rb1] net1]|] eqn:E1; [|done]. cbn [mbind option_bind].
  destruct (recv_append_inv _ _ _ _ _ Hb E1) as (got & _ & _ & Hd & _ & Hb1 & _).
  intros H. etrans; [|by apply (IH _ _ _ Hb1 H)]. rewrite Hd. by exists got.
Qed.

Lemma read_head_cap fuel rb net total k rb' net' : buf_ok rb -> read_head fuel rb net total = Some (k, rb', net') ->
  buf_ok rb' /\ rb_cap rb' <= Z.max (rb_cap rb) (2 * (Z.of_nat k + 4096)).
Proof.
  revert rb net total. induction fuel as [|fuel IH]; intros rb net total Hb; cbn [read_head];
    (destruct (find_head_end (rb_data rb)) as [j|] eqn:Ef; [intros [= -> <- <-]; split; [done|lia]|]); (destruct (_ <? _); [done|]); [done|].
  destruct (recv_append rb net) as [[[m rb1] net1]|] eqn:E1; [|done]. cbn [mbind option_bind].
  destruct (recv_append_inv _ _ _ _ _ Hb E1) as (got & _ & _ & Hd & Hcat & Hb1 & _ & Hcap & _).
  intros H. destruct (IH _ _ _ Hb1 H) as [Hb' Hcap']. split; [done|].
  destruct (read_head_stream _ _ _ _ _ _ _ H) as [_ Hf].
  assert (Hlt : (length (rb_data rb) < k)%nat).
  { destruct (read_head_prefix _ _ _ _ _ _ _ Hb1 H) as [q Hq]. rewrite Hd, <-app_assoc in Hq.
    apply (head_end_beyond _ (got ++ q)); [done|]. by rewrite <-Hq. }
  unfold blen in *. lia.
Qed.

Lemma read_body_cap fuel rb net need rb' net' : buf_ok rb -> read_body fuel rb net need = Some (rb', net') ->
  buf_ok rb' /\ rb_cap rb' <= Z.max (rb_cap rb) (2 * (need + 4096)).
Proof.
  revert rb net. induction fuel as [|fuel IH]; intros rb net Hb; cbn [read_body];
    (destruct (Z.leb_spec need (blen (rb_data rb))); [intros [= <- <-]; split; [done|lia]|]); [done|].
  destruct (recv_append rb net) as [[[m rb1] net1]|] eqn:E1; [|done]. cbn [mbind option_bind].
  destruct (recv_append_inv _ _ _ _ _ Hb E1) as (got & _ & _ & Hd & Hcat & Hb1 & _ & Hcap & _).
  intros H1. destruct (IH _ _ Hb1 H1) as [Hb' Hcap']. split; [done|]. lia.
Qed.

(** What a request the server accepts was cut from, and through which buffers. *)
Lemma parse_inv stale rb net req rb' net' : buf_ok rb -> parse_request_full stale rb net = Some (req, rb', net') ->
  exists k n q rb2 rb3, parse_head (take k (rb_data rb3)) = Some (q, n) /\ Z.of_nat k <= EDB_HTTP_MAX_HEADER_BYTES /\ 0 <= n /\
    rb_data rb ++ concat net = rb_data rb3 ++ concat net' /\ (Z.to_nat n <= length (drop k (rb_data rb3)))%nat /\
    req = with_body (with_headers q (headers_after stale rb2 rb3 (rq_headers q))) (str (take (Z.to_nat n) (drop k (rb_data rb3)))) /\
    rb' = RecvBuf (drop (Z.to_nat n) (drop k (rb_data rb3))) (rb_cap rb3) /\ buf_ok rb3 /\
    rb_cap rb3 <= Z.max (rb_cap rb) (2 * (Z.of_nat k + n + 4096)).
Proof.
  intros Hb H. unfold parse_request_full in H.
  destruct (read_head (S (pending net)) rb net 0) as [[[k rb1] net1]|] eqn:E1; [|done]. cbn [mbind option_bind] in H.
  destruct (read_head_stream _ _ _ _ _ _ _ E1) as [S1 Hk]. apply find_head_end_length in Hk.
  destruct (read_head_cap _ _ _ _ _ _ _ Hb E1) as [Hb1 C1].
  destruct (Z.ltb_spec EDB_HTTP_MAX_HEADER_BYTES (Z.of_nat k)) as [|Hle]; [done|].
  destruct (parse_head (take k (rb_data rb1))) as [[q n]|] eqn:E2; [|done]. cbn [mbind option_bind] in H.
  destruct (parse_head_bounds _ _ _ "" E2) as [H0 _].
  destruct (recv_reserve rb1 (Z.of_nat k + n + 1)) as [rb2|] eqn:E3; [|done]. cbn [mbind option_bind] in H.
  destruct (recv_reserve_bound _ _ _ Hb1 E3) as (Hd & Hb2 & _ & _ & C2).
  destruct (read_body (S (pending net1)) rb2 net1 (Z.of_nat k + n)) as [[rb3 net3]|] eqn:E4; [|done].
  destruct (read_body_cap _ _ _ _ _ _ Hb2 E4) as [Hb3 C3].
  cbn [mbind option_bind] in H. injection H as <- <- <-.
  destruct (read_body_stream _ _ _ _ _ _ E4) as [S2 Hn]. rewrite Hd in S2.
  exists k, n, q, rb2, rb3. split_and!; try done.
  - replace (take k (rb_data rb3)) with (take k (rb_data rb1)); [done|].
    rewrite <-(take_app_le (rb_data rb1) (concat net1)), <-(take_app_le (rb_data rb3) (concat net3)) by (unfold blen in *; lia). by rewrite S2.
  - by rewrite S2, S1.
  - unfold blen in *. rewrite length_drop. lia.
  - lia.
Qed.

(** C35: Whatever arrives, a request the server accepts is within
    the bounds of its fields, names its length at most once and is exactly that
    long, and is not chunked (as its headers were parsed); what it consumed is a
    head of at most 32 KB and that body, and the rest of the stream is left as
    it is; and the receive buffer holds what it has and is never grown beyond
    twice the largest request and 4096 bytes. *)
Theorem accepted_within_bounds stale rb net req rb' net' (Hb : buf_ok rb) (H : parse_request_full stale rb net = Some (req, rb', net')) :
  (exists hs, (rq_headers req = hs \/ rq_headers req = stale hs) /\ within_bounds (with_headers req hs)) /\
  (exists head, blen head <= EDB_HTTP_MAX_HEADER_BYTES /\
    rb_data rb ++ concat net = head ++ chars (rq_body req) ++ rb_data rb' ++ concat net') /\
  buf_ok rb' /\ rb_cap rb' <= Z.max (rb_cap rb) (2 * (EDB_HTTP_MAX_HEADER_BYTES + EDB_HTTP_MAX_BODY_BYTES + 4096)).
Proof.
  destruct (parse_inv _ _ _ _ _ _ Hb H) as (k & n & q & rb2 & rb3 & E & Hk & H0 & Hs & Hlen & -> & -> & [Hb3 Hb3'] & Hcap).
  set (body := take (Z.to_nat n) (drop k (rb_data rb3))).
  destruct (parse_head_bounds _ _ _ (str body) E) as [_ Hwb].
  assert (Hbody : length body = Z.to_nat n) by (unfold body; rewrite length_take; lia).
  assert (Hmax : n <= EDB_HTTP_MAX_BODY_BYTES).
  { pose proof (wb_body _ (Hwb ltac:(rewrite length_str, Hbody; lia))) as Hm. cbn [with_body rq_body] in Hm. rewrite length_str in Hm. lia. }
  split_and!.
  - exists (rq_headers q). split.
    + unfold headers_after. cbn [with_body with_headers rq_headers]. destruct (_ =? _); [by left|by right].
    + apply Hwb. rewrite length_str, Hbody. lia.
  - exists (take k (rb_data rb3)). split; [unfold blen; rewrite length_take; lia|].
    cbn [with_body rq_body rb_data]. rewrite chars_str, Hs. unfold body.
    by rewrite (app_assoc (take (Z.to_nat n) _)), take_drop, app_assoc, take_drop.
  - split; cbn [rb_data rb_cap]; [|done]. unfold blen in *. rewrite !length_drop. lia.
  - cbn [rb_cap]. lia.
Qed.

(** The segments decide what is a request when a head ends in
    two bare newlines: the same bytes are a request with an empty line and its
    body, or, when more has arrived already, one whose head reaches into the
    body and whose body is what follows. *)
Theorem framing_depends_on_segments :
  exists a b ra rb' rc rd,
    parse_request_full id (RecvBuf [] 0) [a; b] = Some (ra, rb', []) /\
    parse_request_full id (RecvBuf [] 0) [a ++ b] = Some (rc, rd, []) /\
    rq_path ra = rq_path rc /\ rq_headers ra = rq_headers rc /\
    rq_body ra = str CRLF2 /\ str (rb_data rb') = "abcd"%string /\
    rq_body rc = "abcd"%string /\ rb_data rd = [].
Proof.
  exists (chars "POST /a" ++ LF :: chars "Content-Length: 4" ++ [LF; LF]), (CRLF2 ++ chars "abcd").
  eexists _, _, _, _. split; [vm_compute; reflexivity|]. split; [vm_compute; reflexivity|].
  by vm_compute.
Qed.

(** ** Routing *)

Lemma best_route_spec {G} req static i (rs : list (http_route G)) best best_len :
  (match best with Some b => String.length (rt_prefix b) = best_len | None => best_len = O end) ->
  match best_route req static i rs best best_len with
  | Some r =>
      (best = Some r \/ exists j, rs !! j = Some r /\ Some (i + j)%nat <> static /\ route_matches req r = true) /\
      (best_len <= String.length (rt_prefix r))%nat /\
      forall j r', rs !! j = Some r' -> Some (i + j)%nat <> static -> route_matches req r' = true ->
        (String.length (rt_prefix r') <= String.length (rt_prefix r))%nat
  | None => best = None /\ forall j r', rs !! j = Some r' -> Some (i + j)%nat <> static -> route_matches req r' = false
  end.
Proof.
  revert i best best_len. induction rs as [|r rs IH]; intros i best best_len Hb; cbn [best_route].
  - destruct best as [b|]; [|by split]. split; [by left|]. split; [lia|]. by intros j r' H.
  - assert (Hshift : forall j, (S i + j = i + S j)%nat) by lia.
    destruct (negb (bool_decide (Some i = static)) && route_matches req r && (best_len <=? String.length (rt_prefix r))%nat) eqn:E.
    + apply andb_prop in E as [[E1%negb_true_iff%bool_decide_eq_false E2]%andb_prop E3%Nat.leb_le].
      specialize (IH (S i) (Some r) (String.length (rt_prefix r)) eq_refl).
      destruct (best_route req static (S i) rs (Some r) (String.length (rt_prefix r))) as [q|]; [|by destruct IH].
      destruct IH as (Hin & Hle & Hmax). split.
      * right. destruct Hin as [[= <-]|(j & Hj & Hs & Hm)].
        -- exists O. rewrite Nat.add_0_r. done.
        -- exists (S j). by rewrite <-Hshift.
      * split; [lia|]. intros [|j] r' Hj Hs Hm; [by injection Hj as <-|].
        rewrite <-Hshift in Hs. by eapply Hmax.
    + specialize (IH (S i) best best_len Hb).
      destruct (best_route req static (S i) rs best best_len) as [q|].
      * destruct IH as (Hin & Hle & Hmax). split.
        -- destruct Hin as [->|(j & Hj & Hs & Hm)]; [by left|]. right. exists (S j). by rewrite <-Hshift.
        -- split; [done|]. intros [|j] r' Hj Hs Hm; [|rewrite <-Hshift in Hs; by eapply Hmax].
           injection Hj as <-. rewrite Nat.add_0_r in Hs. rewrite (bool_decide_eq_false_2 _ Hs), Hm in E.
           cbn in E. apply Nat.leb_gt in E. lia.
      * destruct IH as [-> Hno]. split; [done|]. intros [|j] r' Hj Hs; [|rewrite <-Hshift in Hs; by eapply Hno].
        injection Hj as <-. rewrite Nat.add_0_r in Hs. rewrite (bool_decide_eq_false_2 _ Hs) in E. subst best_len.
        by destruct (route_matches req r).
Qed.

(** A request goes to a route of its method whose prefix is the longest that
    its path begins with; to none only when there is none. *)
Lemma find_route_longest {G} (srv : edb_http_server G) req :
  match find_route srv req with
  | Some r =>
      (exists i, routes srv !! i = Some r /\ Some i <> static_route srv) /\ route_matches req r = true /\
      forall i r', routes srv !! i = Some r' -> Some i <> static_route srv -> route_matches req r' = true ->
        (String.length (rt_prefix r') <= String.length (rt_prefix r))%nat
  | None => forall i r', routes srv !! i = Some r' -> Some i <> static_route srv -> route_matches req r' = false
  end.
Proof.
  pose proof (best_route_spec req (static_route srv) 0 (routes srv) None 0 eq_refl) as H. unfold find_route.
  destruct (best_route req (static_route srv) 0 (routes srv) None 0) as [r|]; [|by destruct H].
  destruct H as ([?|(j & Hj & Hs & Hm)] & _ & Hmax); [done|]. split; [by exists j|]. by split.
Qed.

(** ** Witnesses *)

Definition demo_put : sent := Sent "PUT" "/data/d/p/k/x?ttl=5" [] [("Authorization", "Bearer ann")]%string "{}".
Definition demo_get : sent := Sent "GET" "/status" [] [("Connection", "close")]%string "".

Ltac each_char := repeat (apply Forall_cons_2; [by repeat split; intros [=]|]); apply Forall_nil_2.

Lemma demo_well_formed : well_formed demo_put /\ well_formed demo_get.
Proof.
  split; constructor; try done.
  all: try (split; [done|]; split; [cbn; lia|]; each_char).
  all: try (by apply Nat.ltb_lt; vm_compute).
  all: apply Forall_cons_2; [|done]; repeat split; try done; try each_char; by apply (bool_decide_unpack _).
Defined.

Definition demo_wire : text := print_request demo_put ++ print_request demo_get.

(** What is read of freed headers in the samples. *)
Definition freed (hs : list (string * string)) : list (string * string) := [].

Lemma parse_printed_witness : exists req rb' net',
  parse_request_full freed (RecvBuf (take 5 demo_wire) 8192) [take 70 (drop 5 demo_wire); drop 75 demo_wire] =
    Some (req, rb', net') /\ req = received demo_put /\ rb_data rb' ++ concat net' = print_request demo_get.
Proof.
  destruct (parse_printed demo_put (proj1 demo_well_formed) freed (RecvBuf (take 5 demo_wire) 8192) [take 70 (drop 5 demo_wire); drop 75 demo_wire] (print_request demo_get))
    as (req & rb' & net' & H1 & _ & H2 & _ & _ & H3).
  - split; [split; [|by right]; by vm_compute|]. split; [|by vm_compute]. by apply Forall_cons_2; [|apply Forall_cons_2].
  - reflexivity.
  - exists req, rb', net'. split; [exact H1|]. split; [|exact H2]. apply H3. right. by vm_compute.
Defined.

(** A body of 5000 bytes that comes in two parts: the buffer is moved between
    them, and the handler reads freed headers. *)
Definition demo_large : sent := Sent "PUT" "/data/d/p/k/x" [] [("Authorization", "Bearer ann")]%string (str (repeat "1"%char 5000)).

Lemma large_request_loses_headers : exists req rb',
  parse_request_full freed (RecvBuf [] 0) [take 4500 (print_request demo_large); drop 4500 (print_request demo_large)] = Some (req, rb', []) /\
  rq_body req = s_body demo_large /\ rq_headers req = [] /\ rq_headers (received demo_large) <> [].
Proof. eexists _, _. split; [vm_compute; reflexivity|]. split; [by vm_compute|]. by split. Qed.

(** A server that answers with the path and keeps the connection. *)
Definition demo_server : edb_http_server unit :=
  (edb_http_add_handler edb_http_start "PUT" "/data/" (fun req => mret (true, Response 200 JSON_TYPE (Some (rq_path req))))).2.

Lemma connection_in_order_witness :
  conn_main (fun _ => None) freed demo_server false "127.0.0.1" [take 20 demo_wire; drop 20 demo_wire] tt =
    serve (fun _ => None) demo_server false "127.0.0.1" [received demo_put; received demo_get] tt /\
  length (serve (fun _ => None) demo_server false "127.0.0.1" [received demo_put; received demo_get] tt).1 = 2%nat.
Proof.
  split; [|by vm_compute].
  destruct (connection_in_order (fun _ => None) freed demo_server false "127.0.0.1" [demo_put; demo_get] [take 20 demo_wire; drop 20 demo_wire]) as (reqs & H1 & H2).
  - destruct demo_well_formed as [H1 H2]. by apply Forall_cons_2; [|apply Forall_cons_2].
  - by apply Forall_cons_2; [|apply Forall_cons_2].
  - by vm_compute.
  - by vm_compute.
  - rewrite H1. inversion H2 as [|? ? ? ? [_ E1] H2']; subst. inversion H2' as [|? ? ? ? [_ E2] H2'']; subst. inversion H2''; subst.
    rewrite E1, E2; [done|by left|by right; vm_compute].
Defined.

Lemma accepted_within_bounds_witness :
  within_bounds (Request "GET" "/a" "b" [] "" "" false) /\ rb_cap (RecvBuf [] 8192) <= 2 * (EDB_HTTP_MAX_HEADER_BYTES + EDB_HTTP_MAX_BODY_BYTES + 4096).
Proof.
  destruct (accepted_within_bounds freed (RecvBuf [] 0) [chars "GET /a?b" ++ [LF; LF]] (Request "GET" "/a" "b" [] "" "" false) (RecvBuf [] 8192) [])
    as ((hs & Hhs & H1) & _ & _ & H2).
  - by split; [|left].
  - by vm_compute.
  - split; [|exact H2]. cbn [with_headers rq_method rq_path rq_query rq_body rq_peer_ip rq_trusted] in H1.
    destruct Hhs as [<-|Hhs]; [exact H1|]. assert (Hl := wb_length _ H1). constructor; try (cbn; lia); try done.
Defined.

End HttpFacts.
