(* ===== verification/Api.v ===== *)
(** src/api: the state of the HTTP API, its helpers, authentication, the
    sessions of the console and the data routes (epsilon_api.c,
    epsilon_api_data.c, epsilon_api_console.c). Time is an argument of each
    operation; scripts, analytics and the replication service are arguments
    too. Every handler keeps its connection, so a handler gives the response
    only; latencies are not modelled. *)

From S2P Require Import Prelude Json Store Config Shard Cluster Repl ReplHandlers EqlScan EqlExec Http.
From Stdlib Require Import SpecFloat.

Module Api.

Import Json Store Config Shard Cluster Repl ReplHandlers EqlScan EqlExec Http.

(** ** Responses and parameters *)

Definition respond_json `{JsonCodec} (status : Z) (obj : option json) : edb_http_response :=
  Response status JSON_TYPE (json_print <$> obj).

Definition respond_error `{JsonCodec} (status : Z) (message : string) : edb_http_response :=
  respond_json status (Some (JObject [("error", JString message)])).

Definition body_json `{JsonCodec} (req : edb_http_request) : option json :=
  if String.eqb (rq_body req) "" then None else json_parse (rq_body req).

(** The body when it is an object. *)
Definition body_object `{JsonCodec} (req : edb_http_request) : option json :=
  match body_json req with Some (JObject ms) => Some (JObject ms) | _ => None end.

Definition MAX_SAFE : spec_float := double_of_Z (2 ^ 53 - 1).

Definition json_u64_value (item : option json) : option Z :=
  match item with
  | Some (JString t) => text_u64 t
  | Some (JNumber d) =>
      if nonneg d && SFleb d MAX_SAFE && SFeqb (double_of_Z (Z_of_double d)) d then Some (Z_of_double d) else None
  | _ => None
  end.

(** The parts of a query between its ampersands. *)
Fixpoint split_on (c : Ascii.ascii) (s acc : string) : list string :=
  match s with
  | EmptyString => [acc]
  | String x s => if decide (x = c) then acc :: split_on c s EmptyString else split_on c s (acc +:+ String x EmptyString)
  end.

(** The value of a part that is "name=value" with a value that is not empty. *)
Definition param_value (name part : string) : option string :=
  let v := skip_chars (S (String.length name)) part in
  if has_prefix (name +:+ "=") part && negb (String.eqb v "") then Some v else None.

Definition query_param (req : edb_http_request) (name : string) (cap : nat) : option string :=
  snprintf cap <$> head (omap (param_value name) (split_on "&"%char (rq_query req) EmptyString)).

(** ** Throttling *)

Definition EDB_AUTH_MAX_FAILS : Z := 8.
Definition EDB_AUTH_LOCKOUT_SECS : Z := 30.
Definition EDB_AUTH_ATTEMPT_SLOTS : nat := 64.

Record edb_auth_attempt := Attempt { at_ip : string; at_fails : Z; at_locked_until : Z }.

Definition no_attempt : edb_auth_attempt := Attempt EmptyString 0 0.

(** The index of the slot of [ip] from slot [i] on, or of the first that is
    free or no longer locked. *)
Fixpoint slot_from (i : nat) (slots : list edb_auth_attempt) (ip : string) (now : Z) (free : option nat) : option nat :=
  match slots with
  | [] => free
  | a :: slots =>
      if negb (String.eqb (at_ip a) "") && String.eqb (at_ip a) ip then Some i
      else slot_from (S i) slots ip now
             (match free with
              | Some _ => free
              | None => if String.eqb (at_ip a) "" || (at_locked_until a <=? now) then Some i else None
              end)
  end.

Definition auth_slot (slots : list edb_auth_attempt) (ip : string) (now : Z) : option nat := slot_from 0 slots ip now None.

Definition edb_auth_throttled (slots : list edb_auth_attempt) (ip : string) (now : Z) : bool :=
  if String.eqb ip "" then false
  else match auth_slot slots ip now ≫= fun i => slots !! i with
       | Some a => (EDB_AUTH_MAX_FAILS <=? at_fails a) && (now <? at_locked_until a)
       | None => false
       end.

Definition attempt_failed (ip : string) (now : Z) (a : edb_auth_attempt) : edb_auth_attempt :=
  let name := if String.eqb (at_ip a) "" then snprintf 64 ip else at_ip a in
  if (now <? at_locked_until a) && (EDB_AUTH_MAX_FAILS <=? at_fails a)
  then Attempt name (at_fails a) (now + EDB_AUTH_LOCKOUT_SECS)
  else
    let fails := (if at_locked_until a <=? now then 0 else at_fails a) + 1 in
    Attempt name fails (if EDB_AUTH_MAX_FAILS <=? fails then now + EDB_AUTH_LOCKOUT_SECS else at_locked_until a).

Definition edb_auth_throttle_fail (slots : list edb_auth_attempt) (ip : string) (now : Z) : list edb_auth_attempt :=
  if String.eqb ip "" then slots
  else match auth_slot slots ip now with
       | Some i => alter (attempt_failed ip now) i slots
       | None => slots
       end.

(** The first slot of that address is cleared. *)
Fixpoint edb_auth_throttle_reset (slots : list edb_auth_attempt) (ip : string) : list edb_auth_attempt :=
  match slots with
  | [] => []
  | a :: rest =>
      if String.eqb ip "" then slots
      else if String.eqb (at_ip a) ip then no_attempt :: rest else a :: edb_auth_throttle_reset rest ip
  end.

(** ** Sessions *)

Definition EDB_SESSION_CAPACITY : nat := 256.
Definition EDB_SESSION_TTL : Z := 43200.

Record edb_session := Session {
  s_token : string; s_username : string; s_groups : Z; s_expires : Z; s_used : bool;
}.

Definition no_session : edb_session := Session EmptyString EmptyString 0 0 false.

Definition is_session (token : string) (s : edb_session) : bool := s_used s && String.eqb (s_token s) token.

Definition drop_session (s : edb_session) : edb_session :=
  Session (s_token s) (s_username s) (s_groups s) (s_expires s) false.

(** The user and the groups of a session that has not expired; one that has is
    dropped. *)
Definition session_lookup (sessions : list edb_session) (token : string) (now : Z)
    : option (string * Z) * list edb_session :=
  match list_find (fun s => is_session token s = true) sessions with
  | Some (i, s) =>
      if s_expires s <=? now then (None, alter drop_session i sessions)
      else (Some (snprintf 128 (s_username s), s_groups s), sessions)
  | None => (None, sessions)
  end.

Definition slot_free (now : Z) (s : edb_session) : bool := negb (s_used s) || (s_expires s <=? now).

(** The slot a new session takes: the first free one, or the first of all. *)
Definition new_slot (sessions : list edb_session) (now : Z) : nat :=
  match list_find (fun s => slot_free now s = true) sessions with Some (i, _) => i | None => O end.

(** [token] is what [edb_random_hex] wrote: 64 hexadecimal digits. *)
Definition session_create (sessions : list edb_session) (username : string) (groups : Z) (token : string) (now : Z)
    : list edb_session :=
  <[new_slot sessions now := Session (snprintf 65 token) (snprintf 128 username) groups (now + EDB_SESSION_TTL) true]> sessions.

Definition session_destroy (sessions : list edb_session) (token : string) : list edb_session :=
  match list_find (fun s => is_session token s = true) sessions with
  | Some (i, _) => alter drop_session i sessions
  | None => sessions
  end.

(** ** The state of the API *)

(** [g_auth_attempts], [g_sessions], [g_restore_locked], the mesh key of the
    frame codec, and the engine and configuration behind the handlers. *)
Record api (S : Type) := ApiState {
  a_attempts : list edb_auth_attempt;
  a_sessions : list edb_session;
  a_restore_locked : bool;
  a_mesh_key : option (list Z * list Z);
  a_store : S;
}.
Arguments ApiState {S}.
Arguments a_attempts {S}.
Arguments a_sessions {S}.
Arguments a_restore_locked {S}.
Arguments a_mesh_key {S}.
Arguments a_store {S}.

Definition api_start {S} (s : S) : api S :=
  ApiState (repeat no_attempt EDB_AUTH_ATTEMPT_SLOTS) (repeat no_session EDB_SESSION_CAPACITY) false None s.

Definition on_store {S A} (m : st S A) : st (api S) A := fun a =>
  let '(r, s) := m (a_store a) in
  (r, ApiState (a_attempts a) (a_sessions a) (a_restore_locked a) (a_mesh_key a) s).
Definition inspect {S A} (f : api S -> A) : st (api S) A := fun a => (f a, a).
Definition on_attempts {S} (f : list edb_auth_attempt -> list edb_auth_attempt) : st (api S) unit := fun a =>
  (tt, ApiState (f (a_attempts a)) (a_sessions a) (a_restore_locked a) (a_mesh_key a) (a_store a)).
Definition on_sessions {S A} (f : list edb_session -> A * list edb_session) : st (api S) A := fun a =>
  let '(r, ss) := f (a_sessions a) in
  (r, ApiState (a_attempts a) ss (a_restore_locked a) (a_mesh_key a) (a_store a)).
Definition set_restore {S} (locked : bool) : st (api S) unit := fun a =>
  (tt, ApiState (a_attempts a) (a_sessions a) locked (a_mesh_key a) (a_store a)).
Definition set_mesh_key {S} (k : option (list Z * list Z)) : st (api S) unit := fun a =>
  (tt, ApiState (a_attempts a) (a_sessions a) (a_restore_locked a) k (a_store a)).

(** ** Paths *)

Fixpoint skip_slashes (s : string) : string :=
  match s with String "/"%char r => skip_slashes r | _ => s end.

(** [strtok_r(.., "/", ..)]: the next token and what is left. *)
Definition strtok (s : string) : option (string * string) :=
  match skip_slashes s with
  | EmptyString => None
  | s => let '(w, r) := span (fun c => negb (bool_decide (c = "/"%char))) s in Some (w, skip_chars 1 r)
  end.

Fixpoint strtok_all (n : nat) (s : string) : list string :=
  match n with
  | O => []
  | S n => match strtok s with None => [] | Some (w, r) => w :: strtok_all n r end
  end.

Fixpoint strip_slash (s : string) : string :=
  match s with
  | EmptyString => s
  | String c EmptyString => if decide (c = "/"%char) then EmptyString else s
  | String c s => String c (strip_slash s)
  end.

(** Database, partition, keyspace and record key of "/data/{db}/{partition}/{keyspace}/{id}". *)
Definition split_data_path (path : string) : option (string * string * string * string) :=
  if negb (has_prefix "/data/" path) then None
  else
    '(db, r) ← strtok (strip_slash (snprintf 1024 (skip_chars 6 path)));
    '(part, r) ← strtok r;
    '(ks, rest) ← strtok r;
    if String.eqb rest "" || contains "/" rest then None
    else Some (snprintf 128 db, snprintf 256 part, snprintf 128 ks, snprintf 512 rest).

(** ** The handlers *)

(** What scripts that run before a write decide: the document to write, a veto
    with its reason, or an error. *)
Inductive lua_outcome := LuaOk (doc : option json) | LuaRollback (reason : option string) | LuaError.

(** What is reported to the analytics, when they are on. *)
Inductive analytics_event :=
| AnRead (partition keyspace : string)
| AnWrite (partition keyspace : string) (update : bool)
| AnDelete (partition keyspace : string)
| AnQuery (partition keyspace : string) (keys : list string).

(** The replication service, with the reads the data routes use. *)
Record api_repl (S : Type) := ApiRepl {
  ar_service : repl_service S;
  ar_read_get : forall (db partition keyspace id : string), st S (option json);
  ar_read_ids : forall (db partition keyspace : string) (filters : option json), st S (option (list string));
}.
Arguments ar_service {_}.
Arguments ar_read_get {_}.
Arguments ar_read_ids {_}.

Definition ALL_GROUPS : Z := 2 ^ 64 - 1.

Definition fits (cap : nat) (s : string) : bool := (String.length s <? cap)%nat.
Definition keep_fitting (cap : nat) (s : string) : option string := if fits cap s then Some s else None.

Definition without_bearer (hdr : string) : string := if has_prefix "Bearer " hdr then skip_chars 7 hdr else hdr.

Definition header_token (req : edb_http_request) : option string :=
  match edb_http_header req "Authorization" ≫= fun hdr => keep_fitting 256 (without_bearer hdr) with
  | Some token => Some token
  | None => edb_http_header req "authorization" ≫= keep_fitting 256
  end.

Definition not_empty (s : string) : option string := if String.eqb s "" then None else Some s.
Definition keep_password (s : string) : option string := if String.eqb s "" then None else keep_fitting 1024 s.

(** The token and the authorization of a body: both are printed into one
    buffer of 256 bytes, so that one that does not fit leaves its first 255
    characters in the place of a token there was. *)
Definition body_token (token authorization : option string) : option string :=
  match authorization with
  | Some a => if fits 256 a then Some a else (fun _ => snprintf 256 a) <$> token
  | None => token
  end.

(** The name (or token) and the password a request carries: in its headers or
    its query, and, unless both are there, in its body. *)
Definition credentials `{JsonCodec} (req : edb_http_request) : option string * option string :=
  let token := match header_token req with Some t => Some t | None => query_param req "authorization" 256 end in
  let password := edb_http_header req "X-Epsilon-Password" ≫= keep_password in
  match token, password with
  | Some _, Some _ => (token, password)
  | _, _ =>
      match body_json req with
      | None => (token, password)
      | Some body =>
          (body_token token (get_string body "authorization"),
           match password with
           | Some p => Some p
           | None => get_string body "password" ≫= keep_password
           end)
      end
  end.

Section handlers.
Context {S : Type} `{RecordStore S} `{JsonCodec} `{DataEngine S} `{LocalWrites S}.
Context (cfg : edb_config S) (repl : option (api_repl S)) (now : Z).
Context (before : edb_lua_event -> string -> string -> string -> string -> option json -> Z -> st S lua_outcome).
Context (fire : edb_lua_event -> string -> string -> string -> string -> option json -> st S unit).
Context (record : analytics_event -> st S unit).

(** Configuration writes never run scripts. *)
Definition fire_before (ev : edb_lua_event) (db part ks id : string) (doc : option json) (groups : Z)
    : st S lua_outcome :=
  if String.eqb db EDB_SYSTEM_DB then mret (LuaOk doc) else before ev db part ks id doc groups.

(** *** Authentication *)

(** The password of an existing user matches. *)
Definition password_verified (name : string) (password : option string) : st S bool :=
  match password with
  | None => mret false
  | Some p => has ← edb_user_has_password name; if has : bool then edb_user_verify_password name p else mret false
  end.

Definition login_user (req : edb_http_request) (name : string) (password : option string) : st (api S) (bool * Z) :=
  verified ← on_store (password_verified name password);
  if negb verified then
    _ ← on_attempts (fun l => edb_auth_throttle_fail l (rq_peer_ip req) now); mret (false, 0)
  else
    _ ← on_attempts (fun l => edb_auth_throttle_reset l (rq_peer_ip req));
    user ← on_store (edb_user_get name);
    mret (match user with Some u => (true, u_groups u) | None => (false, 0) end).

(** Whether the caller may go on, and its groups. *)
Definition authenticate (req : edb_http_request) : st (api S) (bool * Z) :=
  if rq_trusted req then mret (true, ALL_GROUPS)
  else
    throttled ← inspect (fun a => edb_auth_throttled (a_attempts a) (rq_peer_ip req) now);
    if throttled : bool then mret (false, 0)
    else
      let '(token, password) := credentials req in
      match token ≫= not_empty with
      | Some name =>
          session ← on_sessions (fun ss => session_lookup ss name now);
          match session with
          | Some (_, groups) => mret (true, groups)
          | None => login_user req name password
          end
      | None =>
          users ← on_store edb_user_list;
          mret (true, match users with [] => ALL_GROUPS | _ => 0 end)
      end.

Definition authorize_partition (db part : string) (groups : Z) (perm : edb_permission) : st S bool :=
  p ← edb_partition_get db part;
  mret (match p with None => true | Some p => edb_check_perm (mask_of perm p) groups end).

(** What every route for clients does before it starts: 503 while a restore
    runs, 401 for a caller that is not who it says. *)
Definition locked_out : edb_http_response := respond_error 503 "restore in progress".

Definition authenticated (req : edb_http_request) (k : Z -> st (api S) edb_http_response) : st (api S) edb_http_response :=
  r ← authenticate req;
  if r.1 : bool then k r.2 else mret (respond_error 401 "unauthorized").

Definition authorized (db part : string) (groups : Z) (perm : edb_permission) (k : st (api S) edb_http_response)
    : st (api S) edb_http_response :=
  ok ← on_store (authorize_partition db part groups perm);
  if ok : bool then k else mret (respond_error 403 "permission denied").

Definition unless_restoring (k : st (api S) edb_http_response) : st (api S) edb_http_response :=
  locked ← inspect a_restore_locked;
  if locked : bool then mret locked_out else k.

(** *** PUT, GET and DELETE of a document *)

Definition DATA_PATH : string := "expected /data/{db}/{partition}/{keyspace}/{id}".

(** A sum of two signed 64-bit integers (its overflow is undefined in C and
    wraps here). *)
Definition i64_add (a b : Z) : Z := (a + b + 2 ^ 63) mod 2 ^ 64 - 2 ^ 63.

Definition put_change (db part ks id : string) (value : json) (ttl : Z) : json :=
  JObject [("op", JString "put"); ("db", JString db); ("partition", JString part); ("keyspace", JString ks);
           ("id", JString id); ("value", value); ("ttl_abs", jnum (if 0 <=? ttl then i64_add now ttl else -1));
           ("ts", jnum now)].

(** The timestamp is written as its decimal digits. *)
Definition delete_change (db part ks id : string) : json :=
  JObject [("op", JString "delete"); ("db", JString db); ("partition", JString part); ("keyspace", JString ks);
           ("id", JString id); ("ts", jnum now)].

Definition rejected (reason : option string) : edb_http_response :=
  respond_error 403 (snprintf 640 ("rejected: " +:+ default "script rollback"%string reason)).

Definition ok_with_id (word id : string) : edb_http_response :=
  Response 200 JSON_TYPE
    (Some ("{" +:+ dquote +:+ "status" +:+ dquote +:+ ":" +:+ dquote +:+ word +:+ dquote +:+ "," +:+
           dquote +:+ "id" +:+ dquote +:+ ":" +:+ dquote +:+ id +:+ dquote +:+ "}")).

(** The status of the replicated write, or of the local one. *)
Definition write_document (db part ks id text : string) (value : json) (ttl : Z) : st S edb_repl_status :=
  match repl with
  | Some r => svc_write (ar_service r) db (json_print (put_change db part ks id value ttl))
  | None =>
      ok ← eng_put part ks id text ttl;
      mret (if ok : bool then EDB_REPL_OK else EDB_REPL_LOCAL_FAIL)
  end.

Definition stored_document (db part ks id text : string) (ttl : Z) (update : bool) : st (api S) edb_http_response :=
  match json_parse text, repl with
  | None, Some _ => mret (respond_error 500 "encode failed")
  | value, _ =>
      status ← on_store (write_document db part ks id text (default JNull value) ttl);
      match status with
      | EDB_REPL_QUORUM_LOST => mret (respond_error 503 "quorum unavailable: write rejected")
      | EDB_REPL_LOCAL_FAIL => mret (respond_error 500 "storage failed")
      | EDB_REPL_OK =>
          _ ← on_store (edb_partition_ensure cfg db part ks);
          _ ← on_store (record (AnWrite part ks update));
          _ ← on_store (match repl with
                        | None => api_fire_lua fire (if update then EDB_LUA_AFTER_UPDATE else EDB_LUA_AFTER_INSERT)
                                    db part ks id None
                        | Some _ => mret tt
                        end);
          mret (ok_with_id "ok" id)
      end
  end.

Definition ttl_of (req : edb_http_request) : Z :=
  match query_param req "ttl" 32 with Some t => (strtoll t).1.1 | None => -1 end.

Definition put_document (req : edb_http_request) (db part ks id : string) (doc : json) (groups : Z)
    : st (api S) edb_http_response :=
  existing ← on_store (get_doc part ks id);
  let update := bool_decide (is_Some existing) in
  authorized db part groups (if update then EDB_PERM_UPDATE else EDB_PERM_CREATE)
    (lr ← on_store (fire_before (if update then EDB_LUA_BEFORE_UPDATE else EDB_LUA_BEFORE_INSERT)
                      db part ks id (Some doc) groups);
     match lr with
     | LuaRollback reason => mret (rejected reason)
     | LuaError => mret (respond_error 500 "script error")
     | LuaOk None => mret (respond_error 500 "encode failed")
     | LuaOk (Some doc) => stored_document db part ks id (json_print doc) (ttl_of req) update
     end).

Definition handle_data_put (req : edb_http_request) : st (api S) edb_http_response :=
  match split_data_path (rq_path req) with
  | None => mret (respond_error 400 DATA_PATH)
  | Some (db, part, ks, id) =>
      if contains "filter=" (rq_query req)
      then mret (respond_error 400 "filters apply to reads, not stored records")
      else
        unless_restoring (authenticated req (fun groups =>
          match body_object req with
          | None => mret (respond_error 400 "body must be a JSON object")
          | Some doc => put_document req db part ks id doc groups
          end))
  end.

Definition read_document (db part ks id : string) : st S (option json) :=
  match repl with Some r => ar_read_get r db part ks id | None => get_doc part ks id end.

Definition handle_data_get (req : edb_http_request) : st (api S) edb_http_response :=
  match split_data_path (rq_path req) with
  | None => mret (respond_error 400 DATA_PATH)
  | Some (db, part, ks, id) =>
      unless_restoring (authenticated req (fun groups =>
        authorized db part groups EDB_PERM_READ
          (doc ← on_store (read_document db part ks id);
           _ ← on_store (record (AnRead part ks));
           mret (match doc with
                 | None => respond_error 404 "not found"
                 | Some d => respond_json 200 (Some d)
                 end))))
  end.

Definition remove_document (db part ks id : string) : st S edb_repl_status :=
  match repl with
  | Some r => svc_write (ar_service r) db (json_print (delete_change db part ks id))
  | None => ok ← eng_delete part ks id; mret (if ok : bool then EDB_REPL_OK else EDB_REPL_LOCAL_FAIL)
  end.

Definition delete_document (db part ks id : string) (groups : Z) : st (api S) edb_http_response :=
  deleted ← on_store (get_doc part ks id);
  lr ← on_store (fire_before EDB_LUA_BEFORE_DELETE db part ks id deleted groups);
  match lr with
  | LuaRollback reason => mret (rejected reason)
  | LuaError => mret (respond_error 500 "script error")
  | LuaOk deleted =>
      status ← on_store (remove_document db part ks id);
      match status with
      | EDB_REPL_LOCAL_FAIL => mret (respond_error 500 "delete failed")
      | EDB_REPL_QUORUM_LOST => mret (respond_error 503 "quorum unavailable: delete rejected")
      | EDB_REPL_OK =>
          _ ← on_store (match repl with
                        | None => api_fire_lua fire EDB_LUA_AFTER_DELETE db part ks id deleted
                        | Some _ => mret tt
                        end);
          _ ← on_store (record (AnDelete part ks));
          mret (ok_with_id "deleted" id)
      end
  end.

Definition handle_data_delete (req : edb_http_request) : st (api S) edb_http_response :=
  match split_data_path (rq_path req) with
  | None => mret (respond_error 400 DATA_PATH)
  | Some (db, part, ks, id) =>
      unless_restoring (authenticated req (fun groups =>
        authorized db part groups EDB_PERM_DELETE (delete_document db part ks id groups)))
  end.

(** *** Listings *)

(** At most 64 keyspaces registered under a partition, their names cut to
    their buffer. *)
Definition partition_keyspaces (db part : string) : st S (list string) :=
  l ← edb_keyspace_list;
  mret (take 64 (map (fun k => snprintf 128 (k_name k))
          (List.filter (fun k => String.eqb (k_database k) db && String.eqb (k_partition k) part) l))).

(** The record key first, then the members but one called id. *)
Definition doc_with_id (value : json) (id : string) : json :=
  JObject (("id"%string, JString id) ::
           List.filter (fun m => negb (String.eqb m.1 "id")) (members value)).

Definition flatten_row (row : json) : option json :=
  match get_item row "value" with
  | Some (JObject ms) => Some (doc_with_id (JObject ms) (default EmptyString (get_string row "id")))
  | _ => None
  end.

Definition flatten_meta_rows (meta : json) : json := JArray (omap flatten_row (array_items (Some meta))).

Definition query_meta (db part ks : string) (filters : option json) : st S (option json) :=
  match repl with
  | Some r => svc_query_meta (ar_service r) db part ks filters
  | None => query_ts part ks filters
  end.

Fixpoint gather_rows (db part : string) (kss : list string) (filters : option json) : st S (list json) :=
  match kss with
  | [] => mret []
  | ks :: kss =>
      meta ← query_meta db part ks filters;
      rest ← gather_rows db part kss filters;
      mret (array_items meta ++ rest)
  end.

(** A row as it is sorted: its timestamp and its document. *)
Definition ts_value (row : json) : option (Z * json) :=
  (fun doc => (default 0 (get_ll row "timestamp"), doc)) <$> flatten_row row.

(** [cmp_ts_desc]; the order [qsort] gives rows of one second is not specified. *)
Definition newer_first (x y : Z * json) : Prop := y.1 <= x.1.
#[local] Instance newer_first_dec : RelDecision newer_first := fun x y => Z_le_dec y.1 x.1.

Definition partition_wide_query (db part : string) (filters : option json) : st S json :=
  kss ← partition_keyspaces db part;
  rows ← gather_rows db part kss filters;
  mret (JArray (map snd (merge_sort newer_first (omap ts_value rows)))).

Definition filter_key (f : json) : option string := match f with JObject _ => get_string f "key" | _ => None end.

Definition collect_filter_keys (filters : option json) (cap : nat) : list string :=
  match filters with
  | Some (JArray fs) => take cap (omap filter_key fs)
  | Some (JObject ms) => take cap (option_list (filter_key (JObject ms)))
  | _ => []
  end.

(** The filters of a body; [None] for one that is refused, with the message. *)
Definition body_filters (req : edb_http_request) : option json + string :=
  if String.eqb (rq_body req) "" then inl None
  else match body_json req with
       | None => inr "body must be valid JSON"%string
       | Some body =>
           let filters := match body with
                          | JObject _ => match get_item body "filters" with Some f => f | None => body end
                          | _ => body
                          end in
           if edb_filters_valid (Some filters) then inl (Some filters) else inr "invalid JSON filter"%string
       end.

Definition list_ids (db part ks : string) (filters : option json) : st S json :=
  ids ← match repl with
        | Some r => ar_read_ids r db part ks filters
        | None => ids_of part ks filters
        end;
  mret (JArray (map JString (default [] ids))).

Definition list_documents (db part ks : string) (filters : option json) : st S json :=
  meta ← query_meta db part ks filters;
  mret (match meta with Some m => flatten_meta_rows m | None => JArray [] end).

(** The rest of a listing for an authorized caller; [None] for the keyspace
    means the whole partition. *)
Definition collect_documents (req : edb_http_request) (op db part : string) (ks : option string)
    : st (api S) edb_http_response :=
  match body_filters req with
  | inr message => mret (respond_error 400 message)
  | inl filters =>
      if contains "filter=" (rq_query req) || contains "field=" (rq_query req)
      then mret (respond_error 400 "use structured JSON filters in the body")
      else
        answer ← on_store (if String.eqb op "ids" then list_ids db part (default EmptyString ks) filters
                           else match ks with
                                | None => partition_wide_query db part filters
                                | Some ks => list_documents db part ks filters
                                end);
        _ ← on_store (record (AnQuery part (default EmptyString ks) (collect_filter_keys filters 64)));
        mret (respond_json 200 (Some answer))
  end.

(** What a path asks for: operation, database, partition and keyspace. *)
Definition split_collection (tokens : list string) : option (string * string * string * option string) :=
  match tokens with
  | [db; part; ks; op] => Some (op, snprintf 128 db, snprintf 256 part, Some (snprintf 128 ks))
  | [db; part; op] => if String.eqb op "query" then Some (op, snprintf 128 db, snprintf 256 part, None) else None
  | _ => None
  end.

Definition is_collection (op : string) : bool :=
  String.eqb op "ids" || String.eqb op "all" || String.eqb op "query".

Definition handle_data_collect (req : edb_http_request) : st (api S) edb_http_response :=
  if negb (has_prefix "/data/" (rq_path req)) then mret (respond_error 400 "expected /data/...")
  else
    unless_restoring
      (let tokens := strtok_all 8 (snprintf 1024 (skip_chars 6 (rq_path req))) in
       if negb (is_collection (default EmptyString (last tokens))) then
         if String.eqb (rq_method req) "GET" then handle_data_get req
         else mret (respond_error 404 "unknown operation")
       else
         match split_collection tokens with
         | None => mret (respond_error 400 "expected /data/{db}/{partition}/{keyspace}/<op>")
         | Some (op, db, part, ks) =>
             authenticated req (fun groups =>
               authorized db part groups EDB_PERM_READ (collect_documents req op db part ks))
         end).
End handlers.

End Api.
