(* ===== verification/ApiAdmin.v ===== *)
(** src/api: statements over HTTP (epsilon_api_eql.c), the administration of
    databases, groups, users, partitions and keyspaces (epsilon_api_admin.c),
    settings (epsilon_api_settings.c), the console (epsilon_api_console.c) and
    the table of routes (edb_api_register). *)

From S2P Require Import Prelude Json Store Config Shard Cluster Repl ReplHandlers EqlScan EqlExec Http Api.

Module ApiAdmin.

Import Json Store Config Shard Cluster Repl ReplHandlers EqlScan EqlExec Http Api.

(** Manual maintenance of the shards of a partition: how many were processed. *)
Class Maintenance (S : Type) := {
  eng_vacuum_partition : forall (partition : string), st S Z;
  eng_reindex_partition : forall (partition : string), st S Z;
}.

(** {"word":true}. *)
Definition flag_body (word : string) : string := "{" +:+ dquote +:+ word +:+ dquote +:+ ":true}".
Definition respond_flag (status : Z) (word : string) : edb_http_response :=
  Response status JSON_TYPE (Some (flag_body word)).

(** ** Statements *)

(** The text before and behind the last dot. *)
Fixpoint split_last_dot (s : string) : option (string * string) :=
  match s with
  | EmptyString => None
  | String c s =>
      match split_last_dot s with
      | Some (a, b) => Some (String c a, b)
      | None => if decide (c = "."%char) then Some (EmptyString, s) else None
      end
  end.

Fixpoint split_first_dot (s : string) : option (string * string) :=
  match s with
  | EmptyString => None
  | String c s =>
      if decide (c = "."%char) then Some (EmptyString, s)
      else (fun p => (String c p.1, p.2)) <$> split_first_dot s
  end.

Definition ks_event (kind : eql_kind) (part ks : string) : analytics_event :=
  match kind with
  | EQL_KIND_INSERT => AnWrite part ks false
  | EQL_KIND_UPDATE => AnWrite part ks true
  | EQL_KIND_DELETE => AnDelete part ks
  | _ => AnQuery part ks []
  end.

(** ** Demonstration data *)

(** Texts of JSON, written with single quotes. *)
Fixpoint json_text (s : string) : string :=
  match s with
  | EmptyString => s
  | String c s => String (if decide (c = SQUOTE) then DQUOTE else c) (json_text s)
  end.

(** [DEMO_RECORDS]: partition, keyspace, record key and document. *)
Definition DEMO_RECORDS : list (string * string * string * string) :=
  ([
   ("people", "employees", "e1001",
    "{'name':'Alice Johnson','title':'Software Engineer','department':'Engineering','email':'alice@acme.example','salary':95000,'manager':'e1004','active':true}");
   ("people", "employees", "e1002",
    "{'name':'Bob Smith','title':'Product Manager','department':'Product','email':'bob@acme.example','salary':88000,'manager':'e1004','active':true}");
   ("people", "employees", "e1003",
    "{'name':'Carol Williams','title':'Data Analyst','department':'Data','email':'carol@acme.example','salary':72000,'manager':'e1005','active':true}");
   ("people", "employees", "e1004",
    "{'name':'Dave Brown','title':'Engineering Director','department':'Engineering','email':'dave@acme.example','salary':140000,'manager':null,'active':true}");
   ("people", "employees", "e1005",
    "{'name':'Eve Davis','title':'Head of Data','department':'Data','email':'eve@acme.example','salary':130000,'manager':null,'active':true}");
   ("people", "employees", "e1006",
    "{'name':'Frank Lee','title':'Sales Director','department':'Sales','email':'frank@acme.example','salary':112000,'manager':null,'active':true}");
   ("people", "employees", "e1007",
    "{'name':'Grace Kim','title':'HR Manager','department':'HR','email':'grace@acme.example','salary':76000,'manager':null,'active':true}");
   ("people", "employees", "e1008",
    "{'name':'Henry Adams','title':'QA Engineer','department':'Engineering','email':'henry@acme.example','salary':68000,'manager':'e1004','active':true}");
   ("people", "employees", "e1009",
    "{'name':'Isla Murray','title':'UI Designer','department':'Product','email':'isla@acme.example','salary':71000,'manager':'e1002','active':true}");
   ("people", "employees", "e1010",
    "{'name':'Jack Turner','title':'Platform Engineer','department':'Engineering','email':'jack@acme.example','salary':92000,'manager':'e1004','active':false}");
   ("people", "contractors", "c1001",
    "{'name':'Ivan Petrov','agency':'TechTemps','role':'Backend Contractor','department':'Engineering','day_rate':450,'contract_end':'2026-12-31'}");
   ("people", "contractors", "c1002",
    "{'name':'Julia Reyes','agency':'CodeCrew','role':'Frontend Contractor','department':'Engineering','day_rate':400,'contract_end':'2026-09-30'}");
   ("people", "contractors", "c1003",
    "{'name':'Mike Chen','agency':'DataBridge','role':'Data Engineer','department':'Data','day_rate':480,'contract_end':'2027-03-31'}");
   ("people", "contractors", "c1004",
    "{'name':'Nadia Osei','agency':'CodeCrew','role':'UX Contractor','department':'Product','day_rate':380,'contract_end':'2026-11-30'}");
   ("people", "contractors", "c1005",
    "{'name':'Omar Ali','agency':'StaffLine','role':'Support Contractor','department':'Sales','day_rate':320,'contract_end':'2026-10-31'}");
   ("departments", "depts", "eng",
    "{'name':'Engineering','head':'Dave Brown','budget':2500000,'headcount':42}");
   ("departments", "depts", "prod",
    "{'name':'Product','head':'Bob Smith','budget':900000,'headcount':12}");
   ("departments", "depts", "data",
    "{'name':'Data','head':'Eve Davis','budget':1200000,'headcount':18}");
   ("departments", "depts", "sales",
    "{'name':'Sales','head':'Frank Lee','budget':1500000,'headcount':30}");
   ("departments", "depts", "hr",
    "{'name':'Human Resources','head':'Grace Kim','budget':400000,'headcount':6}");
   ("projects", "projects", "p100",
    "{'name':'Website Redesign','owner':'Product','status':'active','budget':180000,'progress':0.65}");
   ("projects", "projects", "p200",
    "{'name':'Mobile App','owner':'Engineering','status':'active','budget':320000,'progress':0.4}");
   ("projects", "projects", "p300",
    "{'name':'Data Warehouse','owner':'Data','status':'planned','budget':150000,'progress':0.0}");
   ("products", "products", "sku1001",
    "{'name':'Acme Laptop 14','category':'Hardware','price':1299.00,'cost':900.00,'stock':42,'active':true}");
   ("products", "products", "sku1002",
    "{'name':'Acme Wireless Mouse','category':'Peripherals','price':24.99,'cost':8.50,'stock':320,'active':true}");
   ("products", "products", "sku1003",
    "{'name':'Acme Mechanical Keyboard','category':'Peripherals','price':89.00,'cost':45.00,'stock':150,'active':true}");
   ("products", "products", "sku1004",
    "{'name':'Acme 27 4K Monitor','category':'Hardware','price':449.00,'cost':300.00,'stock':75,'active':true}");
   ("products", "products", "sku1005",
    "{'name':'Acme USB-C Dock','category':'Peripherals','price':129.00,'cost':70.00,'stock':0,'active':false}");
   ("products", "products", "sku1006",
    "{'name':'Acme HD Webcam','category':'Peripherals','price':59.00,'cost':30.00,'stock':90,'active':true}");
   ("products", "products", "sku1007",
    "{'name':'Acme Desk Lamp','category':'Accessories','price':39.00,'cost':15.00,'stock':210,'active':true}");
   ("products", "products", "sku1008",
    "{'name':'Acme Laptop Stand','category':'Accessories','price':49.00,'cost':20.00,'stock':130,'active':true}");
   ("products", "suppliers", "sup1001",
    "{'name':'SinoTech Components','country':'China','email':'sales@sinotech.example','lead_time_days':21,'rating':4.2}");
   ("products", "suppliers", "sup1002",
    "{'name':'EuroParts GmbH','country':'Germany','email':'orders@europarts.example','lead_time_days':14,'rating':4.6}");
   ("products", "suppliers", "sup1003",
    "{'name':'Pacific Trade Co','country':'Japan','email':'contact@pacifictrade.example','lead_time_days':18,'rating':4.0}");
   ("products", "suppliers", "sup1004",
    "{'name':'LocalMakers Ltd','country':'United Kingdom','email':'hello@localmakers.example','lead_time_days':5,'rating':4.8}");
   ("locations", "offices", "l1",
    "{'city':'London','country':'United Kingdom','address':'1 Acme Way','headcount':58,'hq':true}");
   ("locations", "offices", "l2",
    "{'city':'New York','country':'United States','address':'500 Park Ave','headcount':34,'hq':false}");
   ("locations", "offices", "l3",
    "{'city':'Berlin','country':'Germany','address':'Mitte 12','headcount':16,'hq':false}")
  ])%string.

Section admin.
Context {S : Type} `{RecordStore S} `{JsonCodec} `{DataEngine S} `{LocalWrites S} `{Sqlite} `{Maintenance S}.
Context (cfg : edb_config S) (repl : option (api_repl S)) (now : Z) (junk : string).
Context (fire : edb_lua_event -> string -> string -> string -> string -> option json -> st S unit).
Context (record : analytics_event -> st S unit).

(** cJSON_CreateRaw of a number: a node that prints as its digits. *)
Context (raw_u64 : Z -> json).

Fixpoint record_all (evs : list analytics_event) : st S unit :=
  match evs with [] => mret tt | e :: evs => _ ← record e; record_all evs end.

(** One event for a reference, or one for each keyspace of its partition. *)
Definition record_ref (kind : eql_kind) (ref : string) : st S unit :=
  match split_first_dot ref with
  | None => mret tt
  | Some (db, p1) =>
      let scratch := snprintf 512 p1 in
      match split_last_dot scratch with
      | Some (part, ks) => record (ks_event kind part ks)
      | None =>
          l ← edb_keyspace_list;
          record_all (map (fun k => ks_event kind scratch (k_name k))
            (List.filter (fun k => String.eqb (k_database k) (snprintf 128 db) && String.eqb (k_partition k) scratch) l))
      end
  end.

Fixpoint record_refs (kind : eql_kind) (refs : list string) : st S unit :=
  match refs with [] => mret tt | r :: refs => _ ← record_ref kind r; record_refs kind refs end.

Definition run_eql (sql : string) (groups : Z) (trusted : bool) : st (api S) edb_http_response :=
  r ← on_store (edb_eql_execute cfg (ar_service <$> repl) now fire junk sql groups trusted);
  _ ← on_store (if r.1 =? 500 then mret tt
                else record_refs (edb_eql_classify sql) (map (snprintf 512) (edb_eql_references sql EQL_MAX_TABLES)));
  mret (match r.2 with
        | Some body => Response r.1 JSON_TYPE (Some body)
        | None => respond_error 500 "engine returned no response"
        end).

Definition handle_eql_common (req : edb_http_request) : st (api S) edb_http_response :=
  unless_restoring
    (match body_object req with
     | None => mret (respond_error 400 "body must be a JSON object")
     | Some body =>
         match get_string body "sql" ≫= not_empty with
         | None => mret (respond_error 400 ("expected a non-empty " +:+ dquote +:+ "sql" +:+ dquote +:+ " string in the body"))
         | Some sql => authenticated now req (fun groups => run_eql sql groups (rq_trusted req))
         end
     end).

(** ** Administration *)

(** Only for callers of the first group. *)
Definition is_admin (groups : Z) : bool := negb (Z.land groups 1 =? 0) || (groups =? ALL_GROUPS).

Definition admin_only (req : edb_http_request) (k : st (api S) edb_http_response) : st (api S) edb_http_response :=
  r ← authenticate now req;
  if negb r.1 then mret (respond_error 401 "unauthorized")
  else if is_admin r.2 then k else mret (respond_error 403 "admin access required").

Definition NOT_ALLOWED : edb_http_response := respond_error 405 "method not allowed".
Definition OBJECT_REQUIRED : edb_http_response := respond_error 400 "JSON object required".

Definition list_json {A} (f : A -> json) (l : list A) : edb_http_response := respond_json 200 (Some (JArray (map f l))).

Definition with_object (req : edb_http_request) (k : json -> st (api S) edb_http_response) : st (api S) edb_http_response :=
  match body_object req with Some body => k body | None => mret OBJECT_REQUIRED end.

Definition done_or (ok : bool) (yes no : edb_http_response) : edb_http_response := if ok then yes else no.

Definition database_json (d : edb_database_info) : json :=
  JObject [("name", JString (d_name d)); ("replication_factor", jnum (d_replication_factor d))].

Definition post_database (body : json) : st (api S) edb_http_response :=
  match get_string body "name", get_item body "replication_factor" with
  | Some name, Some (JNumber rf) =>
      ok ← on_store (edb_database_create cfg name (valueint rf));
      mret (done_or ok (respond_flag 201 "created") (respond_error 409 "create failed (duplicate?)"))
  | _, _ => mret (respond_error 400 "name and replication_factor required")
  end.

Definition handle_admin_databases (req : edb_http_request) : st (api S) edb_http_response :=
  admin_only req
    (if String.eqb (rq_method req) "GET" then l ← on_store edb_database_list; mret (list_json database_json l)
     else if String.eqb (rq_method req) "POST" then with_object req post_database
     else mret NOT_ALLOWED).

Definition group_json (g : edb_group_info) : json :=
  JObject [("name", JString (g_name g)); ("bit_position", raw_u64 (g_bit_position g))].

Definition post_group (body : json) : st (api S) edb_http_response :=
  match get_string body "name" with
  | Some name =>
      ok ← on_store (edb_group_create cfg name);
      mret (done_or ok (respond_flag 201 "created") (respond_error 409 "create failed (duplicate/full)"))
  | None => mret (respond_error 400 "name required")
  end.

Definition handle_admin_groups (req : edb_http_request) : st (api S) edb_http_response :=
  admin_only req
    (if String.eqb (rq_method req) "GET" then l ← on_store edb_group_list; mret (list_json group_json l)
     else if String.eqb (rq_method req) "POST" then with_object req post_group
     else mret NOT_ALLOWED).

Definition user_json (u : edb_user_info) : json :=
  JObject [("name", JString (u_name u)); ("groups", JString (print_u64 (u_groups u)))].

(** Name, groups and password of a body. *)
Definition user_fields (body : json) : option (string * Z * option string) :=
  name ← get_string body "name";
  groups ← json_u64_value (get_item body "groups");
  Some (name, groups, get_string body "password" ≫= not_empty).

(** The password is set after the user was stored; [salt] is random. *)
Definition also_password (salt name : string) (password : option string) (ok : bool) : st S bool :=
  match password with
  | Some p => if ok then edb_user_set_password cfg salt name p else mret false
  | None => mret ok
  end.

Definition post_user (salt : string) (body : json) : st (api S) edb_http_response :=
  match user_fields body with
  | None => mret (respond_error 400 "name and groups required")
  | Some (name, groups, password) =>
      ok ← on_store (edb_user_create cfg name groups);
      ok ← on_store (also_password salt name password ok);
      mret (done_or ok (respond_flag 201 "created") (respond_error 409 "create failed (duplicate?)"))
  end.

Definition put_user (salt : string) (body : json) : st (api S) edb_http_response :=
  match user_fields body with
  | None => mret (respond_error 400 "name and groups required")
  | Some (name, groups, password) =>
      ok ← on_store (edb_user_set_groups cfg name groups);
      ok ← on_store (also_password salt name password ok);
      mret (done_or ok (respond_flag 200 "updated") (respond_error 404 "user not found"))
  end.

Definition handle_admin_users (salt : string) (req : edb_http_request) : st (api S) edb_http_response :=
  admin_only req
    (if String.eqb (rq_method req) "GET" then l ← on_store edb_user_list; mret (list_json user_json l)
     else if String.eqb (rq_method req) "POST" then with_object req (post_user salt)
     else if String.eqb (rq_method req) "PUT" then with_object req (put_user salt)
     else mret NOT_ALLOWED).

Definition partition_json (p : edb_partition_info) : json :=
  JObject [("database", JString (p_database p)); ("name", JString (p_name p));
           ("read_mask", JString (print_u64 (p_read_mask p))); ("update_mask", JString (print_u64 (p_update_mask p)));
           ("create_mask", JString (print_u64 (p_create_mask p))); ("delete_mask", JString (print_u64 (p_delete_mask p)))].

Fixpoint partitions_of (dbs : list edb_database_info) : st S (list edb_partition_info) :=
  match dbs with
  | [] => mret []
  | d :: dbs => l ← edb_partition_list (d_name d); rest ← partitions_of dbs; mret (l ++ rest)
  end.

(** Of one database, or of every database that has a record. *)
Definition list_partitions (db : option string) : st S (list edb_partition_info) :=
  l ← edb_partition_list (default EmptyString db);
  match db with
  | Some _ => mret l
  | None => dbs ← edb_database_list; partitions_of dbs
  end.

(** Database, name and the four masks. *)
Definition partition_fields (body : json) : option (string * string * (Z * Z * Z * Z)) :=
  db ← get_string body "database";
  name ← get_string body "name";
  create ← json_u64_value (get_item body "create_mask");
  update ← json_u64_value (get_item body "update_mask");
  read ← json_u64_value (get_item body "read_mask");
  del ← json_u64_value (get_item body "delete_mask");
  Some (db, name, (create, update, read, del)).

Definition MASKS_REQUIRED : edb_http_response := respond_error 400 "database, name and all four masks required".

Definition post_partition (body : json) : st (api S) edb_http_response :=
  match partition_fields body with
  | None => mret MASKS_REQUIRED
  | Some (db, name, (create, update, read, del)) =>
      ok ← on_store (edb_partition_create cfg db name create update read del);
      mret (done_or ok (respond_flag 201 "created") (respond_error 409 "create failed (duplicate?)"))
  end.

Definition put_partition (body : json) : st (api S) edb_http_response :=
  match partition_fields body with
  | None => mret MASKS_REQUIRED
  | Some (db, name, (create, update, read, del)) =>
      ok ← on_store (edb_partition_set_masks cfg db name create update read del);
      mret (done_or ok (respond_flag 200 "updated") (respond_error 404 "partition not found"))
  end.

Definition handle_admin_partitions (req : edb_http_request) : st (api S) edb_http_response :=
  admin_only req
    (if String.eqb (rq_method req) "GET" then
       l ← on_store (list_partitions (query_param req "database" 128)); mret (list_json partition_json l)
     else if String.eqb (rq_method req) "POST" then with_object req post_partition
     else if String.eqb (rq_method req) "PUT" then with_object req put_partition
     else mret NOT_ALLOWED).

(** sscanf(p, "%127[^/]/%255s"). *)
Definition scan_partition (p : string) : option (string * string) :=
  let '(w, rest) := span (fun c => negb (bool_decide (c = "/"%char))) p in
  if String.eqb w "" || (127 <? String.length w)%nat then None
  else
    match rest with
    | String _ rest => (fun r => (w, str r.1)) <$> scan_word 255 (chars rest)
    | EmptyString => None
    end.

Definition delete_answer (m : st S bool) : st (api S) edb_http_response :=
  ok ← on_store m; mret (done_or ok (respond_flag 200 "deleted") (respond_error 404 "delete failed (not found?)")).

Definition handle_admin_delete (req : edb_http_request) : st (api S) edb_http_response :=
  admin_only req
    (let p := rq_path req in
     if has_prefix "/admin/databases/" p then delete_answer (edb_database_delete cfg (skip_chars 17 p))
     else if has_prefix "/admin/groups/" p then delete_answer (edb_group_delete cfg (skip_chars 14 p))
     else if has_prefix "/admin/users/" p then delete_answer (edb_user_delete cfg (skip_chars 13 p))
     else if has_prefix "/admin/partitions/" p then
       match scan_partition (skip_chars 18 p) with
       | None => mret (respond_error 400 "expected /admin/partitions/<database>/<name>")
       | Some (db, name) => delete_answer (edb_partition_delete cfg db name)
       end
     else mret (respond_error 404 "unknown resource")).

(** Database, partition and action of "{database}/{name}/{action}": the action
    is behind the last slash, the database before the first. *)
Definition split_maintenance (p : string) : option (string * string * string) :=
  let '(db, rest) := span (fun c => negb (bool_decide (c = "/"%char))) p in
  match rest with
  | EmptyString => None
  | String _ rest =>
      match split_at "/"%char (reverse (chars rest)) with
      | None => None
      | Some (action, name) =>
          if (128 <=? String.length db)%nat || (length name =? 0)%nat || (256 <=? length name)%nat then None
          else Some (db, str (reverse name), str (reverse action))
      end
  end.

Definition count_body (word : string) (n : Z) : edb_http_response :=
  Response 200 JSON_TYPE (Some ("{" +:+ dquote +:+ word +:+ dquote +:+ ":" +:+ print_i64 n +:+ "}")).

Definition maintenance_answer (word : string) (m : st S Z) : st (api S) edb_http_response :=
  n ← on_store m;
  mret (if n <? 0 then respond_error 400 "maintenance failed" else count_body word n).

Definition handle_partition_maintenance (req : edb_http_request) : st (api S) edb_http_response :=
  if negb (String.eqb (rq_method req) "POST") then mret NOT_ALLOWED
  else
    admin_only req
      (match split_maintenance (skip_chars 18 (rq_path req)) with
       | None => mret (respond_error 400 "expected /admin/partitions/<database>/<name>/(vacuum|reindex)")
       | Some (_, name, action) =>
           if String.eqb action "vacuum" then maintenance_answer "vacuumed" (eng_vacuum_partition name)
           else if String.eqb action "reindex" then maintenance_answer "reindexed" (eng_reindex_partition name)
           else mret (respond_error 404 "unknown maintenance action")
       end).

Definition keyspace_json (k : edb_keyspace_info) : json :=
  JObject [("database", JString (k_database k)); ("partition", JString (k_partition k)); ("name", JString (k_name k))].

Definition handle_admin_keyspaces (req : edb_http_request) : st (api S) edb_http_response :=
  admin_only req
    (l ← on_store edb_keyspace_list;
     let wanted k := match query_param req "database" 128 with
                     | Some db => String.eqb (k_database k) db
                     | None => true
                     end in
     mret (list_json keyspace_json (List.filter wanted l))).

(** ** Settings *)

Fixpoint settings_json (names : list string) : st S (list json) :=
  match names with
  | [] => mret []
  | name :: names =>
      value ← edb_setting_get name;
      rest ← settings_json names;
      mret (JObject [("name", JString name);
                     ("value", match value ≫= json_parse with
                               | Some v => v
                               | None => JString (default "null"%string value)
                               end)] :: rest)
  end.

Definition get_settings (rest : string) : st (api S) edb_http_response :=
  if String.eqb rest "" then
    l ← on_store (names ← edb_setting_list; settings_json names);
    mret (respond_json 200 (Some (JArray l)))
  else
    value ← on_store (edb_setting_get (skip_chars 1 rest));
    mret (match value with
          | None => respond_error 404 "unknown setting"
          | Some v => Response 200 JSON_TYPE (Some v)
          end).

Definition set_setting (req : edb_http_request) (rest : string) : st (api S) edb_http_response :=
  if String.eqb rest "" then mret (respond_error 400 "expected /admin/settings/<name> with JSON body")
  else
    let name := skip_chars 1 rest in
    match body_json req with
    | None => mret (respond_error 400 "body must be valid JSON")
    | Some v =>
        ok ← on_store (edb_setting_set cfg name (json_print v));
        mret (done_or ok
                (Response 200 JSON_TYPE (Some ("{" +:+ dquote +:+ "set" +:+ dquote +:+ ":" +:+ dquote +:+ name +:+ dquote +:+ "}")))
                (respond_error 500 "setting store failed"))
    end.

Definition delete_setting (rest : string) : st (api S) edb_http_response :=
  if String.eqb rest "" then mret (respond_error 400 "expected /admin/settings/<name>")
  else
    ok ← on_store (edb_setting_delete cfg (skip_chars 1 rest));
    mret (done_or ok (respond_flag 200 "deleted") (respond_error 404 "unknown setting")).

(** "/admin/settings" and what follows it. *)
Definition handle_settings (req : edb_http_request) : st (api S) edb_http_response :=
  admin_only req
    (let rest := skip_chars 15 (rq_path req) in
     if String.eqb (rq_method req) "GET" then get_settings rest
     else if String.eqb (rq_method req) "POST" || String.eqb (rq_method req) "PUT" then set_setting req rest
     else if String.eqb (rq_method req) "DELETE" then delete_setting rest
     else mret NOT_ALLOWED).

(** ** The console *)

Definition bearer_token (req : edb_http_request) : option string :=
  match edb_http_header req "Authorization" with
  | Some hdr => keep_fitting 256 (without_bearer hdr)
  | None => edb_http_header req "authorization" ≫= fun hdr => keep_fitting 256 (without_bearer hdr)
  end.

Definition groups_json (token : option string) (username : string) (groups : Z) : json :=
  JObject (match token with Some t => [("token"%string, JString t)] | None => [] end ++
           [("username"%string, JString username); ("groups"%string, raw_u64 groups)]).

(** The cluster, when there is one. *)
Context (cl : option edb_cluster).

Definition handle_console_state (req : edb_http_request) : st (api S) edb_http_response :=
  admin_exists ← on_store edb_admin_exists;
  user ← match bearer_token req with
         | Some t => on_sessions (fun ss => session_lookup ss t now)
         | None => mret None
         end;
  mret (respond_json 200 (Some (JObject
    [("setup_required", JBool (negb admin_exists));
     ("authenticated", JBool (bool_decide (is_Some user)));
     ("username", JString (default EmptyString (fst <$> user)));
     ("clustered", JBool (bool_decide (is_Some cl)));
     ("peers", jnum (match cl with Some c => Z.of_nat (length (edb_cluster_peers c 64)) | None => 0 end))]))).

(** Remembers a failed or forgets the failed attempts, of clients only. *)
Definition unless_trusted (req : edb_http_request) (f : list edb_auth_attempt -> list edb_auth_attempt) : st (api S) unit :=
  if rq_trusted req then mret tt else on_attempts f.

Definition INVALID_CREDENTIALS : edb_http_response := respond_error 401 "invalid credentials".

Definition open_session (token name : string) (groups : Z) : st (api S) edb_http_response :=
  _ ← on_sessions (fun ss => (tt, session_create ss name groups token now));
  mret (respond_json 200 (Some (groups_json (Some (snprintf 65 token)) name groups))).

(** [token] is random. *)
Definition login_with (req : edb_http_request) (token : string) (body : json) : st (api S) edb_http_response :=
  verified ← on_store (match get_string body "username", get_string body "password" with
                       | Some u, Some p => edb_user_verify_password u p
                       | _, _ => mret false
                       end);
  if negb verified then
    _ ← unless_trusted req (fun l => edb_auth_throttle_fail l (rq_peer_ip req) now); mret INVALID_CREDENTIALS
  else
    user ← on_store (edb_user_get (default EmptyString (get_string body "username")));
    match user with
    | None => mret INVALID_CREDENTIALS
    | Some u =>
        _ ← unless_trusted req (fun l => edb_auth_throttle_reset l (rq_peer_ip req));
        open_session token (u_name u) (u_groups u)
    end.

Definition handle_admin_login (token : string) (req : edb_http_request) : st (api S) edb_http_response :=
  if negb (String.eqb (rq_method req) "POST") then mret NOT_ALLOWED
  else
    throttled ← inspect (fun a => negb (rq_trusted req) && edb_auth_throttled (a_attempts a) (rq_peer_ip req) now);
    if throttled : bool then mret (respond_error 401 "too many failed attempts")
    else with_object req (login_with req token).

Fixpoint seed_records (records : list (string * string * string * string)) : st S unit :=
  match records with
  | [] => mret tt
  | (part, ks, id, text) :: records =>
      _ ← eng_put part ks id (json_text text) (-1);
      _ ← edb_partition_ensure cfg "demo" part ks;
      seed_records records
  end.

Definition seed_demo_data : st S unit :=
  _ ← edb_database_create cfg "demo" 1; seed_records DEMO_RECORDS.

(** The group of the administrators and its bit: created when there is none,
    the first bit when it cannot be. *)
Definition admin_bit : st S Z :=
  _ ← edb_group_create cfg "SysAdmins";
  g ← edb_group_get "SysAdmins";
  mret (match g with Some g => Z.shiftl 1 (g_bit_position g - 1) | None => 1 end).

Definition create_admin (salt token name password : string) : st (api S) edb_http_response :=
  groups ← on_store admin_bit;
  ok ← on_store (edb_user_create cfg name groups);
  if negb ok then mret (respond_error 409 "could not create admin user")
  else
    ok ← on_store (edb_user_set_password cfg salt name password);
    if negb ok then mret (respond_error 500 "could not store password")
    else
      _ ← on_store seed_demo_data;
      open_session token name groups.

(** The mesh keys of the secret are put to use (and written to a file). *)
Definition adopt_secret (secret : option string) (k : st (api S) edb_http_response) : st (api S) edb_http_response :=
  match secret with
  | None => k
  | Some secret =>
      match edb_cluster_derive_keys secret with
      | None => mret (respond_error 400 "invalid cluster secret")
      | Some keys => _ ← set_mesh_key (Some keys); k
      end
  end.

Definition setup_with (salt token : string) (body : json) : st (api S) edb_http_response :=
  let name := snprintf 128 (default "admin"%string (get_string body "username" ≫= not_empty)) in
  match get_string body "password" with
  | Some password =>
      if (String.length password <? 4)%nat || (256 <? String.length password)%nat
      then mret (respond_error 400 "password must be 4-256 characters")
      else adopt_secret (get_string body "secret" ≫= not_empty) (create_admin salt token name password)
  | None => mret (respond_error 400 "password must be 4-256 characters")
  end.

Definition handle_admin_setup (salt token : string) (req : edb_http_request) : st (api S) edb_http_response :=
  if negb (String.eqb (rq_method req) "POST") then mret NOT_ALLOWED
  else
    admin_exists ← on_store edb_admin_exists;
    if admin_exists : bool then mret (respond_error 409 "admin already configured")
    else with_object req (setup_with salt token).

Definition handle_admin_logout (req : edb_http_request) : st (api S) edb_http_response :=
  _ ← match bearer_token req with
      | Some t => on_sessions (fun ss => (tt, session_destroy ss t))
      | None => mret tt
      end;
  mret (respond_flag 200 "ok").

(** ** The restore lock *)

Definition restore_set_locked (locked : bool) : st (api S) unit :=
  _ ← set_restore locked;
  _ ← on_store (edb_setting_set cfg "server.restore_lock" (if locked then "true" else "false"));
  mret tt.

Definition handle_restore (locked : bool) (req : edb_http_request) : st (api S) edb_http_response :=
  if negb (String.eqb (rq_method req) "POST") then mret NOT_ALLOWED
  else
    admin_only req
      (_ ← restore_set_locked locked;
       mret (respond_json 200 (Some (JString (if locked then "locked" else "unlocked"))))).

Definition sw_version : string := "0.0.0".

Definition handle_status (req : edb_http_request) : st (api S) edb_http_response :=
  mret (respond_json 200 (Some (JObject
    [("service", JString "epsilondb"); ("version", JString sw_version); ("clustered", JBool (bool_decide (is_Some cl)))]))).

(** ** Routes *)

(** Scripts before a write, random hexadecimal digits (a salt of 32 and a
    token of 64), and the handlers that are not modelled, by name. *)
Context (before : edb_lua_event -> string -> string -> string -> string -> option json -> Z -> st S lua_outcome).
Context (salt token : string).
Context (other : string -> edb_http_request -> st (api S) edb_http_response).

Definition api_routes : list (string * string * (edb_http_request -> st (api S) edb_http_response)) :=
  [("PUT", "/data/", handle_data_put cfg repl now before fire record);
   ("DELETE", "/data/", handle_data_delete repl now before fire record);
   ("GET", "/data/", handle_data_collect repl now record);
   ("POST", "/data/", handle_data_collect repl now record);
   ("POST", "/eql", handle_eql_common);
   ("POST", "/admin/eql", handle_eql_common);
   ("GET", "/admin/code", other "handle_admin_code");
   ("POST", "/admin/code", other "handle_admin_code");
   ("POST", "/admin/code/validate", other "handle_admin_code_validate");
   ("GET", "/admin/code/", other "handle_admin_code_item");
   ("DELETE", "/admin/code/", other "handle_admin_code_item");
   ("GET", "/admin/databases", handle_admin_databases);
   ("POST", "/admin/databases", handle_admin_databases);
   ("GET", "/admin/groups", handle_admin_groups);
   ("POST", "/admin/groups", handle_admin_groups);
   ("GET", "/admin/users", handle_admin_users salt);
   ("POST", "/admin/users", handle_admin_users salt);
   ("PUT", "/admin/users", handle_admin_users salt);
   ("GET", "/admin/partitions", handle_admin_partitions);
   ("POST", "/admin/partitions", handle_admin_partitions);
   ("PUT", "/admin/partitions", handle_admin_partitions);
   ("POST", "/admin/partitions/", handle_partition_maintenance);
   ("GET", "/admin/keyspaces", handle_admin_keyspaces);
   ("GET", "/admin/analytics", other "handle_admin_analytics");
   ("POST", "/admin/benchmark", other "handle_admin_benchmark");
   ("GET", "/admin/cluster", other "handle_admin_cluster");
   ("POST", "/admin/join", other "handle_admin_join");
   ("POST", "/admin/remove-node", other "handle_admin_remove_node");
   ("GET", "/admin/backup/manifest", other "handle_backup_manifest");
   ("GET", "/admin/backup/", other "handle_backup_shard_download");
   ("POST", "/admin/restore/lock", handle_restore true);
   ("POST", "/admin/restore/unlock", handle_restore false);
   ("POST", "/admin/restore/wipe", other "handle_restore_wipe");
   ("PUT", "/admin/restore/", other "handle_restore_shard_upload");
   ("DELETE", "/admin/", handle_admin_delete);
   ("GET", "/admin/settings", handle_settings);
   ("POST", "/admin/settings", handle_settings);
   ("PUT", "/admin/settings", handle_settings);
   ("DELETE", "/admin/settings", handle_settings);
   ("GET", "/status", handle_status);
   ("GET", "/admin/console/state", handle_console_state);
   ("POST", "/admin/login", handle_admin_login token);
   ("POST", "/admin/setup", handle_admin_setup salt token);
   ("POST", "/admin/logout", handle_admin_logout)]%string.

(** Every handler keeps its connection. *)
Definition keeping (h : edb_http_request -> st (api S) edb_http_response) : edb_http_handler (api S) :=
  fun req => res ← h req; mret (true, res).

Definition edb_api_register (srv : edb_http_server (api S)) : bool * edb_http_server (api S) :=
  fold_left (fun r route =>
    let '(ok, srv) := edb_http_add_handler r.2 route.1.1 route.1.2 (keeping route.2) in (r.1 && ok, srv))
    api_routes (true, srv).

End admin.

End ApiAdmin.
