(* ===== verification/ApiFacts.v ===== *)
(** Theorems about the HTTP API (Api.v, ApiAdmin.v): throttling, sessions,
    who a caller is, what a refused request leaves alone, and the data routes. *)

From S2P Require Import Prelude Json Store Config ConfigFacts Shard Cluster Repl ReplHandlers EqlScan EqlExec EqlFacts.
From S2P Require Import Http HttpFacts Api ApiAdmin.

Module ApiFacts.

Import Json Store Config ConfigFacts Shard Cluster Repl ReplHandlers EqlScan EqlExec EqlFacts Http HttpFacts Api ApiAdmin.

(** ** Throttling *)

(** What requests do to the table of attempts, and when. *)
Inductive throttle_op := TFail (ip : string) (now : Z) | TReset (ip : string).

Definition throttle_run (slots : list edb_auth_attempt) (o : throttle_op) : list edb_auth_attempt :=
  match o with
  | TFail ip now => edb_auth_throttle_fail slots ip now
  | TReset ip => edb_auth_throttle_reset slots ip
  end.

Definition op_time (o : throttle_op) : Z := match o with TFail _ now => now | TReset _ => 0 end.

(** One failure at most is counted, and nobody is locked. *)
Definition calm (a : edb_auth_attempt) : Prop := at_locked_until a = 0 /\ 0 <= at_fails a <= 1.

Lemma attempt_failed_calm ip now a : 0 <= now -> calm a -> calm (attempt_failed ip now a).
Proof.
  intros Hn [Hl Hf]. unfold attempt_failed, EDB_AUTH_MAX_FAILS. rewrite Hl.
  destruct (Z.ltb_spec now 0); [lia|]. cbn [andb]. destruct (Z.leb_spec 0 now); [|lia].
  cbn zeta. change (8 <=? 0 + 1) with false. split; [done|]. cbn [at_fails]. lia.
Qed.

Lemma throttle_run_calm o slots : 0 <= op_time o -> Forall calm slots -> Forall calm (throttle_run slots o).
Proof.
  intros Hn H. destruct o as [ip now|ip]; cbn [throttle_run op_time] in *.
  - unfold edb_auth_throttle_fail. destruct (String.eqb ip ""); [done|].
    destruct (auth_slot slots ip now) as [i|]; [|done]. apply Forall_alter; [done|].
    intros a _ Ha. by apply attempt_failed_calm.
  - induction H as [|a slots Ha H IH]; cbn [edb_auth_throttle_reset]; [done|].
    destruct (String.eqb ip ""); [by constructor|]. destruct (String.eqb (at_ip a) ip); [|by constructor].
    constructor; [|done]. by repeat split.
Qed.

(** Nobody is ever locked out: whatever failures and successes
    from whatever addresses and however fast, no address is throttled at any
    time, since a failure first forgets the earlier ones of a slot that is not
    locked yet. *)
Theorem throttle_never_locks ops ip now
  (Hops : Forall (fun o => 0 <= op_time o) ops) :
  edb_auth_throttled (fold_left throttle_run ops (repeat no_attempt EDB_AUTH_ATTEMPT_SLOTS)) ip now = false.
Proof.
  assert (H : Forall calm (fold_left throttle_run ops (repeat no_attempt EDB_AUTH_ATTEMPT_SLOTS))).
  { assert (H0 : Forall calm (repeat no_attempt EDB_AUTH_ATTEMPT_SLOTS)).
    { apply Forall_forall. intros a Ha. apply list_elem_of_In, repeat_spec in Ha as ->. by repeat split. }
    revert H0. generalize (repeat no_attempt EDB_AUTH_ATTEMPT_SLOTS) as slots.
    induction Hops as [|o ops Ho _ IH]; intros slots H0; [done|]. cbn [fold_left]. apply IH. by apply throttle_run_calm. }
  set (slots := fold_left _ _ _) in *. unfold edb_auth_throttled. destruct (String.eqb ip ""); [done|].
  destruct (auth_slot slots ip now ≫= fun i => slots !! i) as [a|] eqn:E; [|done].
  destruct (auth_slot slots ip now) as [i|]; [|done]. cbn in E. rewrite Forall_lookup in H.
  destruct (H i a E) as [_ Hf]. unfold EDB_AUTH_MAX_FAILS. destruct (Z.leb_spec 8 (at_fails a)); [lia|done].
Qed.

Lemma throttle_never_locks_witness :
  edb_auth_throttled (fold_left throttle_run (map (TFail "10.0.0.1") [9; 9; 9; 9; 9; 9; 9; 9; 9; 9; 9; 9])
    (repeat no_attempt EDB_AUTH_ATTEMPT_SLOTS)) "10.0.0.1" 9 = false.
Proof. apply throttle_never_locks. repeat constructor; done. Defined.

(** ** Sessions *)

Lemma new_slot_lt ss now : ss <> [] -> (new_slot ss now < length ss)%nat.
Proof.
  intros Hne. unfold new_slot. destruct (list_find _ ss) as [[i s]|] eqn:E.
  - apply list_find_Some in E as (E & _). by eapply lookup_lt_Some.
  - destruct ss; [done|]. simpl. lia.
Qed.

(** Who a token belongs to, without dropping sessions. *)
Definition session_of (ss : list edb_session) (token : string) (now : Z) : option (string * Z) :=
  (session_lookup ss token now).1.

Lemma list_find_insert_hit (P : edb_session -> Prop) `{forall x, Decision (P x)} (ss : list edb_session) i s :
  (i < length ss)%nat -> P s -> (forall j s', ss !! j = Some s' -> ~ P s') -> list_find P (<[i := s]> ss) = Some (i, s).
Proof.
  intros Hi Hs Hno. apply list_find_Some. split; [by apply list_lookup_insert_eq|]. split; [done|].
  intros j y Hj Hlt. rewrite list_lookup_insert_ne in Hj by lia. by eapply Hno.
Qed.

(** A lookup sees the first session in use with that token. *)
Lemma session_of_spec ss token now : session_of ss token now =
  match list_find (fun s => is_session token s = true) ss with
  | Some (_, s) => if s_expires s <=? now then None else Some (snprintf 128 (s_username s), s_groups s)
  | None => None
  end.
Proof.
  unfold session_of, session_lookup. destruct (list_find _ ss) as [[i s]|]; [|done].
  by destruct (s_expires s <=? now).
Qed.

Lemma new_slot_free ss now s : s ∈ ss -> slot_free now s = true ->
  exists s0, ss !! new_slot ss now = Some s0 /\ slot_free now s0 = true.
Proof.
  intros Hin Hf. unfold new_slot. destruct (list_find _ ss) as [[i s0]|] eqn:E.
  - apply list_find_Some in E as (E & Hs & _). by exists s0.
  - apply list_find_None in E. rewrite Forall_forall in E. by destruct (E s Hin).
Qed.

Lemma snprintf_twice cap s : (0 < cap)%nat -> snprintf cap (snprintf cap s) = snprintf cap s.
Proof. intros H. by apply snprintf_short, length_snprintf. Qed.

Section session.
Context (ss : list edb_session) (name token : string) (groups now : Z).
Context (Hne : ss <> []) (Htoken : (String.length token <= 64)%nat).
Context (Hfresh : Forall (fun s => is_session token s = false) ss).

Let made := session_create ss name groups token now.
Let mine := Session (snprintf 65 token) (snprintf 128 name) groups (now + EDB_SESSION_TTL) true.

Lemma created_found : list_find (fun s => is_session token s = true) made = Some (new_slot ss now, mine).
Proof using Hne Htoken Hfresh.
  apply list_find_Some. split; [by apply list_lookup_insert_eq, new_slot_lt|]. split.
  - unfold is_session, mine. cbn. rewrite snprintf_short by lia. apply String.eqb_refl.
  - intros j y Hj Hlt. unfold made, session_create in Hj. rewrite list_lookup_insert_ne in Hj by lia.
    rewrite Forall_lookup in Hfresh. by rewrite (Hfresh j y Hj).
Qed.

(** A session answers with its user and groups until twelve hours
    after it was opened or until it is destroyed, and not longer; opening it
    keeps every other live session as long as one of the slots is free. *)
Theorem session_lifecycle later :
  session_of made token later =
    (if later <? now + EDB_SESSION_TTL then Some (snprintf 128 name, groups) else None) /\
  session_of (session_destroy made token) token later = None /\
  forall token' who, Exists (fun s => slot_free now s = true) ss -> token' <> token ->
    session_of ss token' now = Some who -> session_of made token' now = Some who.
Proof using Hne Htoken Hfresh.
  split; [|split].
  - rewrite session_of_spec, created_found. unfold mine. cbn [s_expires s_username s_groups].
    rewrite snprintf_twice by lia.
    destruct (Z.leb_spec (now + EDB_SESSION_TTL) later), (Z.ltb_spec later (now + EDB_SESSION_TTL)); done || lia.
  - rewrite session_of_spec. unfold session_destroy. rewrite created_found.
    destruct (list_find (fun s => is_session token s = true) (alter drop_session (new_slot ss now) made)) as [[j s]|] eqn:E; [|done].
    apply list_find_Some in E as (Hj & Hs & _). exfalso. destruct (decide (j = new_slot ss now)) as [->|Hne'].
    + rewrite list_lookup_alter_eq in Hj. destruct (made !! new_slot ss now); [|done]. cbn in Hj. by injection Hj as <-.
    + rewrite list_lookup_alter_ne in Hj by done. unfold made, session_create in Hj.
      rewrite list_lookup_insert_ne in Hj by done. rewrite Forall_lookup in Hfresh. by rewrite (Hfresh j s Hj) in Hs.
  - intros token' who [s [Hin Hf]]%Exists_exists Ht. rewrite !session_of_spec.
    destruct (list_find (fun s => is_session token' s = true) ss) as [[j s1]|] eqn:E; [|done].
    destruct (Z.leb_spec (s_expires s1) now) as [|Hlive]; [done|]. intros Hwho.
    destruct (new_slot_free ss now s Hin Hf) as (s0 & Hs0 & Hfree).
    apply list_find_Some in E as (Hj & Hs1 & Hfirst).
    assert (Hij : new_slot ss now <> j).
    { intros <-. rewrite Hs0 in Hj. injection Hj as ->. unfold slot_free, is_session in *.
      apply andb_prop in Hs1 as [Hu _]. rewrite Hu in Hfree. cbn in Hfree. lia. }
    assert (E' : list_find (fun s => is_session token' s = true) made = Some (j, s1)).
    { apply list_find_Some. unfold made, session_create. split; [by rewrite list_lookup_insert_ne|]. split; [done|].
      intros k y Hk Hlt. destruct (decide (k = new_slot ss now)) as [->|Hk'].
      - rewrite list_lookup_insert_eq in Hk by (apply new_slot_lt, Hne). injection Hk as <-.
        unfold is_session. cbn. rewrite snprintf_short by lia. intros Heq. apply String.eqb_eq in Heq. by subst.
      - rewrite list_lookup_insert_ne in Hk by done. by eapply Hfirst. }
    rewrite E'. by destruct (Z.leb_spec (s_expires s1) now); [lia|].
Qed.
End session.

Lemma session_lifecycle_witness :
  session_of (session_create (repeat no_session EDB_SESSION_CAPACITY) "ann" 5 "cafe" 100) "cafe" 43299 = Some ("ann"%string, 5) /\
  session_of (session_create (repeat no_session EDB_SESSION_CAPACITY) "ann" 5 "cafe" 100) "cafe" 43300 = None.
Proof.
  assert (Hf : Forall (fun s => is_session "cafe" s = false) (repeat no_session EDB_SESSION_CAPACITY)).
  { apply Forall_forall. by intros s ->%list_elem_of_In%repeat_spec. }
  split.
  - apply (session_lifecycle (repeat no_session EDB_SESSION_CAPACITY) "ann" "cafe" 5 100); [done|cbn; lia|exact Hf].
  - apply (session_lifecycle (repeat no_session EDB_SESSION_CAPACITY) "ann" "cafe" 5 100); [done|cbn; lia|exact Hf].
Defined.

(** ** Who a caller is *)

Section callers.
Context {S : Type} {RS : RecordStore S} {JC : JsonCodec} {RL : RecordStoreLaws S}.
Context (now : Z).
Hypothesis covers : forall ks, ks ∈ system_keyspaces -> ks ∈ rs_keyspaces (S := S).

Abbreviation users s := (rs_view s CFG_KEYSPACE_USERS).

(** The same records, sessions aside. *)
Definition same_records (a a' : api S) : Prop :=
  unchanged (a_store a) (a_store a') /\ a_restore_locked a' = a_restore_locked a.

Definition has_hash (o : json) : bool :=
  match get_string o "password_hash" with Some hash => (String.length hash =? 64)%nat | None => false end.

(** The record of the user has a password, and this is it. *)
Definition knows (U : gmap string json) (name : string) (password : option string) : bool :=
  match password, U !! name with Some p, Some o => has_hash o && password_matches o p | _, _ => false end.

(** What the records say about a request. *)
Definition identify (a : api S) (req : edb_http_request) : bool * Z :=
  if rq_trusted req then (true, ALL_GROUPS)
  else if edb_auth_throttled (a_attempts a) (rq_peer_ip req) now then (false, 0)
  else
    match (credentials req).1 ≫= not_empty with
    | Some name =>
        match session_of (a_sessions a) name now with
        | Some (_, groups) => (true, groups)
        | None =>
            if knows (users (a_store a)) name (credentials req).2
            then match user_of (users (a_store a)) name with Some u => (true, u_groups u) | None => (false, 0) end
            else (false, 0)
        end
    | None => (true, if decide (users (a_store a) = ∅) then ALL_GROUPS else 0)
    end.

Lemma on_store_run {A} (m : st S A) (a : api S) :
  (on_store m a).1 = (m (a_store a)).1 /\ a_store (on_store m a).2 = (m (a_store a)).2 /\
  a_restore_locked (on_store m a).2 = a_restore_locked a /\ a_sessions (on_store m a).2 = a_sessions a /\
  a_attempts (on_store m a).2 = a_attempts a.
Proof. unfold on_store. by destruct (m (a_store a)). Qed.

Lemma on_sessions_run {A} (f : list edb_session -> A * list edb_session) (a : api S) :
  on_sessions f a = ((f (a_sessions a)).1,
    ApiState (a_attempts a) (f (a_sessions a)).2 (a_restore_locked a) (a_mesh_key a) (a_store a)).
Proof. unfold on_sessions. by destruct (f (a_sessions a)). Qed.

Lemma has_password_spec name s : rs_ok s ->
  (edb_user_has_password name s).1 = match users s !! name with Some o => has_hash o | None => false end /\
  unchanged s (edb_user_has_password name s).2.
Proof using RL covers.
  intros Hs. destruct (fetch_spec covers CFG_KEYSPACE_USERS name s) as (s' & Hf & Hu); [done|by repeat constructor|].
  unfold edb_user_has_password. rewrite st_bind_run, Hf. cbn [fst snd mret st_ret]. split; [|done].
  unfold has_hash. by destruct (users s !! name).
Qed.

Lemma verify_password_spec name p s : rs_ok s ->
  (edb_user_verify_password name p s).1 = match users s !! name with Some o => password_matches o p | None => false end /\
  unchanged s (edb_user_verify_password name p s).2.
Proof using RL covers.
  intros Hs. destruct (fetch_spec covers CFG_KEYSPACE_USERS name s) as (s' & Hf & Hu); [done|by repeat constructor|].
  unfold edb_user_verify_password. rewrite st_bind_run, Hf. cbn [fst snd mret st_ret]. by destruct (users s !! name).
Qed.

Lemma password_verified_spec name password s : rs_ok s ->
  (password_verified name password s).1 = knows (users s) name password /\ unchanged s (password_verified name password s).2.
Proof using RL covers.
  intros Hs. unfold password_verified, knows. destruct password as [p|]; [|by split].
  rewrite st_bind_run. destruct (has_password_spec name s Hs) as [E Hu]. rewrite E.
  destruct (users s !! name) as [o|] eqn:Eo; [|by split]. destruct (has_hash o); [|by split]. cbn [andb].
  destruct (verify_password_spec name p _ (proj1 Hu)) as [E2 Hu2].
  assert (Ev : users (edb_user_has_password name s).2 = users s) by (apply Hu; by repeat constructor).
  rewrite Ev, Eo in E2. split; [done|]. by eapply unchanged_trans.
Qed.

Lemma user_list_spec s : rs_ok s ->
  ((edb_user_list s).1 = [] <-> users s = ∅) /\ unchanged s (edb_user_list s).2.
Proof using RL covers.
  intros Hs. destruct (collect_spec covers CFG_KEYSPACE_USERS s) as (l & s' & Hc & Hu & Hp); [done|by repeat constructor|].
  unfold edb_user_list. rewrite st_bind_run, Hc. cbn [fst snd mret st_ret array_items]. split; [|done].
  split; intros H.
  - destruct l; [|done]. apply Permutation_nil in Hp. apply fmap_nil_inv in Hp. by apply map_to_list_empty_iff.
  - rewrite H, map_to_list_empty in Hp. by apply Permutation_sym, Permutation_nil in Hp as ->.
Qed.

Lemma login_user_spec req name password a : rs_ok (a_store a) ->
  (login_user now req name password a).1 =
    (if knows (users (a_store a)) name password
     then match user_of (users (a_store a)) name with Some u => (true, u_groups u) | None => (false, 0) end
     else (false, 0)) /\
  same_records a (login_user now req name password a).2.
Proof using RL covers.
  intros Hs. unfold login_user. rewrite st_bind_run.
  destruct (on_store_run (password_verified name password) a) as (E1 & E2 & E3 & _).
  destruct (password_verified_spec name password _ Hs) as [Ev Hu]. rewrite E1, Ev.
  set (a1 := (on_store (password_verified name password) a).2) in *. rewrite <-E2 in Hu.
  destruct (knows _ name password); cbn [negb].
  - rewrite !st_bind_run. set (a2 := (on_attempts _ a1).2). change (a_store a1) with (a_store a2) in Hu.
    assert (Hl2 : a_restore_locked a2 = a_restore_locked a) by exact E3. clearbody a2.
    destruct (on_store_run (edb_user_get name) a2) as (F1 & F2 & F3 & _).
    destruct (user_get_spec covers name (a_store a2) (proj1 Hu)) as (s' & Eg & Hu').
    rewrite F1, Eg. cbn [fst snd mret st_ret]. rewrite Eg in F2. cbn [snd] in F2.
    assert (Evu : users (a_store a2) = users (a_store a)) by (apply Hu; by repeat constructor). rewrite Evu.
    split; [done|]. split; [|by rewrite F3]. rewrite F2. by eapply unchanged_trans.
  - rewrite st_bind_run. split; [done|]. split; [exact Hu|exact E3].
Qed.

Lemma authenticate_spec req a : rs_ok (a_store a) ->
  (authenticate now req a).1 = identify a req /\ same_records a (authenticate now req a).2.
Proof using RL covers.
  intros Hs. assert (Hrefl : same_records a a) by (split; [by split|done]).
  unfold authenticate, identify. destruct (rq_trusted req); [by split|]. rewrite st_bind_run. cbn [inspect fst snd].
  destruct (edb_auth_throttled _ _ _); [by split|]. destruct (credentials req) as [token password]. cbn [fst snd].
  destruct (token ≫= not_empty) as [name|].
  - rewrite st_bind_run, on_sessions_run. unfold session_of.
    destruct (session_lookup (a_sessions a) name now) as [[[u g]|] ss]; cbn [fst snd]; [by repeat split|].
    destruct (login_user_spec req name password
      (ApiState (a_attempts a) ss (a_restore_locked a) (a_mesh_key a) (a_store a)) Hs) as [E H]. by rewrite E.
  - rewrite st_bind_run. destruct (on_store_run edb_user_list a) as (E1 & E2 & E3 & _).
    destruct (user_list_spec _ Hs) as [El Hu]. cbn [fst snd mret st_ret]. rewrite E1. split.
    + f_equal. destruct (decide (users (a_store a) = ∅)) as [H|H].
      * by rewrite (proj2 El H).
      * destruct (edb_user_list (a_store a)).1 eqn:E; [|done]. by destruct H; apply El.
    + split; [by rewrite E2|done].
Qed.

(** C9: A client that is let in is who it says: its groups are those
    of a live session whose token it presents, or those of the user whose name
    and right password it presents, or it names nobody and then has no group,
    unless there are no users at all, when everybody has all. Finding this
    out changes no record. *)
Theorem caller_is_known req a groups
  (Hs : rs_ok (a_store a)) (Hclient : rq_trusted req = false)
  (Hin : (authenticate now req a).1 = (true, groups)) :
  ((exists token who, (credentials req).1 = Some token /\ session_of (a_sessions a) token now = Some (who, groups)) \/
   (exists name password o, credentials req = (Some name, Some password) /\ users (a_store a) !! name = Some o /\
      password_matches o password = true /\ groups = u_groups (user_info o)) \/
   ((credentials req).1 ≫= not_empty = None /\
      groups = (if decide (users (a_store a) = ∅) then ALL_GROUPS else 0))) /\
  unchanged (a_store a) (a_store (authenticate now req a).2).
Proof using RL covers.
  destruct (authenticate_spec req a Hs) as [E [Hu _]]. split; [|done]. rewrite E in Hin. unfold identify in Hin.
  rewrite Hclient in Hin. destruct (edb_auth_throttled _ _ _); [done|].
  destruct (credentials req) as [token password]. cbn [fst snd] in *.
  destruct (token ≫= not_empty) as [name|] eqn:En.
  - assert (token = Some name) as ->.
    { destruct token as [t|]; [|done]. cbn in En. unfold not_empty in En. destruct (String.eqb t ""); congruence. }
    destruct (session_of _ _ _) as [[who g]|] eqn:Es.
    + injection Hin as <-. left. by exists name, who.
    + right. left. destruct (knows _ _ _) eqn:Ek; [|done]. unfold knows in Ek. destruct password as [p|]; [|done].
      unfold user_of in Hin. destruct (users (a_store a) !! name) as [o|] eqn:Eo; [|done].
      apply andb_prop in Ek as [_ Ek]. cbn [mbind option_bind] in Hin.
      destruct (String.eqb (u_name (user_info o)) ""); [done|]. injection Hin as <-. by exists name, p, o.
  - right. right. injection Hin as <-. done.
Qed.

End callers.

(** ** Routes for administrators *)

(** The statuses of a write that was tried are not those of a refusal. *)
Lemma done_not_refused (z : Z) : z ∈ [200; 500; 503] -> z ∈ [400; 401; 403; 404] -> False.
Proof. intros H1 H2. set_unfold. repeat match goal with Hx : _ \/ _ |- _ => destruct Hx end; lia. Qed.

Section guard.
Context {S : Type} {RS : RecordStore S} {JC : JsonCodec} {RL : RecordStoreLaws S}.
Context {DE : DataEngine S} {LW : LocalWrites S} {SQ : Sqlite} {MT : Maintenance S}.
Context (cfg : edb_config S) (repl : option (api_repl S)) (now : Z) (junk salt : string).
Context (before : edb_lua_event -> string -> string -> string -> string -> option json -> Z -> st S lua_outcome).
Context (fire : edb_lua_event -> string -> string -> string -> string -> option json -> st S unit).
Context (record : analytics_event -> st S unit) (raw_u64 : Z -> json).
Hypothesis covers : forall ks, ks ∈ system_keyspaces -> ks ∈ rs_keyspaces (S := S).

(** The administration: what only the first group may do. *)
Definition admin_handlers : list (edb_http_request -> st (api S) edb_http_response) :=
  [handle_admin_databases cfg now; handle_admin_groups cfg now raw_u64; handle_admin_users cfg now salt;
   handle_admin_partitions cfg now; handle_admin_delete cfg now; handle_partition_maintenance now;
   handle_admin_keyspaces now; handle_settings cfg now; handle_restore cfg now true; handle_restore cfg now false].

(** A handler that does nothing for others. *)
Definition guarded (h : edb_http_request -> st (api S) edb_http_response) : Prop :=
  forall req a, rs_ok (a_store a) -> (identify now a req).1 && is_admin (identify now a req).2 = false ->
    res_status (h req a).1 ∈ [401; 403; 405] /\ same_records a (h req a).2.

Lemma admin_only_guarded k : guarded (fun req => admin_only now req (k req)).
Proof using RL covers.
  intros req a Hs Hno. destruct (authenticate_spec now covers req a Hs) as [E Hr]. unfold admin_only.
  rewrite st_bind_run. rewrite <-E in Hno. destruct (authenticate now req a) as [[ok groups] a']. cbn [fst snd] in *.
  destruct ok; cbn [negb andb] in *; [rewrite Hno|]; (split; [|exact Hr]); by repeat constructor.
Qed.

Lemma method_guarded method (k : edb_http_request -> st (api S) edb_http_response) :
  guarded (fun req => if negb (String.eqb (rq_method req) method) then mret NOT_ALLOWED else admin_only now req (k req)).
Proof using RL covers.
  intros req a Hs Hno. destruct (negb (String.eqb (rq_method req) method)).
  - split; [by repeat constructor|]. by repeat split.
  - by apply (admin_only_guarded k).
Qed.

(** Whatever an administrative request asks, from a caller that is
    not an administrator by the records (a user or session of the first
    group, everybody while there are no users) it gets 401, 403 or 405 and
    changes no record. *)
Theorem admin_routes_guarded h (Hh : h ∈ admin_handlers) req a
  (Hs : rs_ok (a_store a)) (Hno : (identify now a req).1 && is_admin (identify now a req).2 = false) :
  res_status (h req a).1 ∈ [401; 403; 405] /\ same_records a (h req a).2.
Proof using RL covers.
  assert (Hg : Forall guarded admin_handlers).
  { unfold admin_handlers. repeat (apply Forall_cons_2; [apply admin_only_guarded || apply method_guarded|]). done. }
  rewrite Forall_forall in Hg. by apply (Hg h Hh).
Qed.

(** ** The restore lock *)

Definition data_handlers : list (edb_http_request -> st (api S) edb_http_response) :=
  [handle_data_put cfg repl now before fire record; handle_data_get repl now record;
   handle_data_delete repl now before fire record; handle_data_collect repl now record;
   handle_eql_common cfg repl now junk fire record].

(** While the restore lock is held every route for documents and
    statements answers 503 (or 400 to a malformed path), whoever asks, and
    neither reads nor writes anything. *)
Theorem restore_blocks_data h (Hh : h ∈ data_handlers) req a (Hl : a_restore_locked a = true) :
  res_status (h req a).1 ∈ [503; 400] /\ (h req a).2 = a.
Proof.
  assert (Hlock : forall k, unless_restoring k a = (locked_out, a)).
  { intros k. unfold unless_restoring. rewrite st_bind_run. cbn [inspect fst snd]. by rewrite Hl. }
  assert (Hb : forall b : bool, forall k, (if b then mret (respond_error 400 "x") else unless_restoring k) a =
    (if b then respond_error 400 "x" else locked_out, a)) by (intros []; [done|apply Hlock]).
  repeat (apply elem_of_cons in Hh as [->|Hh]); [..|by apply elem_of_nil in Hh].
  - unfold handle_data_put. destruct (split_data_path _) as [[[[db part] ks] id]|]; [|by split; [repeat constructor|]].
    destruct (contains _ _); [by split; [repeat constructor|]|]. rewrite Hlock. by split; [repeat constructor|].
  - unfold handle_data_get. destruct (split_data_path _) as [[[[db part] ks] id]|]; [|by split; [repeat constructor|]].
    rewrite Hlock. by split; [repeat constructor|].
  - unfold handle_data_delete. destruct (split_data_path _) as [[[[db part] ks] id]|]; [|by split; [repeat constructor|]].
    rewrite Hlock. by split; [repeat constructor|].
  - unfold handle_data_collect. destruct (negb _); [by split; [repeat constructor|]|].
    rewrite Hlock. by split; [repeat constructor|].
  - unfold handle_eql_common. rewrite Hlock. by split; [repeat constructor|].
Qed.

(** *** Statuses of a write *)

Lemma stored_statuses db part ks id text ttl update a :
  res_status (stored_document cfg repl now fire record db part ks id text ttl update a).1 ∈ [200; 500; 503].
Proof.
  unfold stored_document.
  assert (H : forall v, res_status ((status ← on_store (write_document repl now db part ks id text (default JNull v) ttl);
      match status with
      | EDB_REPL_QUORUM_LOST => mret (respond_error 503 "quorum unavailable: write rejected")
      | EDB_REPL_LOCAL_FAIL => mret (respond_error 500 "storage failed")
      | EDB_REPL_OK =>
          _ ← on_store (edb_partition_ensure cfg db part ks);
          _ ← on_store (record (AnWrite part ks update));
          _ ← on_store (match repl with
                        | None => api_fire_lua fire (if update then EDB_LUA_AFTER_UPDATE else EDB_LUA_AFTER_INSERT)
                                    db part ks id None
                        | Some _ => mret tt
                        end);
          mret (ok_with_id "ok" id)
      end) a).1 ∈ [200; 500; 503]).
  { intros v. rewrite st_bind_run. destruct (on_store (write_document _ _ _ _ _ _ _ _ _) a).1; rewrite ?st_bind_run; by repeat constructor. }
  destruct (json_parse text) as [v|]; [exact (H (Some v))|]. destruct repl; [by repeat constructor|exact (H None)].
Qed.

Lemma deleted_statuses db part ks id deleted a :
  res_status ((status ← on_store (remove_document repl now db part ks id);
      match status with
      | EDB_REPL_LOCAL_FAIL => mret (respond_error 500 "delete failed")
      | EDB_REPL_QUORUM_LOST => mret (respond_error 503 "quorum unavailable: delete rejected")
      | EDB_REPL_OK =>
          _ ← on_store (match repl with
                        | None => api_fire_lua fire EDB_LUA_AFTER_DELETE db part ks id deleted
                        | Some _ => mret tt
                        end);
          _ ← on_store (record (AnDelete part ks));
          mret (ok_with_id "deleted" id)
      end) a).1 ∈ [200; 500; 503].
Proof. rewrite st_bind_run. destruct (on_store _ a).1; rewrite ?st_bind_run; by repeat constructor. Qed.

(** ** What a refused request leaves alone *)

Context (R : S -> S -> Prop) `{!PreOrder R}.

Definition apis (a a' : api S) : Prop := R (a_store a) (a_store a').
#[local] Instance apis_preorder : PreOrder apis.
Proof. split; [intros a; unfold apis; reflexivity|]. intros a b c H1 H2. unfold apis in *. by etransitivity. Qed.

Lemma within_store {A} (m : st S A) : within R m -> within apis (on_store m).
Proof. intros Hm a. unfold apis. destruct (on_store_run m a) as (_ & -> & _). apply Hm. Qed.
Lemma within_ask {A} (f : api S -> A) : within apis (inspect f).
Proof. intros a. unfold apis. cbn. reflexivity. Qed.
Lemma within_attempts f : within apis (on_attempts f).
Proof. intros a. unfold apis. cbn. reflexivity. Qed.
Lemma within_sessions {A} (f : list edb_session -> A * list edb_session) : within apis (on_sessions f).
Proof. intros a. rewrite on_sessions_run. unfold apis. cbn. reflexivity. Qed.

Hypothesis reads : reads_within (ar_service <$> repl) R.
Hypothesis repl_get : forall r db p ks id, repl = Some r -> within R (ar_read_get r db p ks id).
Hypothesis repl_ids : forall r db p ks f, repl = Some r -> within R (ar_read_ids r db p ks f).
Hypothesis engine_ids : forall p ks f, within R (ids_of p ks f).
Hypothesis reports : forall ev, within R (record ev).

Lemma authenticate_within req : within apis (authenticate now req).
Proof using DE LW reads PreOrder0.
  assert (Hget : forall ks id, within R (rs_get ks id)) by apply (in_get _ _ reads).
  assert (Hall : forall ks, within R (rs_all ks)) by apply (in_all _ _ reads).
  unfold authenticate. destruct (rq_trusted req); [follow|]. apply within_bind; [exact _|apply within_ask|].
  intros []; [follow|]. destruct (credentials req) as [token password]. destruct (token ≫= not_empty) as [name|].
  - apply within_bind; [exact _|apply within_sessions|]. intros [[u g]|]; [follow|]. unfold login_user.
    apply within_bind; [exact _| |].
    + apply within_store. unfold password_verified, edb_user_has_password, edb_user_verify_password, fetch. follow.
    + intros []; cbn [negb].
      * apply within_bind; [exact _|apply within_attempts|]. intros _. apply within_bind; [exact _| |intros u; follow].
        apply within_store. unfold edb_user_get, fetch. follow.
      * apply within_bind; [exact _|apply within_attempts|]. intros _. follow.
  - apply within_bind; [exact _| |intros us; follow]. apply within_store. unfold edb_user_list, collect. follow.
Qed.

(** Nothing but reading and one script that vetoed. *)
Definition vetoed (a a' : api S) : Prop :=
  exists ev db p ks id doc groups reason s1 s2,
    R (a_store a) s1 /\ before ev db p ks id doc groups s1 = (LuaRollback reason, s2) /\ R s2 (a_store a').

(** A computation that, when it refuses, has only read, but for a script that vetoed. *)
Definition refusal (m : st (api S) edb_http_response) : Prop :=
  forall a, res_status (m a).1 ∈ [400; 401; 403; 404] -> apis a (m a).2 \/ vetoed a (m a).2.

Lemma refusal_within m : within apis m -> refusal m.
Proof. intros Hm a _. by left. Qed.
Lemma refusal_ret res : refusal (mret res).
Proof using PreOrder0. apply refusal_within. follow. Qed.
Lemma refusal_bind {A} (m : st (api S) A) f : within apis m -> (forall x, refusal (f x)) -> refusal (m ≫= f).
Proof using PreOrder0.
  intros Hm Hf a. rewrite st_bind_run. intros Hr. pose proof (Hm a) as H1.
  destruct (Hf _ _ Hr) as [H2|(ev & db & p & ks & id & doc & g & reason & s1 & s2 & H2 & Hv & H3)]; [left|right].
  - by etransitivity.
  - exists ev, db, p, ks, id, doc, g, reason, s1, s2. split; [|done]. unfold apis in H1. by etransitivity.
Qed.
Lemma refusal_done m : (forall a, res_status (m a).1 ∈ [200; 500; 503]) -> refusal m.
Proof.
  intros H a Hr. by destruct (done_not_refused _ (H a) Hr).
Qed.

Lemma refusal_unless_restoring k : refusal k -> refusal (unless_restoring k).
Proof using PreOrder0.
  intros Hk. apply refusal_bind; [apply within_ask|]. intros []; [apply refusal_ret|done].
Qed.
Lemma refusal_authenticated req k : (forall g, refusal (k g)) -> refusal (authenticated now req k).
Proof using DE LW reads PreOrder0.
  intros Hk. apply refusal_bind; [apply authenticate_within|]. intros [[] g]; [apply Hk|apply refusal_ret].
Qed.
Lemma refusal_authorized db part g perm k : refusal k -> refusal (authorized db part g perm k).
Proof using DE LW reads PreOrder0.
  intros Hk. apply refusal_bind; [|intros []; [done|apply refusal_ret]]. apply within_store.
  unfold authorize_partition. apply within_bind; [exact _| |intros x; follow].
  unfold edb_partition_get, fetch. apply within_bind; [exact _|apply (in_get _ _ reads)|intros x; follow].
Qed.

(** A script decides: if it does not veto, there is no refusal any more. *)
Lemma refusal_before ev db p ks id doc g (k : lua_outcome -> st (api S) edb_http_response) :
  (forall reason, exists res, k (LuaRollback reason) = mret res) -> (forall d a, res_status (k (LuaOk d) a).1 ∈ [200; 500; 503]) ->
  (forall a, res_status (k LuaError a).1 ∈ [200; 500; 503]) ->
  refusal (lr ← on_store (fire_before before ev db p ks id doc g); k lr).
Proof using PreOrder0.
  intros Hveto Hok Herr a. rewrite st_bind_run. destruct (on_store_run (fire_before before ev db p ks id doc g) a) as (E1 & E2 & _).
  destruct (on_store _ a) as [lr a1]. cbn [fst snd] in *. subst lr. intros Hr.
  destruct (fire_before before ev db p ks id doc g (a_store a)) as [lr s2] eqn:Ef. cbn [fst snd] in *.
  destruct lr as [d|reason|]; [by destruct (done_not_refused _ (Hok d a1))| |by destruct (done_not_refused _ (Herr a1))].
  right. destruct (Hveto reason) as [res ->]. cbn [mret st_ret snd]. unfold fire_before in Ef.
  destruct (String.eqb db EDB_SYSTEM_DB); [done|]. exists ev, db, p, ks, id, doc, g, reason, (a_store a), s2.
  split; [reflexivity|]. split; [done|]. by rewrite E2.
Qed.

Lemma put_refusal req : refusal (handle_data_put cfg repl now before fire record req).
Proof using DE LW reads PreOrder0.
  unfold handle_data_put. destruct (split_data_path _) as [[[[db part] ks] id]|]; [|apply refusal_ret].
  destruct (contains _ _); [apply refusal_ret|]. apply refusal_unless_restoring, refusal_authenticated. intros g.
  destruct (body_object req) as [doc|]; [|apply refusal_ret]. unfold put_document.
  apply refusal_bind; [apply within_store, (in_doc _ _ reads)|]. intros existing. apply refusal_authorized.
  apply refusal_before; [by eexists| |by repeat constructor].
  intros [d|] a; [apply stored_statuses|by repeat constructor].
Qed.

Lemma delete_refusal req : refusal (handle_data_delete repl now before fire record req).
Proof using DE LW reads PreOrder0.
  unfold handle_data_delete. destruct (split_data_path _) as [[[[db part] ks] id]|]; [|apply refusal_ret].
  apply refusal_unless_restoring, refusal_authenticated. intros g. apply refusal_authorized. unfold delete_document.
  apply refusal_bind; [apply within_store, (in_doc _ _ reads)|]. intros existing.
  apply refusal_before; [by eexists| |by repeat constructor]. intros d a. apply deleted_statuses.
Qed.

Lemma restoring_within k : within apis k -> within apis (unless_restoring k).
Proof using PreOrder0.
  intros Hk. apply within_bind; [exact _|apply within_ask|]. intros []; [follow|done].
Qed.
Lemma authenticated_within req k : (forall g, within apis (k g)) -> within apis (authenticated now req k).
Proof using DE LW reads PreOrder0.
  intros Hk. apply within_bind; [exact _|apply authenticate_within|]. intros [[] g]; [apply Hk|follow].
Qed.
Lemma authorized_within db part g perm k : within apis k -> within apis (authorized db part g perm k).
Proof using DE LW reads PreOrder0.
  intros Hk. apply within_bind; [exact _| |intros []; [done|follow]]. apply within_store.
  unfold authorize_partition. apply within_bind; [exact _| |intros x; follow].
  unfold edb_partition_get, fetch. apply within_bind; [exact _|apply (in_get _ _ reads)|intros x; follow].
Qed.

Lemma get_within req : within apis (handle_data_get repl now record req).
Proof using DE LW reads PreOrder0 repl_get repl_ids engine_ids reports.
  unfold handle_data_get. destruct (split_data_path _) as [[[[db part] ks] id]|]; [|follow].
  apply restoring_within, authenticated_within. intros g. apply authorized_within.
  apply within_bind; [exact _| |intros doc; apply within_bind; [exact _|apply within_store, reports|intros []; follow]].
  apply within_store. unfold read_document. destruct repl as [r|] eqn:E; [by apply repl_get|apply (in_doc _ _ reads)].
Qed.

Lemma query_meta_within db part ks f : within R (query_meta repl db part ks f).
Proof using DE LW reads PreOrder0 repl_get repl_ids engine_ids reports.
  unfold query_meta. pose proof (in_meta _ _ reads) as Hm. pose proof (in_query _ _ reads) as Hq.
  destruct repl as [r|]; [by apply Hm|apply Hq].
Qed.

Lemma list_ids_within db part ks f : within R (list_ids repl db part ks f).
Proof using DE LW reads PreOrder0 repl_get repl_ids engine_ids reports.
  unfold list_ids. pose proof repl_ids as Hr. apply within_bind; [exact _| |intros ids; follow].
  destruct repl as [r|]; [by apply Hr|apply engine_ids].
Qed.

Lemma wide_within db part f : within R (partition_wide_query repl db part f).
Proof using DE LW reads PreOrder0 repl_get repl_ids engine_ids reports.
  unfold partition_wide_query, partition_keyspaces, edb_keyspace_list, collect.
  apply within_bind; [exact _| |intros kss; apply within_bind; [exact _| |intros rows; follow]].
  - apply within_bind; [exact _| |intros l; follow]. apply within_bind; [exact _|apply (in_all _ _ reads)|intros l; follow].
  - induction kss as [|ks kss IH]; cbn [gather_rows]; [follow|].
    apply within_bind; [exact _|apply query_meta_within|]. intros m. apply within_bind; [exact _|exact IH|intros; follow].
Qed.

Lemma collect_within req : within apis (handle_data_collect repl now record req).
Proof using DE LW reads PreOrder0 repl_get repl_ids engine_ids reports.
  unfold handle_data_collect. destruct (negb _); [follow|]. apply restoring_within. cbv zeta.
  destruct (negb _); [destruct (String.eqb _ _); [apply get_within|follow]|].
  destruct (split_collection _) as [[[[op db] part] ks]|]; [|follow].
  apply authenticated_within. intros g. apply authorized_within. unfold collect_documents.
  destruct (body_filters req) as [f|m]; [|follow]. destruct (_ || _); [follow|].
  apply within_bind; [exact _| |intros ans; apply within_bind; [exact _|apply within_store, reports|intros []; follow]].
  apply within_store. destruct (String.eqb op "ids"); [apply list_ids_within|].
  destruct ks as [ks|]; [|apply wide_within]. unfold list_documents.
  apply within_bind; [exact _|apply query_meta_within|intros m; follow].
Qed.

(** C26: A read or a listing leaves the store where reading leaves it,
    whatever it answers, and so does a write or a delete that is refused, for
    its path, its body, its caller or the permissions of the partition; where a
    script vetoed it, the store is left where reading and that one script leave
    it (which may itself have written before it vetoed). *)
Theorem refused_writes_nothing req a :
  apis a (handle_data_get repl now record req a).2 /\ apis a (handle_data_collect repl now record req a).2 /\
  (res_status (handle_data_put cfg repl now before fire record req a).1 ∈ [400; 401; 403; 404] ->
     apis a (handle_data_put cfg repl now before fire record req a).2 \/
     vetoed a (handle_data_put cfg repl now before fire record req a).2) /\
  (res_status (handle_data_delete repl now before fire record req a).1 ∈ [400; 401; 403; 404] ->
     apis a (handle_data_delete repl now before fire record req a).2 \/
     vetoed a (handle_data_delete repl now before fire record req a).2).
Proof using DE LW reads PreOrder0 repl_get repl_ids engine_ids reports.
  split; [apply get_within|]. split; [apply collect_within|]. split; [apply put_refusal|apply delete_refusal].
Qed.
End guard.

(** ** Paths *)

(** A part of a path that fits its buffer. *)
Definition path_part (cap : nat) (w : string) : Prop :=
  w <> ""%string /\ "/"%char ∉ chars w /\ (String.length w < cap)%nat.

Lemma skip_slashes_id c s : c <> "/"%char -> skip_slashes (String c s) = String c s.
Proof. intros H. by destruct c as [[] [] [] [] [] [] [] []]. Qed.

Lemma span_slash w r : "/"%char ∉ chars w ->
  span (fun c => negb (bool_decide (c = "/"%char))) (w +:+ String "/" r) = (w, String "/" r).
Proof.
  induction w as [|c w IH]; intros H; [done|]. cbn in H. apply not_elem_of_cons in H as [Hc Hw].
  change (String c w +:+ String "/" r) with (String c (w +:+ String "/" r)). cbn [span].
  rewrite bool_decide_eq_false_2 by done. cbn [negb]. by rewrite IH.
Qed.

Lemma strtok_part cap w r : path_part cap w -> strtok (w +:+ "/" +:+ r) = Some (w, r).
Proof.
  intros (Hne & Hin & _). unfold strtok. change ("/" +:+ r) with (String "/" r).
  assert (E : skip_slashes (w +:+ String "/" r) = w +:+ String "/" r).
  { destruct w as [|c w]; [done|]. apply skip_slashes_id. cbn in Hin. by apply not_elem_of_cons in Hin as [? _]. }
  rewrite E. assert (Hc : exists c s, w +:+ String "/" r = String c s) by (destruct w as [|c w]; [done|]; by eexists _, _).
  destruct Hc as (c & s & Ec). rewrite Ec, <-Ec, span_slash by done. done.
Qed.

Lemma strip_slash_app a b : b <> ""%string -> strip_slash (a +:+ b) = a +:+ strip_slash b.
Proof.
  intros Hb. induction a as [|c a IH]; [done|]. change (String c a +:+ b) with (String c (a +:+ b)).
  destruct (a +:+ b) as [|d s] eqn:E; [by destruct a, b|]. cbn [strip_slash] in *. by rewrite IH.
Qed.

Lemma strip_slash_none s : "/"%char ∉ chars s -> strip_slash s = s.
Proof.
  induction s as [|c s IH]; [done|]. intros H. cbn in H. apply not_elem_of_cons in H as [Hc Hs].
  destruct s as [|d s]; cbn [strip_slash] in *; [by rewrite decide_False|]. by rewrite IH.
Qed.

(** The path of a document is taken apart into the parts it was
    put together of, when each fits its buffer and holds no slash. *)
Theorem data_path_roundtrip db part ks id
  (Hdb : path_part 128 db) (Hpart : path_part 256 part) (Hks : path_part 128 ks) (Hid : path_part 512 id) :
  split_data_path ("/data/" +:+ db +:+ "/" +:+ part +:+ "/" +:+ ks +:+ "/" +:+ id) = Some (db, part, ks, id) /\
  split_data_path ("/data/" +:+ db +:+ "/" +:+ part +:+ "/" +:+ ks +:+ "/") = None.
Proof.
  pose proof Hdb as (_ & _ & L1). pose proof Hpart as (_ & _ & L2). pose proof Hks as (_ & _ & L3).
  pose proof Hid as (Hne & Hin & L4).
  assert (Hpre : forall r, has_prefix "/data/" ("/data/" +:+ r) = true /\ skip_chars 6 ("/data/" +:+ r) = r).
  { intros r. split; [|done]. unfold has_prefix. cbn. by destruct r. }
  assert (Hslash : forall a b, ((a +:+ "/") +:+ b) = a +:+ "/" +:+ b) by (intros; apply append_assoc).
  split; unfold split_data_path.
  - destruct (Hpre (db +:+ "/" +:+ part +:+ "/" +:+ ks +:+ "/" +:+ id)) as [-> ->]. cbn [negb].
    rewrite snprintf_short by (rewrite !length_append; simpl; lia).
    rewrite <-!append_assoc, strip_slash_app, strip_slash_none, !append_assoc by done.
    rewrite (strtok_part 128) by done. cbn [mbind option_bind].
    rewrite (strtok_part 256) by done. cbn [mbind option_bind].
    rewrite (strtok_part 128) by done. cbn [mbind option_bind].
    assert (Hc : contains "/" id = false).
    { unfold contains. apply bool_decide_eq_false_2. intros [i Hi].
      destruct (buf_find_Some _ _ _ Hi) as (E & _). apply Hin. change (chars "/") with ["/"%char] in E. cbn [length] in E.
      rewrite <-(take_drop i (chars id)). apply elem_of_app. right.
      destruct (drop i (chars id)) as [|c l]; [done|]. injection E as ->. by apply elem_of_cons; left. }
    rewrite Hc. destruct (String.eqb_spec id ""); [done|]. cbn [orb]. by rewrite !snprintf_short.
  - destruct (Hpre (db +:+ "/" +:+ part +:+ "/" +:+ ks +:+ "/")) as [-> ->]. cbn [negb].
    rewrite snprintf_short by (rewrite !length_append; simpl; lia).
    rewrite <-!append_assoc, strip_slash_app by done. change (strip_slash "/") with ""%string.
    rewrite append_nil, !append_assoc. rewrite (strtok_part 128) by done. cbn [mbind option_bind].
    rewrite (strtok_part 256) by done. cbn [mbind option_bind].
    assert (Hk : strtok ks = Some (ks, ""%string)).
    { destruct Hks as (Hk & Hks & _). unfold strtok. destruct ks as [|c s]; [done|].
      assert (Hspan : span (fun c => negb (bool_decide (c = "/"%char))) (String c s) = (String c s, ""%string)).
      { clear -Hks. induction (String c s) as [|d t IH]; [done|]. cbn in Hks. apply not_elem_of_cons in Hks as [Hd Ht].
        cbn [span]. rewrite bool_decide_eq_false_2 by done. cbn [negb]. by rewrite IH. }
      rewrite skip_slashes_id, Hspan; [done|]. cbn in Hks. by apply not_elem_of_cons in Hks as [? _]. }
    by rewrite Hk.
Qed.

Lemma data_path_roundtrip_witness :
  split_data_path "/data/d/p/k/x" = Some ("d", "p", "k", "x")%string /\ split_data_path "/data/d/p/k/" = None.
Proof.
  assert (H : forall n c, (1 < n)%nat -> c <> "/"%char -> path_part n (String c "")).
  { intros n c Hn Hc. split; [done|]. split; [|cbn; lia]. by intros ?%list_elem_of_singleton. }
  apply (data_path_roundtrip "d" "p" "k" "x"); by apply H; [lia|].
Defined.

(** A key that is too long is cut: another document is meant. *)
Lemma long_keys_collide :
  let long c := str (repeat "a"%char 511 ++ [c]) in
  split_data_path ("/data/d/p/k/" +:+ long "x"%char) = split_data_path ("/data/d/p/k/" +:+ long "y"%char).
Proof. by vm_compute. Qed.

(** ** The system database through the data routes *)

Section system_database.
Context {S : Type} {RS : RecordStore S} {JC : JsonCodec} {RL : RecordStoreLaws S} {DE : DataEngine S} {LW : LocalWrites S}.
Context (now : Z) (record : analytics_event -> st S unit).
Hypothesis covers : forall ks, ks ∈ system_keyspaces -> ks ∈ rs_keyspaces (S := S).

(** Both interfaces read the same engine. *)
Hypothesis same_engine : forall ks id s, get_doc EDB_SYSTEM_DB ks id s = rs_get ks id s.

(** C40: Anybody can read the records of the configuration, password
    hashes included: a client that names no user and asks for a document of
    the partition of the system, under the name of any database that has no
    record of such a partition, is answered with the record. *)
Theorem system_records_open req a db ks id doc
  (Hs : rs_ok (a_store a)) (Hlock : a_restore_locked a = false) (Hclient : rq_trusted req = false)
  (Hquiet : edb_auth_throttled (a_attempts a) (rq_peer_ip req) now = false)
  (Hnobody : (credentials req).1 = None)
  (Hpath : split_data_path (rq_path req) = Some (db, EDB_SYSTEM_DB, ks, id)) (Hks : ks ∈ system_keyspaces)
  (Hfree : partition_of (rs_view (a_store a) CFG_KEYSPACE_PARTITIONS) db EDB_SYSTEM_DB = None)
  (Hdoc : rs_view (a_store a) ks !! id = Some doc) :
  (handle_data_get None now record req a).1 = respond_json 200 (Some doc).
Proof using RL covers same_engine.
  unfold handle_data_get. rewrite Hpath. unfold unless_restoring. rewrite st_bind_run. cbn [inspect fst snd]. rewrite Hlock.
  unfold authenticated. rewrite st_bind_run. destruct (authenticate_spec now covers req a Hs) as [E [Hu _]].
  assert (Hok : (authenticate now req a).1.1 = true).
  { rewrite E. unfold identify. by rewrite Hclient, Hquiet, Hnobody. }
  destruct (authenticate now req a) as [[ok groups] a1]. cbn [fst snd] in *. rewrite Hok.
  unfold authorized. rewrite st_bind_run. destruct (on_store_run (authorize_partition db EDB_SYSTEM_DB groups EDB_PERM_READ) a1) as (E1 & E2 & _).
  destruct (partition_get_spec covers db EDB_SYSTEM_DB (a_store a1) (proj1 Hu)) as (s2 & Ep & Hu2).
  assert (Hauth : authorize_partition db EDB_SYSTEM_DB groups EDB_PERM_READ (a_store a1) = (true, s2)).
  { unfold authorize_partition. rewrite st_bind_run, Ep. cbn [fst snd mret st_ret].
    assert (Hv : rs_view (a_store a1) CFG_KEYSPACE_PARTITIONS = rs_view (a_store a) CFG_KEYSPACE_PARTITIONS)
      by (apply Hu; by repeat constructor). by rewrite Hv, Hfree. }
  rewrite E1, Hauth. cbn [fst]. rewrite Hauth in E2. cbn [snd] in E2.
  set (a2 := (on_store _ a1).2) in *. rewrite st_bind_run.
  destruct (on_store_run (read_document None db EDB_SYSTEM_DB ks id) a2) as (F1 & _). rewrite F1. cbn [read_document].
  rewrite same_engine, E2. destruct (fetch_spec covers ks id s2 (proj1 Hu2) Hks) as (s3 & Ef & _).
  unfold fetch in Ef. rewrite Ef. cbn [fst]. rewrite st_bind_run. cbn [mret st_ret fst].
  assert (Hv2 : rs_view s2 ks = rs_view (a_store a) ks).
  { transitivity (rs_view (a_store a1) ks); [by apply Hu2|by apply Hu]. }
  by rewrite Hv2, Hdoc.
Qed.
End system_database.

(** ** The routes *)

Section routes.
Context {S : Type} {RS : RecordStore S} {JC : JsonCodec}.
Context {DE : DataEngine S} {LW : LocalWrites S} {SQ : Sqlite} {MT : Maintenance S}.
Context (cfg : edb_config S) (repl : option (api_repl S)) (now : Z) (junk salt token : string).
Context (before : edb_lua_event -> string -> string -> string -> string -> option json -> Z -> st S lua_outcome).
Context (fire : edb_lua_event -> string -> string -> string -> string -> option json -> st S unit).
Context (record : analytics_event -> st S unit) (raw_u64 : Z -> json) (cl : option edb_cluster).
Context (other : string -> edb_http_request -> st (api S) edb_http_response).

Definition api_server : edb_http_server (api S) :=
  (edb_api_register cfg repl now junk fire record raw_u64 cl before salt token other edb_http_start).2.

Definition a_request (method path : string) : edb_http_request := Request method path "" [] "" "" false.

(** All routes fit; a request is routed by the longest prefix, which need not
    end at a slash. *)
Lemma routes_registered :
  (edb_api_register cfg repl now junk fire record raw_u64 cl before salt token other edb_http_start).1 = true /\
  length (routes api_server) = 44%nat /\
  find_route api_server (a_request "DELETE" "/admin/users/ann") = Some (Route "DELETE" "/admin/" (Some (keeping (handle_admin_delete cfg now)))) /\
  find_route api_server (a_request "DELETE" "/admin/settings/x") = Some (Route "DELETE" "/admin/settings" (Some (keeping (handle_settings cfg now)))) /\
  find_route api_server (a_request "POST" "/eqlx") = Some (Route "POST" "/eql" (Some (keeping (handle_eql_common cfg repl now junk fire record)))) /\
  find_route api_server (a_request "DELETE" "/status") = None.
Proof. by repeat split. Qed.
End routes.

End ApiFacts.
