(* ===== verification/ApiNode.v ===== *)
(** The HTTP API on a node of its own: the data routes of Api.v over the
    engine of Manager.v, without replication and with scripts that keep what
    they are given. A document that was put is the one the store answers with
    until it expires, is deleted or put again; the other theorems about the API
    are instantiated here. *)

From S2P Require Import Prelude BlockHash Md5 Json Shard ShardFacts Manager ManagerFacts EngineFacts.
From S2P Require Import Store MapStore Config ConfigFacts StoreFacts Wire Cluster Repl ReplHandlers World.
From S2P Require Import EqlScan EqlExec EqlFacts EqlNode Http HttpFacts Api ApiAdmin ApiFacts.

Module ApiNode.

Import Json Store Config ConfigFacts Cluster Repl ReplHandlers Shard ShardFacts Manager ManagerFacts EngineFacts StoreFacts World.
Import EqlScan EqlExec EqlFacts EqlNode Http HttpFacts Api ApiAdmin ApiFacts.

(** ** Rows and documents *)

(** What a read at [t] sees of a row. *)
Abbreviation seen t r := (document t r).

Lemma document_put `{JsonCodec} `{!JsonCodecLaws _} t now doc ttl (Hf : finite_json doc = true) :
  seen t (put_row (json_print doc) (if 0 <=? ttl then now + ttl else -1) now (Some ""%string)) =
    if (ttl <? 0) || (now + ttl <? 0) || (t <=? now + ttl) then Some doc else None.
Proof.
  unfold document, put_row, live, row_document. cbn [r_ttl r_value].
  rewrite (proj2 (String.eqb_neq _ _) (json_print_nonempty doc)), (json_parse_print doc Hf).
  destruct (Z.leb_spec 0 ttl), (Z.ltb_spec ttl 0); try lia; cbn [orb]; [|done].
  by destruct (Z.leb_spec 0 (now + ttl)), (Z.ltb_spec (now + ttl) 0); try lia.
Qed.

Lemma document_deleted `{JsonCodec} t now r : now - 5 < t -> seen t (soft_delete now r) = None.
Proof. intros Ht. unfold document, live. cbn. by destruct (Z.leb_spec t (now - 5)); [lia|]. Qed.

(** The answers of a request that is not let in. *)
Definition refused (res : edb_http_response) : Prop := res_status res ∈ [401; 403; 503].

Lemma ok_not_refused res : res_status res = 200 -> ~ refused res.
Proof. unfold refused. intros ->. set_solver. Qed.

Section node.
Context {C : JsonCodec} {CL : JsonCodecLaws C} {Q : JsonSql}.
Context (scan : table -> list (string * row)).
Context (record : analytics_event -> st engine unit).
Hypothesis reports : forall ev, within engine_same (record ev).

Definition keep_document (ev : edb_lua_event) (db p ks id : string) (doc : option json) (groups : Z)
    : st engine lua_outcome := mret (LuaOk doc).

#[local] Instance api_store (now : Z) : RecordStore engine := eql_store scan now.

(** The data routes at time [now]. *)
Definition node_put (now : Z) : edb_http_request -> st (api engine) edb_http_response :=
  handle_data_put (H := eql_store scan now) (H1 := eql_data scan now) (H2 := eql_writes now)
    edb_config_open None now keep_document quiet_scripts record.
Definition node_delete (now : Z) : edb_http_request -> st (api engine) edb_http_response :=
  handle_data_delete (H := eql_store scan now) (H1 := eql_data scan now) (H2 := eql_writes now)
    None now keep_document quiet_scripts record.
Definition node_get (now : Z) : edb_http_request -> st (api engine) edb_http_response :=
  handle_data_get (H := eql_store scan now) (H1 := eql_data scan now) None now record.


(** *** What holds of every answer *)

#[local] Existing Instance apis_preorder.

(** Started where only reading has happened since [e], a computation ends as
    [P] says. *)
Definition answers {A} (e : engine) (P : A * api engine -> Prop) (m : st (api engine) A) : Prop :=
  forall a, engine_same e (a_store a) -> P (m a).

Lemma answers_ret {A} e (P : A * api engine -> Prop) x : (forall a, P (x, a)) -> answers e P (mret x).
Proof. intros H a _. apply H. Qed.

Lemma answers_bind {A B} e (P : B * api engine -> Prop) (m : st (api engine) A) f :
  within (apis engine_same) m -> (forall x, answers e P (f x)) -> answers e P (m ≫= f).
Proof.
  intros Hm Hf a Ha. rewrite st_bind_run. apply Hf. etransitivity; [exact Ha|]. apply Hm.
Qed.

Lemma answers_known {A B} e (P : B * api engine -> Prop) (x : A) f :
  answers e P (f x) -> answers e P (on_store (mret x) ≫= f).
Proof. intros H a Ha. rewrite st_bind_run. by apply H. Qed.

Section at_a_time.
Context (now : Z) (e : engine) (P : edb_http_response * api engine -> Prop).
#[local] Existing Instance eql_writes.
#[local] Instance data_now : DataEngine engine := eql_data scan now.
#[local] Instance writes_now : LocalWrites engine := eql_writes now.

Lemma answers_restoring k : (forall a, P (locked_out, a)) -> answers e P k -> answers e P (unless_restoring k).
Proof.
  intros Hno Hk. apply answers_bind; [apply within_ask; exact _|]. intros []; [by apply answers_ret|done].
Qed.

Lemma answers_authenticated req k : (forall a, P (respond_error 401 "unauthorized", a)) ->
  (forall g, answers e P (k g)) -> answers e P (authenticated (H := eql_store scan now) now req k).
Proof.
  intros Hno Hk. apply answers_bind.
  - apply (authenticate_within (DE := eql_data scan now) (LW := eql_writes now) None); [exact _|apply node_reads].
  - intros [[] g]; [apply Hk|by apply answers_ret].
Qed.

Lemma answers_authorized db part g perm k : (forall a, P (respond_error 403 "permission denied", a)) ->
  answers e P k -> answers e P (authorized (H := eql_store scan now) db part g perm k).
Proof.
  intros Hno Hk. apply answers_bind; [|intros []; [done|by apply answers_ret]].
  apply within_store. unfold authorize_partition. apply within_bind; [exact _| |intros x; follow].
  unfold edb_partition_get, fetch. apply within_bind; [exact _|apply (in_get _ _ (node_reads scan now))|intros x; follow].
Qed.
End at_a_time.

(** What a read of a document answers, from the table of its shard. *)
Definition read_answer (later : Z) (e : engine) (k id : string) : edb_http_response :=
  match engine_table e k !! id ≫= document later with
  | None => respond_error 404 "not found"
  | Some d => respond_json 200 (Some d)
  end.

Lemma edb_get_table later e p ks id : quiescent e ->
  (edb_get e true SqlOk later p ks id).1 = engine_table e (shard_key p ks) !! id ≫= document later.
Proof.
  intros Hq. unfold edb_get.
  destruct (on_shard_table e p ks None (fun sh => edb_shard_get sh SqlOk later id) Hq) as (_ & sh & Hd & -> & _ & _);
    [intros sh; apply get_data|].
  rewrite get_result. unfold select_live. rewrite Hd. destruct (_ !! id) as [r|]; [|done]. cbn.
  unfold document. by destruct (live later r).
Qed.

Lemma get_answers later req a db part ks id (Hq : quiescent (a_store a))
  (Hpath : split_data_path (rq_path req) = Some (db, part, ks, id)) :
  refused (node_get later req a).1 \/
  (node_get later req a).1 = read_answer later (a_store a) (shard_key part ks) id.
Proof using reports.
  enough (answers (a_store a) (fun r => refused r.1 \/ r.1 = read_answer later (a_store a) (shard_key part ks) id)
    (node_get later req)) as H by (apply H; reflexivity).
  unfold node_get, handle_data_get. rewrite Hpath.
  apply answers_restoring; [intros; left; by repeat constructor|].
  apply answers_authenticated; [intros; left; by repeat constructor|]. intros g.
  apply answers_authorized; [intros; left; by repeat constructor|].
  intros a1 H1. right. rewrite !st_bind_run. cbn [fst mret st_ret].
  destruct (on_store_run (read_document (H1 := eql_data scan later) None db part ks id) a1) as (-> & _).
  cbn [read_document get_doc eql_data]. destruct (H1 Hq) as [Hq1 Ht1].
  change (get_doc (DataEngine := eql_data scan later) part ks id (a_store a1)) with (edb_get (a_store a1) true SqlOk later part ks id).
  rewrite edb_get_table by done. unfold read_answer. by rewrite Ht1.
Qed.

(** *** What a write stores *)

(** The tables the registers of partitions and keyspaces are kept in. *)
Definition registers (k : string) : Prop :=
  k = config_key CFG_KEYSPACE_PARTITIONS \/ k = config_key CFG_KEYSPACE_KEYSPACES.

(** [e'] has the table [d] under [key] and, registers aside, the other tables
    of [e]. *)
Definition one_table (e e' : engine) (key : string) (d : table) : Prop :=
  quiescent e' /\ engine_table e' key = d /\
  forall k, k <> key -> ~ registers k -> engine_table e' k = engine_table e k.

Lemma one_table_step e e1 e2 e3 key d : engine_same e e1 -> quiescent e -> ~ registers key ->
  engine_table e2 key = d -> quiescent e2 -> (forall k, k <> key -> engine_table e2 k = engine_table e1 k) ->
  engine_only registers e2 e3 -> one_table e e3 key d.
Proof.
  intros H1 Hq Hkey Hd Hq2 Ho H3. destruct (H1 Hq) as [Hq1 Ht1]. destruct (H3 Hq2) as [Hq3 Ht3].
  split; [done|]. split; [by rewrite Ht3|]. intros k Hk Hr. by rewrite Ht3, Ho, Ht1.
Qed.

Lemma quiet_fire_before ev db part ks id doc g :
  fire_before keep_document ev db part ks id doc g = mret (LuaOk doc).
Proof. unfold fire_before. by destruct (String.eqb db EDB_SYSTEM_DB). Qed.

Lemma put_effects now req a db part ks id doc (Hq : quiescent (a_store a))
  (Hpath : split_data_path (rq_path req) = Some (db, part, ks, id)) (Hbody : body_object req = Some doc)
  (Hdoc : finite_json doc = true) (Hkey : ~ registers (shard_key part ks)) :
  res_status (node_put now req a).1 = 200 ->
  one_table (a_store a) (a_store (node_put now req a).2) (shard_key part ks)
    (<[id := put_row (json_print doc) (if 0 <=? ttl_of req then now + ttl_of req else -1) now (Some ""%string)]>
       (engine_table (a_store a) (shard_key part ks))).
Proof using CL reports.
  enough (answers (a_store a) (fun r => res_status r.1 = 200 -> one_table (a_store a) (a_store r.2) (shard_key part ks)
    (<[id := put_row (json_print doc) (if 0 <=? ttl_of req then now + ttl_of req else -1) now (Some ""%string)]>
       (engine_table (a_store a) (shard_key part ks)))) (node_put now req)) as H by (apply H; reflexivity).
  unfold node_put, handle_data_put. rewrite Hpath. destruct (contains _ _); [by apply answers_ret|].
  apply answers_restoring; [done|]. apply answers_authenticated; [done|]. intros g. rewrite Hbody. unfold put_document.
  apply answers_bind; [apply within_store, node_get_same|]. intros existing. apply answers_authorized; [done|].
  rewrite quiet_fire_before. apply answers_known. unfold stored_document. rewrite json_parse_print by done.
  intros a1 H1. rewrite st_bind_run. cbn [default].
  destruct (on_shard_table (a_store a1) part ks false (fun sh => edb_shard_put sh SqlOk now id (json_print doc) (ttl_of req)))
    as (Hq2 & sh & Hd & Hr & Ht & Ho); [by apply H1|intros sh; apply put_key|].
  set (w := write_document _ _ _ _ _ _ _ _ _). destruct (on_store_run w a1) as (-> & E & _).
  set (a2 := (on_store w a1).2) in *. clearbody a2.
  assert (Hw : w (a_store a1) = (EDB_REPL_OK, (edb_put (a_store a1) true SqlOk now part ks id (json_print doc) (ttl_of req)).2)).
  { subst w. unfold write_document. rewrite st_bind_run. cbn [eng_put eql_writes]. unfold edb_put. rewrite Hr.
    by rewrite (proj1 (put_data sh now id (json_print doc) (ttl_of req))). }
  rewrite Hw in E |- *. cbn [fst snd] in *. clear w Hw. intros _.
  eapply one_table_step; [exact H1|done|done| |exact Hq2|exact Ho|].
  - rewrite Ht, (proj2 (put_data sh now id (json_print doc) (ttl_of req))), Hd. f_equal. by apply H1.
  - unfold edb_put in E. rewrite <-E. match goal with |- engine_only _ _ (a_store (?m a2).2) =>
      enough (within (apis (engine_only registers)) m) as Hm by apply (Hm a2) end.
    apply within_bind; [exact _| |intros _; apply within_bind; [exact _| |intros _; follow]].
    + apply within_store, ensure_only; [by left|by right].
    + apply within_store. intros e0. apply same_only, reports.
    + apply within_store. unfold api_fire_lua. follow.
Qed.

Lemma delete_effects now req a db part ks id (Hq : quiescent (a_store a))
  (Hpath : split_data_path (rq_path req) = Some (db, part, ks, id)) (Hkey : ~ registers (shard_key part ks)) :
  res_status (node_delete now req a).1 = 200 ->
  one_table (a_store a) (a_store (node_delete now req a).2) (shard_key part ks)
    (alter (soft_delete now) id (engine_table (a_store a) (shard_key part ks))).
Proof using CL reports.
  enough (answers (a_store a) (fun r => res_status r.1 = 200 -> one_table (a_store a) (a_store r.2) (shard_key part ks)
    (alter (soft_delete now) id (engine_table (a_store a) (shard_key part ks)))) (node_delete now req)) as H
    by (apply H; reflexivity).
  unfold node_delete, handle_data_delete. rewrite Hpath.
  apply answers_restoring; [done|]. apply answers_authenticated; [done|]. intros g. apply answers_authorized; [done|].
  unfold delete_document. apply answers_bind; [apply within_store, node_get_same|]. intros existing.
  rewrite quiet_fire_before. apply answers_known. intros a1 H1. rewrite st_bind_run.
  destruct (on_shard_table (a_store a1) part ks false (fun sh => edb_shard_delete sh SqlOk now id))
    as (Hq2 & sh & Hd & Hr & Ht & Ho); [by apply H1|intros sh; apply delete_key|].
  set (w := remove_document _ _ _ _ _ _). destruct (on_store_run w a1) as (-> & E & _).
  set (a2 := (on_store w a1).2) in *. clearbody a2.
  assert (Hw : w (a_store a1) = (EDB_REPL_OK, (edb_delete (a_store a1) true SqlOk now part ks id).2)).
  { subst w. unfold remove_document. rewrite st_bind_run. cbn [eng_delete eql_writes]. unfold edb_delete. rewrite Hr.
    by rewrite (proj1 (delete_data sh now id)). }
  rewrite Hw in E |- *. cbn [fst snd] in *. clear w Hw. intros _.
  eapply one_table_step; [exact H1|done|done| |exact Hq2|exact Ho|].
  - rewrite Ht, (proj2 (delete_data sh now id)), Hd. f_equal. by apply H1.
  - unfold edb_delete in E. rewrite <-E. match goal with |- engine_only _ _ (a_store (?m a2).2) =>
      enough (within (apis (engine_only registers)) m) as Hm by apply (Hm a2) end.
    apply within_bind; [exact _| |intros _; apply within_bind; [exact _| |intros _; follow]].
    + apply within_store. unfold api_fire_lua. follow.
    + apply within_store. intros e0. apply same_only, reports.
Qed.

(** C8: On a node of its own whose scripts leave documents as they are,
    what was put is what is read: after a PUT that was answered 200, a GET of
    that document that is let in is answered with the document that was sent,
    until the time to live of the request is over, and with 404 afterwards;
    after a DELETE that was answered 200 with 404. A GET of any other document,
    outside the registers of partitions and keyspaces, is answered as before. A
    document is a key in a shard, and the shard is that of its partition and
    keyspace: the database in its path is no part of it. *)
Theorem documents_over_http now req a db part ks id doc
  (Hq : quiescent (a_store a)) (Hpath : split_data_path (rq_path req) = Some (db, part, ks, id))
  (Hbody : body_object req = Some doc) (Hdoc : finite_json doc = true) (Hkey : ~ registers (shard_key part ks))
  (Hok : res_status (node_put now req a).1 = 200) (a1 := (node_put now req a).2) (ttl := ttl_of req) :
  (forall later get, rq_path get = rq_path req ->
     refused (node_get later get a1).1 \/
     (node_get later get a1).1 =
       if (ttl <? 0) || (now + ttl <? 0) || (later <=? now + ttl) then respond_json 200 (Some doc)
       else respond_error 404 "not found") /\
  (forall later get db' part' ks' id', split_data_path (rq_path get) = Some (db', part', ks', id') ->
     (shard_key part' ks', id') <> (shard_key part ks, id) -> ~ registers (shard_key part' ks') ->
     refused (node_get later get a1).1 \/
     (node_get later get a1).1 = read_answer later (a_store a) (shard_key part' ks') id') /\
  (forall gone del later get, rq_path del = rq_path req -> rq_path get = rq_path req ->
     res_status (node_delete gone del a1).1 = 200 -> gone - 5 < later ->
     refused (node_get later get (node_delete gone del a1).2).1 \/
     (node_get later get (node_delete gone del a1).2).1 = respond_error 404 "not found").
Proof using CL reports.
  destruct (put_effects now req a db part ks id doc Hq Hpath Hbody Hdoc Hkey Hok) as (Hq1 & Ht & Ho).
  fold a1 in Hq1, Ht, Ho. split; [|split].
  - intros later get Hget. rewrite <-Hget in Hpath.
    destruct (get_answers later get a1 _ _ _ _ Hq1 Hpath) as [|Hans]; [by left|]. right. rewrite Hans.
    unfold read_answer. rewrite Ht, lookup_insert_eq. cbn [mbind option_bind].
    rewrite document_put by done. fold ttl. by destruct (_ || _).
  - intros later get db' part' ks' id' Hget Hne Hr.
    destruct (get_answers later get a1 _ _ _ _ Hq1 Hget) as [|Hans]; [by left|]. right. rewrite Hans. unfold read_answer.
    destruct (decide (shard_key part' ks' = shard_key part ks)) as [E|E]; [|by rewrite Ho].
    rewrite E, Ht, lookup_insert_ne; [done|]. intros <-. apply Hne. rewrite E. reflexivity.
  - intros gone del later get Hdel Hget Hgone Hlater. rewrite <-Hdel in Hpath.
    destruct (delete_effects gone del a1 _ _ _ _ Hq1 Hpath Hkey Hgone) as (Hq2 & Ht2 & _).
    rewrite Hdel, <-Hget in Hpath.
    destruct (get_answers later get _ _ _ _ _ Hq2 Hpath) as [|Hans]; [by left|]. right. rewrite Hans.
    unfold read_answer. rewrite Ht2, lookup_alter_eq, Ht, lookup_insert_eq. cbn [fmap option_fmap mbind option_bind option_map].
    by rewrite document_deleted.
Qed.

End node.

(** ** Instances *)

Section demo.
#[local] Existing Instance MapStore.digit_codec.
#[local] Existing Instance MapStore.digit_codec_laws.
#[local] Existing Instance StoreFacts.sample_sql.

Definition unrecorded (ev : analytics_event) : st engine unit := mret tt.

Lemma unrecorded_same ev : within engine_same (unrecorded ev).
Proof. apply within_ret. exact _. Qed.

(** An untrusted client of a node without users. *)
Definition client (method path query body : string) : edb_http_request := Request method path query [] body "10.0.0.9" false.
Definition sample_doc : json := JObject [("n", jnum 7)].
Definition sample_put : edb_http_request := client "PUT" "/data/db/p/k/x" "ttl=60" (json_print sample_doc).
Definition sample_api : api engine := api_start (empty_manager ∅ ∅).
Definition sample_get : edb_http_request := client "GET" "/data/db/p/k/x" "" "".

Lemma sample_key : ~ registers (shard_key "p" "k").
Proof. intros [H|H]; vm_compute in H; discriminate H. Qed.

Lemma sample_quiescent : quiescent (a_store sample_api).
Proof. apply files_empty; intros n; intros; by rewrite lookup_empty in *. Qed.

Lemma sample_body : body_object sample_put = Some sample_doc.
Proof. vm_compute. reflexivity. Qed.

Lemma sample_ttl : ttl_of sample_put = 60.
Proof. by vm_compute. Qed.

Lemma sample_stored : res_status (node_put map_to_list unrecorded 100 sample_put sample_api).1 = 200.
Proof. vm_compute. reflexivity. Qed.

Lemma sample_let_in :
  res_status (node_get map_to_list unrecorded 160 sample_get (node_put map_to_list unrecorded 100 sample_put sample_api).2).1 = 200.
Proof. vm_compute. reflexivity. Qed.

Lemma documents_over_http_witness :
  (node_get map_to_list unrecorded 160 sample_get (node_put map_to_list unrecorded 100 sample_put sample_api).2).1 =
    respond_json 200 (Some sample_doc).
Proof.
  destruct (documents_over_http map_to_list unrecorded unrecorded_same 100 sample_put sample_api "db" "p" "k" "x" sample_doc
    sample_quiescent eq_refl sample_body eq_refl sample_key sample_stored) as (Hget & _ & _).
  destruct (Hget 160 sample_get eq_refl) as [Hr|Hr].
  - destruct (ok_not_refused _ sample_let_in Hr).
  - rewrite sample_ttl in Hr. exact Hr.
Defined.

End demo.
Section records.
Import MapStore.
#[local] Existing Instance digit_codec.
#[local] Existing Instance EqlNode.toy_sqlite.
#[local] Instance record_laws : RecordStoreLaws map_store := map_store_laws system_keyspaces.
#[local] Instance record_data : DataEngine map_store := {|
  replica_put_origin _ _ _ _ _ _ _ := mret false;
  replica_delete_origin _ _ _ _ _ := mret false;
  get_doc p ks id := if String.eqb p EDB_SYSTEM_DB then rs_get ks id else mret None;
  get_ts _ _ _ := mret None;
  all_docs _ _ _ := mret None;
  all_ts _ _ _ := mret None;
  query_docs _ _ _ := mret None;
  query_ts _ _ _ := mret None;
  ids_of _ _ _ := mret None;
|}.
#[local] Instance record_writes : LocalWrites map_store := {|
  eng_put _ _ _ _ _ := mret false;
  eng_delete _ _ _ := mret false;
|}.
#[local] Instance record_maintenance : Maintenance map_store := {|
  eng_vacuum_partition _ := mret 0;
  eng_reindex_partition _ := mret 0;
|}.

Lemma record_covers : forall ks, ks ∈ system_keyspaces -> ks ∈ rs_keyspaces (S := map_store).
Proof. done. Qed.

(** The user ann of group 4, who has logged in. *)
Definition with_ann : map_store := (edb_user_create (S := map_store) edb_config_open "ann" 4 ∅).2.
Definition ann_record : json := default JNull (docs with_ann CFG_KEYSPACE_USERS !! "ann"%string).
Definition ann_api : api map_store :=
  ApiState (repeat no_attempt EDB_AUTH_ATTEMPT_SLOTS)
    (session_create (repeat no_session EDB_SESSION_CAPACITY) "ann" 4 "cafe" 100) false None with_ann.
Definition ann_request (method path : string) : edb_http_request :=
  Request method path "" [("Authorization", "Bearer cafe")] "" "10.0.0.9" false.

Lemma caller_is_known_witness :
  (authenticate 200 (ann_request "GET" "/status") ann_api).1 = (true, 4) /\
  unchanged with_ann (a_store (authenticate 200 (ann_request "GET" "/status") ann_api).2).
Proof.
  assert (E : (authenticate 200 (ann_request "GET" "/status") ann_api).1 = (true, 4)) by (vm_compute; reflexivity).
  split; [exact E|].
  exact (proj2 (caller_is_known 200 record_covers (ann_request "GET" "/status") ann_api 4 I eq_refl E)).
Defined.

Lemma admin_routes_guarded_witness :
  res_status (handle_admin_delete edb_config_open 200 (ann_request "DELETE" "/admin/users/ann") ann_api).1 ∈ [401; 403; 405] /\
  same_records ann_api (handle_admin_delete edb_config_open 200 (ann_request "DELETE" "/admin/users/ann") ann_api).2.
Proof.
  apply (admin_routes_guarded edb_config_open 200 "" (fun _ => JNull) record_covers (handle_admin_delete edb_config_open 200)).
  - apply list_elem_of_lookup. by exists 4%nat.
  - exact I.
  - vm_compute. reflexivity.
Defined.

Lemma restore_blocks_data_witness :
  let a := ApiState [] [] true None (∅ : map_store) in
  (handle_data_get None 9 (fun _ => mret tt) (ann_request "GET" "/data/d/p/k/x") a).2 = a.
Proof.
  intros a. apply (restore_blocks_data edb_config_open None 9 "" (fun _ _ _ _ _ doc _ => mret (LuaOk doc))
    (fun _ _ _ _ _ _ => mret tt) (fun _ => mret tt) (handle_data_get None 9 (fun _ => mret tt))).
  - apply list_elem_of_lookup. by exists 1%nat.
  - reflexivity.
Defined.

(** Without naming a user, through a database that does not exist. *)
Definition spy : edb_http_request := Request "GET" "/data/nodb/__system__/config_users/ann" "" [] "" "10.0.0.9" false.

Lemma system_records_open_witness :
  (handle_data_get None 200 (fun _ => mret tt) spy ann_api).1 = respond_json 200 (Some ann_record).
Proof.
  apply (system_records_open 200 (fun _ => mret tt) record_covers ltac:(done) spy ann_api "nodb" CFG_KEYSPACE_USERS "ann" ann_record).
  - exact I.
  - reflexivity.
  - reflexivity.
  - vm_compute. reflexivity.
  - reflexivity.
  - vm_compute. reflexivity.
  - by repeat constructor.
  - vm_compute. reflexivity.
  - vm_compute. reflexivity.
Defined.
End records.

Section demo_refused.
#[local] Existing Instance MapStore.digit_codec.
#[local] Existing Instance StoreFacts.sample_sql.

Lemma node_lists p ks f : within engine_same (ids_of (DataEngine := eql_data map_to_list 160) p ks f).
Proof. by apply on_shard_same. Qed.

(** A listing of a keyspace, and a PUT to a path without a key. *)
Lemma refused_writes_nothing_witness :
  engine_same (a_store sample_api) (a_store (node_get map_to_list unrecorded 160 sample_get sample_api).2) /\
  engine_same (a_store sample_api) (a_store (node_put map_to_list unrecorded 160 (client "PUT" "/data/db/p" "" "{}") sample_api).2).
Proof.
  pose proof (refused_writes_nothing (RS := eql_store map_to_list 160) (DE := eql_data map_to_list 160) (LW := eql_writes 160)
    edb_config_open None 160 keep_document quiet_scripts unrecorded engine_same (node_reads map_to_list 160)
    ltac:(discriminate) ltac:(discriminate) node_lists unrecorded_same) as H.
  split; [exact (proj1 (H sample_get sample_api))|].
  destruct (proj1 (proj2 (proj2 (H (client "PUT" "/data/db/p" "" "{}") sample_api)))) as [Hs|(ev & db & p & ks & id & doc & g & reason & s1 & s2 & _ & Hv & _)].
  - vm_compute. by left.
  - exact Hs.
  - by unfold keep_document in Hv.
Defined.
End demo_refused.

End ApiNode.
