(* ===== verification/Snap.v ===== *)
(** src/socket/epsilon_snap.c: copying the file of a shard from one node to
    another over frames. The two sides are the programs of the two ends; a
    frame is its type and payload, the socket of a side accepts frames as its
    outcomes say, and what it receives is the list of frames that arrive. The
    data directory is a map from paths to contents; SQLite's online backup is
    an interface, the temporary names are arguments. *)

From S2P Require Import Prelude Json Store Cluster Config Wire.
From Stdlib Require Import SpecFloat.

Module Snap.

Import Json Store Cluster Config Wire.

Definition SNAP_MAX_BYTES : Z := 4 * 1024 * 1024 * 1024.

Definition message : Type := Z * bytes.
Abbreviation files := (gmap string bytes).

Definition size_of (l : bytes) : Z := Z.of_nat (length l).

Definition is_key_char (c : Ascii.ascii) : bool := char_in c 48 57 || char_in c 97 102.
Fixpoint all_chars (f : Ascii.ascii -> bool) (s : string) : bool :=
  match s with EmptyString => true | String c s => f c && all_chars f s end.
Definition valid_key (key : string) : bool := (String.length key =? 32)%nat && all_chars is_key_char key.

Definition shard_path (dir key : string) : string := dir +:+ "/" +:+ key +:+ ".sqlite".

(** ** A side of the connection *)

(** The data directory, the frames sent and how the next sends turn out; a
    send without an outcome fails. *)
Record side := Side { sd_files : files; sd_sent : list message; sd_outcomes : list bool }.

Definition send (f : message) : st side bool := fun s =>
  match sd_outcomes s with
  | true :: o => (true, Side (sd_files s) (sd_sent s ++ [f]) o)
  | false :: o => (false, Side (sd_files s) (sd_sent s) o)
  | [] => (false, s)
  end.

Definition with_files (g : files -> files) : st side unit := fun s =>
  (tt, Side (g (sd_files s)) (sd_sent s) (sd_outcomes s)).
Definition look {A} (g : files -> A) : st side A := fun s => (g (sd_files s), s).

Section snap.
Context {C : JsonCodec}.

Definition json_frame (type : Z) (doc : json) : message := (type, bytes_of_string (json_print doc)).
Definition frame_json (f : message) : option json := json_parse (string_of_bytes f.2).
Definition is_true (j : option json) : bool := match j with Some (JBool b) => b | _ => false end.

(** ** The sender *)

(** The backup of the database at a path, when SQLite can make it. *)
Context (backup : files -> string -> option bytes).

Definition chunk_length (data : bytes) : nat := Z.to_nat (Z.min ESTP_MAX_PAYLOAD (size_of data)).

(** The loop over the chunks of the copy; it ends at a short chunk. *)
Fixpoint send_chunks (fuel : nat) (data : bytes) : st side bool :=
  match fuel with
  | O => mret false
  | S fuel =>
      let n := chunk_length data in
      if (n =? 0)%nat then mret true
      else
        ok ← send (ESTP_SNAP_DATA, take n data);
        if negb ok then mret false
        else if Z.of_nat n <? ESTP_MAX_PAYLOAD then mret true
        else send_chunks fuel (drop n data)
  end.

Definition EOF_FRAME : message := (ESTP_SNAP_DATA, []).
Definition meta_frame (size : Z) : message :=
  json_frame ESTP_SNAP_ACK (JObject [("ok", JBool true); ("size", jnum size)]).
Definition ack_frame (ok : bool) : message := json_frame ESTP_SNAP_ACK (JObject [("ok", JBool ok)]).

(** Whether all went well, and whether the end of the data was sent. *)
Definition send_copy (copy : bytes) : st side (bool * bool) :=
  if SNAP_MAX_BYTES <? size_of copy then mret (false, false)
  else
    meta ← send (meta_frame (size_of copy));
    if negb meta then mret (false, false)
    else
      all ← send_chunks (S (length copy)) copy;
      eof ← send EOF_FRAME;
      mret (all && eof, eof).

Definition shard_missing (dir key : string) (fs : files) : bool :=
  bool_decide (fs !! snprintf 1024 (shard_path dir key) = None).

Definition snapshot_name (dir key suffix : string) : string := dir +:+ "/." +:+ key +:+ ".snapshot." +:+ suffix.

(** [suffix]: the six characters [mkstemp] chose, [None] when it fails. *)
Definition serve_key (dir key : string) (allow_missing : bool) (suffix : option string) : st side (bool * bool) :=
  if (1100 <=? String.length (snapshot_name dir key "XXXXXX"))%nat then mret (false, false)
  else
    match suffix with
    | None => mret (false, false)
    | Some suffix =>
        let tmp := snapshot_name dir key suffix in
        _ ← with_files <[tmp := []]>;
        copy ← look (fun fs => backup fs (snprintf 1100 (shard_path dir key)));
        match copy with
        | None =>
            missing ← look (shard_missing dir key);
            _ ← with_files (delete tmp);
            mret (allow_missing && missing, false)
        | Some copy =>
            _ ← with_files <[tmp := copy]>;
            r ← send_copy copy;
            _ ← with_files (delete tmp);
            mret r
        end
    end.

Definition DQ : string := String (Ascii.ascii_of_nat 34) EmptyString.
Definition EMPTY_META : string := "{" +:+ DQ +:+ "ok" +:+ DQ +:+ ":true," +:+ DQ +:+ "size" +:+ DQ +:+ ":0}".

(** Metadata and end for a shard without a file, and the final answer. *)
Definition finish (r : bool * bool) : st side unit :=
  ok ← (if r.1 && negb r.2 then
          meta ← send (ESTP_SNAP_ACK, bytes_of_string EMPTY_META);
          if meta : bool then send EOF_FRAME else mret false
        else mret r.1);
  _ ← send (ack_frame ok);
  mret tt.

(** [dir] is [None] without an engine. *)
Definition edb_snap_serve (dir : option string) (suffix : option string) (payload : bytes) : st side unit :=
  let req := json_parse (string_of_bytes payload) in
  r ← (match dir, req ≫= (fun j => get_string j "key") with
       | Some dir, Some key =>
           if valid_key key then serve_key dir key (is_true (req ≫= fun j => get_item j "allow_missing")) suffix
           else mret (false, false)
       | _, _ => mret (false, false)
       end);
  finish r.

(** ** The receiver *)

Record fetching := Fetch {
  f_metadata : bool; f_eof : bool; f_expected : Z; f_received : Z; f_out : bytes;
}.
Definition fetch_start : fetching := Fetch false false 0 0 [].

(** The loop goes on, or it ends with the final answer, or it gives up. *)
Inductive verdict := Continue (f : fetching) | Answer (ok : bool) (f : fetching) | GiveUp.

(** The free space of the data directory, and whether a write succeeds. *)
Context (space : option Z) (writable : bytes -> bytes -> bool).

Definition announced (ack : option json) : option Z :=
  match ack ≫= fun j => get_item j "size" with
  | Some (JNumber d) =>
      if nonneg d && SFleb d (double_of_Z SNAP_MAX_BYTES) then Some (Z_of_double d) else None
  | _ => None
  end.

Definition on_ack (f : fetching) (ack : option json) : verdict :=
  let ok := is_true (ack ≫= fun j => get_item j "ok") in
  let final := Answer (f_metadata f && f_eof f && ok && (f_received f =? f_expected f)) f in
  match announced ack with
  | Some size =>
      if negb (f_metadata f) && ok then
        match space with
        | None => GiveUp
        | Some space => if space <? size then GiveUp else Continue (Fetch true (f_eof f) size (f_received f) (f_out f))
        end
      else final
  | None => final
  end.

Definition on_data (f : fetching) (data : bytes) : verdict :=
  if negb (f_metadata f) || f_eof f || (f_expected f <? f_received f) || (f_expected f - f_received f <? size_of data)
  then GiveUp
  else if negb (size_of data =? 0) && negb (writable (f_out f) data) then GiveUp
  else Continue (Fetch (f_metadata f) (f_eof f || (size_of data =? 0)) (f_expected f) (f_received f + size_of data) (f_out f ++ data)).

Definition on_frame (f : fetching) (fr : message) : verdict :=
  if negb (f_metadata f) && ((fr.1 =? ESTP_HELLO) || (fr.1 =? ESTP_STATE)) then Continue f
  else if fr.1 =? ESTP_SNAP_ACK then on_ack f (frame_json fr)
  else if fr.1 =? ESTP_SNAP_DATA then on_data f fr.2
  else GiveUp.

(** Over the frames that arrive before the deadline or the end of the
    connection; the contents to install. *)
Fixpoint fetch_loop (frames : list message) (f : fetching) : option bytes :=
  match frames with
  | [] => None
  | fr :: frames =>
      match on_frame f fr with
      | Continue f => fetch_loop frames f
      | Answer ok f => if ok then Some (f_out f) else None
      | GiveUp => None
      end
  end.

Definition incoming_name (dir key suffix : string) : string := dir +:+ "/." +:+ key +:+ ".incoming." +:+ suffix.

Definition HELLO_EPHEMERAL : message := json_frame ESTP_HELLO (JObject [("node_id", JString "ephemeral")]).
Definition request_frame (key : string) (allow_missing : bool) : message :=
  json_frame ESTP_SNAP_REQ (JObject [("key", JString key); ("allow_missing", JBool allow_missing)]).

(** [dialled]: the connection was made; [suffix] as above; [reply]: the frames
    that arrive once the request was sent; [renamed]: whether rename works.
    The temporary file is there while frames arrive and gone at the end. *)
Definition snap_fetch (dialled : bool) (suffix : option string) (reply : list message) (renamed : bool)
    (addr : option string) (port : Z) (key dir : string) (allow_missing : bool) : st side bool :=
  match addr with
  | None => mret false
  | Some _ =>
      if negb (valid_key key) || (port <=? 0) || negb dialled then mret false
      else if (1100 <=? String.length (incoming_name dir key "XXXXXX"))%nat
              || (1100 <=? String.length (shard_path dir key))%nat then mret false
      else
        hello ← send HELLO_EPHEMERAL;
        if negb hello then mret false
        else
          req ← send (request_frame key allow_missing);
          if negb req then mret false
          else
            match suffix with
            | None => mret false
            | Some suffix =>
                let incoming := incoming_name dir key suffix in
                _ ← with_files <[incoming := []]>;
                match fetch_loop reply fetch_start with
                | Some content =>
                    _ ← with_files (if renamed then fun fs => <[shard_path dir key := content]> (delete incoming fs)
                                    else delete incoming);
                    mret renamed
                | None => _ ← with_files (delete incoming); mret false
                end
            end
  end.

Definition edb_snap_fetch dialled suffix reply renamed addr port key dir : st side bool :=
  snap_fetch dialled suffix reply renamed addr port key dir true.
Definition edb_snap_fetch_required dialled suffix reply renamed addr port key dir : st side bool :=
  snap_fetch dialled suffix reply renamed addr port key dir false.
End snap.

End Snap.
