(* ===== verification/SnapFacts.v ===== *)
(** Theorems about the transfer of shard files (Snap.v): what is installed is
    all of what was announced, whatever arrives; an undisturbed transfer
    installs the copy; state messages in the middle of one end it. *)

From S2P Require Import Prelude Json Doubles Store MapStore Cluster Config Wire Snap.
From Stdlib Require Import SpecFloat.

Module SnapFacts.

Import Json Doubles Store Cluster Config Wire Snap.

Definition data_frame (chunk : bytes) : message := (ESTP_SNAP_DATA, chunk).
Definition is_idle (fr : message) : Prop := fr.1 = ESTP_HELLO \/ fr.1 = ESTP_STATE.

Section snap.
Context {C : JsonCodec} (space : option Z) (writable : bytes -> bytes -> bool).

Abbreviation loop := (fetch_loop space writable).

(** An answer that all is well. *)
Definition good_ack (fr : message) : Prop :=
  fr.1 = ESTP_SNAP_ACK /\ is_true (frame_json fr ≫= fun j => get_item j "ok") = true.

(** *** What the receiver has seen when it accepts *)

Lemma on_ack_answer f ack f' : on_ack space f ack = Answer true f' ->
  f' = f /\ f_metadata f = true /\ f_eof f = true /\ is_true (ack ≫= fun j => get_item j "ok") = true /\
  f_received f = f_expected f.
Proof.
  unfold on_ack. set (ok := is_true _).
  assert (H : Answer (f_metadata f && f_eof f && ok && (f_received f =? f_expected f)) f = Answer true f' ->
    f' = f /\ f_metadata f = true /\ f_eof f = true /\ ok = true /\ f_received f = f_expected f).
  { intros [= H <-]. repeat (apply andb_prop in H as [H ?]). by repeat split; [..|lia]. }
  destruct (announced ack) as [n|]; [|exact H]. destruct (negb (f_metadata f) && ok); [|exact H].
  destruct space as [sp|]; [|done]. by destruct (sp <? n).
Qed.

Lemma on_ack_continue f ack f' : on_ack space f ack = Continue f' ->
  exists size, announced ack = Some size /\ f_metadata f = false /\
    is_true (ack ≫= fun j => get_item j "ok") = true /\ f' = Fetch true (f_eof f) size (f_received f) (f_out f).
Proof.
  unfold on_ack. destruct (announced ack) as [n|]; [|done].
  destruct (f_metadata f); cbn [negb andb]; [done|]. set (ok := is_true _) in *. clearbody ok. destruct ok; [|done].
  destruct space as [sp|]; [|done]. destruct (sp <? n); [done|]. intros [= <-]. by exists n.
Qed.

Lemma on_data_continue f data f' : on_data writable f data = Continue f' ->
  f_metadata f = true /\ f_eof f = false /\
  f' = Fetch true (size_of data =? 0) (f_expected f) (f_received f + size_of data) (f_out f ++ data).
Proof.
  unfold on_data. destruct (negb (f_metadata f) || f_eof f || _ || _) eqn:E; [done|].
  destruct (f_metadata f), (f_eof f); try done. destruct (_ && _); [done|]. by intros [= <-].
Qed.

Lemma on_data_answer f data ok f' : on_data writable f data <> Answer ok f'.
Proof. unfold on_data. by destruct (_ || _ || _ || _); [|destruct (_ && _)]. Qed.

(** After the end of the data only the answer can follow. *)
Lemma loop_ends frames f content : f_metadata f = true -> f_eof f = true -> loop frames f = Some content ->
  exists ack rest, frames = ack :: rest /\ good_ack ack /\ content = f_out f /\ f_received f = f_expected f.
Proof.
  intros Hm He. destruct frames as [|fr frames]; [done|]. cbn [fetch_loop]. unfold on_frame. rewrite Hm. cbn [negb andb].
  destruct (Z.eqb_spec fr.1 ESTP_SNAP_ACK) as [Ea|_].
  - destruct (on_ack _ _ _) as [f'|[] f'|] eqn:E; try done.
    + apply on_ack_continue in E as (? & _ & ? & _). congruence.
    + intros [= <-]. apply on_ack_answer in E as (-> & _ & _ & Hok & Hr). by exists fr, frames.
  - destruct (Z.eqb_spec fr.1 ESTP_SNAP_DATA); [|done].
    destruct (on_data _ _ _) as [f'|ok f'|] eqn:E; [|by apply on_data_answer in E|done].
    apply on_data_continue in E as (_ & ? & _). congruence.
Qed.

Lemma blen_app (a b : bytes) : size_of (a ++ b) = size_of a + size_of b.
Proof. unfold size_of. rewrite length_app. lia. Qed.

Lemma blen_zero (a : bytes) : size_of a = 0 -> a = [].
Proof. unfold size_of. destruct a; [done|simpl; lia]. Qed.

(** Nonempty chunks up to the announced size, the end, the answer. *)
Lemma loop_data frames f content : f_metadata f = true -> f_eof f = false -> loop frames f = Some content ->
  exists chunks ack rest, frames = map data_frame chunks ++ EOF_FRAME :: ack :: rest /\ Forall (.≠ []) chunks /\
    good_ack ack /\ content = f_out f ++ concat chunks /\ f_received f + size_of (concat chunks) = f_expected f.
Proof.
  revert f. induction frames as [|fr frames IH]; intros f Hm He; [done|]. cbn [fetch_loop]. unfold on_frame.
  rewrite Hm. cbn [negb andb]. destruct (Z.eqb_spec fr.1 ESTP_SNAP_ACK) as [Ea|_].
  - destruct (on_ack _ _ _) as [f'|[] f'|] eqn:E; try done.
    + apply on_ack_continue in E as (? & _ & ? & _). congruence.
    + apply on_ack_answer in E as (_ & _ & ? & _). congruence.
  - destruct (Z.eqb_spec fr.1 ESTP_SNAP_DATA) as [Ed|_]; [|done]. destruct fr as [ty data]. cbn [fst snd] in *. subst ty.
    destruct (on_data _ _ _) as [f'|ok f'|] eqn:E; [|by apply on_data_answer in E|done].
    apply on_data_continue in E as (_ & _ & ->). intros H.
    destruct (Z.eqb_spec (size_of data) 0) as [E0|Hne].
    + apply loop_ends in H as (ack & rest & -> & Hack & -> & Hr); [|done..]. cbn [f_out f_received f_expected] in *.
      apply blen_zero in E0 as ->. exists [], ack, rest. cbn [map concat app]. rewrite app_nil_r.
      split; [done|]. split; [done|]. split; [done|]. by split.
    + apply IH in H as (chunks & ack & rest & -> & Hc & Hack & -> & Hr); [|done..]. cbn [f_out f_received f_expected] in *.
      exists (data :: chunks), ack, rest. split; [done|]. split; [constructor; [by intros ->|done]|].
      split; [done|]. cbn [concat]. rewrite app_assoc, blen_app. split; [done|lia].
Qed.

(** The frames up to the answer. *)
Lemma loop_complete frames content (Hloop : loop frames fetch_start = Some content) :
  exists idle meta chunks ack rest,
    frames = idle ++ meta :: map data_frame chunks ++ EOF_FRAME :: ack :: rest /\
    Forall is_idle idle /\ good_ack meta /\ good_ack ack /\ Forall (.≠ []) chunks /\
    content = concat chunks /\ announced (frame_json meta) = Some (size_of content).
Proof.
  revert Hloop. induction frames as [|fr frames IH]; [done|]. cbn [fetch_loop]. unfold on_frame. cbn [fetch_start f_metadata negb andb].
  destruct ((fr.1 =? ESTP_HELLO) || (fr.1 =? ESTP_STATE)) eqn:Ei.
  - intros H. destruct (IH H) as (idle & meta & chunks & ack & rest & -> & Hi & Hrest).
    exists (fr :: idle), meta, chunks, ack, rest. split; [done|]. split; [|done]. constructor; [|done].
    unfold is_idle. apply orb_prop in Ei as [?|?]; [left|right]; lia.
  - destruct (Z.eqb_spec fr.1 ESTP_SNAP_ACK) as [Ea|_].
    + destruct (on_ack _ _ _) as [f'|[] f'|] eqn:E; try done.
      * apply on_ack_continue in E as (size & Hs & _ & Hok & ->). intros H.
        apply loop_data in H as (chunks & ack & rest & -> & Hc & Hack & -> & Hr); [|done..].
        cbn [f_out f_received f_expected app fetch_start] in *.
        exists [], fr, chunks, ack, rest. repeat (split; [done|]). by rewrite Hs, <-Hr.
      * by apply on_ack_answer in E as (_ & ? & _).
    + destruct (Z.eqb_spec fr.1 ESTP_SNAP_DATA); [|done].
      destruct (on_data _ _ _) as [f'|ok f'|] eqn:E; [|by apply on_data_answer in E|done].
      by apply on_data_continue in E as (? & _).
Qed.

(** Whatever frames arrive, the receiver accepts a file only after
    an announcement of its size (state and hello messages before it are
    skipped), its contents in nonempty chunks of together that size, an end
    of data and an answer that all is well, in this order and with nothing in
    between; the file is the concatenation of the chunks. *)
Theorem accepted_transfer_complete frames content (Hloop : loop frames fetch_start = Some content) :
  exists idle meta chunks ack rest,
    frames = idle ++ meta :: map data_frame chunks ++ EOF_FRAME :: ack :: rest /\
    Forall is_idle idle /\ good_ack meta /\ good_ack ack /\ Forall (.≠ []) chunks /\
    content = concat chunks /\ announced (frame_json meta) = Some (size_of content).
Proof. by apply loop_complete. Qed.
End snap.

(** *** Disturbance *)

Section disturbance.
Context {C : JsonCodec} (space : option Z) (writable : bytes -> bytes -> bool).

Lemma loop_idle idle frames f : f_metadata f = false -> Forall is_idle idle ->
  fetch_loop space writable (idle ++ frames) f = fetch_loop space writable frames f.
Proof.
  intros Hm H. induction H as [|fr idle Hi _ IH]; [done|]. cbn [app fetch_loop]. unfold on_frame. rewrite Hm.
  assert (E : (fr.1 =? ESTP_HELLO) || (fr.1 =? ESTP_STATE) = true) by (destruct Hi as [-> | ->]; reflexivity).
  by rewrite E.
Qed.

Lemma loop_state chunks st rest f : f_metadata f = true -> st.1 = ESTP_STATE ->
  fetch_loop space writable (map data_frame chunks ++ st :: rest) f = None.
Proof.
  intros Hm Hst. revert f Hm. induction chunks as [|c chunks IH]; intros f Hm; cbn [map app fetch_loop]; unfold on_frame.
  - by rewrite Hm, Hst.
  - rewrite Hm. cbn [negb andb data_frame fst snd]. change (ESTP_SNAP_DATA =? ESTP_SNAP_ACK) with false.
    change (ESTP_SNAP_DATA =? ESTP_SNAP_DATA) with true. cbn iota.
    destruct (on_data writable f c) as [f'|ok f'|] eqn:E; [|by apply on_data_answer in E|done].
    apply on_data_continue in E as (_ & _ & ->). by apply IH.
Qed.

(** A state message that reaches the receiver after the
    announcement of the size ends the transfer, whatever else is sent. (Every
    live connection, the one a snapshot is served on included, gets a state
    message with every heartbeat.) *)
Theorem heartbeat_ends_transfer idle meta chunks st rest
  (Hidle : Forall is_idle idle) (Hmeta : meta.1 = ESTP_SNAP_ACK) (Hst : st.1 = ESTP_STATE) :
  fetch_loop space writable (idle ++ meta :: map data_frame chunks ++ st :: rest) fetch_start = None.
Proof.
  rewrite loop_idle by done. cbn [fetch_loop]. unfold on_frame. rewrite Hmeta. cbn.
  destruct (on_ack _ _ _) as [f'|[] f'|] eqn:E; [| |done|done].
  - apply on_ack_continue in E as (size & _ & _ & _ & ->). by apply loop_state.
  - by apply on_ack_answer in E as (_ & ? & _).
Qed.
End disturbance.

(** ** The sender *)

Section sender.
Context {C : JsonCodec} {CL : JsonCodecLaws C} (backup : files -> string -> option bytes).

(** A computation that sends [fs] and does nothing else. *)
Definition sends {A} (m : st side A) (s : side) (r : A) (fs : list message) : Prop :=
  (m s).1 = r /\ sd_files (m s).2 = sd_files s /\ sd_sent (m s).2 = sd_sent s ++ fs.

Lemma send_cases fr s : sends (send fr) s true [fr] \/ sends (send fr) s false [].
Proof.
  unfold sends, send. destruct (sd_outcomes s) as [|[] o]; [right|left|right]; cbn; by rewrite ?app_nil_r.
Qed.

Lemma sends_bind {A B} (m : st side A) (f : A -> st side B) s x fs r gs :
  sends m s x fs -> sends (f x) (m s).2 r gs -> sends (m ≫= f) s r (fs ++ gs).
Proof.
  unfold sends. rewrite st_bind_run. intros (Hx & Hf & Hs) (Hr & Hf' & Hs'). rewrite Hx in *.
  split; [done|]. split; [by rewrite Hf'|]. by rewrite Hs', Hs, app_assoc.
Qed.

Lemma sends_ret {A} (x : A) s : sends (mret x) s x [].
Proof. unfold sends. cbn. by rewrite app_nil_r. Qed.

Lemma chunk_length_le data : (chunk_length data <= length data)%nat.
Proof. unfold chunk_length, size_of. lia. Qed.

Lemma chunk_length_zero data : chunk_length data = O -> data = [].
Proof. unfold chunk_length, size_of, ESTP_MAX_PAYLOAD. destruct data; [done|]. simpl length. lia. Qed.

Lemma chunk_length_short data : Z.of_nat (chunk_length data) < ESTP_MAX_PAYLOAD -> chunk_length data = length data.
Proof. unfold chunk_length, size_of. lia. Qed.

(** Whatever the socket does, a prefix of the data is sent, all of it if the
    sender believes so. *)
Lemma chunks_prefix fuel data s : exists ok chunks, sends (send_chunks fuel data) s ok (map data_frame chunks) /\
  Forall (.≠ []) chunks /\ concat chunks `prefix_of` data /\ (ok = true -> concat chunks = data).
Proof.
  revert data s. induction fuel as [|fuel IH]; intros data s; cbn [send_chunks].
  - exists false, []. split; [apply sends_ret|]. split; [done|]. by split; [apply prefix_nil|].
  - destruct (Nat.eqb_spec (chunk_length data) 0) as [E|Hne].
    { exists true, []. apply chunk_length_zero in E as ->. by split; [apply sends_ret|]. }
    set (n := chunk_length data) in *. pose proof (chunk_length_le data) as Hle. fold n in Hle.
    assert (Htake : take n data <> []) by (destruct data; [simpl in Hle; lia|by destruct n]).
    destruct (send_cases (ESTP_SNAP_DATA, take n data) s) as [Hs|Hs].
    + destruct (Z.ltb_spec (Z.of_nat n) ESTP_MAX_PAYLOAD) as [Hlt|_].
      * exists true, [take n data]. assert (En : n = length data) by (by apply chunk_length_short).
        split; [|split; [by constructor|]].
        { change (map data_frame [take n data]) with ([(ESTP_SNAP_DATA, take n data)] ++ []).
          eapply sends_bind; [exact Hs|]. cbn [negb]. apply sends_ret. }
        cbn [concat]. rewrite app_nil_r, En, firstn_all. by split.
      * destruct (IH (drop n data) (send (ESTP_SNAP_DATA, take n data) s).2) as (ok & chunks & H & Hc & Hp & Hok).
        exists ok, (take n data :: chunks). split; [|split; [by constructor|]].
        { change (map data_frame (take n data :: chunks)) with ([(ESTP_SNAP_DATA, take n data)] ++ map data_frame chunks).
          eapply sends_bind; [exact Hs|]. exact H. }
        cbn [concat]. split.
        -- rewrite <-(take_drop n data) at 2. by apply prefix_app.
        -- intros E. rewrite (Hok E). apply take_drop.
    + exists false, []. split; [|split; [done|by split; [apply prefix_nil|]]].
      change (map data_frame []) with ([] ++ [] : list message). eapply sends_bind; [exact Hs|]. cbn [negb]. apply sends_ret.
Qed.

(** The frames of a copy: at most the announcement, a part of the data, the
    end; the sender believes in success only if all were sent. *)
Lemma copy_frames copy s : exists ok eof fs, sends (send_copy copy) s (ok, eof) fs /\
  ((fs = [] /\ ok = false /\ eof = false) \/
   exists chunks, fs = meta_frame (size_of copy) :: map data_frame chunks ++ (if eof then [EOF_FRAME] else []) /\
     size_of copy <= SNAP_MAX_BYTES /\
     Forall (.≠ []) chunks /\ concat chunks `prefix_of` copy /\ (ok = true -> eof = true /\ concat chunks = copy)).
Proof.
  unfold send_copy. destruct (Z.ltb_spec SNAP_MAX_BYTES (size_of copy)) as [|Hsize].
  { exists false, false, []. split; [apply sends_ret|by left]. }
  destruct (send_cases (meta_frame (size_of copy)) s) as [Hm|Hm].
  - set (s1 := (send (meta_frame (size_of copy)) s).2).
    destruct (chunks_prefix (S (length copy)) copy s1) as (all & chunks & Hc & Hne & Hp & Hall).
    set (s2 := (send_chunks (S (length copy)) copy s1).2).
    destruct (send_cases EOF_FRAME s2) as [He|He].
    + exists (all && true), true, (meta_frame (size_of copy) :: map data_frame chunks ++ [EOF_FRAME]). split.
      * change (meta_frame (size_of copy) :: map data_frame chunks ++ [EOF_FRAME])
          with ([meta_frame (size_of copy)] ++ map data_frame chunks ++ [EOF_FRAME]).
        eapply sends_bind; [exact Hm|]. cbn [negb]. eapply sends_bind; [exact Hc|].
        rewrite <-(app_nil_r [EOF_FRAME]). eapply sends_bind; [exact He|apply sends_ret].
      * right. exists chunks. rewrite andb_true_r. split; [done|]. split; [done|]. split; [done|]. split; [done|].
        intros ->. by rewrite Hall.
    + exists (all && false), false, (meta_frame (size_of copy) :: map data_frame chunks ++ []). split.
      * change (meta_frame (size_of copy) :: map data_frame chunks ++ [])
          with ([meta_frame (size_of copy)] ++ map data_frame chunks ++ [] ++ []).
        eapply sends_bind; [exact Hm|]. cbn [negb]. eapply sends_bind; [exact Hc|].
        eapply sends_bind; [exact He|apply sends_ret].
      * right. exists chunks. rewrite andb_false_r. by repeat (split; [done|]).
  - exists false, false, []. split; [|by left]. change ([] : list message) with ([] ++ [] : list message).
    eapply sends_bind; [exact Hm|]. cbn [negb]. apply sends_ret.
Qed.
End sender.

(** *** A request and its answer *)

Section serve.
Context {C : JsonCodec} {CL : JsonCodecLaws C} (backup : files -> string -> option bytes).

Definition when (b : bool) (fr : message) : list message := if b then [fr] else [].

Lemma send_when fr s : exists b, sends (send fr) s b (when b fr).
Proof. destruct (send_cases fr s) as [H|H]; [by exists true|by exists false]. Qed.

(** What the last step sends. *)
Lemma finish_frames r s : exists b1 b2 b3,
  sends (finish r) s tt
    (if r.1 && negb r.2
     then when b1 (ESTP_SNAP_ACK, bytes_of_string EMPTY_META) ++ when (b1 && b2) EOF_FRAME ++ when b3 (ack_frame (b1 && b2))
     else when b3 (ack_frame r.1)).
Proof.
  unfold finish. destruct (r.1 && negb r.2).
  - destruct (send_when (ESTP_SNAP_ACK, bytes_of_string EMPTY_META) s) as [b1 H1].
    set (s1 := (send (ESTP_SNAP_ACK, bytes_of_string EMPTY_META) s).2) in *.
    assert (H2 : exists b2, sends (if b1 : bool then send EOF_FRAME else mret false) s1 (b1 && b2) (when (b1 && b2) EOF_FRAME)).
    { destruct b1; [apply send_when|]. exists false. apply sends_ret. }
    destruct H2 as [b2 H2]. pose proof (sends_bind _ (fun b : bool => if b then send EOF_FRAME else mret false) _ _ _ _ _ H1 H2) as H12.
    match type of H12 with sends ?m _ _ _ => set (s2 := (m s).2) in * end.
    destruct (send_when (ack_frame (b1 && b2)) s2) as [b3 H3]. exists b1, b2, b3.
    rewrite app_assoc. eapply sends_bind; [exact H12|].
    rewrite <-(app_nil_r (when b3 _)). eapply sends_bind; [exact H3|apply sends_ret].
  - destruct (send_when (ack_frame r.1) s) as [b3 H3]. exists true, true, b3.
    change (when b3 (ack_frame r.1)) with ([] ++ when b3 (ack_frame r.1)).
    eapply sends_bind; [apply sends_ret|]. rewrite <-(app_nil_r (when b3 _)). eapply sends_bind; [exact H3|apply sends_ret].
Qed.

(** The database a request is answered from. *)
Definition backed_up (fs : files) (dir key suffix : string) : option bytes :=
  backup (<[snapshot_name dir key suffix := []]> fs) (snprintf 1100 (shard_path dir key)).

(** Refused, nothing there, or the copy. *)
Lemma serve_key_frames dir key am suffix s : exists ok eof fs,
  (serve_key backup dir key am suffix s).1 = (ok, eof) /\
  sd_sent (serve_key backup dir key am suffix s).2 = sd_sent s ++ fs /\
  ((fs = [] /\ ok = false /\ eof = false) \/
   (exists sx, suffix = Some sx /\ backed_up (sd_files s) dir key sx = None /\ fs = [] /\ eof = false /\
      ok = am && shard_missing dir key (<[snapshot_name dir key sx := []]> (sd_files s))) \/
   (exists sx copy chunks, suffix = Some sx /\ backed_up (sd_files s) dir key sx = Some copy /\
      fs = meta_frame (size_of copy) :: map data_frame chunks ++ when eof EOF_FRAME /\
      size_of copy <= SNAP_MAX_BYTES /\ Forall (.≠ []) chunks /\ concat chunks `prefix_of` copy /\
      (ok = true -> eof = true /\ concat chunks = copy))).
Proof.
  unfold serve_key. destruct (1100 <=? _)%nat.
  { exists false, false, []. rewrite app_nil_r. repeat (split; [done|]). by left. }
  destruct suffix as [sx|]; [|exists false, false, []; rewrite app_nil_r; repeat (split; [done|]); by left].
  rewrite !st_bind_run. cbn [with_files look fst snd]. unfold backed_up.
  destruct (backup _ _) as [copy|] eqn:Eb.
  - rewrite !st_bind_run. cbn [with_files fst snd sd_files sd_sent sd_outcomes].
    set (s1 := Side _ _ _). destruct (copy_frames copy s1) as (ok & eof & fs & (Hr & _ & Hs) & H).
    exists ok, eof, fs. split; [exact Hr|]. split; [exact Hs|].
    destruct H as [H|(chunks & -> & Hsz & Hne & Hp & Hok)]; [by left|]. right. right.
    exists sx, copy, chunks. split; [done|]. by repeat (split; [done|]).
  - rewrite !st_bind_run. cbn [with_files look fst snd sd_files sd_sent].
    eexists _, false, []. split; [done|]. split; [by rewrite app_nil_r|]. right. left. by exists sx.
Qed.

Lemma serve_key_files dir key am suffix s :
  (forall sx, suffix = Some sx -> sd_files s !! snapshot_name dir key sx = None) ->
  sd_files (serve_key backup dir key am suffix s).2 = sd_files s.
Proof.
  intros Hfresh. unfold serve_key. destruct (1100 <=? _)%nat; [done|]. destruct suffix as [sx|]; [|done].
  specialize (Hfresh sx eq_refl). rewrite !st_bind_run. cbn [with_files look fst snd].
  destruct (backup _ _) as [copy|]; rewrite !st_bind_run; cbn [with_files look fst snd sd_files sd_sent sd_outcomes].
  - set (s1 := Side _ _ _). destruct (copy_frames copy s1) as (ok & eof & fs & (_ & Hf & _) & _). rewrite Hf. subst s1.
    cbn [sd_files]. by rewrite delete_insert_eq, delete_insert_eq, delete_id.
  - by rewrite delete_insert_eq, delete_id.
Qed.
End serve.

(** ** Both sides *)

Lemma data_aligned chunks cs X r : Forall (.≠ []) chunks -> Forall (.≠ []) cs ->
  (forall c X', X = data_frame c :: X' -> c = []) ->
  map data_frame chunks ++ EOF_FRAME :: r = map data_frame cs ++ X -> chunks = cs /\ X = EOF_FRAME :: r.
Proof.
  intros Hch. revert cs. induction Hch as [|c chunks Hc _ IH]; intros cs Hcs HX E.
  - destruct Hcs as [|d cs Hd _]; [by split|]. cbn in E. injection E as E _. by destruct Hd.
  - destruct Hcs as [|d cs Hd Hcs]; cbn in E.
    + symmetry in E. by apply HX in E.
    + injection E as -> E. by destruct (IH cs Hcs HX E) as [-> ->].
Qed.

Lemma prefix_same_length (a b : bytes) : a `prefix_of` b -> length a = length b -> a = b.
Proof. intros [k ->] H. rewrite length_app in H. destruct k; [by rewrite app_nil_r|simpl in H; lia]. Qed.

Section both.
Context {C : JsonCodec} {CL : JsonCodecLaws C}.

Lemma frame_json_print type doc : finite_json doc = true -> frame_json (json_frame type doc) = Some doc.
Proof. intros H. unfold frame_json, json_frame. cbn [snd]. by rewrite string_of_bytes_of_string, json_parse_print. Qed.

Lemma finite_jnum n : 0 <= n < 2 ^ 53 -> finite_json (jnum n) = true.
Proof. intros H. apply double_finite. unfold exact. lia. Qed.

Lemma meta_announces n : 0 <= n <= SNAP_MAX_BYTES ->
  announced (frame_json (meta_frame n)) = Some n /\ good_ack (meta_frame n).
Proof.
  intros Hn. unfold SNAP_MAX_BYTES in Hn. assert (H53 : 4 * 1024 * 1024 * 1024 < 2 ^ 53) by done.
  assert (Hj : frame_json (meta_frame n) = Some (JObject [("ok", JBool true); ("size", jnum n)])).
  { apply frame_json_print. cbn [finite_json forallb snd]. rewrite finite_jnum by lia. done. }
  unfold good_ack. rewrite Hj. split; [|done].
  unfold announced. cbn [mbind option_bind]. change (get_item (JObject [("ok", JBool true); ("size", jnum n)]) "size") with (Some (jnum n)).
  unfold jnum. cbn [mbind option_bind]. unfold SNAP_MAX_BYTES. rewrite double_leb by lia.
  assert (Hnn : nonneg (double_of_Z n) = true).
  { destruct (double_nonneg n ltac:(lia)) as (d & <- & Hd). exact Hd. }
  rewrite Hnn. cbn [andb]. by rewrite double_exact by lia.
Qed.

Lemma ack_good ok : good_ack (ack_frame ok) -> ok = true.
Proof. intros [_ H]. unfold ack_frame in H. by rewrite frame_json_print in H. Qed.

Lemma ack_data ok c X : when ok (ack_frame true) = data_frame c :: X -> c = [].
Proof. by destruct ok. Qed.

Lemma blen_prefix (a b : bytes) : a `prefix_of` b -> size_of a = size_of b -> a = b.
Proof. intros H E. apply prefix_same_length; [done|]. unfold size_of in E. lia. Qed.

(** The frames of a run of the server that a receiver accepts a beginning of. *)
Lemma accepted_from_copy copy chunks eof ok b3 content n meta ms ack rest idle :
  size_of copy <= SNAP_MAX_BYTES -> Forall (.≠ []) chunks -> concat chunks `prefix_of` copy ->
  (ok = true -> eof = true) ->
  take n ((meta_frame (size_of copy) :: map data_frame chunks ++ when eof EOF_FRAME) ++ when b3 (ack_frame ok)) =
    idle ++ meta :: map data_frame ms ++ EOF_FRAME :: ack :: rest ->
  Forall is_idle idle -> good_ack ack -> Forall (.≠ []) ms -> content = concat ms ->
  announced (frame_json meta) = Some (size_of content) -> content = copy.
Proof.
  intros Hsz Hne Hp Hok E Hidle Hack Hms -> Hann.
  set (sent := (_ :: _) ++ _) in E. assert (E' : sent = idle ++ meta :: map data_frame ms ++ EOF_FRAME :: ack :: (rest ++ drop n sent)).
  { rewrite <-(take_drop n sent) at 1. rewrite E, <-!app_assoc. cbn [app]. by rewrite <-!app_assoc. }
  clear E. subst sent. destruct Hidle as [|i idle [Hi|Hi] _]; cbn [app] in E'; [|by injection E' as <- _..].
  injection E' as <- E'. rewrite <-app_assoc in E'. symmetry in E'. apply data_aligned in E' as [-> E']; [|done|done|].
  - destruct (meta_announces (size_of copy)) as [Hm _]; [unfold size_of in *; lia|]. rewrite Hm in Hann.
    injection Hann as Hann. by apply blen_prefix.
  - intros c X' HX. destruct eof; cbn [when app] in HX; [by injection HX as <- _|].
    destruct b3; [|done]. by injection HX as ? _.
Qed.
End both.

Section transfer.
Context {C : JsonCodec} {CL : JsonCodecLaws C} (backup : files -> string -> option bytes).
Context (space : option Z) (writable : bytes -> bytes -> bool).

(** What a server with the directory [dir] may be asked for: its copy of the
    shard, or nothing where there is no file and that is allowed. *)
Definition may_serve (fs : files) (dir key : string) (am : bool) (suffix : option string) (content : bytes) : Prop :=
  exists sx, suffix = Some sx /\
    (backed_up backup fs dir key sx = Some content \/
     backed_up backup fs dir key sx = None /\ am = true /\
       shard_missing dir key (<[snapshot_name dir key sx := []]> fs) = true /\ content = []).

Lemma request_parsed key am :
  json_parse (string_of_bytes (request_frame key am).2) = Some (JObject [("key", JString key); ("allow_missing", JBool am)]).
Proof. exact (frame_json_print ESTP_SNAP_REQ (JObject [("key", JString key); ("allow_missing", JBool am)]) eq_refl). Qed.

Lemma serve_run dir suffix key am s : valid_key key = true ->
  edb_snap_serve backup (Some dir) suffix (request_frame key am).2 s =
    (r ← serve_key backup dir key am suffix; finish r) s.
Proof.
  intros Hk. unfold edb_snap_serve. rewrite request_parsed. cbn [mbind option_bind].
  change (get_string (JObject [("key", JString key); ("allow_missing", JBool am)]) "key") with (Some key).
  change (get_item (JObject [("key", JString key); ("allow_missing", JBool am)]) "allow_missing") with (Some (JBool am)).
  cbn iota. by rewrite Hk.
Qed.

Lemma three_frames n (fs : list message) idle (x y z : message) rest ms :
  (length fs <= 2)%nat -> take n fs = idle ++ x :: map data_frame ms ++ y :: z :: rest -> False.
Proof.
  intros Hl E. apply (f_equal length) in E. rewrite length_take, !length_app in E. cbn [length] in E.
  rewrite length_app in E. cbn [length] in E. lia.
Qed.

(** Whatever beginning of its answer arrives, nothing else is accepted. *)
Lemma serve_accepted dir suffix key am s : valid_key key = true ->
  exists fs, sd_sent (edb_snap_serve backup (Some dir) suffix (request_frame key am).2 s).2 = sd_sent s ++ fs /\
    forall n content, fetch_loop space writable (take n fs) fetch_start = Some content ->
      may_serve (sd_files s) dir key am suffix content.
Proof.
  intros Hk. rewrite serve_run by done. rewrite st_bind_run.
  destruct (serve_key_frames backup dir key am suffix s) as (ok & eof & fs & Er & Es & H). rewrite Er.
  set (s1 := (serve_key backup dir key am suffix s).2) in *.
  destruct (finish_frames (ok, eof) s1) as (b1 & b2 & b3 & _ & _ & Ef). cbn [fst snd] in Ef.
  eexists. split; [rewrite Ef, Es, <-app_assoc; reflexivity|]. intros n content Hloop.
  apply loop_complete in Hloop as (idle & meta & ms & ack & rest & E & Hidle & Hmeta & Hack & Hms & -> & Hann).
  destruct H as [(-> & -> & ->)|[(sx & -> & Hb & -> & -> & ->)|(sx & copy & chunks & -> & Hb & -> & Hsz & Hne & Hp & Hok)]];
    cbn [andb negb app] in E.
  - by apply three_frames in E; [|destruct b3; simpl; lia].
  - exists sx. split; [done|]. right. destruct am; cbn [andb] in *; [|by apply three_frames in E; [|destruct b3; simpl; lia]].
    destruct (shard_missing _ _ _) eqn:Emiss; cbn [andb] in *; [|by apply three_frames in E; [|destruct b3; simpl; lia]].
    split; [done|]. split; [done|]. split; [done|].
    destruct b1; [|by apply three_frames in E; [|destruct b3; simpl; lia]]. cbn [when app andb] in E.
    destruct b2; [|by apply three_frames in E; [|destruct b3; simpl; lia]]. cbn [when app] in E.
    destruct n as [|n]; [by destruct idle|]. cbn [take] in E.
    destruct Hidle as [|i idle [Hi|Hi] _]; cbn [app] in E; [|by injection E as <- _..].
    injection E as <- E. destruct n as [|n]; [by destruct ms|]. cbn [take] in E.
    destruct Hms as [|m ms Hm _]; [done|]. cbn in E. by injection E as <- _.
  - exists sx. split; [done|]. left. rewrite Hb. f_equal. symmetry.
    assert (Hfin : ok && negb eof = false) by (destruct ok; [by destruct (Hok eq_refl) as [-> _]|done]).
    rewrite Hfin in E. eapply accepted_from_copy; [exact Hsz|exact Hne|exact Hp| |exact E|done..].
    intros H. by apply Hok.
Qed.
End transfer.

(** *** An undisturbed transfer *)

(** At least [k] sends succeed. *)
Definition plenty (k : nat) (s : side) : Prop := exists n, (k <= n)%nat /\ sd_outcomes s = repeat true n.

Lemma send_plenty fr k s : plenty (S k) s ->
  send fr s = (true, Side (sd_files s) (sd_sent s ++ [fr]) (sd_outcomes (send fr s).2)) /\ plenty k (send fr s).2.
Proof.
  intros ([|n] & Hn & E); [lia|]. unfold send. rewrite E. cbn. split; [done|]. exists n. split; [lia|done].
Qed.

Lemma chunks_plenty fuel data j s : (length data < fuel)%nat -> plenty (length data + j) s ->
  (send_chunks fuel data s).1 = true /\ plenty j (send_chunks fuel data s).2.
Proof.
  revert data s. induction fuel as [|fuel IH]; intros data s Hf Hp; [lia|]. cbn [send_chunks].
  destruct (Nat.eqb_spec (chunk_length data) 0) as [E|Hne].
  { apply chunk_length_zero in E as ->. by split. }
  pose proof (chunk_length_le data) as Hle. set (n := chunk_length data) in *. rewrite st_bind_run.
  destruct (send_plenty (ESTP_SNAP_DATA, take n data) (length data - n + j) s) as [E Hp'].
  { destruct Hp as (m & Hm & E). exists m. split; [lia|done]. }
  assert (E1 : (send (ESTP_SNAP_DATA, take n data) s).1 = true) by (by rewrite E). rewrite E1. cbn [negb].
  destruct (Z.ltb_spec (Z.of_nat n) ESTP_MAX_PAYLOAD) as [Hlt|_].
  - cbn [mret st_ret fst snd]. split; [done|]. destruct Hp' as (m & Hm & ?). exists m. split; [lia|done].
  - apply IH; rewrite length_drop; [lia|exact Hp'].
Qed.

Lemma plenty_files k s g : plenty k s -> plenty k (with_files g s).2.
Proof. done. Qed.

Section undisturbed.
Context {C : JsonCodec} {CL : JsonCodecLaws C} (backup : files -> string -> option bytes).
Context (space : option Z) (writable : bytes -> bytes -> bool).

Lemma copy_plenty copy j s : size_of copy <= SNAP_MAX_BYTES -> plenty (length copy + 2 + j) s ->
  (send_copy copy s).1 = (true, true) /\ plenty j (send_copy copy s).2.
Proof.
  intros Hsz Hp. unfold send_copy. destruct (Z.ltb_spec SNAP_MAX_BYTES (size_of copy)); [lia|]. rewrite st_bind_run.
  destruct (send_plenty (meta_frame (size_of copy)) (length copy + (1 + j)) s) as [E Hp1].
  { destruct Hp as (m & Hm & E). exists m. split; [lia|done]. }
  assert (E1 : (send (meta_frame (size_of copy)) s).1 = true) by (by rewrite E). rewrite E1. cbn [negb].
  rewrite st_bind_run. destruct (chunks_plenty (S (length copy)) copy (1 + j) _ (Nat.lt_succ_diag_r _) Hp1) as [E2 Hp2].
  rewrite E2, st_bind_run. destruct (send_plenty EOF_FRAME j _ Hp2) as [E3 Hp3].
  cbn [mret st_ret fst snd]. split; [by rewrite E3|done].
Qed.

Lemma serve_plenty dir key am sx copy s :
  (String.length (snapshot_name dir key "XXXXXX") < 1100)%nat ->
  backed_up backup (sd_files s) dir key sx = Some copy -> size_of copy <= SNAP_MAX_BYTES ->
  plenty (length copy + 3) s -> valid_key key = true ->
  exists chunks, Forall (.≠ []) chunks /\ concat chunks = copy /\
    sd_sent (edb_snap_serve backup (Some dir) (Some sx) (request_frame key am).2 s).2 =
      sd_sent s ++ meta_frame (size_of copy) :: map data_frame chunks ++ [EOF_FRAME; ack_frame true].
Proof.
  intros Hname Hb Hsz Hp Hk. rewrite serve_run by done.
  assert (Hr : (serve_key backup dir key am (Some sx) s).1 = (true, true) /\
    plenty 1 (serve_key backup dir key am (Some sx) s).2).
  { unfold serve_key. destruct (Nat.leb_spec 1100 (String.length (snapshot_name dir key "XXXXXX"))); [lia|].
    rewrite !st_bind_run. cbn [with_files look fst snd sd_files]. unfold backed_up in Hb. rewrite Hb.
    rewrite !st_bind_run. cbn [with_files look fst snd sd_files sd_sent sd_outcomes]. set (s1 := Side _ _ _).
    destruct (copy_plenty copy 1 s1 Hsz) as [-> Hp1]; [|by split].
    destruct Hp as (m & Hm & E). exists m. split; [lia|exact E]. }
  destruct Hr as [Hr Hp1]. rewrite st_bind_run, Hr.
  destruct (serve_key_frames backup dir key am (Some sx) s) as (ok & eof & fs & Er & Es & H).
  rewrite Hr in Er. injection Er as <- <-. set (s1 := (serve_key backup dir key am (Some sx) s).2) in *. clearbody s1.
  destruct H as [(_ & ? & _)|[(? & _ & _ & _ & ? & _)|(sx' & copy' & chunks & [= <-] & Hb' & -> & _ & Hne & _ & Hok)]]; [done|done|].
  rewrite Hb in Hb'. injection Hb' as <-. destruct (Hok eq_refl) as [_ Hc]. exists chunks. split; [done|]. split; [done|].
  unfold finish. cbn [fst snd andb negb]. rewrite !st_bind_run. cbn [mret st_ret fst snd].
  destruct (send_plenty (ack_frame true) 0 s1 Hp1) as [E _]. rewrite E. cbn [snd sd_sent]. rewrite Es.
  cbn [when]. by rewrite <-!app_assoc, <-app_comm_cons, <-app_assoc.
Qed.

(** *** The receiver *)

Lemma loop_chunks chunks ack rest f : f_metadata f = true -> f_eof f = false -> Forall (.≠ []) chunks ->
  (forall out data, writable out data = true) -> f_received f + size_of (concat chunks) = f_expected f ->
  good_ack ack -> announced (frame_json ack) = None ->
  fetch_loop space writable (map data_frame chunks ++ EOF_FRAME :: ack :: rest) f = Some (f_out f ++ concat chunks).
Proof.
  intros Hm He Hne Hw. revert f Hm He. induction Hne as [|c chunks Hc _ IH]; intros f Hm He Hr Hack Hann;
    cbn [map app concat] in *.
  - cbn [fetch_loop]. unfold on_frame. rewrite Hm. cbn [negb andb EOF_FRAME fst snd].
    change (ESTP_SNAP_DATA =? ESTP_SNAP_ACK) with false. change (ESTP_SNAP_DATA =? ESTP_SNAP_DATA) with true. cbn iota.
    unfold on_data. rewrite Hm, He. change (size_of []) with 0 in *. cbn [negb orb].
    destruct (Z.ltb_spec (f_expected f) (f_received f)); [lia|]. destruct (Z.ltb_spec (f_expected f - f_received f) 0); [lia|].
    cbn [orb Z.eqb andb negb f_metadata fst snd]. destruct Hack as [Ha Hok]. rewrite Ha. cbn [Z.eqb ESTP_SNAP_ACK Pos.eqb].
    unfold on_ack. rewrite Hann, Hok. cbn [f_metadata f_eof f_received f_expected f_out andb].
    destruct (Z.eqb_spec (f_received f + 0) (f_expected f)); [by rewrite !app_nil_r|lia].
  - cbn [fetch_loop]. unfold on_frame at 1. rewrite Hm. cbn [negb andb data_frame fst snd].
    change (ESTP_SNAP_DATA =? ESTP_SNAP_ACK) with false. change (ESTP_SNAP_DATA =? ESTP_SNAP_DATA) with true. cbn iota.
    rewrite blen_app in Hr. assert (Hpos : 0 < size_of c) by (destruct c; [done|unfold size_of; simpl; lia]).
    assert (Hpos' : 0 <= size_of (concat chunks)) by (unfold size_of; lia).
    unfold on_data. rewrite Hm, He. cbn [negb orb]. destruct (Z.ltb_spec (f_expected f) (f_received f)); [lia|].
    destruct (Z.ltb_spec (f_expected f - f_received f) (size_of c)); [lia|]. cbn [orb]. rewrite Hw, andb_false_r.
    destruct (Z.eqb_spec (size_of c) 0); [lia|]. rewrite IH; [by rewrite app_assoc|done|done|cbn; lia|done|done].
Qed.

Lemma undisturbed_loop idle copy chunks rest sp : Forall is_idle idle -> size_of copy <= SNAP_MAX_BYTES ->
  space = Some sp -> size_of copy <= sp -> (forall out data, writable out data = true) ->
  Forall (.≠ []) chunks -> concat chunks = copy ->
  fetch_loop space writable (idle ++ meta_frame (size_of copy) :: map data_frame chunks ++ EOF_FRAME :: ack_frame true :: rest) fetch_start =
    Some copy.
Proof.
  intros Hidle Hsz Hsp Hfree Hw Hne Hc. rewrite loop_idle by done. cbn [fetch_loop]. unfold on_frame at 1.
  cbn [fetch_start f_metadata negb andb]. destruct (meta_announces (size_of copy)) as [Hann [Ha Hok]]; [unfold size_of in *; lia|].
  rewrite Ha. cbn [Z.eqb ESTP_SNAP_ACK ESTP_HELLO ESTP_STATE Pos.eqb orb]. unfold on_ack. rewrite Hann, Hok, Hsp.
  cbn [f_metadata negb andb fetch_start]. destruct (Z.ltb_spec sp (size_of copy)); [lia|].
  rewrite <-Hsp, loop_chunks; [by rewrite Hc|done..| | |].
  - cbn. by rewrite Hc.
  - split; [done|]. unfold ack_frame. by rewrite frame_json_print.
  - unfold ack_frame. by rewrite frame_json_print.
Qed.
End undisturbed.

(** *** The client *)

Section client.
Context {C : JsonCodec} {CL : JsonCodecLaws C}.
Context (space : option Z) (writable : bytes -> bytes -> bool).

(** Nothing is changed, or what the loop accepted is installed. *)
Lemma snap_fetch_spec dialled suffix reply renamed addr port key dir am s
  (Hfresh : forall sx, suffix = Some sx -> sd_files s !! incoming_name dir key sx = None) :
  ((snap_fetch space writable dialled suffix reply renamed addr port key dir am s).1 = false /\
   sd_files (snap_fetch space writable dialled suffix reply renamed addr port key dir am s).2 = sd_files s) \/
  exists content, (snap_fetch space writable dialled suffix reply renamed addr port key dir am s).1 = true /\
   valid_key key = true /\ fetch_loop space writable reply fetch_start = Some content /\
   sd_files (snap_fetch space writable dialled suffix reply renamed addr port key dir am s).2 =
     <[shard_path dir key := content]> (sd_files s).
Proof.
  unfold snap_fetch. destruct addr; [|by left]. destruct (valid_key key); cbn [negb orb]; [|by left].
  destruct (port <=? 0); [by left|]. destruct dialled; cbn [negb orb]; [|by left].
  destruct (_ || _); [by left|]. rewrite st_bind_run.
  destruct (send_cases HELLO_EPHEMERAL s) as [(-> & Hf1 & _)|(-> & Hf1 & _)]; cbn [negb]; [|by left].
  set (s1 := (send HELLO_EPHEMERAL s).2) in *. rewrite st_bind_run.
  destruct (send_cases (request_frame key am) s1) as [(-> & Hf2 & _)|(-> & Hf2 & _)]; cbn [negb];
    [|left; split; [done|]; by rewrite <-Hf1].
  set (s2 := (send (request_frame key am) s1).2) in *. rewrite Hf1 in Hf2. clearbody s2.
  destruct suffix as [sx|]; [|by left]. specialize (Hfresh sx eq_refl). rewrite !st_bind_run. cbn [with_files fst snd].
  destruct (fetch_loop space writable reply fetch_start) as [content|]; rewrite st_bind_run; cbn [with_files fst snd sd_files mret st_ret].
  - destruct renamed; cbn [sd_files]; [right|left; split; [done|]].
    + exists content. split; [done|]. split; [done|]. split; [done|]. by rewrite Hf2, delete_insert_eq, delete_id.
    + by rewrite Hf2, delete_insert_eq, delete_id.
  - left. split; [done|]. cbn [sd_files]. by rewrite Hf2, delete_insert_eq, delete_id.
Qed.
End client.

(** ** Transfers *)

Section transfers.
Context {C : JsonCodec} {CL : JsonCodecLaws C} (backup : files -> string -> option bytes).
Context (space : option Z) (writable : bytes -> bytes -> bool).

(** The frames a server answers a request with. *)
Definition answer_to (dir : string) (suffix : option string) (key : string) (am : bool) (srv : side) : list message :=
  drop (length (sd_sent srv)) (sd_sent (edb_snap_serve backup (Some dir) suffix (request_frame key am).2 srv).2).

(** C15: A transfer is all or nothing: whatever sends of the server
    fail and wherever the connection breaks, the client either reports
    failure and its directory is as before, or its file of that shard, and
    nothing else, is now the copy the server's database gave (or empty, where
    the server has no such file and that was allowed). *)
Theorem transfer_all_or_nothing sdir ssuffix srv idle n dialled suffix renamed addr port key dir am cl
  (Hidle : Forall is_idle idle) (Hfresh : forall sx, suffix = Some sx -> sd_files cl !! incoming_name dir key sx = None)
  (reply := idle ++ take n (answer_to sdir ssuffix key am srv))
  (result := snap_fetch space writable dialled suffix reply renamed addr port key dir am cl) :
  (result.1 = false /\ sd_files result.2 = sd_files cl) \/
  (result.1 = true /\ exists content, may_serve backup (sd_files srv) sdir key am ssuffix content /\
     sd_files result.2 = <[shard_path dir key := content]> (sd_files cl)).
Proof using CL.
  destruct (snap_fetch_spec space writable dialled suffix reply renamed addr port key dir am cl Hfresh)
    as [H|(content & H1 & Hk & Hl & H2)]; [by left|]. right. split; [exact H1|]. exists content. split; [|exact H2].
  destruct (serve_accepted backup space writable sdir ssuffix key am srv Hk) as (fs & Es & Hall). apply (Hall n).
  subst reply. rewrite loop_idle in Hl by done. unfold answer_to in Hl. by rewrite Es, drop_app_length in Hl.
Qed.

(** C29: An undisturbed transfer of a shard of at most 4 GiB copies
    it, whatever its size, with hello and state messages before it. *)
Theorem transfer_copies sdir sx srv idle suffix addr port key dir am cl copy sp more
  (Hidle : Forall is_idle idle) (Hfresh : sd_files cl !! incoming_name dir key suffix = None)
  (Hkey : valid_key key = true) (Hport : 0 < port) (Hsend : sd_outcomes cl = true :: true :: more)
  (Hnames : (String.length (snapshot_name sdir key "XXXXXX") < 1100)%nat /\
            (String.length (incoming_name dir key "XXXXXX") < 1100)%nat /\ (String.length (shard_path dir key) < 1100)%nat)
  (Hcopy : backed_up backup (sd_files srv) sdir key sx = Some copy) (Hsize : size_of copy <= SNAP_MAX_BYTES)
  (Hsrv : plenty (length copy + 3) srv) (Hspace : space = Some sp) (Hfree : size_of copy <= sp)
  (Hdisk : forall out data, writable out data = true)
  (reply := idle ++ answer_to sdir (Some sx) key am srv) :
  (snap_fetch space writable true (Some suffix) reply true (Some addr) port key dir am cl).1 = true /\
  sd_files (snap_fetch space writable true (Some suffix) reply true (Some addr) port key dir am cl).2 =
    <[shard_path dir key := copy]> (sd_files cl).
Proof using CL.
  destruct Hnames as (N1 & N2 & N3).
  destruct (serve_plenty backup sdir key am sx copy srv N1 Hcopy Hsize Hsrv Hkey) as (chunks & Hne & Hc & Es).
  assert (Hl : fetch_loop space writable reply fetch_start = Some copy).
  { subst reply. unfold answer_to. rewrite Es, drop_app_length. by eapply undisturbed_loop. }
  assert (Hrun : (snap_fetch space writable true (Some suffix) reply true (Some addr) port key dir am cl).1 = true).
  { unfold snap_fetch. rewrite Hkey. destruct (Z.leb_spec port 0); [lia|]. cbn [negb orb].
    destruct (Nat.leb_spec 1100 (String.length (incoming_name dir key "XXXXXX"))); [lia|].
    destruct (Nat.leb_spec 1100 (String.length (shard_path dir key))); [lia|]. cbn [orb].
    rewrite st_bind_run. unfold send at 1. rewrite Hsend. cbn [fst snd negb]. rewrite st_bind_run. unfold send at 1.
    unfold send at 1. rewrite Hsend. cbn [fst snd negb sd_outcomes]. rewrite st_bind_run, Hl, st_bind_run. done. }
  destruct (snap_fetch_spec space writable true (Some suffix) reply true (Some addr) port key dir am cl)
    as [[H _]|(content & _ & _ & Hl' & H)]; [by intros ? [= <-]|congruence|].
  split; [done|]. rewrite Hl in Hl'. by injection Hl' as <-.
Qed.
End transfers.

(** ** Witnesses: three bytes from one node to another *)

Section witnesses.
#[local] Existing Instance MapStore.digit_codec.
#[local] Existing Instance MapStore.digit_codec_laws.

Definition some_key : string := "0123456789abcdef0123456789abcdef".
Definition some_copy : bytes := [1; 2; 3].
Definition some_backup (_ : files) (_ : string) : option bytes := Some some_copy.
Definition roomy (_ _ : bytes) : bool := true.
Definition a_server : side := Side ∅ [] (repeat true 6).
Definition a_client : side := Side ∅ [] (repeat true 2).
Definition a_state : message := (ESTP_STATE, []).

Lemma small_copy : size_of some_copy <= SNAP_MAX_BYTES.
Proof. by vm_compute. Qed.

Lemma a_state_idle : Forall is_idle [a_state].
Proof. apply Forall_singleton. by right. Qed.

Lemma some_loop : fetch_loop (Some 100) roomy
  (a_state :: meta_frame 3 :: map data_frame [some_copy] ++ EOF_FRAME :: ack_frame true :: []) fetch_start = Some some_copy.
Proof.
  apply (undisturbed_loop (C := MapStore.digit_codec) (Some 100) roomy [a_state] some_copy [some_copy] [] 100); try done.
  - exact a_state_idle.
  - by apply Forall_singleton.
Qed.

Lemma accepted_transfer_complete_witness : exists idle meta chunks ack rest,
  a_state :: meta_frame 3 :: map data_frame [some_copy] ++ EOF_FRAME :: ack_frame true :: [] =
    idle ++ meta :: map data_frame chunks ++ EOF_FRAME :: ack :: rest /\
  Forall is_idle idle /\ good_ack meta /\ good_ack ack /\ Forall (.≠ []) chunks /\
  some_copy = concat chunks /\ announced (frame_json meta) = Some (size_of some_copy).
Proof. exact (accepted_transfer_complete (Some 100) roomy _ _ some_loop). Defined.

Lemma heartbeat_ends_transfer_witness : fetch_loop (Some 100) roomy
  ([a_state] ++ meta_frame 3 :: map data_frame [some_copy] ++ a_state :: EOF_FRAME :: ack_frame true :: []) fetch_start = None.
Proof. apply heartbeat_ends_transfer; [exact a_state_idle|reflexivity..]. Defined.

Lemma nothing_there name : sd_files a_client !! name = None.
Proof. apply lookup_empty. Qed.

(** The connection breaks after two frames of the answer. *)
Lemma transfer_all_or_nothing_witness :
  let reply := [a_state] ++ take 2 (answer_to some_backup "/data" (Some "abcdef") some_key false a_server) in
  let result := snap_fetch (Some 100) roomy true (Some "uvwxyz") reply true (Some "10.0.0.2") 7400 some_key "/data" false a_client in
  (result.1 = false /\ sd_files result.2 = sd_files a_client) \/
  (result.1 = true /\ exists content, may_serve some_backup ∅ "/data" some_key false (Some "abcdef") content /\
     sd_files result.2 = <[shard_path "/data" some_key := content]> (sd_files a_client)).
Proof.
  intros reply result.
  exact (transfer_all_or_nothing some_backup (Some 100) roomy "/data" (Some "abcdef") a_server [a_state] 2 true
    (Some "uvwxyz") true (Some "10.0.0.2") 7400 some_key "/data" false a_client
    a_state_idle (fun sx _ => nothing_there _)).
Defined.

Lemma plenty_here : plenty (length some_copy + 3) a_server.
Proof. by exists 6%nat; split; [simpl; lia|]. Qed.

Lemma short_names : (String.length (snapshot_name "/data" some_key "XXXXXX") < 1100)%nat /\
  (String.length (incoming_name "/data" some_key "XXXXXX") < 1100)%nat /\ (String.length (shard_path "/data" some_key) < 1100)%nat.
Proof. repeat split; apply Nat.ltb_lt; reflexivity. Qed.

Lemma transfer_copies_witness :
  let reply := [a_state] ++ answer_to some_backup "/data" (Some "abcdef") some_key false a_server in
  sd_files (snap_fetch (Some 100) roomy true (Some "uvwxyz") reply true (Some "10.0.0.2") 7400 some_key "/data" false a_client).2 =
    <[shard_path "/data" some_key := some_copy]> (sd_files a_client).
Proof.
  intros reply.
  pose proof (transfer_copies some_backup (Some 100) roomy "/data" "abcdef" a_server [a_state] "uvwxyz" "10.0.0.2" 7400
    some_key "/data" false a_client some_copy 100 []
    a_state_idle (nothing_there _) eq_refl eq_refl eq_refl short_names
    eq_refl small_copy plenty_here eq_refl ltac:(by vm_compute) (fun _ _ => eq_refl)) as H.
  exact (proj2 H).
Defined.
End witnesses.

End SnapFacts.
