(* ===== verification/Analytics.v ===== *)
(** src/engine/epsilon_analytics.c: counting reads, writes, deletes and queries
    of each shard, the snapshot of the counters a node stores every ten seconds
    and the report over the snapshots of all nodes. Allocations succeed; the
    latency of an event, the clock and the sizes of files are arguments, and so
    is what becomes of a double that no uint64_t can hold. *)

From S2P Require Import Prelude Json Store Cluster Config Manager Repl EqlExec Http Api ApiAdmin.
From Stdlib Require Import SpecFloat.

Module Analytics.

Import Json Store Cluster Config Repl EqlExec Http Api ApiAdmin.

(** ** Tables *)

(** The search for an entry and the entry added where there is none, with the
    update the caller makes: [find_shard], [find_slow], [agg_shard] and
    [agg_slow] share it. *)
Section table.
Context {A : Type} (hit : A -> bool) (fresh : A) (f : A -> A).

Fixpoint update_stat (l : list A) : list A :=
  match l with
  | [] => [f fresh]
  | x :: l => if hit x then f x :: l else x :: update_stat l
  end.
End table.

(** Also the [report_shard] of a report. *)
Record shard_stat := ShardStat {
  ss_partition : string; ss_keyspace : string;
  ss_reads : Z; ss_writes : Z; ss_updates : Z; ss_deletes : Z;
  ss_read_us : Z; ss_write_us : Z; ss_size_bytes : Z;
}.

(** Also the [report_slow] of a report. *)
Record slow_stat := SlowStat {
  sl_kind : string; sl_partition : string; sl_keyspace : string; sl_filter_key : string;
  sl_count : Z; sl_total_us : Z; sl_max_us : Z;
}.

Definition is_stat (partition keyspace : string) (s : shard_stat) : bool :=
  String.eqb (ss_partition s) partition && String.eqb (ss_keyspace s) keyspace.
Definition new_stat (partition keyspace : string) : shard_stat :=
  ShardStat (snprintf 256 partition) (snprintf 128 keyspace) 0 0 0 0 0 0 0.

Definition is_slow (kind partition keyspace filter_key : string) (s : slow_stat) : bool :=
  String.eqb (sl_kind s) kind && String.eqb (sl_partition s) partition &&
  String.eqb (sl_keyspace s) keyspace && String.eqb (sl_filter_key s) filter_key.
Definition new_slow (kind partition keyspace filter_key : string) : slow_stat :=
  SlowStat (snprintf 16 kind) (snprintf 256 partition) (snprintf 128 keyspace) (snprintf 256 filter_key) 0 0 0.

Definition find_shard (partition keyspace : string) (f : shard_stat -> shard_stat) : list shard_stat -> list shard_stat :=
  update_stat (is_stat partition keyspace) (new_stat partition keyspace) f.
Definition find_slow (kind partition keyspace filter_key : string) (f : slow_stat -> slow_stat)
    : list slow_stat -> list slow_stat :=
  update_stat (is_slow kind partition keyspace filter_key) (new_slow kind partition keyspace filter_key) f.

(** [cluster_fn] is called with every snapshot; [None] where it is not set. *)
Record edb_analytics := Analytics {
  an_node_id : string; an_shards : list shard_stat; an_slow : list slow_stat;
}.

(** ** Filter keys *)

(** The loop over the sorted keys, with what is written so far. *)
Fixpoint join_from (cap : nat) (first : bool) (out : string) (keys : list string) : string :=
  match keys with
  | [] => out
  | key :: keys =>
      let out := if negb first && (String.length out + 1 <? cap)%nat then out +:+ "," else out in
      if (cap <=? String.length out + String.length key)%nat then out
      else join_from cap false (out +:+ key) keys
  end.

Definition join_filter_keys (cap : nat) (keys : list string) : string :=
  join_from cap true "" (merge_sort String.le keys).

(** ** Recording *)

Definition add_read (us : Z) (s : shard_stat) : shard_stat :=
  ShardStat (ss_partition s) (ss_keyspace s) (u64 (ss_reads s + 1)) (ss_writes s) (ss_updates s) (ss_deletes s)
    (u64 (ss_read_us s + u64 us)) (ss_write_us s) (ss_size_bytes s).
Definition add_write (update : bool) (us : Z) (s : shard_stat) : shard_stat :=
  ShardStat (ss_partition s) (ss_keyspace s) (ss_reads s) (u64 (ss_writes s + 1))
    (if update then u64 (ss_updates s + 1) else ss_updates s) (ss_deletes s)
    (ss_read_us s) (u64 (ss_write_us s + u64 us)) (ss_size_bytes s).
Definition add_delete (us : Z) (s : shard_stat) : shard_stat :=
  ShardStat (ss_partition s) (ss_keyspace s) (ss_reads s) (ss_writes s) (ss_updates s) (u64 (ss_deletes s + 1))
    (ss_read_us s) (u64 (ss_write_us s + u64 us)) (ss_size_bytes s).
Definition add_slow (us : Z) (s : slow_stat) : slow_stat :=
  SlowStat (sl_kind s) (sl_partition s) (sl_keyspace s) (sl_filter_key s)
    (u64 (sl_count s + 1)) (u64 (sl_total_us s + u64 us)) (Z.max (sl_max_us s) (u64 us)).

Definition record_shard (partition keyspace : string) (f : shard_stat -> shard_stat) (a : edb_analytics) : edb_analytics :=
  Analytics (an_node_id a) (find_shard partition keyspace f (an_shards a)) (an_slow a).
Definition record_read_locked (partition keyspace : string) (us : Z) : edb_analytics -> edb_analytics :=
  record_shard partition keyspace (add_read us).
Definition record_slow_locked (kind partition keyspace filter_key : string) (us : Z) (a : edb_analytics) : edb_analytics :=
  Analytics (an_node_id a) (an_shards a) (find_slow kind partition keyspace filter_key (add_slow us) (an_slow a)).

Definition edb_analytics_record_read (partition keyspace : string) (us : Z) (a : edb_analytics) : edb_analytics :=
  record_slow_locked "read" partition keyspace "" us (record_read_locked partition keyspace us a).
Definition edb_analytics_record_write (partition keyspace : string) (update : bool) (us : Z) (a : edb_analytics)
    : edb_analytics :=
  record_slow_locked "write" partition keyspace "" us (record_shard partition keyspace (add_write update us) a).
Definition edb_analytics_record_delete (partition keyspace : string) (us : Z) (a : edb_analytics) : edb_analytics :=
  record_slow_locked "delete" partition keyspace "" us (record_shard partition keyspace (add_delete us) a).
Definition edb_analytics_record_query (partition keyspace : string) (keys : list string) (us : Z) (a : edb_analytics)
    : edb_analytics :=
  record_slow_locked "query" partition keyspace (join_filter_keys 256 keys) us
    (record_read_locked partition keyspace us a).

(** What the handlers report, with its latency. *)
Definition record_event (ev : analytics_event * Z) : edb_analytics -> edb_analytics :=
  match ev with
  | (AnRead p k, us) => edb_analytics_record_read p k us
  | (AnWrite p k update, us) => edb_analytics_record_write p k update us
  | (AnDelete p k, us) => edb_analytics_record_delete p k us
  | (AnQuery p k keys, us) => edb_analytics_record_query p k keys us
  end.

Definition edb_analytics_start (node_id : option string) : edb_analytics :=
  Analytics (snprintf 64 (match node_id with Some id => if String.eqb id "" then "local" else id | None => "local" end))
    [] [].

(** ** Snapshots *)

(** src/engine/manager.c: the size of a shard on disk, its WAL included;
    [size_of_file] is what [stat] says of a path, [root] the engine's. *)
Definition positive_size (size : option Z) : Z := match size with Some n => if 0 <? n then n else 0 | None => 0 end.
Definition edb_engine_shard_size (size_of_file : string -> option Z) (root partition keyspace : string) : Z :=
  let path := root +:+ "/" +:+ Manager.shard_key partition keyspace +:+ ".sqlite" in
  if (1024 <=? String.length path)%nat then 0
  else positive_size (size_of_file path) + positive_size (size_of_file (snprintf 1060 (path +:+ "-wal"))).

Definition shard_json (s : shard_stat) : json :=
  JObject [("partition", JString (ss_partition s)); ("keyspace", JString (ss_keyspace s));
           ("reads", jnum (ss_reads s)); ("writes", jnum (ss_writes s)); ("updates", jnum (ss_updates s));
           ("deletes", jnum (ss_deletes s)); ("read_us", jnum (ss_read_us s)); ("write_us", jnum (ss_write_us s));
           ("size_bytes", jnum (ss_size_bytes s))].
Definition slow_json (s : slow_stat) : json :=
  JObject [("kind", JString (sl_kind s)); ("partition", JString (sl_partition s)); ("keyspace", JString (sl_keyspace s));
           ("filter", JString (sl_filter_key s)); ("count", jnum (sl_count s)); ("total_us", jnum (sl_total_us s));
           ("max_us", jnum (sl_max_us s))].

Definition with_size (sizes : string -> string -> Z) (s : shard_stat) : shard_stat :=
  ShardStat (ss_partition s) (ss_keyspace s) (ss_reads s) (ss_writes s) (ss_updates s) (ss_deletes s)
    (ss_read_us s) (ss_write_us s) (u64 (Z.max 0 (sizes (ss_partition s) (ss_keyspace s)))).

(** [sizes]: of the shards, where there is an engine; [cluster]: what
    [cluster_fn] returned, if it is set. *)
Definition snapshot_json (ts : Z) (sizes : option (string -> string -> Z)) (cluster : option json) (a : edb_analytics)
    : json * edb_analytics :=
  let shards := match sizes with Some sizes => map (with_size sizes) (an_shards a) | None => an_shards a end in
  (JObject ([("node", JString (an_node_id a)); ("ts", jnum ts);
             ("shards", JArray (map shard_json shards)); ("slow", JArray (map slow_json (an_slow a)))] ++
            match cluster with Some c => if is_object c then [("cluster", c)] else [] | None => [] end),
   Analytics (an_node_id a) shards (an_slow a)).

(** ** The report *)

Section report.
Context (wild : option spec_float -> Z).

(** [(uint64_t)cJSON_GetNumberValue(j)]: the number truncated when that is in
    range; otherwise, and for what is no number, undefined. *)
Definition number_u64 (j : option json) : Z :=
  match j with
  | Some (JNumber (S754_finite s m e)) =>
      let z := Z_of_double (S754_finite s m e) in
      if (0 <=? z) && (z <? 2 ^ 64) then z else u64 (wild (Some (S754_finite s m e)))
  | Some (JNumber (S754_zero _)) => 0
  | Some (JNumber d) => u64 (wild (Some d))
  | _ => u64 (wild None)
  end.
Definition counter (o : json) (field : string) : Z := number_u64 (get_item o field).

Definition agg_shard (partition keyspace : string) (f : shard_stat -> shard_stat) : list shard_stat -> list shard_stat :=
  update_stat (is_stat partition keyspace) (new_stat partition keyspace) f.
Definition agg_slow (kind partition keyspace filter_key : string) (f : slow_stat -> slow_stat)
    : list slow_stat -> list slow_stat :=
  update_stat (is_slow kind partition keyspace filter_key) (new_slow kind partition keyspace filter_key) f.

Definition sum_shard (o : json) (r : shard_stat) : shard_stat :=
  ShardStat (ss_partition r) (ss_keyspace r)
    (u64 (ss_reads r + counter o "reads")) (u64 (ss_writes r + counter o "writes"))
    (u64 (ss_updates r + counter o "updates")) (u64 (ss_deletes r + counter o "deletes"))
    (u64 (ss_read_us r + counter o "read_us")) (u64 (ss_write_us r + counter o "write_us"))
    (Z.max (ss_size_bytes r) (counter o "size_bytes")).
Definition sum_slow (o : json) (r : slow_stat) : slow_stat :=
  SlowStat (sl_kind r) (sl_partition r) (sl_keyspace r) (sl_filter_key r)
    (u64 (sl_count r + counter o "count")) (u64 (sl_total_us r + counter o "total_us"))
    (Z.max (sl_max_us r) (counter o "max_us")).

(** An item of the array [shards] or [slow] of a snapshot. *)
Definition agg_shard_item (l : list shard_stat) (o : json) : list shard_stat :=
  match get_string o "partition", get_string o "keyspace" with
  | Some p, Some k => agg_shard p k (sum_shard o) l
  | _, _ => l
  end.
Definition agg_slow_item (l : list slow_stat) (o : json) : list slow_stat :=
  match get_string o "kind", get_string o "partition", get_string o "keyspace", get_string o "filter" with
  | Some kind, Some p, Some k, Some f => agg_slow kind p k f (sum_slow o) l
  | _, _, _, _ => l
  end.

(** The nodes, shards, slow entries and pending changes so far. *)
Record report_state := Report { r_nodes : list string; r_shards : list shard_stat; r_slow : list slow_stat; r_pending : Z }.

Definition agg_snapshot (r : report_state) (snap : json) : report_state :=
  if negb (is_object snap) then r
  else
    Report
      (match get_string snap "node" with Some n => r_nodes r ++ [n] | None => r_nodes r end)
      (foldl agg_shard_item (r_shards r) (array_items (get_item snap "shards")))
      (foldl agg_slow_item (r_slow r) (array_items (get_item snap "slow")))
      (match get_item snap "cluster" with
       | Some c => if is_object c then u64 (r_pending r + counter c "pending_changes") else r_pending r
       | None => r_pending r
       end).

(** [cmp_shard_size_desc]; the order [qsort] gives equal sizes is not specified. *)
Definition larger_first (a b : shard_stat) : Prop := ss_size_bytes b <= ss_size_bytes a.
#[export] Instance larger_first_dec : RelDecision larger_first := fun a b => Z_le_dec _ _.

Definition largest_json (s : shard_stat) : json :=
  JObject [("partition", JString (ss_partition s)); ("keyspace", JString (ss_keyspace s));
           ("size_bytes", jnum (ss_size_bytes s))].

Definition aggregate (snapshots : option json) : report_state :=
  foldl agg_snapshot (Report [] [] [] 0) (array_items snapshots).

Definition report_json (r : report_state) : json :=
  JObject [("nodes", JArray (map JString (r_nodes r)));
           ("shards", JArray (map shard_json (r_shards r)));
           ("slow", JArray (map slow_json (r_slow r)));
           ("largest_shards", JArray (map largest_json (take 10 (merge_sort larger_first (r_shards r)))));
           ("cluster", JObject [("pending_changes", jnum (r_pending r))])].
End report.

Definition EDB_ANALYTICS_KEYSPACE : string := "config_analytics".
Definition EDB_ANALYTICS_FLUSH_SECS : nat := 10.
Definition EDB_ANALYTICS_TTL_SECS : Z := 1800.

(** ** On a node *)

Section node.
Context {S : Type} `{RecordStore S} `{JsonCodec} `{LocalWrites S}.
Context (wild : option spec_float -> Z) (repl : option (repl_service S)) (now : Z).

(** [running]: the analytics are on. *)
Definition edb_analytics_report (running : bool) : st S json :=
  if running then
    snapshots ← rs_all EDB_ANALYTICS_KEYSPACE;
    mret (report_json (aggregate wild snapshots))
  else mret (report_json (aggregate wild None)).

(** src/api/epsilon_api.c. *)
Definition api_analytics_flush (node_id text : string) (ttl_abs : Z) : st S bool :=
  match repl with
  | Some svc =>
      match json_parse text with
      | None => mret false
      | Some value =>
          status ← svc_write svc EDB_SYSTEM_DB
            (json_print (JObject [("op", JString "put"); ("db", JString EDB_SYSTEM_DB); ("partition", JString EDB_SYSTEM_DB);
                                  ("keyspace", JString EDB_ANALYTICS_KEYSPACE); ("id", JString node_id); ("ts", jnum now);
                                  ("ttl_abs", jnum ttl_abs); ("value", value)]));
          mret (match status with EDB_REPL_OK => true | _ => false end)
      end
  | None => eng_put EDB_SYSTEM_DB EDB_ANALYTICS_KEYSPACE node_id text (if now <? ttl_abs then ttl_abs - now else 0)
  end.

Definition api_analytics_cluster_metrics (pending : option Z) : json :=
  JObject [("pending_changes", jnum (default 0 pending))].

(** The flush of what [snapshot_json] gives, with [api_analytics_flush] as the
    callback. *)
Definition flush_snapshot (sizes : option (string -> string -> Z)) (cluster : option json) (a : edb_analytics)
    : st S edb_analytics :=
  let '(doc, a) := snapshot_json now sizes cluster a in
  _ ← api_analytics_flush (an_node_id a) (json_print doc) (now + EDB_ANALYTICS_TTL_SECS);
  mret a.

(** src/api/epsilon_api_admin.c. *)
Definition handle_admin_analytics (running : bool) (req : edb_http_request) : st (api S) edb_http_response :=
  if negb (String.eqb (rq_method req) "GET") then mret NOT_ALLOWED
  else
    admin_only now req
      (r ← on_store (edb_analytics_report running);
       mret (respond_json 200 (Some r))).
End node.

(** The thread that flushes: every second it looks whether it is still
    running, and flushes after ten. [ticks]: what it sees. *)
Section thread.
Context {T : Type} (flush : st T unit).

Fixpoint flush_thread_main (ticks : list bool) (i : nat) : st T unit :=
  match ticks with
  | true :: ticks =>
      if (S i =? EDB_ANALYTICS_FLUSH_SECS)%nat then _ ← flush; flush_thread_main ticks 0
      else flush_thread_main ticks (S i)
  | _ => mret tt
  end.
End thread.

End Analytics.
