(* ===== verification/AnalyticsFacts.v ===== *)
(** Theorems about the analytics (Analytics.v): the tables hold one entry for
    each shard and each kind of access that was recorded, with its counts; the
    report over the snapshots of the nodes is the table one node would have had
    that saw all events. *)

From S2P Require Import Prelude Json Doubles Store Cluster Config Api HttpFacts Analytics.
From Stdlib Require Import SpecFloat.

Module AnalyticsFacts.

Import Json Doubles Store Cluster Config Api Analytics.

(** ** Grouping *)

(** The elements of a list without repetition, in the order of their first
    occurrences. *)
Definition firsts {K} `{EqDecision K} (l : list K) : list K := reverse (remove_dups (reverse l)).

Section firsts.
Context {K : Type} `{EqDecision K}.
Implicit Types l : list K.

Lemma firsts_snoc l k : firsts (l ++ [k]) = if decide (k ∈ l) then firsts l else firsts l ++ [k].
Proof.
  unfold firsts. rewrite reverse_app. change (reverse [k] ++ reverse l) with (k :: reverse l). cbn [remove_dups].
  destruct (decide_rel _ k (reverse l)) as [Hin|Hin]; rewrite elem_of_reverse in Hin.
  - by rewrite decide_True.
  - rewrite decide_False by done. by rewrite reverse_cons.
Qed.

Lemma elem_of_firsts l k : k ∈ firsts l <-> k ∈ l.
Proof. unfold firsts. by rewrite elem_of_reverse, elem_of_remove_dups, elem_of_reverse. Qed.

Lemma NoDup_firsts l : NoDup (firsts l).
Proof. unfold firsts. rewrite reverse_Permutation. apply NoDup_remove_dups. Qed.

Lemma firsts_app_r l k : firsts (l ++ firsts k) = firsts (l ++ k).
Proof.
  induction k as [|a k IH] using rev_ind; [done|]. rewrite firsts_snoc, app_assoc, firsts_snoc.
  destruct (decide (a ∈ k)).
  - rewrite decide_True by set_solver. done.
  - rewrite app_assoc, firsts_snoc, IH. destruct (decide (a ∈ l ++ k)) as [H|H], (decide (a ∈ l ++ firsts k)) as [H'|H']; [done| | |done];
    rewrite elem_of_app, elem_of_firsts in H'; rewrite elem_of_app in H; tauto.
Qed.

Lemma firsts_app_l l k : firsts (firsts l ++ k) = firsts (l ++ k).
Proof.
  induction k as [|a k IH] using rev_ind.
  - rewrite !app_nil_r. exact (firsts_app_r [] l).
  - rewrite !app_assoc, !firsts_snoc, IH. destruct (decide (a ∈ l ++ k)) as [H|H], (decide (a ∈ firsts l ++ k)) as [H'|H']; [done| | |done];
    rewrite elem_of_app, elem_of_firsts in H'; rewrite elem_of_app in H; tauto.
Qed.

Lemma firsts_concat (ls : list (list K)) : firsts (concat (map firsts ls)) = firsts (concat ls).
Proof.
  induction ls as [|l ls IH]; [done|]. cbn [map concat]. rewrite firsts_app_l, <-firsts_app_r, IH. apply firsts_app_r.
Qed.
End firsts.

(** A table that is updated with every event has an entry for each key, in the
    order they came, made by the events of that key. *)
Section groups.
Context {A K E : Type} `{EqDecision K}.
Context (key_of : A -> K) (fresh : K -> A) (hit : K -> A -> bool) (key : E -> K) (step : E -> A -> A).
Context (fresh_key : E -> Prop).
Context (Hhit : forall k x, hit k x = bool_decide (key_of x = k)).
Context (Hfresh : forall e, fresh_key e -> key_of (fresh (key e)) = key e).
Context (Hstep : forall e x, key_of (step e x) = key_of x).

Definition total (k : K) (es : list E) : A := foldl (fun x e => step e x) (fresh k) (filter (fun e => key e = k) es).
Definition add (l : list A) (e : E) : list A := update_stat (hit (key e)) (fresh (key e)) (step e) l.

Lemma key_of_total k es : key_of (fresh k) = k -> key_of (total k es) = k.
Proof.
  intros Hk. unfold total. generalize (filter (fun e => key e = k) es). intros l. revert Hk. generalize (fresh k).
  induction l as [|e l IH]; [done|]. intros x Hx. cbn. apply IH. by rewrite Hstep.
Qed.

Lemma update_map g ks k f (Hg : forall k', k' ∈ ks -> key_of (g k') = k') (Hks : NoDup ks) :
  update_stat (hit k) (fresh k) f (map g ks) =
    if decide (k ∈ ks) then map (fun k' => if decide (k' = k) then f (g k') else g k') ks else map g ks ++ [f (fresh k)].
Proof.
  induction ks as [|k' ks IH]; [done|]. apply NoDup_cons in Hks as [Hni Hks]. cbn [map update_stat].
  rewrite Hhit, Hg by set_solver. case_bool_decide as E1.
  - subst k'. rewrite decide_True by set_solver. rewrite (decide_True _ _ eq_refl). f_equal.
    apply map_ext_in. intros a Ha. rewrite decide_False; [done|]. intros ->. by apply Hni, list_elem_of_In.
  - rewrite IH; [|set_solver|done]. destruct (decide (k ∈ ks)).
    + rewrite decide_True by set_solver. by rewrite decide_False by done.
    + rewrite decide_False by set_solver. done.
Qed.

Lemma total_snoc k es e : total k (es ++ [e]) = if decide (key e = k) then step e (total k es) else total k es.
Proof.
  unfold total. rewrite filter_app, filter_cons. destruct (decide (key e = k)).
  - by rewrite foldl_app.
  - by rewrite app_nil_r.
Qed.

Lemma total_none k es : k ∉ map key es -> total k es = fresh k.
Proof.
  intros H. unfold total. replace (filter (fun e => key e = k) es) with (@nil E); [done|]. symmetry. induction es as [|e es IH]; [done|].
  cbn in H. apply not_elem_of_cons in H as [H1 H2]. rewrite filter_cons_False by congruence. auto.
Qed.

Lemma grouped es : Forall fresh_key es -> foldl add [] es = map (fun k => total k es) (firsts (map key es)).
Proof.
  induction es as [|e es IH] using rev_ind; [done|]. intros [Hes He]%Forall_app. apply Forall_singleton in He.
  rewrite foldl_app, IH by done. cbn. rewrite map_app. cbn [map]. rewrite firsts_snoc.
  unfold add. rewrite update_map; [|intros k Hk|apply NoDup_firsts].
  - destruct (decide (key e ∈ firsts (map key es))) as [Hin|Hin]; rewrite elem_of_firsts in Hin.
    + rewrite decide_True by done. apply map_ext. intros k. rewrite total_snoc.
      destruct (decide (k = key e)), (decide (key e = k)); congruence.
    + rewrite decide_False by done. rewrite map_app. cbn [map]. f_equal.
      * apply map_ext_in. intros k Hk%list_elem_of_In. rewrite total_snoc, decide_False; [done|].
        intros <-. by rewrite elem_of_firsts in Hk.
      * rewrite total_snoc, decide_True by done. by rewrite total_none.
  - apply key_of_total. apply elem_of_firsts, list_elem_of_fmap in Hk as (e' & -> & Hin).
    apply Hfresh. by eapply Forall_forall in Hes.
Qed.
End groups.

(** ** What was recorded *)

Abbreviation event := (analytics_event * Z)%type.

Definition ev_shard (e : event) : string * string :=
  match e.1 with AnRead p k | AnWrite p k _ | AnDelete p k | AnQuery p k _ => (p, k) end.
Definition ev_slow (e : event) : string * string * string * string :=
  match e.1 with
  | AnRead p k => ("read", p, k, "")
  | AnWrite p k _ => ("write", p, k, "")
  | AnDelete p k => ("delete", p, k, "")
  | AnQuery p k keys => ("query", p, k, join_filter_keys 256 keys)
  end.

(** What an event adds to the counters of its shard. *)
Definition n_reads (e : event) : Z := match e.1 with AnRead _ _ | AnQuery _ _ _ => 1 | _ => 0 end.
Definition n_writes (e : event) : Z := match e.1 with AnWrite _ _ _ => 1 | _ => 0 end.
Definition n_updates (e : event) : Z := match e.1 with AnWrite _ _ true => 1 | _ => 0 end.
Definition n_deletes (e : event) : Z := match e.1 with AnDelete _ _ => 1 | _ => 0 end.
Definition us_read (e : event) : Z := match e.1 with AnRead _ _ | AnQuery _ _ _ => u64 e.2 | _ => 0 end.
Definition us_write (e : event) : Z := match e.1 with AnWrite _ _ _ | AnDelete _ _ => u64 e.2 | _ => 0 end.

Definition tally {E} (g : E -> Z) (es : list E) : Z := foldr (fun e z => g e + z) 0 es.
Definition peak {E} (g : E -> Z) (es : list E) : Z := foldr (fun e z => Z.max (g e) z) 0 es.

Definition of_shard (k : string * string) (es : list event) : list event := filter (fun e => ev_shard e = k) es.
Definition of_slow (k : string * string * string * string) (es : list event) : list event := filter (fun e => ev_slow e = k) es.

(** The entry of a shard, and of a kind of access to it, after [es]. *)
Definition counted (es : list event) (k : string * string) : shard_stat :=
  let on := of_shard k es in
  ShardStat k.1 k.2 (u64 (tally n_reads on)) (u64 (tally n_writes on)) (u64 (tally n_updates on)) (u64 (tally n_deletes on))
    (u64 (tally us_read on)) (u64 (tally us_write on)) 0.
Definition slow_counted (es : list event) (k : string * string * string * string) : slow_stat :=
  let on := of_slow k es in
  SlowStat k.1.1.1 k.1.1.2 k.1.2 k.2 (u64 (Z.of_nat (length on))) (u64 (tally (fun e => u64 e.2) on)) (peak (fun e => u64 e.2) on).

Definition event_fits (e : event) : Prop :=
  (String.length (ev_shard e).1 < 256)%nat /\ (String.length (ev_shard e).2 < 128)%nat.

(** The recorder of a node after some events. *)
Definition recorded (id : option string) (es : list event) : edb_analytics :=
  foldl (fun a e => record_event e a) (edb_analytics_start id) es.

Lemma tally_snoc {E} (g : E -> Z) es e : tally g (es ++ [e]) = tally g es + g e.
Proof. unfold tally. induction es as [|a es IH]; cbn in *; lia. Qed.

Lemma tally_app {E} (g : E -> Z) l k : tally g (l ++ k) = tally g l + tally g k.
Proof. unfold tally. induction l as [|a l IH]; cbn in *; lia. Qed.

Lemma peak_app {E} (g : E -> Z) l k : peak g (l ++ k) = Z.max (peak g l) (peak g k).
Proof.
  assert (H0 : 0 <= peak g k) by (unfold peak; induction k as [|a k IH]; cbn; lia).
  unfold peak in *. induction l as [|a l IH]; cbn; lia.
Qed.

Lemma u64_step a b : u64 (u64 a + b) = u64 (a + b).
Proof. unfold u64. by rewrite Zplus_mod_idemp_l. Qed.

(** *** The table of shards *)

Definition touch (e : event) : shard_stat -> shard_stat :=
  match e.1 with
  | AnRead _ _ | AnQuery _ _ _ => add_read e.2
  | AnWrite _ _ update => add_write update e.2
  | AnDelete _ _ => add_delete e.2
  end.

Definition stat_key (s : shard_stat) : string * string := (ss_partition s, ss_keyspace s).
Definition slow_key (s : slow_stat) : string * string * string * string :=
  (sl_kind s, sl_partition s, sl_keyspace s, sl_filter_key s).
Definition stat_hit (k : string * string) : shard_stat -> bool := is_stat k.1 k.2.
Definition slow_hit (k : string * string * string * string) : slow_stat -> bool := is_slow k.1.1.1 k.1.1.2 k.1.2 k.2.
Definition stat_new (k : string * string) : shard_stat := new_stat k.1 k.2.
Definition slow_new (k : string * string * string * string) : slow_stat := new_slow k.1.1.1 k.1.1.2 k.1.2 k.2.

Lemma stat_hit_key k s : stat_hit k s = bool_decide (stat_key s = k).
Proof.
  destruct k as [p ks]. unfold stat_hit, is_stat, stat_key. cbn.
  destruct (String.eqb_spec (ss_partition s) p), (String.eqb_spec (ss_keyspace s) ks); symmetry;
    (apply bool_decide_eq_true || apply bool_decide_eq_false); congruence.
Qed.

Lemma slow_hit_key k s : slow_hit k s = bool_decide (slow_key s = k).
Proof.
  destruct k as [[[kind p] ks] f]. unfold slow_hit, is_slow, slow_key. cbn.
  destruct (String.eqb_spec (sl_kind s) kind), (String.eqb_spec (sl_partition s) p),
    (String.eqb_spec (sl_keyspace s) ks), (String.eqb_spec (sl_filter_key s) f); symmetry;
    (apply bool_decide_eq_true || apply bool_decide_eq_false); congruence.
Qed.

Lemma stat_new_key (k : string * string) : (String.length k.1 < 256)%nat -> (String.length k.2 < 128)%nat ->
  stat_new k = ShardStat k.1 k.2 0 0 0 0 0 0 0.
Proof. intros H1 H2. unfold stat_new, new_stat. by rewrite !HttpFacts.snprintf_short. Qed.

Lemma touch_key e s : stat_key (touch e s) = stat_key s.
Proof. unfold touch. by destruct (e.1). Qed.

Lemma shards_recorded a es : an_shards (foldl (fun a e => record_event e a) a es) =
  foldl (add stat_new stat_hit ev_shard touch) (an_shards a) es.
Proof. revert a. induction es as [|[[] us] es IH]; intros a; [done|..]; cbn [foldl]; by rewrite IH. Qed.

Lemma slow_recorded a es : an_slow (foldl (fun a e => record_event e a) a es) =
  foldl (add slow_new slow_hit ev_slow (fun e => add_slow e.2)) (an_slow a) es.
Proof. revert a. induction es as [|[[] us] es IH]; intros a; [done|..]; cbn [foldl]; by rewrite IH. Qed.

Lemma touch_counts e k a b c d r w z :
  touch e (ShardStat k.1 k.2 (u64 a) (u64 b) (u64 c) (u64 d) (u64 r) (u64 w) z) =
  ShardStat k.1 k.2 (u64 (a + n_reads e)) (u64 (b + n_writes e)) (u64 (c + n_updates e)) (u64 (d + n_deletes e))
    (u64 (r + us_read e)) (u64 (w + us_write e)) z.
Proof.
  destruct e as [[] us]; unfold touch, n_reads, n_writes, n_updates, n_deletes, us_read, us_write; cbn [fst snd];
    unfold add_read, add_write, add_delete; cbn; rewrite ?Z.add_0_r, ?u64_step; try destruct update; rewrite ?Z.add_0_r, ?u64_step; done.
Qed.

Lemma shard_total k es : (String.length k.1 < 256)%nat -> (String.length k.2 < 128)%nat ->
  total stat_new ev_shard touch k es = counted es k.
Proof.
  intros H1 H2. induction es as [|e es IH] using rev_ind; [exact (stat_new_key k H1 H2)|].
  rewrite total_snoc, IH. unfold counted, of_shard. rewrite filter_app, filter_cons.
  destruct (decide (ev_shard e = k)); [|by rewrite app_nil_r].
  cbn zeta. rewrite touch_counts. cbn [filter list_filter]. by rewrite !tally_snoc.
Qed.

(** *** Filter keys *)

Lemma join_fits cap first out keys : (String.length out < cap)%nat -> (String.length (join_from cap first out keys) < cap)%nat.
Proof.
  revert first out. induction keys as [|key keys IH]; intros first out H; [done|]. cbn [join_from].
  set (out' := if _ && _ then _ else _).
  assert (H' : (String.length out' < cap)%nat).
  { unfold out'. destruct first; [done|]. cbn [negb andb]. destruct (Nat.ltb_spec (String.length out + 1) cap); [|done].
    rewrite length_append. simpl. lia. }
  destruct (Nat.leb_spec cap (String.length out' + String.length key)); [done|]. apply IH. rewrite length_append. lia.
Qed.

(** The keys with commas between them. *)
Fixpoint commas (keys : list string) : string :=
  match keys with
  | [] => ""
  | [key] => key
  | key :: keys => key +:+ "," +:+ commas keys
  end.

Lemma join_commas cap out key keys : (String.length (out +:+ commas (key :: keys)) < cap)%nat ->
  join_from cap false (out +:+ key) keys = out +:+ commas (key :: keys).
Proof.
  revert out key. induction keys as [|key' keys IH]; intros out key H; [done|].
  change (commas (key :: key' :: keys)) with (key +:+ "," +:+ commas (key' :: keys)) in *. cbn [join_from negb andb].
  rewrite <-!append_assoc in H. rewrite <-!append_assoc.
  assert (Hl : (String.length (out +:+ key) + 1 + String.length (commas (key' :: keys)) < cap)%nat)
    by (rewrite !length_append in *; simpl in *; lia).
  assert (Hk : (String.length key' <= String.length (commas (key' :: keys)))%nat)
    by (destruct keys; [done|cbn [commas]; rewrite length_append; lia]).
  destruct (Nat.ltb_spec (String.length (out +:+ key) + 1) cap); [|lia].
  destruct (Nat.leb_spec cap (String.length ((out +:+ key) +:+ ",") + String.length key')) as [Hc|_].
  - rewrite length_append in Hc. simpl in Hc. lia.
  - by apply IH.
Qed.

Lemma join_sorted cap keys : (String.length (commas keys) < cap)%nat -> join_from cap true "" keys = commas keys.
Proof.
  destruct keys as [|key keys]; [done|]. intros H. cbn [join_from negb andb]. cbn [String.length Nat.add].
  destruct (Nat.leb_spec cap (String.length key)) as [Hc|_].
  - assert (Hk : (String.length key <= String.length (commas (key :: keys)))%nat)
      by (destruct keys; [done|cbn [commas]; rewrite length_append; lia]). lia.
  - exact (join_commas cap "" key keys H).
Qed.

Lemma join_keys_perm cap keys keys' : keys ≡ₚ keys' -> join_filter_keys cap keys = join_filter_keys cap keys'.
Proof.
  intros Hp. unfold join_filter_keys. f_equal. apply (StronglySorted_unique String.le).
  - apply (StronglySorted_merge_sort String.le).
  - apply (StronglySorted_merge_sort String.le).
  - by rewrite !merge_sort_Permutation.
Qed.

(** The filter key of a query never exceeds its buffer and does not
    depend on the order of the filters; when it fits it is the sorted keys
    with commas between them, all of them. *)
Theorem filter_key_canonical cap keys (Hcap : (0 < cap)%nat) :
  (String.length (join_filter_keys cap keys) < cap)%nat /\
  (forall keys', keys ≡ₚ keys' -> join_filter_keys cap keys' = join_filter_keys cap keys) /\
  exists sorted, sorted ≡ₚ keys /\ StronglySorted String.le sorted /\
    ((String.length (commas sorted) < cap)%nat -> join_filter_keys cap keys = commas sorted).
Proof.
  split; [by apply join_fits|]. split; [intros keys' H; symmetry; by apply join_keys_perm|].
  exists (merge_sort String.le keys). split; [apply merge_sort_Permutation|].
  split; [apply (StronglySorted_merge_sort String.le)|]. apply join_sorted.
Qed.

Lemma filter_key_canonical_witness :
  (0 < 256)%nat /\ join_filter_keys 256 ["b"; "a"; "c"] = "a,b,c" /\
  join_filter_keys 256 ["c"; "a"; "b"] = join_filter_keys 256 ["b"; "a"; "c"].
Proof.
  split; [lia|]. split; [reflexivity|]. pose proof (filter_key_canonical 256 ["b"; "a"; "c"] ltac:(lia)) as H.
  apply (proj1 (proj2 H)). by apply (bool_decide_unpack _); vm_compute.
Defined.

(** *** The table of accesses *)

Lemma slow_new_key e : event_fits e ->
  slow_new (ev_slow e) = SlowStat (ev_slow e).1.1.1 (ev_slow e).1.1.2 (ev_slow e).1.2 (ev_slow e).2 0 0 0.
Proof.
  intros [Hp Hk]. unfold slow_new, new_slow. destruct e as [ev us]. unfold ev_shard, ev_slow in *. cbn [fst snd] in *.
  destruct ev; cbn [fst snd] in *; rewrite !HttpFacts.snprintf_short; try done; try (by apply Nat.ltb_lt).
  by apply join_fits, Nat.ltb_lt.
Qed.

Lemma slow_total e es : event_fits e -> total slow_new ev_slow (fun e => add_slow e.2) (ev_slow e) es = slow_counted es (ev_slow e).
Proof.
  intros Hf. induction es as [|e' es IH] using rev_ind; [exact (slow_new_key e Hf)|].
  rewrite total_snoc, IH. unfold slow_counted, of_slow. rewrite filter_app, filter_cons.
  destruct (decide (ev_slow e' = ev_slow e)); [|by rewrite app_nil_r].
  cbn zeta. cbn [filter list_filter]. rewrite !tally_snoc, length_app, peak_app. unfold add_slow. cbn [sl_kind sl_partition sl_keyspace sl_filter_key sl_count sl_total_us sl_max_us].
  rewrite !u64_step. f_equal.
  - f_equal. simpl. lia.
  - change (peak (fun e => u64 e.2) [e']) with (Z.max (u64 e'.2) 0). pose proof (u64_range e'.2). lia.
Qed.

Lemma recorded_tables id es : Forall event_fits es ->
  an_shards (recorded id es) = map (counted es) (firsts (map ev_shard es)) /\
  an_slow (recorded id es) = map (slow_counted es) (firsts (map ev_slow es)).
Proof.
  intros Hf. unfold recorded. rewrite shards_recorded, slow_recorded. split.
  - cbn [an_shards edb_analytics_start]. rewrite (grouped stat_key stat_new stat_hit ev_shard touch event_fits stat_hit_key); [| |apply touch_key|done].
    + apply map_ext_in. intros k Hk%list_elem_of_In. rewrite elem_of_firsts in Hk. apply list_elem_of_fmap in Hk as (e & -> & Hin).
      eapply Forall_forall in Hf as [H1 H2]; [|done]. by apply shard_total.
    + intros e [H1 H2]. rewrite stat_new_key by done. by destruct (ev_shard e).
  - cbn [an_slow edb_analytics_start]. rewrite (grouped slow_key slow_new slow_hit ev_slow (fun e => add_slow e.2) event_fits slow_hit_key); [|..|done].
    + apply map_ext_in. intros k Hk%list_elem_of_In. rewrite elem_of_firsts in Hk. apply list_elem_of_fmap in Hk as (e & -> & Hin).
      eapply Forall_forall in Hf; [|done]. by apply slow_total.
    + intros e H. rewrite slow_new_key by done. by destruct (ev_slow e) as [[[] ?] ?].
    + done.
Qed.

(** Whatever was recorded, with names that fit the entries, the
    table of shards has one entry for each shard that was accessed, in the
    order of the first accesses, with the numbers of its reads and queries,
    writes, updates and deletes and the sums of their latencies (modulo
    2^64), and the table of accesses one for each kind, shard and filter key,
    with its number, sum and maximum: nothing is lost or attributed to
    another shard. *)
Theorem tables_count_events id es (Hfit : Forall event_fits es) :
  an_shards (recorded id es) = map (counted es) (firsts (map ev_shard es)) /\
  an_slow (recorded id es) = map (slow_counted es) (firsts (map ev_slow es)).
Proof. by apply recorded_tables. Qed.

Definition some_events : list event :=
  [(AnWrite "p" "ks" false, 30); (AnRead "p" "ks", 7); (AnQuery "p" "other" ["y"; "x"], 50); (AnWrite "p" "ks" true, 20);
   (AnQuery "p" "other" ["x"; "y"], 40)].

Lemma some_events_fit : Forall event_fits some_events.
Proof. apply Forall_forall. intros e He. repeat (apply elem_of_cons in He as [->|He]; [split; by apply Nat.ltb_lt|]). by apply not_elem_of_nil in He. Qed.

Lemma tables_count_events_witness :
  an_shards (recorded (Some "a") some_events) =
    [ShardStat "p" "ks" 1 2 1 0 7 50 0; ShardStat "p" "other" 2 0 0 0 90 0 0] /\
  an_slow (recorded (Some "a") some_events) =
    [SlowStat "write" "p" "ks" "" 2 50 30; SlowStat "read" "p" "ks" "" 1 7 7; SlowStat "query" "p" "other" "x,y" 2 90 50].
Proof.
  destruct (tables_count_events (Some "a") some_events some_events_fit) as [H1 H2].
  split; [rewrite H1|rewrite H2]; vm_compute; reflexivity.
Defined.

(** ** The report *)

(** Entries of several nodes under their keys. *)
Section entries.
Context {N A K : Type} `{EqDecision K} (key : A -> K) (keys : N -> list K) (entry : N -> K -> A).
Context (Hkey : forall o k, key (entry o k) = k) (Hdup : forall o, NoDup (keys o)).

Definition entries (os : list N) : list A := concat (map (fun o => map (entry o) (keys o)) os).

Lemma one_entry o k ks : NoDup ks ->
  filter (fun a => key a = k) (map (entry o) ks) = if decide (k ∈ ks) then [entry o k] else [].
Proof using Hkey.
  clear Hdup keys. induction ks as [|k' ks IH]; intros Hks; [done|]. apply NoDup_cons in Hks as [Hni Hks]. cbn [map]. rewrite filter_cons, Hkey, IH by done.
  destruct (decide (k' = k)) as [->|Hne].
  - by rewrite decide_False, decide_True by set_solver.
  - destruct (decide (k ∈ ks)); [rewrite decide_True by set_solver|rewrite decide_False by set_solver]; done.
Qed.

Lemma tally_entries g os k :
  tally g (filter (fun a => key a = k) (entries os)) = tally (fun o => if decide (k ∈ keys o) then g (entry o k) else 0) os.
Proof using Hkey Hdup.
  induction os as [|o os IH]; [done|]. unfold entries. cbn [map concat]. fold (entries os).
  rewrite filter_app, tally_app, IH, one_entry by done. unfold tally at 3. cbn [foldr]. fold (tally (fun o => if decide (k ∈ keys o) then g (entry o k) else 0) os).
  f_equal. destruct (decide (k ∈ keys o)); [|done]. unfold tally. cbn. lia.
Qed.

Lemma peak_entries g os k : (forall o, 0 <= g (entry o k)) ->
  peak g (filter (fun a => key a = k) (entries os)) = peak (fun o => if decide (k ∈ keys o) then g (entry o k) else 0) os.
Proof using Hkey Hdup.
  intros Hg. induction os as [|o os IH]; [done|]. unfold entries. cbn [map concat]. fold (entries os).
  rewrite filter_app, peak_app, IH, one_entry by done. unfold peak at 3. cbn [foldr]. fold (peak (fun o => if decide (k ∈ keys o) then g (entry o k) else 0) os).
  assert (0 <= peak (fun o => if decide (k ∈ keys o) then g (entry o k) else 0) os)
    by (unfold peak; clear; induction os as [|a os IH]; cbn; lia).
  destruct (decide (k ∈ keys o)); unfold peak in *; cbn [foldr]; [specialize (Hg o)|]; lia.
Qed.

Lemma entries_keys os : firsts (map key (entries os)) = firsts (concat (map keys os)).
Proof using Hkey.
  f_equal. unfold entries. rewrite concat_map, map_map. f_equal. apply map_ext. intros o. rewrite map_map.
  rewrite (map_ext _ id); [apply map_id|]. intros k. apply Hkey.
Qed.
End entries.

(** *** Numbers through a snapshot *)

Section report.
Context (wild : option spec_float -> Z).

Lemma number_exact z : 0 <= z < 2 ^ 53 -> number_u64 wild (Some (jnum z)) = z.
Proof.
  intros Hz. pose proof (double_exact z Hz) as He. pose proof (double_finite z ltac:(unfold exact; lia)) as Hf. unfold jnum.
  destruct (double_of_Z z) as [| | |s m e]; cbn [number_u64]; [exact He|done|done|].
  rewrite He. destruct (Z.leb_spec 0 z), (Z.ltb_spec z (2 ^ 64)); [done|lia..].
Qed.

Definition small_shard (s : shard_stat) : Prop :=
  (String.length (ss_partition s) < 256)%nat /\ (String.length (ss_keyspace s) < 128)%nat /\
  0 <= ss_reads s < 2 ^ 53 /\ 0 <= ss_writes s < 2 ^ 53 /\ 0 <= ss_updates s < 2 ^ 53 /\ 0 <= ss_deletes s < 2 ^ 53 /\
  0 <= ss_read_us s < 2 ^ 53 /\ 0 <= ss_write_us s < 2 ^ 53 /\ 0 <= ss_size_bytes s < 2 ^ 53.
Definition small_slow (s : slow_stat) : Prop :=
  (String.length (sl_kind s) < 16)%nat /\ (String.length (sl_partition s) < 256)%nat /\ (String.length (sl_keyspace s) < 128)%nat /\
  (String.length (sl_filter_key s) < 256)%nat /\
  0 <= sl_count s < 2 ^ 53 /\ 0 <= sl_total_us s < 2 ^ 53 /\ 0 <= sl_max_us s < 2 ^ 53.

Lemma sum_shard_json s r : small_shard s -> sum_shard wild (shard_json s) r =
  ShardStat (ss_partition r) (ss_keyspace r) (u64 (ss_reads r + ss_reads s)) (u64 (ss_writes r + ss_writes s))
    (u64 (ss_updates r + ss_updates s)) (u64 (ss_deletes r + ss_deletes s)) (u64 (ss_read_us r + ss_read_us s))
    (u64 (ss_write_us r + ss_write_us s)) (Z.max (ss_size_bytes r) (ss_size_bytes s)).
Proof.
  intros (_ & _ & H1 & H2 & H3 & H4 & H5 & H6 & H7). unfold sum_shard, counter.
  change (get_item (shard_json s) "reads") with (Some (jnum (ss_reads s))).
  change (get_item (shard_json s) "writes") with (Some (jnum (ss_writes s))).
  change (get_item (shard_json s) "updates") with (Some (jnum (ss_updates s))).
  change (get_item (shard_json s) "deletes") with (Some (jnum (ss_deletes s))).
  change (get_item (shard_json s) "read_us") with (Some (jnum (ss_read_us s))).
  change (get_item (shard_json s) "write_us") with (Some (jnum (ss_write_us s))).
  change (get_item (shard_json s) "size_bytes") with (Some (jnum (ss_size_bytes s))).
  by rewrite !number_exact.
Qed.

Lemma sum_slow_json s r : small_slow s -> sum_slow wild (slow_json s) r =
  SlowStat (sl_kind r) (sl_partition r) (sl_keyspace r) (sl_filter_key r) (u64 (sl_count r + sl_count s))
    (u64 (sl_total_us r + sl_total_us s)) (Z.max (sl_max_us r) (sl_max_us s)).
Proof.
  intros (_ & _ & _ & _ & H1 & H2 & H3). unfold sum_slow, counter.
  change (get_item (slow_json s) "count") with (Some (jnum (sl_count s))).
  change (get_item (slow_json s) "total_us") with (Some (jnum (sl_total_us s))).
  change (get_item (slow_json s) "max_us") with (Some (jnum (sl_max_us s))).
  by rewrite !number_exact.
Qed.

Lemma shard_items l ss : foldl (agg_shard_item wild) l (map shard_json ss) =
  foldl (add stat_new stat_hit stat_key (fun s => sum_shard wild (shard_json s))) l ss.
Proof. revert l. induction ss as [|s ss IH]; intros l; [done|]. cbn [map foldl]. by rewrite <-IH. Qed.

Lemma slow_items l ss : foldl (agg_slow_item wild) l (map slow_json ss) =
  foldl (add slow_new slow_hit slow_key (fun s => sum_slow wild (slow_json s))) l ss.
Proof. revert l. induction ss as [|s ss IH]; intros l; [done|]. cbn [map foldl]. by rewrite <-IH. Qed.

(** The totals of the entries of one key. *)
Lemma shard_sum ss k : Forall small_shard ss -> (String.length k.1 < 256)%nat -> (String.length k.2 < 128)%nat ->
  total stat_new stat_key (fun s => sum_shard wild (shard_json s)) k ss =
    let on := filter (fun s => stat_key s = k) ss in
    ShardStat k.1 k.2 (u64 (tally ss_reads on)) (u64 (tally ss_writes on)) (u64 (tally ss_updates on)) (u64 (tally ss_deletes on))
      (u64 (tally ss_read_us on)) (u64 (tally ss_write_us on)) (peak ss_size_bytes on).
Proof.
  intros Hs H1 H2. induction ss as [|s ss IH] using rev_ind; [exact (stat_new_key k H1 H2)|].
  apply Forall_app in Hs as [Hs Hl]. apply Forall_inv in Hl. rewrite total_snoc, IH by done. cbn zeta. rewrite filter_app, filter_cons.
  destruct (decide (stat_key s = k)); [|by rewrite app_nil_r].
  rewrite sum_shard_json by done. cbn [filter list_filter ss_partition ss_keyspace ss_reads ss_writes ss_updates ss_deletes ss_read_us ss_write_us ss_size_bytes].
  rewrite !tally_snoc, !u64_step, peak_app. f_equal. change (peak ss_size_bytes [s]) with (Z.max (ss_size_bytes s) 0).
  destruct Hl as (_ & _ & _ & _ & _ & _ & _ & _ & ?). lia.
Qed.

Lemma slow_sum ss k : Forall small_slow ss -> slow_key (slow_new k) = k ->
  total slow_new slow_key (fun s => sum_slow wild (slow_json s)) k ss =
    let on := filter (fun s => slow_key s = k) ss in
    SlowStat k.1.1.1 k.1.1.2 k.1.2 k.2 (u64 (tally sl_count on)) (u64 (tally sl_total_us on)) (peak sl_max_us on).
Proof.
  intros Hs Hk. induction ss as [|s ss IH] using rev_ind.
  { destruct k as [[[kind p] ks] f]. unfold total. cbn. unfold slow_key, slow_new, new_slow in *. cbn in *. by injection Hk as -> -> -> ->. }
  apply Forall_app in Hs as [Hs Hl]. apply Forall_inv in Hl. rewrite total_snoc, IH by done. cbn zeta. rewrite filter_app, filter_cons.
  destruct (decide (slow_key s = k)); [|by rewrite app_nil_r].
  rewrite sum_slow_json by done. cbn [filter list_filter sl_kind sl_partition sl_keyspace sl_filter_key sl_count sl_total_us sl_max_us].
  rewrite !tally_snoc, !u64_step, peak_app. f_equal. change (peak sl_max_us [s]) with (Z.max (sl_max_us s) 0).
  destruct Hl as (_ & _ & _ & _ & _ & _ & ?). lia.
Qed.
End report.

(** *** Nodes *)

(** A node as its snapshot shows it. *)
Record observed := Observed {
  ob_id : string; ob_events : list event; ob_ts : Z; ob_sizes : string -> string -> Z; ob_pending : Z;
}.

Definition all_events (os : list observed) : list event := concat (map ob_events os).

Definition snapshot_of (o : observed) : json :=
  (snapshot_json (ob_ts o) (Some (ob_sizes o)) (Some (api_analytics_cluster_metrics (Some (ob_pending o))))
     (recorded (Some (ob_id o)) (ob_events o))).1.

(** Numbers that a cJSON number holds. *)
Definition observable (o : observed) : Prop :=
  Forall event_fits (ob_events o) /\ Z.of_nat (length (ob_events o)) < 2 ^ 53 /\
  tally (fun e => u64 e.2) (ob_events o) < 2 ^ 53 /\ (forall p k, ob_sizes o p k < 2 ^ 53) /\ 0 <= ob_pending o < 2 ^ 53.

(** The largest copy of a shard among the nodes that accessed it. *)
Definition largest_copy (os : list observed) (p k : string) : Z :=
  peak (fun o => if decide ((p, k) ∈ map ev_shard (ob_events o)) then ob_sizes o p k else 0) os.

Definition sized (o : observed) (k : string * string) : shard_stat := with_size (ob_sizes o) (counted (ob_events o) k).
Definition node_shards (o : observed) : list (string * string) := firsts (map ev_shard (ob_events o)).
Definition node_slow (o : observed) : list (string * string * string * string) := firsts (map ev_slow (ob_events o)).

Lemma recorded_id id es : an_node_id (recorded id es) = an_node_id (edb_analytics_start id).
Proof.
  unfold recorded. generalize (edb_analytics_start id). induction es as [|[[] us] es IH]; intros a; [done|..]; cbn [foldl]; by rewrite IH.
Qed.

Section nodes.
Context (wild : option spec_float -> Z).

Lemma snapshot_arrays o : Forall event_fits (ob_events o) ->
  snapshot_of o = JObject [("node", JString (an_node_id (edb_analytics_start (Some (ob_id o))))); ("ts", jnum (ob_ts o));
    ("shards", JArray (map shard_json (map (sized o) (node_shards o))));
    ("slow", JArray (map slow_json (map (slow_counted (ob_events o)) (node_slow o))));
    ("cluster", api_analytics_cluster_metrics (Some (ob_pending o)))].
Proof.
  intros Hf. destruct (recorded_tables (Some (ob_id o)) (ob_events o) Hf) as [H1 H2]. unfold snapshot_of, snapshot_json. cbn [fst].
  by rewrite H1, H2, recorded_id, (map_map (counted _)).
Qed.
End nodes.

(** Sums over the events of a key are sums over the nodes. *)
Section sums.
Context {K : Type} `{EqDecision K} (key : event -> K).

Lemma no_events k es : k ∉ map key es -> filter (fun e => key e = k) es = [].
Proof.
  induction es as [|e es IH]; [done|]. cbn [map]. intros [H1 H2]%not_elem_of_cons. rewrite filter_cons_False by congruence. auto.
Qed.

Lemma u64_sum a b c d : u64 a = u64 c -> u64 b = u64 d -> u64 (a + b) = u64 (c + d).
Proof. unfold u64. intros H1 H2. by rewrite Zplus_mod, H1, H2, <-Zplus_mod. Qed.

Lemma u64_u64 a : u64 (u64 a) = u64 a.
Proof. unfold u64. by rewrite Zmod_mod. Qed.

Lemma node_sums g os k :
  u64 (tally (fun o => if decide (k ∈ firsts (map key (ob_events o)))
                       then u64 (tally g (filter (fun e => key e = k) (ob_events o))) else 0) os) =
  u64 (tally g (filter (fun e => key e = k) (all_events os))).
Proof.
  induction os as [|o os IH]; [done|]. unfold all_events. cbn [map concat]. fold (all_events os). rewrite filter_app, tally_app.
  apply u64_sum; [|exact IH]. destruct (decide (k ∈ firsts (map key (ob_events o)))) as [|Hn]; [apply u64_u64|].
  rewrite elem_of_firsts in Hn. by rewrite no_events.
Qed.

Lemma node_peaks g os k : (forall e, 0 <= g e) ->
  peak (fun o => if decide (k ∈ firsts (map key (ob_events o)))
                 then peak g (filter (fun e => key e = k) (ob_events o)) else 0) os =
  peak g (filter (fun e => key e = k) (all_events os)).
Proof.
  intros Hg. induction os as [|o os IH]; [done|]. unfold all_events. cbn [map concat]. fold (all_events os).
  rewrite filter_app, peak_app, <-IH. unfold peak at 1. cbn [foldr]. f_equal.
  destruct (decide (k ∈ firsts (map key (ob_events o)))) as [|Hn]; [done|]. rewrite elem_of_firsts in Hn. by rewrite no_events.
Qed.
End sums.

Lemma tally_filter {E} (g h : E -> Z) (P : E -> Prop) `{forall e, Decision (P e)} es :
  (forall e, 0 <= g e <= h e) -> 0 <= tally g (filter P es) <= tally h es.
Proof.
  intros Hg. induction es as [|e es IH]; [done|]. rewrite filter_cons. unfold tally in *. specialize (Hg e).
  destruct (decide (P e)); cbn [foldr]; lia.
Qed.

Lemma tally_ones {E} (es : list E) : tally (fun _ => 1) es = Z.of_nat (length es).
Proof. unfold tally. induction es as [|e es IH]; [done|]. cbn [foldr length]. lia. Qed.

Lemma tally_ext {E} (g h : E -> Z) es : (forall e, g e = h e) -> tally g es = tally h es.
Proof. intros H. unfold tally. induction es as [|e es IH]; [done|]. cbn. by rewrite H, IH. Qed.

Lemma peak_ext {E} (g h : E -> Z) es : (forall e, g e = h e) -> peak g es = peak h es.
Proof. intros H. unfold peak. induction es as [|e es IH]; [done|]. cbn. by rewrite H, IH. Qed.

Lemma peak_below {E} (g : E -> Z) es b : 0 < b -> (forall e, g e < b) -> 0 <= peak g es < b.
Proof. intros Hb H. unfold peak. induction es as [|e es IH]; cbn [foldr]; [lia|]. specialize (H e). lia. Qed.

Lemma peak_tally {E} (g : E -> Z) es : (forall e, 0 <= g e) -> 0 <= peak g es <= tally g es.
Proof. intros H. unfold peak, tally. induction es as [|e es IH]; cbn [foldr]; [lia|]. specialize (H e). lia. Qed.

Lemma u64_below z : 0 <= z < 2 ^ 53 -> 0 <= u64 z < 2 ^ 53.
Proof. intros H. unfold u64. rewrite Z.mod_small; lia. Qed.

Lemma entries_small os : Forall observable os ->
  Forall small_shard (entries node_shards sized os) /\ Forall small_slow (entries node_slow (fun o => slow_counted (ob_events o)) os).
Proof.
  intros Hos. assert (Hu : forall e : event, 0 <= u64 e.2) by (intros e; apply u64_range).
  split; apply Forall_concat, Forall_map; (eapply Forall_impl; [exact Hos|]); intros o (Hf & Hn & Hus & Hsz & _); apply Forall_map, Forall_forall;
    intros k; unfold node_shards, node_slow; rewrite elem_of_firsts; intros (e & -> & He)%list_elem_of_fmap; eapply Forall_forall in Hf as [Hp Hk]; try exact He.
  - unfold small_shard, sized, with_size, counted. cbn [ss_partition ss_keyspace ss_reads ss_writes ss_updates ss_deletes ss_read_us ss_write_us ss_size_bytes].
    assert (H1 : forall g, (forall e, 0 <= g e <= 1) -> 0 <= u64 (tally g (of_shard (ev_shard e) (ob_events o))) < 2 ^ 53).
    { intros g Hg. apply u64_below. pose proof (tally_filter g (fun _ => 1) (fun e' => ev_shard e' = ev_shard e) (ob_events o) Hg) as H.
      rewrite tally_ones in H. unfold of_shard. lia. }
    assert (H2 : forall g, (forall e, 0 <= g e <= u64 e.2) -> 0 <= u64 (tally g (of_shard (ev_shard e) (ob_events o))) < 2 ^ 53).
    { intros g Hg. apply u64_below. pose proof (tally_filter g (fun e => u64 e.2) (fun e' => ev_shard e' = ev_shard e) (ob_events o) Hg) as H. unfold of_shard. lia. }
    repeat split; try exact Hp; try exact Hk;
      try (by apply H1; intros [[] ?]; unfold n_reads, n_writes, n_updates, n_deletes; cbn; try destruct update; lia);
      try (by apply H2; intros e'; specialize (Hu e'); unfold us_read, us_write; destruct (e'.1); lia);
      apply u64_below; specialize (Hsz (ev_shard e).1 (ev_shard e).2); lia.
  - assert (Hlen : (String.length (ev_slow e).1.1.1 < 16)%nat /\ (String.length (ev_slow e).1.1.2 < 256)%nat /\
      (String.length (ev_slow e).1.2 < 128)%nat /\ (String.length (ev_slow e).2 < 256)%nat).
    { unfold ev_slow, ev_shard in *. destruct (e.1); cbn [fst snd] in *; repeat split; try done; try (by apply Nat.ltb_lt).
      by apply join_fits, Nat.ltb_lt. }
    destruct Hlen as (L1 & L2 & L3 & L4). unfold small_slow, slow_counted.
    cbn [sl_kind sl_partition sl_keyspace sl_filter_key sl_count sl_total_us sl_max_us].
    pose proof (tally_filter (fun e => u64 e.2) (fun e => u64 e.2) (fun e' => ev_slow e' = ev_slow e) (ob_events o) ltac:(intros e'; specialize (Hu e'); lia)) as Ht.
    pose proof (peak_tally (fun e => u64 e.2) (of_slow (ev_slow e) (ob_events o)) Hu) as Hpk.
    pose proof (tally_filter (fun _ => 1) (fun _ => 1) (fun e' => ev_slow e' = ev_slow e) (ob_events o) ltac:(lia)) as Hc.
    rewrite !tally_ones in Hc. unfold of_slow in *.
    repeat split; try done; try (by apply u64_below; lia); lia.
Qed.

Lemma copies_peak os k : Forall observable os ->
  peak (fun o => if decide (k ∈ node_shards o) then ss_size_bytes (sized o k) else 0) os = u64 (Z.max 0 (largest_copy os k.1 k.2)).
Proof.
  intros Hos. assert (H : peak (fun o => if decide (k ∈ node_shards o) then ss_size_bytes (sized o k) else 0) os = largest_copy os k.1 k.2 /\
    0 <= largest_copy os k.1 k.2 < 2 ^ 53).
  { unfold largest_copy, peak. destruct k as [p k]. cbn [fst snd]. induction Hos as [|o os (_ & _ & _ & Hsz & _) _ [IH1 IH2]]; [done|]. cbn [foldr]. rewrite IH1.
    specialize (Hsz p k). destruct (decide ((p, k) ∈ map ev_shard (ob_events o))) as [Hin|Hin].
    - rewrite decide_True by (unfold node_shards; by rewrite elem_of_firsts). unfold sized, with_size, counted. cbn [ss_partition ss_keyspace ss_size_bytes fst snd].
      unfold u64. rewrite Z.mod_small by lia. lia.
    - rewrite decide_False by (unfold node_shards; by rewrite elem_of_firsts). lia. }
  destruct H as [-> H]. unfold u64. rewrite Z.mod_small by lia. lia.
Qed.

(** The keys of the entries are those of the events. *)
Lemma all_keys {K} `{EqDecision K} (key : event -> K) os :
  firsts (concat (map (fun o => firsts (map key (ob_events o))) os)) = firsts (map key (all_events os)).
Proof.
  rewrite <-(map_map (fun o => map key (ob_events o)) firsts), firsts_concat. unfold all_events. by rewrite concat_map, map_map.
Qed.

Lemma all_fit os e : Forall observable os -> e ∈ all_events os -> event_fits e.
Proof.
  intros Hos He. apply list_elem_of_In, in_concat in He as (es & Hes & He). apply in_map_iff in Hes as (o & <- & Ho).
  eapply List.Forall_forall in Hos as (Hf & _); [|exact Ho]. by eapply List.Forall_forall in Hf; [|exact He].
Qed.

Section main.
Context (wild : option spec_float -> Z).

Lemma merged_shards os : Forall observable os ->
  foldl (agg_shard_item wild) [] (map shard_json (entries node_shards sized os)) =
  map (with_size (largest_copy os)) (map (counted (all_events os)) (firsts (map ev_shard (all_events os)))).
Proof.
  intros Hos. destruct (entries_small os Hos) as [Hs _]. rewrite shard_items.
  rewrite (grouped stat_key stat_new stat_hit stat_key _ small_shard stat_hit_key); [| |done|done].
  2: { intros s (H1 & H2 & _). by rewrite stat_new_key. }
  rewrite (entries_keys stat_key node_shards sized) by (by intros ? []). unfold node_shards at 2. rewrite all_keys, map_map.
  apply map_ext_in. intros k Hk%list_elem_of_In. rewrite elem_of_firsts in Hk. apply list_elem_of_fmap in Hk as (e & -> & He).
  destruct (all_fit os e Hos He) as [H1 H2]. rewrite shard_sum by done. cbn zeta.
  rewrite !(tally_entries stat_key node_shards sized) by (first [by intros ? []|intros; apply NoDup_firsts]).
  rewrite (peak_entries stat_key node_shards sized); [|by intros ? []|intros; apply NoDup_firsts|intros; apply u64_range].
  rewrite copies_peak by done. unfold with_size, counted at 1.
  cbn [ss_partition ss_keyspace ss_reads ss_writes ss_updates ss_deletes ss_read_us ss_write_us ss_size_bytes].
  f_equal; [exact (node_sums ev_shard n_reads os _)|exact (node_sums ev_shard n_writes os _)|exact (node_sums ev_shard n_updates os _)|
    exact (node_sums ev_shard n_deletes os _)|exact (node_sums ev_shard us_read os _)|exact (node_sums ev_shard us_write os _)].
Qed.

Lemma slow_new_event e : event_fits e -> slow_key (slow_new (ev_slow e)) = ev_slow e.
Proof. intros H. rewrite slow_new_key by done. by destruct (ev_slow e) as [[[] ?] ?]. Qed.

Lemma merged_slow os : Forall observable os ->
  foldl (agg_slow_item wild) [] (map slow_json (entries node_slow (fun o => slow_counted (ob_events o)) os)) =
  map (slow_counted (all_events os)) (firsts (map ev_slow (all_events os))).
Proof.
  intros Hos. destruct (entries_small os Hos) as [_ Hs]. rewrite slow_items.
  rewrite (grouped slow_key slow_new slow_hit slow_key _ small_slow slow_hit_key); [| |done|done].
  2: { intros s (H1 & H2 & H3 & H4 & _). unfold slow_key, slow_new, new_slow. cbn [sl_kind sl_partition sl_keyspace sl_filter_key fst snd]. by rewrite !HttpFacts.snprintf_short. }
  assert (Hkey : forall o k, slow_key (slow_counted (ob_events o) k) = k) by (by intros ? [[[] ?] ?]).
  assert (Hdup : forall o, NoDup (node_slow o)) by (intros; apply NoDup_firsts).
  rewrite (entries_keys slow_key node_slow) by done. unfold node_slow at 2. rewrite all_keys.
  apply map_ext_in. intros k Hk%list_elem_of_In. rewrite elem_of_firsts in Hk. apply list_elem_of_fmap in Hk as (e & -> & He).
  rewrite slow_sum; [|done|by apply slow_new_event, (all_fit os)]. cbn zeta.
  assert (Hu : forall e : event, 0 <= u64 e.2) by (intros ?; apply u64_range).
  rewrite !(tally_entries slow_key node_slow) by done.
  rewrite (peak_entries slow_key node_slow); [|done|done|intros; by apply peak_tally].
  unfold slow_counted. cbn zeta. cbn [sl_count sl_total_us sl_max_us]. f_equal.
  - transitivity (u64 (tally (fun _ => 1) (of_slow (ev_slow e) (all_events os)))); [|by rewrite tally_ones].
    etransitivity; [|exact (node_sums ev_slow (fun _ => 1) os _)]. f_equal. apply tally_ext. intros o. by rewrite tally_ones.
  - exact (node_sums ev_slow (fun e => u64 e.2) os _).
  - exact (node_peaks ev_slow (fun e => u64 e.2) os _ Hu).
Qed.

Definition node_name (o : observed) : string := an_node_id (edb_analytics_start (Some (ob_id o))).

Lemma pending_number o : 0 <= ob_pending o < 2 ^ 53 ->
  counter wild (api_analytics_cluster_metrics (Some (ob_pending o))) "pending_changes" = ob_pending o.
Proof. exact (number_exact wild (ob_pending o)). Qed.

Lemma aggregate_run r os x : Forall observable os -> r_pending r = u64 x ->
  foldl (agg_snapshot wild) r (map snapshot_of os) =
  Report (r_nodes r ++ map node_name os)
    (foldl (agg_shard_item wild) (r_shards r) (map shard_json (entries node_shards sized os)))
    (foldl (agg_slow_item wild) (r_slow r) (map slow_json (entries node_slow (fun o => slow_counted (ob_events o)) os)))
    (u64 (x + tally ob_pending os)).
Proof.
  intros Hos. revert r x. induction Hos as [|o os (Hf & _ & _ & _ & Hp) _ IH]; intros r x Hx.
  - destruct r. cbn in *. by rewrite Hx, app_nil_r, Z.add_0_r.
  - cbn [map foldl]. rewrite (IH _ (x + ob_pending o)).
    + rewrite snapshot_arrays by done. unfold entries. cbn [map concat]. rewrite !map_app, !foldl_app.
      change (tally ob_pending (o :: os)) with (ob_pending o + tally ob_pending os). rewrite Z.add_assoc.
      change (node_name o :: map node_name os) with ([node_name o] ++ map node_name os). by rewrite app_assoc.
    + rewrite snapshot_arrays by done. unfold agg_snapshot. cbn [is_object negb r_pending].
      change (get_item _ "cluster") with (Some (api_analytics_cluster_metrics (Some (ob_pending o)))). cbn [is_object api_analytics_cluster_metrics].
      rewrite (pending_number o Hp), Hx. apply u64_step.
Qed.
End main.

(** C30: The report over the snapshots of the nodes, in whatever order
    they are listed, shows every event of every node exactly once: it is the
    tables that one recorder would hold that had seen all the events, with
    the largest copy of each shard as its size, and the sum of the pending
    changes. (Counts and times below 2^53, the integers a cJSON number
    holds.) *)
Theorem report_is_one_recorder wild os (Hos : Forall observable os) (one := recorded None (all_events os)) :
  aggregate wild (Some (JArray (map snapshot_of os))) =
    Report (map node_name os) (map (with_size (largest_copy os)) (an_shards one)) (an_slow one) (u64 (tally ob_pending os)).
Proof.
  unfold aggregate. cbn [array_items]. rewrite (aggregate_run wild _ os 0) by done. cbn [r_nodes r_shards r_slow app].
  rewrite merged_shards, merged_slow by done. subst one.
  destruct (recorded_tables None (all_events os)) as [-> ->]; [|done].
  apply Forall_forall. intros e He. by apply (all_fit os).
Qed.

Definition two_nodes : list observed :=
  [Observed "a" some_events 100 (fun _ _ => 4096) 2; Observed "b" [(AnRead "p" "ks", 9)] 101 (fun _ _ => 8192) 1].

Lemma two_nodes_observable : Forall observable two_nodes.
Proof.
  repeat constructor; try apply some_events_fit; try (by apply Nat.ltb_lt); try (by vm_compute); try (intros; by vm_compute).
Qed.

Lemma report_is_one_recorder_witness :
  r_shards (aggregate (fun _ => 0) (Some (JArray (map snapshot_of two_nodes)))) =
    [ShardStat "p" "ks" 2 2 1 0 16 50 8192; ShardStat "p" "other" 2 0 0 0 90 0 4096].
Proof.
  pose proof (report_is_one_recorder (fun _ => 0) two_nodes two_nodes_observable) as H. rewrite H.
  vm_compute. reflexivity.
Defined.

(** ** Names that do not fit *)

Section long_names.
Context (p k : string) (Hlong : (256 <= String.length p)%nat).

Lemma cut_name : snprintf 256 p <> p.
Proof. intros H. pose proof (HttpFacts.length_snprintf 256 p) as Hl. rewrite H in Hl. apply Nat.lt_nge in Hl; [done|]. by apply Nat.ltb_lt. Qed.

Lemma add_cut_shard f l : Forall (fun s => ss_partition s = snprintf 256 p) l ->
  find_shard p k f l = l ++ [f (new_stat p k)].
Proof using Hlong.
  unfold find_shard. induction 1 as [|s l Hs _ IH]; [done|]. cbn [update_stat app].
  unfold is_stat at 1. destruct (String.eqb_spec (ss_partition s) p) as [E|_]; [by destruct cut_name; congruence|].
  cbn [andb]. by rewrite IH.
Qed.

Lemma add_cut_slow kind f l : Forall (fun s => sl_partition s = snprintf 256 p) l ->
  find_slow kind p k "" f l = l ++ [f (new_slow kind p k "")].
Proof using Hlong.
  unfold find_slow. induction 1 as [|s l Hs _ IH]; [done|]. cbn [update_stat app].
  unfold is_slow at 1. destruct (String.eqb_spec (sl_partition s) p) as [E|_]; [by destruct cut_name; congruence|].
  rewrite andb_false_r. cbn [andb]. by rewrite IH.
Qed.

(** An access to a partition whose name does not fit its entry is
    never found again: each one adds another entry to both tables, under the
    same cut name, so that repeating one access makes the tables, and with
    them every snapshot, grow without bound. *)
Theorem long_names_accumulate id us n (es := repeat (AnRead p k, us) n) :
  length (an_shards (recorded id es)) = n /\ length (an_slow (recorded id es)) = n /\
  Forall (fun s => ss_partition s = snprintf 256 p) (an_shards (recorded id es)).
Proof using Hlong.
  assert (H : an_shards (recorded id es) = repeat (add_read us (new_stat p k)) n /\
              an_slow (recorded id es) = repeat (add_slow us (new_slow "read" p k "")) n).
  { subst es. induction n as [|m IH]; [done|]. destruct IH as [H1 H2].
    replace (repeat (AnRead p k, us) (S m)) with (repeat (AnRead p k, us) m ++ [(AnRead p k, us)]) by (symmetry; apply repeat_cons).
    unfold recorded in *. rewrite foldl_app. cbn [foldl record_event]. unfold edb_analytics_record_read, record_slow_locked, record_read_locked, record_shard.
    cbn [an_shards an_slow]. rewrite H1, H2, add_cut_shard, add_cut_slow, <-!repeat_cons; [done|..]; apply Forall_forall; intros s Hs;
      apply list_elem_of_In, repeat_spec in Hs as ->; done. }
  destruct H as [-> ->]. rewrite !repeat_length. split; [done|]. split; [done|]. apply Forall_forall. intros s Hs.
  by apply list_elem_of_In, repeat_spec in Hs as ->.
Qed.
End long_names.

Definition long_name : string := String.concat "" (repeat "0123456789abcdef" 20).

Lemma long_names_accumulate_witness :
  length (an_shards (recorded None (repeat (AnRead long_name "ks", 5) 3))) = 3%nat.
Proof. exact (proj1 (long_names_accumulate long_name "ks" ltac:(by apply Nat.leb_le; vm_compute) None 5 3)). Defined.

(** ** The largest shards, the thread *)

(** Of the shards of a report, ten that no other is larger than. *)
Lemma largest_shards_are (r : report_state) : exists rest,
  let listed := take 10 (merge_sort larger_first (r_shards r)) in
  listed ++ rest ≡ₚ r_shards r /\ length listed = Nat.min 10 (length (r_shards r)) /\
  (forall s s', s ∈ listed -> s' ∈ rest -> ss_size_bytes s' <= ss_size_bytes s).
Proof.
  exists (drop 10 (merge_sort larger_first (r_shards r))). cbn zeta. rewrite take_drop. split; [apply merge_sort_Permutation|].
  rewrite length_take, (Permutation_length (merge_sort_Permutation larger_first (r_shards r))). split; [done|].
  assert (Ht : Transitive larger_first) by (intros x y z; unfold larger_first; lia).
  assert (Hto : Total larger_first) by (intros x y; unfold larger_first; lia).
  pose proof (StronglySorted_merge_sort larger_first (r_shards r)) as H. rewrite <-(take_drop 10 (merge_sort larger_first (r_shards r))) in H.
  intros s s' Hs Hs'. revert H Hs. generalize (take 10 (merge_sort larger_first (r_shards r))). intros l H Hs.
  induction l as [|x l IH]; [by apply not_elem_of_nil in Hs|]. cbn [app] in H. inversion_clear H as [|?? Hl Hx].
  apply elem_of_cons in Hs as [->|Hs]; [|by apply IH]. eapply Forall_forall in Hx; [exact Hx|]. set_solver.
Qed.

(** The seconds until it is stopped. *)
Fixpoint running_ticks (ticks : list bool) : nat := match ticks with true :: ticks => S (running_ticks ticks) | _ => O end.
Fixpoint run_times {T} (m : st T unit) (n : nat) : st T unit := match n with O => mret tt | S n => _ ← m; run_times m n end.

(** One flush for every ten seconds. *)
Lemma flush_every_ten_seconds {T} (flush : st T unit) ticks i s : (i < 10)%nat ->
  (flush_thread_main flush ticks i s).2 = (run_times flush ((i + running_ticks ticks) / 10) s).2.
Proof.
  revert i s. induction ticks as [|[] ticks IH]; intros i s Hi; cbn [flush_thread_main running_ticks].
  - rewrite Nat.add_0_r, Nat.div_small by done. done.
  - destruct (Nat.eqb_spec (S i) EDB_ANALYTICS_FLUSH_SECS) as [E|Hne]; unfold EDB_ANALYTICS_FLUSH_SECS in *.
    + replace (i + S (running_ticks ticks))%nat with (1 * 10 + running_ticks ticks)%nat by lia. rewrite Nat.div_add_l by lia.
      cbn [run_times Nat.add]. rewrite !st_bind_run. rewrite IH by lia. done.
    + rewrite IH by lia. do 3 f_equal. lia.
  - rewrite Nat.add_0_r, Nat.div_small by done. done.
Qed.

End AnalyticsFacts.
