(* ===== verification/Lua.v ===== *)
(** src/lua/epsilon_lua.c: scripts on events. Lua is an interface: a script is
    the calls it makes into the program, with what it does on each answer,
    until it returns or raises an error; compiling gives such scripts. Values
    cross in trees, a table being its entries in the order [lua_next] visits
    them. Cyclic tables, metatables, the log and the functions of [date] (an
    argument) are not modelled. *)

From S2P Require Import Prelude Json Shard Store Config Wire Cluster Repl ReplHandlers EqlExec Http Api.
From Stdlib Require Import SpecFloat.

Module Lua.

Import Json Shard Store Config Wire Cluster Repl ReplHandlers EqlExec Http Api.

#[local] Set Warnings "-register-all".

(** ** Values *)

(** [LNull] is the light userdata that stands for the JSON null, [LOther] a
    function, a thread or a full userdata. *)
Inductive lua_value :=
| LNil
| LBool (b : bool)
| LInteger (z : Z)
| LNumber (d : spec_float)
| LString (s : string)
| LNull
| LTable (entries : list (lua_value * lua_value))
| LOther (typename : string).

(** What a call is answered: a value, or an error the script can catch.
    [Never] is a call that does not return; no script sees it. *)
Inductive answer := Answer (v : lua_value) | Raised (msg : string) | Never.

(** A script that returns an [A]. It ends: the watchdog bounds its steps. *)
Inductive script (A : Type) :=
| Ret (a : A)
| Raise (msg : string)
| Call (f : string) (args : list lua_value) (k : answer -> script A).
Arguments Ret {A}.
Arguments Raise {A}.
Arguments Call {A}.

(** The interpreter (vendor/lua): the order in which the entries of a table
    are visited, numbers as text, compiling a chunk to the script that defines
    its globals, and the functions among these. *)
Class LuaVM := {
  arrange : list (lua_value * lua_value) -> list (lua_value * lua_value);
  number_text : lua_value -> string;
  globals : Type;
  sandbox_globals : globals;
  load_code : string -> script globals + string;
  global_function : globals -> string -> option (lua_value -> lua_value -> script lua_value);
}.

Class LuaVMLaws (V : LuaVM) := {
  arrange_perm l : arrange l ≡ₚ l;
}.

Definition EDB_LUA_MAX_DEPTH : nat := 32.

Definition is_nil (v : lua_value) : bool := match v with LNil => true | _ => false end.
Definition is_table (v : lua_value) : bool := match v with LTable _ => true | _ => false end.

(** ** Event names *)

Definition edb_lua_event_name (event : edb_lua_event) : string :=
  match event with
  | EDB_LUA_BEFORE_INSERT => "beforeInsert"
  | EDB_LUA_AFTER_INSERT => "afterInsert"
  | EDB_LUA_BEFORE_UPDATE => "beforeUpdate"
  | EDB_LUA_AFTER_UPDATE => "afterUpdate"
  | EDB_LUA_BEFORE_DELETE => "beforeDelete"
  | EDB_LUA_AFTER_DELETE => "afterDelete"
  end.

Definition edb_lua_event_parse (name : string) : option edb_lua_event :=
  if String.eqb name "beforeInsert" then Some EDB_LUA_BEFORE_INSERT
  else if String.eqb name "afterInsert" then Some EDB_LUA_AFTER_INSERT
  else if String.eqb name "beforeUpdate" then Some EDB_LUA_BEFORE_UPDATE
  else if String.eqb name "afterUpdate" then Some EDB_LUA_AFTER_UPDATE
  else if String.eqb name "beforeDelete" then Some EDB_LUA_BEFORE_DELETE
  else if String.eqb name "afterDelete" then Some EDB_LUA_AFTER_DELETE
  else None.

(** [None] when it does not fit. *)
Definition edb_lua_action_name (cap : nat) (database partition keyspace : string) (event : edb_lua_event) : option string :=
  let name := database +:+ "_" +:+ partition +:+ "_" +:+ keyspace +:+ "_" +:+ edb_lua_event_name event in
  if (String.length name <? cap)%nat then Some name else None.

(** [NoValue] is the NULL without an error; an error leaves the depth counter
    of the session where it is; [Endless] is a traversal that never ends. *)
Inductive converted (A : Type) := Converted (j : A) | NoValue | Failed (msg : string) (depth : nat) | Endless.
Arguments Converted {A}.
Arguments NoValue {A}.
Arguments Failed {A}.
Arguments Endless {A}.

(** ** From JSON *)

Section vm.
Context {V : LuaVM}.

Definition table (entries : list (lua_value * lua_value)) : lua_value := LTable (arrange entries).

(** [lua_setfield] on the entries in the order they were made. *)
Fixpoint set_field (name : string) (v : lua_value) (l : list (lua_value * lua_value)) : list (lua_value * lua_value) :=
  match l with
  | [] => if is_nil v then [] else [(LString name, v)]
  | (LString n, w) :: l =>
      if String.eqb n name then (if is_nil v then l else (LString n, v) :: l) else (LString n, w) :: set_field name v l
  | e :: l => e :: set_field name v l
  end.

Definition set_fields (fields : list (string * lua_value)) : list (lua_value * lua_value) :=
  foldl (fun l f => set_field f.1 f.2 l) [] fields.

(** [lua_rawseti] from [i] on; a nil makes no entry. *)
Fixpoint index_from (i : Z) (vs : list lua_value) : list (lua_value * lua_value) :=
  match vs with
  | [] => []
  | v :: vs => (if is_nil v then [] else [(LInteger i, v)]) ++ index_from (i + 1) vs
  end.

Definition push_number (d : spec_float) : lua_value :=
  if SFleb (double_of_Z (- 2 ^ 53)) d && SFleb d (double_of_Z (2 ^ 53 - 1)) && SFeqb d (double_of_Z (Z_of_double d))
  then LInteger (Z_of_double d) else LNumber d.

Fixpoint push_json (depth : nat) (v : json) : lua_value :=
  if (EDB_LUA_MAX_DEPTH <? depth)%nat then LNil
  else
    match v with
    | JNull => LNull
    | JBool b => LBool b
    | JNumber d => push_number d
    | JString s => LString s
    | JArray l => table (index_from 1 (map (push_json (S depth)) l))
    | JObject ms => table (set_fields (map (fun m => (m.1, push_json (S depth) m.2)) ms))
    end.

(** ** To JSON *)

Definition array_key (k : lua_value) : option Z :=
  match k with LInteger z => if (1 <=? z) && (z <=? 2 ^ 24) then Some z else None | _ => None end.

(** The largest index when all keys are indices. *)
Fixpoint array_length (entries : list (lua_value * lua_value)) : option Z :=
  match entries with
  | [] => Some 0
  | (k, _) :: entries =>
      match array_key k, array_length entries with Some z, Some n => Some (Z.max z n) | _, _ => None end
  end.

Definition value_at {A} (default : A) (items : list (lua_value * A)) (i : Z) : A :=
  match list_find (fun e => array_key e.1 = Some i) items with Some (_, e) => e.2 | None => default end.

Fixpoint all_converted (l : list (converted json)) : converted (list json) :=
  match l with
  | [] => Converted []
  | Converted j :: l =>
      match all_converted l with Converted js => Converted (j :: js) | NoValue => NoValue | Failed m d => Failed m d | Endless => Endless end
  | NoValue :: _ => NoValue
  | Failed m d :: _ => Failed m d
  | Endless :: _ => Endless
  end.

(** The key as [lua_tolstring] gives it, and the entries that [lua_next]
    visits after it: a number is replaced by its text, from which the
    traversal goes on if there is such a key, and raises an error if not. *)
Definition key_text (k : lua_value) : option string :=
  match k with
  | LString s => Some s
  | LInteger _ | LNumber _ => Some (number_text k)
  | _ => None
  end.

Fixpoint after_key {A} (name : string) (all : list (lua_value * A)) : option (list (lua_value * A)) :=
  match all with
  | [] => None
  | (LString s, _) :: rest => if String.eqb s name then Some rest else after_key name rest
  | _ :: rest => after_key name rest
  end.

Definition is_id (k : lua_value) : bool := match k with LString s => String.eqb s "id" | _ => false end.

(** The members of an object: the traversal visits at most as many entries as
    there are, or for ever. An entry is its key, its value and the value
    converted; [skip_id] leaves out the field id. [depth] is the counter while
    the keys are visited. *)
Fixpoint object_members (fuel : nat) (skip_id : bool) (depth : nat) (all rest : list (lua_value * (lua_value * converted json)))
    : converted (list (string * json)) :=
  match fuel with
  | O => Endless
  | S fuel =>
      match rest with
      | [] => Converted []
      | (k, (v, c)) :: rest =>
          if is_nil v || skip_id && is_id k then object_members fuel skip_id depth all rest
          else
            match c with
            | Failed m d => Failed m d
            | Endless => Endless
            | NoValue => NoValue
            | Converted j =>
                match key_text k with
                | None => NoValue
                | Some name =>
                    let next := match k with LString _ => Some rest | _ => after_key name all end in
                    match next with
                    | None => Failed "invalid key to 'next'" depth
                    | Some rest =>
                        match object_members fuel skip_id depth all rest with
                        | Converted ms => Converted ((name, j) :: ms)
                        | r => r
                        end
                    end
                end
            end
      end
  end.

Definition as_document (c : converted (list (string * json))) : converted json :=
  match c with Converted ms => Converted (JObject ms) | NoValue => NoValue | Failed m d => Failed m d | Endless => Endless end.

Fixpoint lua_to_json (depth : nat) (v : lua_value) : converted json :=
  if (EDB_LUA_MAX_DEPTH <? depth)%nat then Failed "value nested too deeply" depth
  else
    match v with
    | LNil | LNull => Converted JNull
    | LBool b => Converted (JBool b)
    | LInteger z => Converted (JNumber (double_of_Z z))
    | LNumber d => Converted (JNumber d)
    | LString s => Converted (JString s)
    | LOther t => Failed ("unsupported value type '" +:+ t +:+ "' in entity") (S depth)
    | LTable entries =>
        match array_length entries with
        | Some n =>
            let items := map (fun e => (e.1, lua_to_json (S depth) e.2)) entries in
            match all_converted (map (fun i => value_at (Converted JNull) items (Z.of_nat i)) (seq 1 (Z.to_nat n))) with
            | Converted js => Converted (JArray js)
            | NoValue => NoValue
            | Failed m d => Failed m d
            | Endless => Endless
            end
        | None =>
            let items := map (fun e => (e.1, (e.2, lua_to_json (S depth) e.2))) entries in
            as_document (object_members (S (length items)) false (S depth) items items)
        end
    end.

(** A copy of the table without the field id is converted. *)
Definition returned_entity_to_doc (depth : nat) (v : lua_value) : converted json :=
  match v with
  | LTable entries => lua_to_json depth (table (List.filter (fun e => negb (is_id e.1 || is_nil e.2)) entries))
  | _ => NoValue
  end.

(** The loop of [put]. *)
Definition entity_members (depth : nat) (entries : list (lua_value * lua_value)) : converted json :=
  let items := map (fun e => (e.1, (e.2, lua_to_json depth e.2))) entries in
  as_document (object_members (S (length items)) true depth items items).

(** A document with its id, as [get] and [query] give it. *)
Definition push_doc_with_id (id : option string) (doc : option json) : lua_value :=
  match doc with
  | None => LNil
  | Some doc =>
      match push_json 0 doc, id with
      | LTable entries, Some id => table (set_field "id" (LString id) entries)
      | v, _ => v
      end
  end.
End vm.

(** ** Sessions and the library of scripts *)

Record edb_lua_session := LuaSession {
  in_event : bool; rolled_back : bool; rollback_reason : string; convert_depth : nat;
}.
Record lua_state (S : Type) := LuaState { ls_session : edb_lua_session; ls_store : S }.
Arguments LuaState {S}.
Arguments ls_session {S}.
Arguments ls_store {S}.

(** An event: where, by whom, and the document the caller holds. *)
Record edb_lua_event_arg := LuaArg {
  la_database : string; la_partition : string; la_keyspace : string; la_id : string;
  la_user_groups : Z; la_trusted : bool;
}.

Definition in_store {S A} (m : st S A) : st (lua_state S) A := fun s =>
  let '(a, x) := m (ls_store s) in (a, LuaState (ls_session s) x).
Definition session {S A} (f : edb_lua_session -> A) : st (lua_state S) A := fun s => (f (ls_session s), s).
Definition update_session {S} (f : edb_lua_session -> edb_lua_session) : st (lua_state S) unit := fun s =>
  (tt, LuaState (f (ls_session s)) (ls_store s)).

Definition with_depth (d : nat) (s : edb_lua_session) : edb_lua_session :=
  LuaSession (in_event s) (rolled_back s) (rollback_reason s) d.
Definition enter_event (s : edb_lua_session) : edb_lua_session :=
  LuaSession true (rolled_back s) (rollback_reason s) (convert_depth s).
Definition roll_back (reason : option string) (s : edb_lua_session) : edb_lua_session :=
  LuaSession (in_event s) true (match reason with Some r => snprintf 512 r | None => rollback_reason s end) (convert_depth s).

(** How a protected call ends. *)
Inductive outcome (A : Type) := Returned (a : A) | Error (msg : string) | Stuck.
Arguments Returned {A}.
Arguments Error {A}.
Arguments Stuck {A}.

Section library.
Context {V : LuaVM} {S : Type} `{RecordStore S} `{JsonCodec} `{DataEngine S} `{LocalWrites S}.
Context (cfg : edb_config S) (repl : option (api_repl S)) (cluster : option edb_cluster) (pending : st S Z) (now : Z).
Context (arg : edb_lua_event_arg).

Abbreviation lst := (st (lua_state S)).

Definition BAD_ARGUMENT : string := "bad argument".
Definition argument (args : list lua_value) (i : nat) : lua_value := default LNil (args !! i).

(** [luaL_checkstring]. *)
Definition check_string (v : lua_value) : option string :=
  match v with LString s => Some s | LInteger _ | LNumber _ => Some (number_text v) | _ => None end.

Definition with_names (args : list lua_value) (k : string -> string -> lst answer) : lst answer :=
  match check_string (argument args 0), check_string (argument args 1) with
  | Some partition, Some keyspace => k partition keyspace
  | _, _ => mret (Raised BAD_ARGUMENT)
  end.

Definition lua_check_partition_perm (partition : string) (perm : edb_permission) : st S bool :=
  if la_trusted arg then mret true
  else
    info ← edb_partition_get (la_database arg) partition;
    mret (match info with Some i => edb_check_perm (mask_of perm i) (la_user_groups arg) | None => true end).

Definition permitted (partition : string) (perm : edb_permission) (word : string) (k : lst answer) : lst answer :=
  ok ← in_store (lua_check_partition_perm partition perm);
  if ok : bool then k else mret (Raised ("permission denied " +:+ word +:+ " '" +:+ partition +:+ "'")).

Definition lua_fetch_doc (partition keyspace id : string) : st S (option json) := get_doc partition keyspace id.

(** Whether it was written, and whether a quorum was lost. *)
Definition lua_write_change (partition keyspace id : string) (value : option json) : st S (bool * bool) :=
  r ← match repl with
      | Some r =>
          status ← svc_write (ar_service r) (la_database arg)
            (json_print (JObject (match value with
                                  | Some v => [("op", JString "put"); ("value", v); ("ttl_abs", jnum (-1))]
                                  | None => [("op", JString "delete")]
                                  end ++
                                  [("db", JString (la_database arg)); ("partition", JString partition);
                                   ("keyspace", JString keyspace); ("id", JString id); ("ts", jnum now); ("lua", JBool true)])));
          mret (match status with EDB_REPL_OK => true | _ => false end,
                match status with EDB_REPL_QUORUM_LOST => true | _ => false end)
      | None =>
          ok ← match value with
               | Some v => eng_put partition keyspace id (json_print v) (-1)
               | None => eng_delete partition keyspace id
               end;
          mret (ok, false)
      end;
  _ ← (if r.1 : bool then edb_partition_ensure cfg (la_database arg) partition keyspace else mret (false, false));
  mret r.

(** With replication the field [value] of what the quorum read gives. *)
Definition lua_std_get (args : list lua_value) : lst answer :=
  with_names args (fun partition keyspace =>
    match check_string (argument args 2) with
    | None => mret (Raised BAD_ARGUMENT)
    | Some id =>
        permitted partition EDB_PERM_READ "reading"
          (doc ← in_store (match repl with
                           | Some r =>
                               row ← ar_read_get r (la_database arg) partition keyspace id;
                               mret (row ≫= fun row => get_item row "value")
                           | None => lua_fetch_doc partition keyspace id
                           end);
           mret (Answer (push_doc_with_id (Some id) doc)))
    end).

(** The filters a script passes. *)
Definition script_filters (v : lua_value) (k : option json -> lst answer) : lst answer :=
  if is_nil v then k None
  else
    depth ← session convert_depth;
    match lua_to_json depth v with
    | Failed msg d => _ ← update_session (with_depth d); mret (Raised msg)
    | Converted f => if edb_filters_valid (Some f) then k (Some f) else mret (Raised "invalid filters")
    | NoValue => mret (Answer LNil)
    | Endless => mret Never
    end.

Definition row_value (row : json) : lua_value := push_doc_with_id (get_string row "id") (get_item row "value").

Definition lua_std_query (args : list lua_value) : lst answer :=
  with_names args (fun partition keyspace =>
    permitted partition EDB_PERM_READ "reading"
      (script_filters (argument args 2) (fun filters =>
         rows ← in_store (match repl with
                          | Some r => svc_query_meta (ar_service r) (la_database arg) partition keyspace filters
                          | None => query_ts partition keyspace filters
                          end);
         mret (Answer (table (index_from 1 (map row_value (array_items rows)))))))).

Definition lua_std_count (args : list lua_value) : lst answer :=
  with_names args (fun partition keyspace =>
    permitted partition EDB_PERM_READ "reading"
      (ids ← in_store (match repl with
                       | Some r => ar_read_ids r (la_database arg) partition keyspace None
                       | None => ids_of partition keyspace None
                       end);
       mret (Answer (LInteger (Z.of_nat (length (default [] ids))))))).

(** The answer to a write. *)
Definition written (word : string) (r : bool * bool) : answer :=
  if r.2 then Raised ("quorum unavailable: " +:+ word +:+ " rejected") else Answer (LBool r.1).

Definition lua_std_put (args : list lua_value) : lst answer :=
  with_names args (fun partition keyspace =>
    match check_string (argument args 2), argument args 3 with
    | Some id, LTable entries =>
        existing ← in_store (lua_fetch_doc partition keyspace id);
        permitted partition (match existing with Some _ => EDB_PERM_UPDATE | None => EDB_PERM_CREATE end) "writing"
          (depth ← session convert_depth;
           match entity_members depth entries with
           | Failed msg d => _ ← update_session (with_depth d); mret (Raised msg)
           | NoValue => mret (Answer LNil)
           | Endless => mret Never
           | Converted doc =>
               r ← in_store (lua_write_change partition keyspace id (Some doc));
               mret (written "write" r)
           end)
    | _, _ => mret (Raised BAD_ARGUMENT)
    end).

Definition lua_std_remove (args : list lua_value) : lst answer :=
  with_names args (fun partition keyspace =>
    match check_string (argument args 2) with
    | None => mret (Raised BAD_ARGUMENT)
    | Some id =>
        permitted partition EDB_PERM_DELETE "deleting"
          (r ← in_store (lua_write_change partition keyspace id None);
           mret (written "delete" r))
    end).

Definition lua_std_rollback (args : list lua_value) : lst answer :=
  live ← session in_event;
  if negb live then mret (Raised "rollback() called outside an active event")
  else
    let reason := if is_nil (argument args 0) then Some "rejected by script"%string else check_string (argument args 0) in
    _ ← update_session (roll_back reason);
    mret (match reason with Some _ => Answer LNil | None => Raised BAD_ARGUMENT end).

Definition lua_std_cluster : lst answer :=
  pend ← in_store (match repl with Some _ => pending | None => mret 0 end);
  let '(node, leader, members) :=
    match cluster with
    | Some cl => (self_id cl, default "" (edb_cluster_leader cl), Z.max 1 (Z.of_nat (length (edb_cluster_peers cl 256))))
    | None => ("", "", 1)
    end in
  mret (Answer (table (set_fields [("node_id", LString node); ("leader", LString leader); ("member_count", LInteger members);
                                   ("pending_changes", LInteger pend)]))).

(** *** Running a script *)

(** The functions of [date], over the calendar of the C library. *)
Context (dates : string -> list lua_value -> answer).

Definition std_call (f : string) (args : list lua_value) : lst answer :=
  if String.eqb f "get" then lua_std_get args
  else if String.eqb f "query" then lua_std_query args
  else if String.eqb f "count" then lua_std_count args
  else if String.eqb f "put" then lua_std_put args
  else if String.eqb f "remove" then lua_std_remove args
  else if String.eqb f "rollback" then lua_std_rollback args
  else if String.eqb f "cluster" then lua_std_cluster
  else if String.eqb f "log" || String.eqb f "print" then mret (Answer LNil)
  else mret (dates f args).

(** [lua_pcall]. *)
Fixpoint run {A} (m : script A) : lst (outcome A) :=
  match m with
  | Ret a => mret (Returned a)
  | Raise msg => mret (Error msg)
  | Call f args k =>
      a ← std_call f args;
      match a with Never => mret Stuck | a => run (k a) end
  end.

(** ** Dispatch *)

Definition has_record_named (records : list json) (name : string) : bool :=
  existsb (fun r => match get_string r "name" with Some n => String.eqb n name | None => false end) records.

Definition newline : string := String (Ascii.ascii_of_nat 10) EmptyString.
Definition concat_code (records : list json) : string :=
  foldr (fun r text => match get_string r "code" with Some c => c +:+ newline +:+ text | None => text end) "" records.

Definition before_write (event : edb_lua_event) : bool :=
  match event with EDB_LUA_BEFORE_INSERT | EDB_LUA_BEFORE_UPDATE | EDB_LUA_BEFORE_DELETE => true | _ => false end.
Definition return_matters (event : edb_lua_event) : bool :=
  match event with EDB_LUA_BEFORE_INSERT | EDB_LUA_BEFORE_UPDATE => true | _ => false end.
Definition fetches_document (event : edb_lua_event) : bool :=
  match event with EDB_LUA_AFTER_INSERT | EDB_LUA_AFTER_UPDATE | EDB_LUA_BEFORE_DELETE => true | _ => false end.

Inductive edb_lua_result := EDB_LUA_OK | EDB_LUA_ROLLBACK | EDB_LUA_ERROR.

(** How a fire ends: with a result, the reason of a veto and the document the
    caller goes on with; or not at all, when an error is raised outside
    [lua_pcall], where Lua aborts the process, or a call does not return. *)
Inductive fired := Fired (r : edb_lua_result) (reason : option string) (value : option json) | Aborted | Hung.

Definition new_session : edb_lua_session := LuaSession false false "" 0.

(** Errors refuse a write that is to come and are ignored after it. *)
Definition failed (event : edb_lua_event) : edb_lua_result := if before_write event then EDB_LUA_ERROR else EDB_LUA_OK.

Definition entity_of (event : edb_lua_event) (original : option json) : lua_value :=
  match original with
  | Some (JObject ms) => table (set_fields (map (fun m => (m.1, push_json 0 m.2)) ms))
  | _ => match event with EDB_LUA_AFTER_DELETE => LNil | _ => table [] end
  end.

(** Steps 4 and 5, after the handler. *)
Definition conclude (event : edb_lua_event) (value : option json) (r : outcome lua_value) : lst fired :=
  rolled ← session rolled_back;
  reason ← session rollback_reason;
  depth ← session convert_depth;
  mret (match r with
        | Stuck => Hung
        | Error _ => Fired (failed event) None value
        | Returned v =>
            if rolled && before_write event then Fired EDB_LUA_ROLLBACK (Some reason) value
            else if return_matters event && is_table v then
              match returned_entity_to_doc depth v with
              | Converted doc => Fired EDB_LUA_OK None (Some doc)
              | NoValue => Fired EDB_LUA_ERROR None value
              | Failed _ _ => Aborted
              | Endless => Hung
              end
            else Fired EDB_LUA_OK None value
        end).

(** Step 3, with the globals the code records define. *)
Definition run_action (event : edb_lua_event) (name : string) (g : globals) (original value : option json) : lst fired :=
  _ ← update_session enter_event;
  match global_function g name with
  | None => mret (Fired (failed event) None value)
  | Some handler =>
      r ← run (handler (entity_of event original) (LString (la_id arg)));
      conclude event value r
  end.

Definition run_code (event : edb_lua_event) (name : string) (records : list json) (original value : option json) : lst fired :=
  let code := concat_code records in
  if String.eqb code "" then run_action event name sandbox_globals original value
  else
    match load_code code with
    | inr _ => mret (Fired (failed event) None value)
    | inl chunk =>
        r ← run chunk;
        match r with
        | Returned g => run_action event name g original value
        | Error _ => mret (Fired (failed event) None value)
        | Stuck => mret Hung
        end
    end.

(** A fresh Lua state. *)
Definition new_state {A} (m : lst A) : st S A := fun s =>
  let '(a, l) := m (LuaState new_session s) in (a, ls_store l).

(** [value]: the document the caller holds; [nested]: a handler is running. *)
Definition edb_lua_fire (nested : bool) (event : edb_lua_event) (value : option json) : st S fired :=
  if nested then mret (Fired EDB_LUA_OK None value)
  else
    records ← edb_code_list;
    match edb_lua_action_name 512 (la_database arg) (la_partition arg) (la_keyspace arg) event with
    | None => mret (Fired EDB_LUA_OK None value)
    | Some name =>
        if negb (has_record_named records name) then mret (Fired EDB_LUA_OK None value)
        else
          original ← match value with
                     | Some v => mret (Some v)
                     | None => if fetches_document event then lua_fetch_doc (la_partition arg) (la_keyspace arg) (la_id arg) else mret None
                     end;
          new_state (run_code event name records original value)
    end.
End library.

(** ** Validation *)

Definition code_in (c : Ascii.ascii) (codes : list nat) : bool := existsb (Nat.eqb (Ascii.nat_of_ascii c)) codes.
Definition is_code_blank (c : Ascii.ascii) : bool := code_in c [9; 10; 13; 32]%nat.

Fixpoint strip_newlines (s : string) : string :=
  match s with
  | EmptyString => EmptyString
  | String c s =>
      let rest := strip_newlines s in
      if String.eqb rest "" && code_in c [10; 13]%nat then EmptyString else String c rest
  end.

(** [inr] is the message of the error. *)
Definition edb_lua_validate `{LuaVM} (code : string) : unit + string :=
  if forallb is_code_blank (String.list_ascii_of_string code) then inr "code is empty"
  else match load_code code with inl _ => inl tt | inr msg => inr (strip_newlines msg) end.

End Lua.
