(* ===== verification/ApiLua.v ===== *)
(** src/api/epsilon_api_lua.c: the routes that list, save, check, fetch and
    remove the code records of scripts. *)

From S2P Require Import Prelude Json Store Config Cluster Repl ReplHandlers EqlExec Http Api ApiAdmin Lua.

Module ApiLua.

Import Json Store Config Cluster Repl ReplHandlers EqlExec Http Api ApiAdmin Lua.

(** ** Names *)

Definition char_code (c : Ascii.ascii) : Z := Z.of_N (Ascii.N_of_ascii c).

Definition code_name_char (c : Ascii.ascii) : bool :=
  negb ((char_code c <? 32) || (char_code c =? 127) || (char_code c =? 47) || (char_code c =? 92)).
Definition code_name_ok (name : string) : bool :=
  negb (String.eqb name "") && (String.length name <? 128)%nat && forallb code_name_char (String.list_ascii_of_string name).

Definition ident_char (first : bool) (c : Ascii.ascii) : bool :=
  let z := char_code c in
  (z =? 95) || ((97 <=? z) && (z <=? 122)) || ((65 <=? z) && (z <=? 90)) || (negb first && (48 <=? z) && (z <=? 57)).
Definition lua_ident_ok (name : string) : bool :=
  (String.length name <? 128)%nat &&
  match name with
  | EmptyString => false
  | String c rest => ident_char true c && forallb (ident_char false) (String.list_ascii_of_string rest)
  end.

Definition lines_text (lines : list string) : string := foldr (fun l text => l +:+ newline +:+ text) "" lines.

(** The code of the body, or a skeleton. *)
Definition code_or (body : json) (skeleton : string) : string :=
  match get_string body "code" with
  | Some c => if String.eqb c "" then skeleton else c
  | None => skeleton
  end.

Definition function_skeleton (name : string) : string := lines_text ["function " +:+ name +:+ " ()"; ""; "end"].
Definition action_skeleton (name : string) : string := lines_text ["function " +:+ name +:+ " (entity, id)"; ""; "end"].

Definition BAD_IDENT : string :=
  "function names must be valid Lua identifiers (letters, digits, underscores, not starting with a digit)".
Definition BAD_SCOPE : string :=
  "database/partition/keyspace names must be valid Lua identifiers (letters, digits, underscores, not starting with a digit) so the action function name is definable".
Definition NO_SCOPE : string :=
  "an action requires " +:+ dquote +:+ "database" +:+ dquote +:+ ", " +:+ dquote +:+ "partition" +:+ dquote +:+ " and " +:+
  dquote +:+ "keyspace" +:+ dquote.
Definition NO_EVENT : string :=
  "a valid " +:+ dquote +:+ "event" +:+ dquote +:+
  " is required (beforeInsert, afterInsert, beforeUpdate, afterUpdate, beforeDelete, afterDelete)".
Definition BAD_TYPE : string := "type must be 'function' or 'action'".

(** Name, members and code of the record of a body, or the reason there is none. *)
Definition function_record (body : json) : string * list (string * json) * string + string :=
  match get_string body "name" with
  | Some name =>
      if negb (code_name_ok name) then inr ("a valid " +:+ dquote +:+ "name" +:+ dquote +:+ " is required")
      else if negb (lua_ident_ok name) then inr BAD_IDENT
      else inl (name, [("type", JString "function")], code_or body (function_skeleton name))
  | None => inr ("a valid " +:+ dquote +:+ "name" +:+ dquote +:+ " is required")
  end.

Definition action_record (body : json) : string * list (string * json) * string + string :=
  let field cap name := snprintf cap (default "" (get_string body name)) in
  let database := field 128%nat "database" in
  let partition := field 256%nat "partition" in
  let keyspace := field 128%nat "keyspace" in
  if String.eqb database "" || String.eqb partition "" || String.eqb keyspace "" then inr NO_SCOPE
  else if negb (lua_ident_ok database) || negb (lua_ident_ok partition) || negb (lua_ident_ok keyspace) then inr BAD_SCOPE
  else
    match get_string body "event" ≫= edb_lua_event_parse with
    | None => inr NO_EVENT
    | Some event =>
        match edb_lua_action_name 512 database partition keyspace event with
        | Some name =>
            if code_name_ok name then
              inl (name,
                   [("type", JString "action"); ("database", JString database); ("partition", JString partition);
                    ("keyspace", JString keyspace); ("event", JString (edb_lua_event_name event))],
                   code_or body (action_skeleton name))
            else inr "the action name is too long"
        | None => inr "the action name is too long"
        end
    end.

Definition record_of (body : json) : string * list (string * json) * string + string :=
  match get_string body "type" with
  | None => inr ("a " +:+ dquote +:+ "type" +:+ dquote +:+ " (function|action) is required")
  | Some t =>
      if String.eqb t "function" then function_record body
      else if String.eqb t "action" then action_record body
      else inr BAD_TYPE
  end.

Section routes.
Context {V : LuaVM} {S : Type} `{RecordStore S} `{JsonCodec} `{DataEngine S} `{LocalWrites S}.
Context (cfg : edb_config S) (now : Z).

Definition code_list (req : edb_http_request) : st (api S) edb_http_response :=
  let type := default "" (query_param req "type" 32) in
  let wanted r :=
    match get_string r "type" with
    | Some t =>
        (String.eqb t "function" && (String.eqb type "" || String.eqb type "function")) ||
        (String.eqb t "action" && (String.eqb type "" || String.eqb type "action"))
    | None => false
    end in
  if negb (String.eqb type "function") && negb (String.eqb type "action") && negb (String.eqb type "")
  then mret (respond_error 400 BAD_TYPE)
  else
    all ← on_store edb_code_list;
    mret (respond_json 200 (Some (JArray (List.filter wanted all)))).

Definition code_saved (word name : string) : edb_http_response :=
  Response 200 JSON_TYPE
    (Some ("{" +:+ dquote +:+ "status" +:+ dquote +:+ ":" +:+ dquote +:+ word +:+ dquote +:+ "," +:+
           dquote +:+ "name" +:+ dquote +:+ ":" +:+ dquote +:+ name +:+ dquote +:+ "}")).

Definition code_save (req : edb_http_request) : st (api S) edb_http_response :=
  match body_object req with
  | None => mret (respond_error 400 "body must be a JSON object")
  | Some body =>
      match record_of body with
      | inr why => mret (respond_error 400 why)
      | inl (name, members, code) =>
          match edb_lua_validate code with
          | inr err => mret (respond_error 400 (snprintf 640 ("code does not compile: " +:+ err)))
          | inl _ =>
              ok ← on_store (edb_code_save cfg name (JObject (members ++ [("code", JString code)])));
              mret (if ok : bool then code_saved "ok" name else respond_error 500 "saving code record failed")
          end
      end
  end.

Definition code_validate (req : edb_http_request) : edb_http_response :=
  match body_object req with
  | None => respond_error 400 "body must be a JSON object"
  | Some body =>
      match get_string body "code" with
      | None => respond_error 400 ("a " +:+ dquote +:+ "code" +:+ dquote +:+ " string is required")
      | Some code =>
          respond_json 200 (Some (JObject (match edb_lua_validate code with
                                           | inl _ => [("valid", JBool true)]
                                           | inr err => [("valid", JBool false); ("error", JString err)]
                                           end)))
      end
  end.

Definition NO_RECORD : edb_http_response := respond_error 404 "no such code record".

Definition code_item (req : edb_http_request) : st (api S) edb_http_response :=
  let name := skip_chars 12 (rq_path req) in
  if negb (code_name_ok name) then mret (respond_error 400 "invalid code record name")
  else if String.eqb (rq_method req) "GET" then
    record ← on_store (edb_code_load name);
    mret (match record with Some r => respond_json 200 (Some r) | None => NO_RECORD end)
  else if String.eqb (rq_method req) "DELETE" then
    ok ← on_store (edb_code_delete cfg name);
    mret (if ok : bool then code_saved "deleted" name else NO_RECORD)
  else mret NOT_ALLOWED.

Definition handle_admin_code (req : edb_http_request) : st (api S) edb_http_response :=
  admin_only now req
    (if String.eqb (rq_method req) "GET" then code_list req
     else if String.eqb (rq_method req) "POST" then code_save req
     else mret NOT_ALLOWED).

Definition handle_admin_code_validate (req : edb_http_request) : st (api S) edb_http_response :=
  admin_only now req (if String.eqb (rq_method req) "POST" then mret (code_validate req) else mret NOT_ALLOWED).

Definition handle_admin_code_item (req : edb_http_request) : st (api S) edb_http_response :=
  admin_only now req (code_item req).
End routes.

End ApiLua.
