(* ===== verification/LuaFacts.v ===== *)
(** Theorems about scripts (Lua.v): documents cross into Lua and back, a write
    goes on only when its handler returned without a veto, scripts write where
    the caller may, and what fails. *)

From S2P Require Import Prelude Json Doubles Store MapStore Config Cluster Repl ReplHandlers EqlExec Http Api Lua.
From Stdlib Require Import SpecFloat.

Module LuaFacts.

Import Json Doubles Store Config Cluster Repl ReplHandlers EqlExec Http Api Lua.

(** ** Documents in Lua and back *)

(** Equal up to the order of the members of objects. *)
Inductive same_json : json -> json -> Prop :=
| same_refl j : same_json j j
| same_array l l' : Forall2 same_json l l' -> same_json (JArray l) (JArray l')
| same_object ms ms' ms'' : Forall2 (fun m m' => m.1 = m'.1 /\ same_json m.2 m'.2) ms ms' -> ms' ≡ₚ ms'' ->
    same_json (JObject ms) (JObject ms'').

(** Documents that Lua tables hold: no negative zero, no empty object, no name
    twice in an object, no array of more than 2^24, nested at most [n] deep. *)
Fixpoint holdable (n : nat) (j : json) : Prop :=
  match j with
  | JNumber d => d <> S754_zero true
  | JArray l =>
      match n with
      | O => False
      | S n => Z.of_nat (length l) <= 2 ^ 24 /\ foldr (fun j P => holdable n j /\ P) True l
      end
  | JObject ms =>
      match n with
      | O => False
      | S n => ms <> [] /\ NoDup (map fst ms) /\ foldr (fun m P => holdable n m.2 /\ P) True ms
      end
  | _ => True
  end.

Section conversions.
Context {V : LuaVM} {VL : LuaVMLaws V}.

Lemma SFeqb_eq d x : SFeqb d x = true -> (exists s m e, d = S754_finite s m e) -> d = x.
Proof.
  unfold SFeqb. intros H (sx & m & ex & ->). destruct x as [sy|sy| |sy m' ey]; cbn [SFcompare] in H; [by destruct sx|by destruct sy|done|].
  change (Pos.compare_cont Eq m m') with (Pos.compare m m') in H.
  destruct sx, sy; try done; destruct (Z.compare_spec ex ey) as [E1| |]; try done;
    destruct (Pos.compare_spec m m') as [E2| |]; try done; by subst.
Qed.

Lemma push_number_back d : d <> S754_zero true -> exists v,
  push_number d = v /\ is_nil v = false /\ forall depth, (depth <= EDB_LUA_MAX_DEPTH)%nat -> lua_to_json depth v = Converted (JNumber d).
Proof.
  intros Hz. eexists. split; [reflexivity|]. unfold push_number. destruct (_ && SFeqb _ _) eqn:E.
  - apply andb_prop in E as [_ E]. split; [done|]. intros depth Hd. unfold lua_to_json. destruct (Nat.ltb_spec EDB_LUA_MAX_DEPTH depth); [lia|].
    do 2 f_equal. symmetry. destruct d as [[]|[]| |s m e]; try done. by apply SFeqb_eq; [|eauto].
  - split; [done|]. intros depth Hd. unfold lua_to_json. by destruct (Nat.ltb_spec EDB_LUA_MAX_DEPTH depth); [lia|].
Qed.
(** *** Tables *)

Definition item_keys {A} (l : list (lua_value * A)) : list lua_value := map fst l.

Lemma array_length_perm l k : l ≡ₚ k -> array_length l = array_length k.
Proof.
  induction 1 as [|[x v] l k _ IH|[x v] [y w] l|l k h _ IH1 _ IH2]; cbn [array_length]; [done| | |congruence].
  - by rewrite IH.
  - destruct (array_key x), (array_key y), (array_length l); try done. f_equal. lia.
Qed.

Lemma array_length_none l k v : (k, v) ∈ l -> array_key k = None -> array_length l = None.
Proof.
  intros Hin Hk. induction l as [|[k' v'] l IH]; [by apply not_elem_of_nil in Hin|]. cbn [array_length].
  apply elem_of_cons in Hin as [[= <- <-]|Hin]; [by rewrite Hk|]. rewrite (IH Hin). by destruct (array_key k').
Qed.

Lemma index_from_imap i vs : Forall (fun v => is_nil v = false) vs ->
  index_from i vs = imap (fun n v => (LInteger (i + Z.of_nat n), v)) vs.
Proof.
  intros H. revert i. induction H as [|v vs Hv _ IH]; intros i; [done|]. cbn [index_from imap]. rewrite Hv, IH. cbn [app].
  f_equal; [f_equal; f_equal; simpl; lia|]. apply imap_ext. intros n x _. cbn. do 2 f_equal. lia.
Qed.

Lemma array_length_index i vs : Forall (fun v => is_nil v = false) vs -> 1 <= i -> i + Z.of_nat (length vs) - 1 <= 2 ^ 24 ->
  array_length (index_from i vs) = Some (if (length vs =? 0)%nat then 0 else i + Z.of_nat (length vs) - 1).
Proof.
  intros H. revert i. induction H as [|v vs Hv _ IH]; intros i Hi Hl; [done|]. cbn [index_from]. rewrite Hv. cbn [app array_length].
  unfold array_key. cbn [length] in *. destruct (Z.leb_spec 1 i); [|lia]. destruct (Z.leb_spec i (2 ^ 24)); [|lia]. cbn [andb].
  rewrite IH by lia. f_equal. destruct vs as [|w vs]; cbn [length Nat.eqb]; lia.
Qed.

Lemma value_at_in {A} (d : A) l i x : (LInteger i, x) ∈ l -> 1 <= i <= 2 ^ 24 ->
  (forall y, (LInteger i, y) ∈ l -> y = x) -> value_at d l i = x.
Proof.
  intros Hin Hi Huniq. unfold value_at. destruct (list_find _ l) as [[n e]|] eqn:E.
  - apply list_find_Some in E as (He & Hk & _). destruct e as [k y]. cbn [fst snd] in *.
    assert (Ek : k = LInteger i).
    { unfold array_key in Hk. destruct k; try done. destruct ((1 <=? z) && (z <=? 2 ^ 24)); [|done]. by injection Hk as ->. }
    subst k. apply Huniq. by eapply list_elem_of_lookup_2.
  - apply list_find_None in E. eapply Forall_forall in E; [|exact Hin]. exfalso. apply E. cbn. unfold array_key.
    destruct (Z.leb_spec 1 i); [|lia]. by destruct (Z.leb_spec i (2 ^ 24)); [|lia].
Qed.

Lemma set_field_new name v l : is_nil v = false -> (forall k w, (k, w) ∈ l -> exists n, k = LString n /\ n <> name) ->
  set_field name v l = l ++ [(LString name, v)].
Proof.
  intros Hv. induction l as [|[k w] l IH]; intros Hl; [cbn; by rewrite Hv|].
  destruct (Hl k w) as (n & -> & Hn); [by apply elem_of_cons; left|]. cbn [set_field app].
  destruct (String.eqb_spec n name); [done|]. rewrite IH; [done|]. intros k' w' Hin. apply (Hl k' w'). by apply elem_of_cons; right.
Qed.

Lemma set_fields_distinct fs : NoDup (map fst fs) -> Forall (fun f => is_nil f.2 = false) fs ->
  set_fields fs = map (fun f => (LString f.1, f.2)) fs.
Proof.
  unfold set_fields. induction fs as [|[n v] fs IH] using rev_ind; intros Hd Hv; [done|].
  rewrite map_app in Hd. apply NoDup_app in Hd as (Hd & Hni & _). apply Forall_app in Hv as [Hv Hl]. apply Forall_inv in Hl.
  rewrite foldl_app, IH, map_app by done. cbn [foldl map fst snd]. apply set_field_new; [done|].
  intros k w Hin. apply list_elem_of_fmap in Hin as ([n' w'] & [= -> ->] & Hin). exists n'. split; [done|]. cbn [fst]. intros ->.
  apply (Hni n); [|by apply elem_of_cons; left]. apply list_elem_of_fmap. by exists (n, w').
Qed.

Lemma members_strings fuel skip depth all rest : (length rest < fuel)%nat ->
  Forall (fun e => exists n v j, e = (LString n, (v, Converted j)) /\ is_nil v = false /\ (skip = true -> n <> "id"%string)) rest ->
  exists ms, object_members fuel skip depth all rest = Converted ms /\
    Forall2 (fun e m => exists v, e = (LString m.1, (v, Converted m.2))) rest ms.
Proof.
  revert fuel. induction rest as [|e rest IH]; intros [|fuel] Hf Hr; try (simpl in Hf; lia); [by exists []|].
  apply Forall_cons in Hr as [(n & v & j & -> & Hv & Hid) Hr]. cbn [object_members]. rewrite Hv. cbn [orb is_id key_text].
  assert (Es : skip && String.eqb n "id" = false) by (destruct skip; [|done]; destruct (String.eqb_spec n "id"); [by destruct (Hid eq_refl)|done]).
  rewrite Es. destruct (IH fuel) as (ms & -> & H2); [simpl in Hf; lia|done|].
  exists ((n, j) :: ms). split; [done|]. constructor; [|done]. by exists v.
Qed.
End conversions.

(** *** Round trips *)

Section round_trip.
Context {V : LuaVM} {VL : LuaVMLaws V}.

Definition the (c : converted json) : json := match c with Converted j => j | _ => JNull end.

(** What comes back of a document pushed at depth [d] and converted at [d']. *)
Definition back (d d' : nat) (j : json) : json := the (lua_to_json d' (push_json d j)).

Definition returns (d d' : nat) (j : json) : Prop :=
  is_nil (push_json d j) = false /\ lua_to_json d' (push_json d j) = Converted (back d d' j) /\ same_json j (back d d' j).

Lemma shallow d : (d <= EDB_LUA_MAX_DEPTH)%nat -> (EDB_LUA_MAX_DEPTH <? d)%nat = false.
Proof. intros H. by apply Nat.ltb_ge. Qed.

Lemma all_converted_map l : all_converted (map Converted l) = Converted l.
Proof. induction l as [|j l IH]; [done|]. cbn [map all_converted]. by rewrite IH. Qed.

Lemma imap_map_seq {A} (f : nat -> A) i n : map f (seq i n) = imap (fun k _ => f (i + k)%nat) (repeat tt n).
Proof.
  revert i. induction n as [|n IH]; intros i; [done|]. cbn [seq map repeat imap]. rewrite Nat.add_0_r. f_equal. rewrite IH.
  apply imap_ext. intros k x _. cbn. f_equal. lia.
Qed.

(** The items of an array are found under their indices, whatever the order. *)
Lemma array_items_found d d' l : Z.of_nat (length l) <= 2 ^ 24 -> Forall (returns d d') l ->
  map (fun i => value_at (Converted JNull)
                  (map (fun e => (e.1, lua_to_json d' e.2)) (arrange (index_from 1 (map (push_json d) l)))) (Z.of_nat i))
    (seq 1 (length l)) = map (fun j => Converted (back d d' j)) l.
Proof.
  intros Hlen Hl. set (es := index_from 1 (map (push_json d) l)).
  assert (Es : es = imap (fun n v => (LInteger (1 + Z.of_nat n), v)) (map (push_json d) l)).
  { apply index_from_imap, Forall_map. eapply Forall_impl; [exact Hl|]. by intros j [H _]. }
  assert (Hin : forall k x, (LInteger (1 + Z.of_nat k), x) ∈ es <-> exists j, l !! k = Some j /\ x = push_json d j).
  { intros k x. rewrite Es, list_elem_of_lookup. split.
    - intros [n Hn]. rewrite list_lookup_imap in Hn. apply fmap_Some in Hn as (v & Hv & [= Ek ->]).
      assert (n = k) as -> by lia. apply list_lookup_fmap_Some in Hv as (j & -> & Hj). by exists j.
    - intros (j & Hj & ->). exists k. rewrite list_lookup_imap, list_lookup_fmap, Hj. done. }
  apply list_eq. intros k. rewrite !list_lookup_fmap. destruct (l !! k) as [j|] eqn:Ej.
  - assert (Hk : (k < length l)%nat) by (by apply lookup_lt_Some in Ej).
    rewrite lookup_seq_lt by done. cbn [fmap option_fmap option_map]. f_equal.
    eapply Forall_lookup_1 in Hl as (_ & Hc & _); [|exact Ej]. rewrite <-Hc.
    replace (Z.of_nat (1 + k)) with (1 + Z.of_nat k) by lia. apply value_at_in; [|lia|].
    + apply list_elem_of_fmap. exists (LInteger (1 + Z.of_nat k), push_json d j). split; [done|]. rewrite arrange_perm. apply Hin. eauto.
    + intros y Hy. apply list_elem_of_fmap in Hy as ([k' x] & [= <- ->] & Hx). rewrite arrange_perm in Hx.
      apply Hin in Hx as (j' & Hj' & ->). by simplify_eq.
  - apply lookup_ge_None in Ej. rewrite lookup_seq_ge by done. done.
Qed.

Lemma foldr_Forall {A} (P : A -> Prop) l : foldr (fun x Q => P x /\ Q) True l <-> Forall P l.
Proof. induction l as [|x l IH]; [done|]. cbn. rewrite IH. by rewrite Forall_cons. Qed.

(** A table with the members of an object, in whatever order. *)
Lemma object_back ms l d d' : ms <> [] -> (d' <= EDB_LUA_MAX_DEPTH)%nat -> Forall (fun m => returns d (S d') m.2) ms ->
  l ≡ₚ map (fun m => (LString m.1, push_json d m.2)) ms ->
  exists ms', lua_to_json d' (LTable l) = Converted (JObject ms') /\ same_json (JObject ms) (JObject ms').
Proof.
  intros Hne Hd' Hl Hperm. cbn [lua_to_json]. rewrite (shallow d') by lia.
  assert (Harr : array_length l = None).
  { destruct ms as [|m ms]; [done|]. eapply (array_length_none _ (LString m.1) (push_json d m.2)); [|done].
    rewrite Hperm. by apply elem_of_cons; left. }
  rewrite Harr. set (items := map (fun e => (e.1, (e.2, lua_to_json (S d') e.2))) l).
  destruct (members_strings (S (length items)) false (S d') items items) as (ms' & -> & H2); [lia| |].
  { unfold items. apply Forall_map. rewrite Hperm. apply Forall_map. eapply Forall_impl; [exact Hl|].
    intros m (Hv & Hc & _). exists m.1, (push_json d m.2), (back d (S d') m.2). cbn [fst snd]. by rewrite Hc. }
  cbn [as_document]. exists ms'. split; [done|].
  assert (Hp : ms' ≡ₚ map (fun m => (m.1, back d (S d') m.2)) ms).
  { transitivity (map (fun e : lua_value * (lua_value * converted json) => (match e.1 with LString s => s | _ => ""%string end, the e.2.2)) items).
    - clear -H2. match goal with |- ?a ≡ₚ ?b => cut (a = b); [by intros ->|] end. induction H2 as [|e m items ms' (v & ->) _ IH]; [done|]. cbn. by destruct m as [? ?]; rewrite IH.
    - unfold items. rewrite map_map, Hperm. by rewrite map_map. }
  apply (same_object _ (map (fun m => (m.1, back d (S d') m.2)) ms)); [|by symmetry].
  clear -Hl. induction Hl as [|m ms (_ & _ & H) _ IHl]; constructor; done.
Qed.

Lemma push_object d ms : (d <= EDB_LUA_MAX_DEPTH)%nat -> NoDup (map fst ms) -> Forall (fun m => is_nil (push_json (S d) m.2) = false) ms ->
  push_json d (JObject ms) = LTable (arrange (map (fun m => (LString m.1, push_json (S d) m.2)) ms)).
Proof.
  intros Hd Hnd Hl. cbn [push_json]. rewrite (shallow d) by lia. unfold table.
  rewrite set_fields_distinct; [by rewrite map_map|by rewrite map_map|by apply Forall_map].
Qed.

Lemma pushed_back j n d d' : holdable n j -> (d + n <= EDB_LUA_MAX_DEPTH)%nat -> (d' + n <= EDB_LUA_MAX_DEPTH)%nat -> returns d d' j.
Proof.
  revert n d d'. induction j as [|b|x|s|l IH|ms IH] using MapStore.json_nested_ind; intros n d d' Hh Hd Hd'; unfold returns, back.
  1-4: cbn [push_json]; rewrite (shallow d) by lia.
  - cbn [lua_to_json]. rewrite (shallow d') by lia. by split; [|split; [|constructor]].
  - cbn [lua_to_json]. rewrite (shallow d') by lia. by split; [|split; [|constructor]].
  - destruct (push_number_back x ltac:(by destruct n)) as (v & -> & Hv & Hc). rewrite Hc by lia. by split; [|split; [|constructor]].
  - cbn [lua_to_json]. rewrite (shallow d') by lia. by split; [|split; [|constructor]].
  - destruct n as [|n]; [done|]. destruct Hh as [Hlen Hh]. apply foldr_Forall in Hh.
    assert (Hl : Forall (returns (S d) (S d')) l).
    { apply Forall_forall. intros j Hj. eapply Forall_forall in IH; [|exact Hj]. eapply Forall_forall in Hh; [|exact Hj]. apply (IH n); [done|lia..]. }
    cbn [push_json]. rewrite (shallow d) by lia. split; [done|]. unfold table. cbn [lua_to_json]. rewrite (shallow d') by lia.
    rewrite (array_length_perm _ _ (arrange_perm _)), array_length_index;
      [|apply Forall_map; eapply Forall_impl; [exact Hl|]; by intros j [H _]|lia|rewrite length_map; lia].
    rewrite length_map.
    replace (Z.to_nat (if (length l =? 0)%nat then 0 else 1 + Z.of_nat (length l) - 1)) with (length l)
      by (destruct (Nat.eqb_spec (length l) 0); lia).
    rewrite array_items_found by done. rewrite <-(map_map (back (S d) (S d')) Converted), all_converted_map.
    split; [done|]. cbn [the]. apply same_array. clear -Hl. induction Hl as [|j l (_ & _ & H) _ IHl]; constructor; done.
  - destruct n as [|n]; [done|]. destruct Hh as (Hne & Hnd & Hh). apply foldr_Forall in Hh.
    assert (Hl : Forall (fun m => returns (S d) (S d') m.2) ms).
    { apply Forall_forall. intros m Hm. eapply Forall_forall in IH; [|exact Hm]. eapply Forall_forall in Hh; [|exact Hm]. apply (IH n); [done|lia..]. }
    rewrite push_object; [|lia|done|eapply Forall_impl; [exact Hl|]; by intros m [H _]]. split; [done|].
    destruct (object_back ms _ (S d) d' Hne ltac:(lia) Hl (arrange_perm _)) as (ms' & -> & H). by split.
Qed.
End round_trip.

(** ** Entities *)

Section entities.
Context {V : LuaVM} {VL : LuaVMLaws V}.

Lemma filter_all {A} (f : A -> bool) l : Forall (fun x => f x = true) l -> List.filter f l = l.
Proof. induction 1 as [|x l Hx _ IH]; [done|]. cbn. by rewrite Hx, IH. Qed.

(** Members of an event's document that a script can give back. *)
Definition scriptable (ms : list (string * json)) : Prop :=
  ms <> [] /\ NoDup (map fst ms) /\ "id"%string ∉ map fst ms /\ Forall (fun m => holdable 31 m.2) ms.

Lemma entity_back event ms : scriptable ms -> exists entries doc,
  entity_of event (Some (JObject ms)) = LTable entries /\
  returned_entity_to_doc 0 (LTable entries) = Converted doc /\ same_json (JObject ms) doc.
Proof.
  intros (Hne & Hnd & Hid & Hh).
  assert (Hl : Forall (fun m => returns 0 1 m.2) ms).
  { eapply Forall_impl; [exact Hh|]. intros m Hm. apply (pushed_back m.2 31); [done|unfold EDB_LUA_MAX_DEPTH; lia..]. }
  set (es := map (fun m : string * json => (LString m.1, push_json 0 m.2)) ms).
  assert (Ee : entity_of event (Some (JObject ms)) = LTable (arrange es)).
  { unfold entity_of, table. rewrite set_fields_distinct; [by rewrite map_map|by rewrite map_map|].
    apply Forall_map. eapply Forall_impl; [exact Hl|]. by intros m [H _]. }
  exists (arrange es). cbn [returned_entity_to_doc]. unfold table at 1.
  assert (Ef : List.filter (fun e => negb (is_id e.1 || is_nil e.2)) (arrange es) = arrange es).
  { apply filter_all. rewrite arrange_perm. apply Forall_map, Forall_forall. intros m Hm. cbn [fst snd is_id].
    eapply Forall_forall in Hl as [Hv _]; [|exact Hm]. rewrite Hv, orb_false_r. destruct (String.eqb_spec m.1 "id") as [E|]; [|done].
    exfalso. apply Hid. rewrite <-E. apply list_elem_of_fmap. by exists m. }
  rewrite Ef. destruct (object_back ms (arrange (arrange es)) 0 0 Hne ltac:(unfold EDB_LUA_MAX_DEPTH; lia) Hl) as (ms' & Hc & Hs).
  { by rewrite !arrange_perm. }
  exists (JObject ms'). by split.
Qed.

(** An object without members comes back as an array. *)
Lemma empty_object_back event : returned_entity_to_doc 0 (entity_of event (Some (JObject []))) = Converted (JArray []) \/ event = EDB_LUA_AFTER_DELETE.
Proof.
  left. unfold entity_of, table. cbn [map set_fields foldl]. assert (E : arrange [] = []) by (apply Permutation_nil_r, arrange_perm).
  rewrite E. cbn [returned_entity_to_doc List.filter]. unfold table. by rewrite E.
Qed.
End entities.

(** ** Firing *)

Section firing.
Context {V : LuaVM} {VL : LuaVMLaws V} {S : Type} `{RecordStore S} `{JsonCodec} `{DataEngine S} `{LocalWrites S}.
Context (cfg : edb_config S) (repl : option (api_repl S)) (cluster : option edb_cluster) (pending : st S Z) (now : Z).
Context (arg : edb_lua_event_arg) (dates : string -> list lua_value -> answer).

Abbreviation run_here := (run cfg repl cluster pending now arg dates).
Abbreviation act := (run_action cfg repl cluster pending now arg dates).

(** C31: A handler that returns its entity unchanged leaves the
    document as it is, up to the order of members, whatever order Lua visits
    tables in, provided the document is not empty and has no member [id], the
    names in each object differ, no object in it is empty (those come back as
    arrays), no number is minus zero, no array has more than 2^24 elements, and
    it nests at most 31 levels: nulls, nested arrays, whole and fractional numbers come
    back. *)
Theorem unchanged_entity_is_kept event name g ms value l (Hevent : return_matters event = true) (Hms : scriptable ms)
  (Hhandler : global_function g name = Some (fun entity _ => Ret entity))
  (Hfresh : rolled_back (ls_session l) = false /\ convert_depth (ls_session l) = O) :
  exists doc, (act event name g (Some (JObject ms)) value l).1 = Fired EDB_LUA_OK None (Some doc) /\
    same_json (JObject ms) doc /\ ls_store (act event name g (Some (JObject ms)) value l).2 = ls_store l.
Proof.
  destruct Hfresh as [Hr Hd]. destruct (entity_back event ms Hms) as (entries & doc & He & Hc & Hs). exists doc.
  unfold run_action. rewrite st_bind_run, Hhandler, He. cbn [fst snd update_session run]. unfold conclude, session.
  rewrite !st_bind_run. cbn [fst snd mret st_ret enter_event rolled_back rollback_reason convert_depth ls_session ls_store].
  rewrite Hr, Hd. cbn [andb is_table]. by rewrite Hevent, Hc.
Qed.

(** The globals that the code records define, and the state afterwards. *)
Definition code_defines (records : list json) (g : globals) (l l' : lua_state S) : Prop :=
  (concat_code records = "" /\ g = sandbox_globals /\ l' = l) \/
  (concat_code records <> "" /\ exists chunk, load_code (concat_code records) = inl chunk /\ run_here chunk l = (Returned g, l')).

(** C18: Before a write scripts fail closed: the write goes on only if
    the code of all records compiled and ran, the action's function exists
    and was run to its return, and it did not roll back; what is then written
    is the document of the caller or, for inserts and updates, the table the
    handler returned, converted. *)
Theorem write_goes_on_only_if event name records original value l reason value' (Hbefore : before_write event = true)
  (Hok : (run_code cfg repl cluster pending now arg dates event name records original value l).1 = Fired EDB_LUA_OK reason value') :
  exists g handler v l1 l2, code_defines records g l l1 /\ global_function g name = Some handler /\
    run_here (handler (entity_of event original) (LString (la_id arg))) (LuaState (enter_event (ls_session l1)) (ls_store l1)) = (Returned v, l2) /\
    rolled_back (ls_session l2) = false /\
    (value' = value \/
     return_matters event = true /\ exists doc, returned_entity_to_doc (convert_depth (ls_session l2)) v = Converted doc /\ value' = Some doc).
Proof.
  assert (Hact : forall g l1, (act event name g original value l1).1 = Fired EDB_LUA_OK reason value' ->
    exists handler v l2, global_function g name = Some handler /\
      run_here (handler (entity_of event original) (LString (la_id arg))) (LuaState (enter_event (ls_session l1)) (ls_store l1)) = (Returned v, l2) /\
      rolled_back (ls_session l2) = false /\
      (value' = value \/ return_matters event = true /\ exists doc, returned_entity_to_doc (convert_depth (ls_session l2)) v = Converted doc /\ value' = Some doc)).
  { intros g l1. unfold run_action. rewrite st_bind_run. cbn [fst snd update_session]. unfold failed. rewrite Hbefore.
    destruct (global_function g name) as [handler|]; [|done]. rewrite st_bind_run.
    destruct (run_here _ _) as [r l2] eqn:Er. cbn [fst snd]. unfold conclude, session. rewrite !st_bind_run.
    cbn [fst snd mret st_ret]. unfold failed. rewrite Hbefore. destruct r as [v|msg|]; [|done..]. rewrite andb_true_r.
    destruct (rolled_back (ls_session l2)) eqn:Eroll; [done|].
    destruct (return_matters event && is_table v) eqn:Em.
    - apply andb_prop in Em as [Em _]. destruct (returned_entity_to_doc _ v) as [doc| | |] eqn:Ec; try done. intros [= _ <-].
      exists handler, v, l2. repeat (split; [done|]). right. split; [done|]. by exists doc.
    - intros [= _ <-]. exists handler, v, l2. repeat (split; [done|]). by left. }
  unfold run_code in Hok. destruct (String.eqb_spec (concat_code records) "") as [E|Hne].
  - destruct (Hact sandbox_globals l Hok) as (h & v & l2 & Hrest). exists sandbox_globals, h, v, l, l2. split; [by left|done].
  - unfold failed in Hok. rewrite Hbefore in Hok. destruct (load_code (concat_code records)) as [chunk|msg] eqn:El; [|done].
    rewrite st_bind_run in Hok. destruct (run_here chunk l) as [r l1] eqn:Er. cbn [fst snd] in Hok.
    destruct r as [g|msg|]; [|done..]. destruct (Hact g l1 Hok) as (h & v & l2 & Hrest). exists g, h, v, l1, l2.
    split; [|done]. right. split; [done|]. by exists chunk.
Qed.

(** After a write the scripts cannot refuse it any more. *)
Lemma after_events_never_refuse event value nested s : before_write event = false ->
  let r := (edb_lua_fire cfg repl cluster pending now arg dates nested event value s).1 in
  r = Fired EDB_LUA_OK None value \/ r = Hung.
Proof.
  intros Hb. assert (Hm : return_matters event = false) by (by destruct event).
  assert (Hact : forall g name original l, let r := (act event name g original value l).1 in r = Fired EDB_LUA_OK None value \/ r = Hung).
  { intros g name original l. unfold run_action. rewrite st_bind_run. unfold failed. rewrite Hb.
    destruct (global_function g name); [|by left]. rewrite st_bind_run. unfold conclude, session. rewrite !st_bind_run. cbn [fst snd mret st_ret].
    unfold failed. rewrite Hb, Hm. destruct (run_here _ _) as [[v|msg|] l2]; cbn [fst]; [|by left|by right].
    rewrite andb_false_r. cbn [andb]. by left. }
  unfold edb_lua_fire. destruct nested; [by left|]. rewrite st_bind_run.
  destruct (edb_lua_action_name _ _ _ _ _) as [name|]; [|by left]. destruct (negb _); [by left|]. rewrite st_bind_run.
  unfold new_state. match goal with |- context [run_code _ _ _ _ _ _ _ _ ?nm ?rs ?o ?v ?l] => set (records := rs); set (original := o); set (l0 := l) end.
  cut (let r := (run_code cfg repl cluster pending now arg dates event name records original value l0).1 in r = Fired EDB_LUA_OK None value \/ r = Hung).
  { destruct (run_code _ _ _ _ _ _ _ _ _ _ _ _ _) as [r l]. done. }
  unfold run_code. destruct (String.eqb _ _); [apply Hact|]. unfold failed. rewrite Hb.
  destruct (load_code _) as [chunk|]; [|by left]. rewrite st_bind_run. destruct (run_here chunk l0) as [[g|msg|] l1]; cbn [fst snd];
    [apply Hact|by left|by right].
Qed.

(** A handler that returns a table with a function in it ends the process:
    the conversion raises its error outside any protected call. *)
Lemma returned_function_aborts event name g original value l : return_matters event = true ->
  global_function g name = Some (fun _ _ => Ret (LTable [(LString "f", LOther "function")])) ->
  rolled_back (ls_session l) = false -> (convert_depth (ls_session l) < 32)%nat ->
  (act event name g original value l).1 = Aborted.
Proof.
  intros Hm Hh Hr Hd. unfold run_action. rewrite st_bind_run, Hh. cbn [fst snd update_session run]. unfold conclude, session. rewrite !st_bind_run.
  cbn [fst snd mret st_ret enter_event rolled_back rollback_reason convert_depth ls_session ls_store]. rewrite Hr. cbn [andb is_table]. rewrite Hm. cbn [andb].
  cbn [returned_entity_to_doc]. change (List.filter _ _) with [(LString "f", LOther "function")]. unfold table.
  assert (E : forall e, arrange [e] = [e]) by (intros e; apply Permutation_singleton_r, arrange_perm).
  rewrite E. cbn [lua_to_json array_length array_key map fst snd]. unfold EDB_LUA_MAX_DEPTH in *.
  destruct (Nat.ltb_spec 32 (convert_depth (ls_session l))); [lia|]. by destruct (Nat.ltb_spec 32 (Datatypes.S (convert_depth (ls_session l)))); [lia|].
Qed.

(** On a node with replication, [get] gives scripts the field
    [value] of a document instead of the document: of one that has no such
    field, nothing. *)
Theorem clustered_get_unwraps r partition keyspace id ms l (Hrepl : repl = Some r) (Htrusted : la_trusted arg = true)
  (Hdoc : (ar_read_get r (la_database arg) partition keyspace id (ls_store l)).1 = Some (JObject ms))
  (Hvalue : get_item (JObject ms) "value" = None) :
  (lua_std_get repl arg [LString partition; LString keyspace; LString id] l).1 = Answer LNil.
Proof.
  subst repl. match goal with |- (lua_std_get ?rp ?a ?args l).1 = _ =>
    change (lua_std_get rp a args l) with (permitted a partition EDB_PERM_READ "reading"
      (doc ← in_store (row ← ar_read_get r (la_database a) partition keyspace id; mret (row ≫= fun row => get_item row "value"));
       mret (Answer (push_doc_with_id (Some id) doc))) l) end.
  unfold permitted. rewrite st_bind_run.
  assert (E1 : in_store (lua_check_partition_perm arg partition EDB_PERM_READ) l = (true, l))
    by (unfold lua_check_partition_perm; rewrite Htrusted; by destruct l).
  rewrite E1. cbn [fst snd]. rewrite st_bind_run.
  assert (E2 : (in_store (row ← ar_read_get r (la_database arg) partition keyspace id; mret (row ≫= fun row => get_item row "value")) l).1 = None).
  { unfold in_store. rewrite st_bind_run, Hdoc. cbn [mbind option_bind mret st_ret fst snd]. by rewrite Hvalue. }
  by rewrite E2.
Qed.
End firing.

(** ** Permissions of scripts *)

Section permissions.
Context {V : LuaVM} {S : Type} `{RecordStore S} `{JsonCodec} `{DataEngine S} `{LocalWrites S}.
Context (cfg : edb_config S) (repl : option (api_repl S)) (cluster : option edb_cluster) (pending : st S Z) (now : Z).
Context (arg : edb_lua_event_arg) (dates : string -> list lua_value -> answer).

(** [Inv] is kept by reading and by the writes to the partitions of [W]; the
    caller may write to no other. *)
Context (Inv : S -> Prop) (W : string -> Prop).

Definition keeps {A} (m : st S A) : Prop := forall s, Inv s -> Inv (m s).2.
Definition keeps_in {A} (m : st (lua_state S) A) : Prop := forall l, Inv (ls_store l) -> Inv (ls_store (m l).2).

Context (Hget : forall ks id, keeps (rs_get ks id)) (Hall : forall ks, keeps (rs_all ks)).
Context (Hdoc : forall p ks id, keeps (get_doc p ks id)) (Hquery : forall p ks f, keeps (query_ts p ks f)).
Context (Hids : forall p ks f, keeps (ids_of p ks f)) (Hpending : keeps pending).
Context (Hrepl : forall r, repl = Some r -> (forall db p ks id, keeps (ar_read_get r db p ks id)) /\
  (forall db p ks f, keeps (ar_read_ids r db p ks f)) /\ (forall db p ks f, keeps (svc_query_meta (ar_service r) db p ks f))).
Context (Hwrite : forall p ks id v, W p -> keeps (lua_write_change cfg repl now arg p ks id v)).
Context (Hdeny : forall s p perm, Inv s -> perm <> EDB_PERM_READ -> W p \/ (lua_check_partition_perm arg p perm s).1 = false).

Lemma keeps_ret {A} (a : A) : keeps (mret a).
Proof. by intros s. Qed.
Lemma keeps_bind {A B} (m : st S A) (f : A -> st S B) : keeps m -> (forall a, keeps (f a)) -> keeps (m ≫= f).
Proof. intros Hm Hf s Hs. rewrite st_bind_run. apply Hf, Hm, Hs. Qed.
Lemma keeps_in_ret {A} (a : A) : keeps_in (mret a).
Proof. by intros l. Qed.
Lemma keeps_in_bind {A B} (m : st (lua_state S) A) (f : A -> st (lua_state S) B) :
  keeps_in m -> (forall a, keeps_in (f a)) -> keeps_in (m ≫= f).
Proof. intros Hm Hf l Hl. rewrite st_bind_run. apply Hf, Hm, Hl. Qed.
Lemma keeps_in_store {A} (m : st S A) : keeps m -> keeps_in (in_store m).
Proof. intros Hm l Hl. unfold in_store. specialize (Hm _ Hl). by destruct (m (ls_store l)). Qed.
Lemma keeps_session {A} (f : edb_lua_session -> A) : keeps_in (session f).
Proof. by intros l. Qed.
Lemma keeps_update f : keeps_in (update_session f).
Proof. by intros l. Qed.

Ltac keep :=
  repeat first
    [ apply keeps_ret | apply keeps_in_ret | apply keeps_session | apply keeps_update | apply keeps_in_store
    | apply keeps_bind; [|intros ?] | apply keeps_in_bind; [|intros ?]
    | match goal with |- keeps (match ?x with _ => _ end) => destruct x end
    | match goal with |- keeps_in (match ?x with _ => _ end) => destruct x end
    | solve [auto] ].

Lemma keeps_partition_get db p : keeps (edb_partition_get db p).
Proof using Hget. unfold edb_partition_get, fetch. keep. Qed.

Lemma keeps_check p perm : keeps (lua_check_partition_perm arg p perm).
Proof using Hget. unfold lua_check_partition_perm. keep. Qed.

(** What is done under a permission to write is done to a partition of [W]. *)
Lemma keeps_permitted p perm w k : (perm = EDB_PERM_READ \/ W p -> keeps_in k) -> keeps_in (permitted arg p perm w k).
Proof using Hget Hdeny.
  intros Hk l Hl. unfold permitted. rewrite st_bind_run. unfold in_store.
  pose proof (keeps_check p perm _ Hl) as Hs. pose proof (fun Hp => Hdeny _ p perm Hl Hp) as Hd.
  destruct (lua_check_partition_perm arg p perm (ls_store l)) as [[] s']; cbn [fst snd] in *; [|done].
  apply Hk; [|done]. assert (Hdec : perm = EDB_PERM_READ \/ perm <> EDB_PERM_READ) by (destruct perm; auto).
  destruct Hdec as [|Hne]; [by left|]. destruct (Hd Hne) as [|]; [by right|done].
Qed.

Ltac keep_call := repeat (first [apply keeps_permitted; intros ? | progress keep]).

Lemma keeps_filters v k : (forall f, keeps_in (k f)) -> keeps_in (script_filters v k).
Proof. intros Hk. unfold script_filters. keep. Qed.

Lemma keeps_names args k : (forall p ks, keeps_in (k p ks)) -> keeps_in (with_names args k).
Proof. intros Hk. unfold with_names. keep. Qed.

Lemma keeps_get args : keeps_in (lua_std_get repl arg args).
Proof using Hget Hdoc Hrepl Hdeny.
  apply keeps_names. intros p ks. destruct (check_string _) as [id|]; [|keep]. apply keeps_permitted. intros _.
  apply keeps_in_bind; [|intros; keep]. apply keeps_in_store. clear Hwrite; destruct repl as [r|]; [|apply Hdoc].
  apply keeps_bind; [by apply (Hrepl r eq_refl)|intros; keep].
Qed.

Lemma keeps_query args : keeps_in (lua_std_query repl arg args).
Proof using Hget Hquery Hrepl Hdeny.
  apply keeps_names. intros p ks. apply keeps_permitted. intros _. apply keeps_filters. intros f.
  apply keeps_in_bind; [|intros; keep]. apply keeps_in_store. clear Hwrite; destruct repl as [r|]; [by apply (Hrepl r eq_refl)|apply Hquery].
Qed.

Lemma keeps_count args : keeps_in (lua_std_count repl arg args).
Proof using Hget Hids Hrepl Hdeny.
  apply keeps_names. intros p ks. apply keeps_permitted. intros _. apply keeps_in_bind; [|intros; keep].
  apply keeps_in_store. clear Hwrite; destruct repl as [r|]; [by apply (Hrepl r eq_refl)|apply Hids].
Qed.

Lemma keeps_put args : keeps_in (lua_std_put cfg repl now arg args).
Proof using Hget Hdoc Hwrite Hdeny.
  apply keeps_names. intros p ks. destruct (check_string _) as [id|]; [|keep]. destruct (argument args 3); try by keep.
  apply keeps_in_bind; [apply keeps_in_store, Hdoc|intros existing]. apply keeps_permitted. intros Hp.
  assert (HW : W p) by (destruct Hp as [Hp|]; [by destruct existing|done]).
  apply keeps_in_bind; [apply keeps_session|intros depth]. destruct (entity_members depth entries); try by keep.
  apply keeps_in_bind; [by apply keeps_in_store, Hwrite|intros; keep].
Qed.

Lemma keeps_remove args : keeps_in (lua_std_remove cfg repl now arg args).
Proof using Hget Hwrite Hdeny.
  apply keeps_names. intros p ks. destruct (check_string _) as [id|]; [|keep]. apply keeps_permitted. intros [Hp|HW]; [done|].
  apply keeps_in_bind; [by apply keeps_in_store, Hwrite|intros; keep].
Qed.

Lemma keeps_std f args : keeps_in (std_call cfg repl cluster pending now arg dates f args).
Proof using Hget Hdoc Hquery Hids Hrepl Hpending Hwrite Hdeny.
  unfold std_call. repeat match goal with |- keeps_in (if ?b then _ else _) => destruct b end.
  - apply keeps_get.
  - apply keeps_query.
  - apply keeps_count.
  - apply keeps_put.
  - apply keeps_remove.
  - unfold lua_std_rollback. keep.
  - unfold lua_std_cluster. keep.
  - keep.
  - keep.
Qed.

Lemma keeps_run {A} (m : script A) : keeps_in (run cfg repl cluster pending now arg dates m).
Proof using Hget Hdoc Hquery Hids Hrepl Hpending Hwrite Hdeny.
  induction m as [a|msg|f args k IH]; [keep..|]. cbn [run]. apply keeps_in_bind; [apply keeps_std|]. intros a. destruct a; [apply IH..|keep].
Qed.

Lemma keeps_action event name g original value : keeps_in (run_action cfg repl cluster pending now arg dates event name g original value).
Proof using Hget Hdoc Hquery Hids Hrepl Hpending Hwrite Hdeny.
  unfold run_action. apply keeps_in_bind; [apply keeps_update|intros _]. destruct (global_function g name); [|keep].
  apply keeps_in_bind; [apply keeps_run|intros r]. unfold conclude. keep.
Qed.

(** C17: A script writes only where the caller it runs for may write:
    what the writes to the partitions the caller has the permission for leave
    alone, no event with any scripts changes, whatever they call, return,
    catch or raise. *)
Theorem script_writes_permitted nested event value s (Hs : Inv s) :
  Inv (edb_lua_fire cfg repl cluster pending now arg dates nested event value s).2.
Proof using Hget Hall Hdoc Hquery Hids Hrepl Hpending Hwrite Hdeny.
  revert s Hs. change (keeps (edb_lua_fire cfg repl cluster pending now arg dates nested event value)).
  unfold edb_lua_fire. destruct nested; [keep|]. apply keeps_bind; [unfold edb_code_list, collect; keep|intros records].
  destruct (edb_lua_action_name _ _ _ _ _) as [name|]; [|keep]. destruct (negb _); [keep|]. apply keeps_bind.
  - destruct value; [keep|]. destruct (fetches_document event); [apply Hdoc|keep].
  - intros original s Hs. unfold new_state.
    assert (Hrun : keeps_in (run_code cfg repl cluster pending now arg dates event name records original value)).
    { unfold run_code. destruct (String.eqb _ _); [apply keeps_action|]. destruct (load_code _) as [chunk|]; [|keep].
      apply keeps_in_bind; [apply keeps_run|]. intros r. destruct r; [apply keeps_action|keep..]. }
    specialize (Hrun (LuaState new_session s) Hs). by destruct (run_code _ _ _ _ _ _ _ _ _ _ _ _ _).
Qed.
End permissions.

(** ** Witnesses *)

Section witnesses.
Import MapStore.
#[local] Existing Instance digit_codec.

(** Tables are visited backwards; every chunk compiles and defines one function. *)
Definition toy_vm (name : string) (handler : lua_value -> lua_value -> script lua_value) : LuaVM := {|
  arrange := @rev _;
  number_text _ := "1";
  globals := unit;
  sandbox_globals := tt;
  load_code _ := inl (Ret tt);
  global_function _ n := if String.eqb n name then Some handler else None;
|}.

Lemma toy_vm_laws name handler : LuaVMLaws (toy_vm name handler).
Proof. constructor. intros l. symmetry. apply Permutation_rev. Qed.

#[local] Instance toy_data : DataEngine map_store := {|
  replica_put_origin _ _ _ _ _ _ _ := mret false;
  replica_delete_origin _ _ _ _ _ := mret false;
  get_doc _ _ _ := mret None;
  get_ts _ _ _ := mret None;
  all_docs _ _ _ := mret None;
  all_ts _ _ _ := mret None;
  query_docs _ _ _ := mret None;
  query_ts _ _ _ := mret None;
  ids_of _ _ _ := mret None;
|}.
#[local] Instance toy_writes : LocalWrites map_store := {|
  eng_put _ _ _ _ _ := mret false;
  eng_delete _ _ _ := mret false;
|}.

Definition toy_arg : edb_lua_event_arg := LuaArg "db" "p" "ks" "x" 1 false.
Definition toy_name : string := "db_p_ks_beforeInsert".
Definition keep_entity (entity _ : lua_value) : script lua_value := Ret entity.
Definition no_dates (_ : string) (_ : list lua_value) : answer := Raised "no such function".
Definition toy_members : list (string * json) :=
  [("n", jnum 7); ("list", JArray [JNull; jnum 1; JString "a"]); ("o", JObject [("b", JBool true)])].
Definition toy_state : lua_state map_store := LuaState new_session ∅.

Lemma seven_positive : double_of_Z 7 <> S754_zero true.
Proof. intros E. vm_compute in E. discriminate E. Qed.
Lemma one_positive : double_of_Z 1 <> S754_zero true.
Proof. intros E. vm_compute in E. discriminate E. Qed.
Lemma toy_names : NoDup (map fst toy_members) /\ "id"%string ∉ map fst toy_members.
Proof.
  split; [repeat (apply NoDup_cons; split); [set_solver..|apply NoDup_nil_2]|set_solver].
Qed.

Lemma toy_list : holdable 31 (JArray [JNull; jnum 1; JString "a"]).
Proof. refine (conj _ (conj I (conj one_positive (conj I I)))). change (Z.of_nat 3 <= 2 ^ 24). lia. Qed.

Lemma toy_object : holdable 31 (JObject [("b", JBool true)]).
Proof. refine (conj _ (conj (NoDup_singleton _) (conj I I))). discriminate. Qed.

Lemma toy_scriptable : scriptable toy_members.
Proof.
  split; [done|]. split; [exact (proj1 toy_names)|]. split; [exact (proj2 toy_names)|].
  repeat (apply Forall_cons; split); [exact seven_positive|exact toy_list|exact toy_object|apply Forall_nil_2].
Qed.

(** A string, a number and nested tables through a handler that keeps them. *)
Lemma unchanged_entity_is_kept_witness : exists doc,
  (run_action (V := toy_vm toy_name keep_entity) edb_config_open None None (mret 0) 9 toy_arg no_dates EDB_LUA_BEFORE_INSERT toy_name tt
     (Some (JObject toy_members)) None toy_state).1 = Fired EDB_LUA_OK None (Some doc) /\
  same_json (JObject toy_members) doc.
Proof.
  pose proof (unchanged_entity_is_kept (V := toy_vm toy_name keep_entity) (VL := toy_vm_laws toy_name keep_entity) edb_config_open None None (mret 0) 9
    toy_arg no_dates EDB_LUA_BEFORE_INSERT toy_name tt toy_members None toy_state eq_refl toy_scriptable eq_refl (conj eq_refl eq_refl)) as H.
  destruct H as (doc & H1 & H2 & _). by exists doc.
Defined.

Definition toy_records : list json := [JObject [("name", JString toy_name); ("code", JString "x")]].

(** A handler that asks for a document and, as there is none, keeps its entity. *)
Definition ask_first (entity _ : lua_value) : script lua_value :=
  Call "get" [LString "p"; LString "ks"; LString "y"] (fun a => match a with Answer LNil => Ret entity | _ => Raise "found" end).

Lemma write_goes_on_only_if_witness : exists g handler v l1 l2,
  code_defines (V := toy_vm toy_name ask_first) edb_config_open None None (mret 0) 9 toy_arg no_dates toy_records g toy_state l1 /\
  global_function (LuaVM := toy_vm toy_name ask_first) g toy_name = Some handler /\
  run (V := toy_vm toy_name ask_first) edb_config_open None None (mret 0) 9 toy_arg no_dates
    (handler (entity_of (V := toy_vm toy_name ask_first) EDB_LUA_BEFORE_INSERT (Some (JObject toy_members))) (LString "x"))
    (LuaState (enter_event (ls_session l1)) (ls_store l1)) = (Returned v, l2) /\
  rolled_back (ls_session l2) = false.
Proof.
  set (vm := toy_vm toy_name ask_first).
  destruct ((run_code (V := vm) edb_config_open None None (mret 0) 9 toy_arg no_dates EDB_LUA_BEFORE_INSERT toy_name toy_records
    (Some (JObject toy_members)) (Some (JObject toy_members)) toy_state).1) as [[] [why|] [value'|]| |] eqn:E; try (vm_compute in E; discriminate E).
  pose proof (write_goes_on_only_if (V := vm) edb_config_open None None (mret 0) 9 toy_arg no_dates EDB_LUA_BEFORE_INSERT toy_name toy_records
    (Some (JObject toy_members)) (Some (JObject toy_members)) toy_state None (Some value') eq_refl E) as H.
  destruct H as (g & handler & v & l1 & l2 & H1 & H2 & H3 & H4 & _). exists g, handler, v, l1, l2.
  split; [exact H1|]. split; [exact H2|]. split; [exact H3|exact H4].
Defined.

(** A replication service whose quorum reads find a document. *)
Definition toy_repl : api_repl map_store := ApiRepl map_store (ReplService map_store (fun _ _ _ _ => mret None) (fun _ _ => mret EDB_REPL_OK))
  (fun _ _ _ _ => mret (Some (JObject toy_members))) (fun _ _ _ _ => mret None).

Lemma clustered_get_unwraps_witness :
  (lua_std_get (V := toy_vm toy_name keep_entity) (Some toy_repl) (LuaArg "db" "p" "ks" "x" 0 true)
     [LString "p"; LString "ks"; LString "x"] toy_state).1 = Answer LNil.
Proof.
  exact (clustered_get_unwraps (V := toy_vm toy_name keep_entity) (Some toy_repl) (LuaArg "db" "p" "ks" "x" 0 true) toy_repl "p" "ks" "x" toy_members toy_state
    eq_refl eq_refl eq_refl eq_refl).
Defined.

(** A script for group 1 that tries to write to partition q, where only group
    2 may do anything. *)
Definition intrude (entity _ : lua_value) : script lua_value :=
  Call "put" [LString "q"; LString "ks"; LString "y"; LTable []] (fun _ => Ret entity).
Definition guarded : map_store :=
  (edb_code_save (S := map_store) edb_config_open toy_name (JObject [("code", JString "x")])
    (edb_partition_create (S := map_store) edb_config_open "db" "q" 2 2 2 2 ∅).2).2.

Lemma q_denied p perm : perm <> EDB_PERM_READ -> p <> "q"%string \/ (lua_check_partition_perm toy_arg p perm guarded).1 = false.
Proof. intros Hp. destruct (decide (p = "q"%string)) as [->|]; [right|by left]. destruct perm; [|done|..]; vm_compute; reflexivity. Qed.

Lemma script_writes_permitted_witness :
  (edb_lua_fire (V := toy_vm toy_name intrude) edb_config_open None None (mret 0) 9 toy_arg no_dates false EDB_LUA_BEFORE_INSERT (Some (JObject toy_members)) guarded).2
    = guarded.
Proof.
  apply (script_writes_permitted (V := toy_vm toy_name intrude) edb_config_open None None (mret 0) 9 toy_arg no_dates
    (fun s => s = guarded) (fun p => p <> "q"%string)); try (by intros; intros ? ->); try done; [intros p ks id v _ s ->; by destruct v|].
  intros s p perm -> Hp. by apply q_denied.
Defined.
End witnesses.

End LuaFacts.
