(* ===== verification/ApiCluster.v ===== *)
(** src/api/epsilon_api_cluster.c: the routes that show the cluster, copy, wipe
    and restore shard files, join a cluster and remove a node, with what they
    call of src/socket: catching up on a shard, asking the leader to void a
    wave, keeping the mesh keys. The data directory is a map from paths to
    contents; while a request waits, other threads change the node. *)

From S2P Require Import Prelude Json Manager Store Config Wire Cluster Repl ReplHandlers EqlExec Http Api ApiAdmin Snap Analytics Lua ApiLua.

Module ApiCluster.

Import Json Manager Store Config Wire Cluster Repl ReplHandlers EqlExec Http Api ApiAdmin Snap.
Import SpecFloat.

(** ** The node *)

(** [n_cluster] and [n_repl] are NULL on a single node; [n_turn] counts the
    times a request waited. *)
Record node (S : Type) := Node {
  n_api : api S;
  n_cluster : option edb_cluster;
  n_repl : edb_repl;
  n_files : files;
  n_turn : nat;
}.
Arguments Node {S}.
Arguments n_api {S}.
Arguments n_cluster {S}.
Arguments n_repl {S}.
Arguments n_files {S}.
Arguments n_turn {S}.

(** What the handlers use of the data directory, of SQLite and of the cached
    handles of the engine: the names of the directory as [readdir] gives them,
    the online backup, the integrity check, dropping the handle of a key
    ([edb_shard_gc]) and opening a file anew under one
    ([edb_shard_invalidate]). *)
Class ShardFiles (S : Type) := {
  readdir : files -> string -> list string;
  sqlite_backup : files -> string -> option bytes;
  integrity_ok : bytes -> bool;
  drop_handle : string -> st S unit;
  reopen : string -> string -> option bytes -> st S bool;
}.

(** [readdir] gives every name of the directory once. *)
Class ShardFilesLaws (S : Type) `{ShardFiles S} := {
  readdir_nodup fs dir : NoDup (readdir fs dir);
  readdir_in fs dir name : name ∈ readdir fs dir <-> is_Some (fs !! (dir +:+ "/" +:+ name));
}.

(** How a transfer turns out: the connection, the sends, the temporary name,
    the frames that arrive, the free space and the writes, the rename, the
    members seen by each round of the flush. *)
Record transfer := Transfer {
  tr_dialled : bool; tr_sends : list bool; tr_suffix : option string; tr_reply : list message;
  tr_space : option Z; tr_writable : bytes -> bytes -> bool; tr_renamed : bool; tr_rounds : list edb_cluster;
}.
(** How the system calls of an upload turn out: the file opens, this many
    bytes are written, the file is renamed. *)
Record upload_outcome := Upload { up_opened : bool; up_written : option nat; up_renamed : bool }.

Section state.
Context {S : Type}.

Definition in_api {A} (m : st (api S) A) : st (node S) A := fun n =>
  let '(r, a) := m (n_api n) in (r, Node a (n_cluster n) (n_repl n) (n_files n) (n_turn n)).
Definition in_engine {A} (m : st S A) : st (node S) A := in_api (on_store m).
Definition peek {A} (f : node S -> A) : st (node S) A := fun n => (f n, n).
Definition on_files (f : files -> files) : st (node S) unit := fun n =>
  (tt, Node (n_api n) (n_cluster n) (n_repl n) (f (n_files n)) (n_turn n)).
Definition on_repl (f : edb_repl -> edb_repl) : st (node S) unit := fun n =>
  (tt, Node (n_api n) (n_cluster n) (f (n_repl n)) (n_files n) (n_turn n)).
Definition set_cluster (cl : edb_cluster) : st (node S) unit := fun n =>
  (tt, Node (n_api n) (Some cl) (n_repl n) (n_files n) (n_turn n)).

(** An operation of the cluster, which gives the cluster back. *)
Definition on_cluster {A} (m : edb_cluster -> st S (A * edb_cluster)) (none : A) : st (node S) A :=
  c ← peek n_cluster;
  match c with
  | None => mret none
  | Some cl => r ← in_engine (m cl); _ ← set_cluster r.2; mret r.1
  end.
End state.

Section routes.
Context {S : Type} `{RecordStore S} `{JsonCodec} `{ShardFiles S} `{Network S}.
Context (cfg : edb_config S) (now : Z) (path : string).

Abbreviation nst := (st (node S)).

(** [require_admin_auth]. *)
Definition node_admin (req : edb_http_request) (k : nst edb_http_response) : nst edb_http_response :=
  r ← in_api (authenticate now req);
  if negb r.1 then mret (respond_error 401 "unauthorized")
  else if is_admin r.2 then k else mret (respond_error 403 "admin access required").

(** The method is tested first. *)
Definition node_route (method : string) (req : edb_http_request) (k : nst edb_http_response) : nst edb_http_response :=
  if negb (String.eqb (rq_method req) method) then mret NOT_ALLOWED else node_admin req k.

Definition CLUSTERING_DISABLED : edb_http_response :=
  respond_error 400 "clustering disabled (start with -n <peer_port>)".

Definition with_cluster (k : edb_cluster -> nst edb_http_response) : nst edb_http_response :=
  c ← peek n_cluster; match c with Some cl => k cl | None => mret CLUSTERING_DISABLED end.

(** ** The cluster as JSON *)

Definition node_json (p : edb_peer_info) : json :=
  JObject ([("id", JString (p_id p)); ("addr", JString (p_addr p)); ("port", jnum (p_port p))] ++
           (if 0 <? p_http_port p then [("http_port", jnum (p_http_port p))] else []) ++
           [("online", JBool (p_online p)); ("removed", JBool (p_removed p)); ("last_seen", jnum (p_last_seen p))] ++
           (if 0 <? p_compliant_gen p then [("compliant", jnum (p_compliant_gen p))] else [])).

Definition span_json (r : edb_range_info) : json :=
  JObject [("owner", JString (node_id r));
           ("hash_span", JString (String.substring 0 8 (range_start r) +:+ ".." +:+ String.substring 0 8 (range_end r)))].

(** The node that holds the rebalance lock. *)
Definition lock_json (setting : option string) : json :=
  match setting with
  | None => JNull
  | Some text => JString (default "held" (json_parse text ≫= fun j => get_string j "node"))
  end.

Definition cluster_json (cl : edb_cluster) (lock : option string) : json :=
  JObject [("node_id", JString (self_id cl)); ("leader", JString (default "none" (edb_cluster_leader cl)));
           ("is_leader", JBool (leader_is_self_locked cl)); ("generation", jnum (generation cl));
           ("live_version", jnum (generation cl)); ("target_version", jnum (target_generation cl));
           ("rebalance_in_progress", JBool (0 <? target_generation cl)); ("rebalance_lock", lock_json lock);
           ("nodes", JArray (map node_json (edb_cluster_peers cl 64)));
           ("target_ranges", JArray (map span_json (edb_cluster_target_ranges cl 64)));
           ("ranges", JArray (map span_json (edb_cluster_ranges cl 64)))].

Definition handle_admin_cluster (req : edb_http_request) : nst edb_http_response :=
  node_route "GET" req
    (with_cluster (fun cl =>
       lock ← in_engine (edb_setting_get SETTING_LOCK);
       mret (respond_json 200 (Some (cluster_json cl lock))))).

(** ** Backup *)

(** Keys of the local shards: the buffer is doubled until the keys are fewer
    than it holds. *)
Fixpoint keys_within (fuel cap : nat) (entries : list string) : list string :=
  match fuel with
  | O => []
  | Datatypes.S fuel =>
      let keys := edb_engine_shard_keys entries cap in
      if (length keys <? cap)%nat then keys else keys_within fuel (2 * cap) entries
  end.

Definition local_shard_keys (fs : files) : list string :=
  let entries := readdir fs path in keys_within (Datatypes.S (length entries)) 256 entries.

Definition local_path (key : string) : string := snprintf 1100 (shard_path path key).

Definition manifest_shard (fs : files) (key : string) : json :=
  JObject ([("key", JString key); ("system", JBool (edb_config_is_system_key path key))] ++
           match fs !! local_path key with Some data => [("size", jnum (size_of data))] | None => [] end).

Definition manifest_json (self : string) (fs : files) : json :=
  JObject [("node_id", JString self); ("shards", JArray (map (manifest_shard fs) (local_shard_keys fs)))].

Definition handle_backup_manifest (req : edb_http_request) : nst edb_http_response :=
  node_route "GET" req
    (c ← peek n_cluster;
     fs ← peek n_files;
     mret (respond_json 200 (Some (manifest_json (match c with Some cl => self_id cl | None => "single" end) fs)))).

Definition BAD_KEY : edb_http_response := respond_error 400 "invalid shard key".

(** The copy of a shard, empty when there is no such file or SQLite cannot
    copy it. [suffix]: the name [mkstemp] chose; [readable]: whether the copy
    could be read back. The temporary file is there in between only. *)
Definition handle_backup_shard_download (suffix : option string) (readable : bool) (req : edb_http_request) : nst edb_http_response :=
  node_route "GET" req
    (let key := skip_chars 20 (rq_path req) in
     if negb (valid_key key) then mret BAD_KEY
     else
       match suffix with
       | Some suffix =>
           if (1100 <=? String.length (path +:+ "/." +:+ key +:+ ".bkup.XXXXXX"))%nat
           then mret (respond_error 500 "cannot create snapshot file")
           else
             let tmp := path +:+ "/." +:+ key +:+ ".bkup." +:+ suffix in
             copy ← peek (fun n => default [] (sqlite_backup (n_files n) (local_path key)));
             _ ← on_files (fun fs => delete tmp (<[tmp := copy]> fs));
             mret (if readable then Response 200 "application/octet-stream" (Some (string_of_bytes copy))
                   else respond_error 500 "snapshot read failed")
       | None => mret (respond_error 500 "cannot create snapshot file")
       end).

(** ** Restore *)

Definition handle_restore_lock (req : edb_http_request) : nst edb_http_response := in_api (handle_restore cfg now true req).
Definition handle_restore_unlock (req : edb_http_request) : nst edb_http_response := in_api (handle_restore cfg now false req).

Definition under_lock (k : nst edb_http_response) : nst edb_http_response :=
  locked ← peek (fun n => a_restore_locked (n_api n));
  if locked : bool then k else mret (respond_error 409 "restore lock not held").

(** [edb_shard_gc] on the directory; [unlinks]: which files can be unlinked. *)
Definition gc_shard (unlinks : string -> bool) (key : string) : nst bool :=
  if negb (String.length key =? 32)%nat then mret false
  else
    _ ← in_engine (drop_handle key);
    let file := shard_path path key in
    if unlinks key then _ ← on_files (delete file); mret true
    else peek (fun n => bool_decide (n_files n !! file = None)).

Fixpoint wipe_keys (unlinks : string -> bool) (keys : list string) (wiped : nat) : nst nat :=
  match keys with
  | [] => mret wiped
  | key :: keys =>
      if edb_config_is_system_key path key then wipe_keys unlinks keys wiped
      else
        ok ← gc_shard unlinks key;
        wipe_keys unlinks keys (if ok : bool then Datatypes.S wiped else wiped)
  end.

Definition handle_restore_wipe (unlinks : string -> bool) (req : edb_http_request) : nst edb_http_response :=
  node_route "POST" req
    (under_lock
       (keys ← peek (fun n => local_shard_keys (n_files n));
        wiped ← wipe_keys unlinks keys 0;
        mret (respond_json 200 (Some (JObject [("wiped", jnum (Z.of_nat wiped))]))))).

(** [pwrite] at an offset; a gap is filled with zeros. *)
Definition pwrite (data : bytes) (offset : nat) (content : bytes) : bytes :=
  let content := content ++ repeat 0 (offset - length content) in
  take offset content ++ data ++ drop (offset + length data) content.

Definition upload_path (key : string) : string := snprintf 1100 (path +:+ "/" +:+ key +:+ ".sqlite.rtmp").

Definition side_files (file : string) : list string := [file +:+ "-wal"; file +:+ "-shm"; file +:+ "-journal"].

(** The last piece: the file is checked and moved into place. *)
Definition place_shard (o : upload_outcome) (key : string) : nst edb_http_response :=
  let tmp := upload_path key in
  let final := local_path key in
  content ← peek (fun n => default [] (n_files n !! tmp));
  if negb (integrity_ok content) then
    _ ← on_files (delete tmp); mret (respond_error 400 "uploaded shard failed integrity check")
  else if negb (up_renamed o) then
    _ ← on_files (delete tmp); mret (respond_error 500 "cannot place shard file")
  else
    _ ← on_files (fun fs => foldr delete (<[final := content]> (delete tmp fs)) (side_files final));
    mret (respond_json 200 (Some (JObject [("restored", JBool true)]))).

Definition upload_chunk (o : upload_outcome) (req : edb_http_request) (key : string) : nst edb_http_response :=
  let offset := match query_param req "offset" 32 with Some t => (strtoll t).1.1 | None => 0 end in
  let final := match query_param req "final" 8 with Some t => String.eqb t "1" | None => false end in
  let tmp := upload_path key in
  let data := bytes_of_string (rq_body req) in
  if negb (up_opened o) then mret (respond_error 500 "cannot open restore file")
  else
    _ ← on_files (fun fs => <[tmp := if offset =? 0 then [] else default [] (fs !! tmp)]> fs);
    if offset <? 0 then mret (respond_error 500 "write failed")
    else
      let written := match up_written o with Some n => Nat.min n (length data) | None => O end in
      _ ← (if (written =? 0)%nat then mret tt
           else on_files (alter (pwrite (take written data) (Z.to_nat offset)) tmp));
      if match up_written o with Some _ => negb (written =? length data)%nat | None => true end
      then mret (respond_error 500 "write failed")
      else if final then place_shard o key
      else
        size ← peek (fun n => size_of (default [] (n_files n !! tmp)));
        mret (respond_json 200 (Some (JObject [("offset", jnum size)]))).

Definition handle_restore_shard_upload (o : upload_outcome) (req : edb_http_request) : nst edb_http_response :=
  node_route "PUT" req
    (under_lock
       (let key := skip_chars 21 (rq_path req) in
        if negb (valid_key key) then mret BAD_KEY
        else if edb_config_is_system_key path key then mret (respond_error 400 "system shards cannot be restored")
        else upload_chunk o req key)).

(** ** Catching up on a shard *)

(** What other threads do while a request waits for the [i]-th time. *)
Context (others : nat -> node S -> node S).

Context (transfers : nat -> transfer).

Definition await : nst nat := fun n =>
  let i := n_turn n in
  let n' := others i n in
  (i, Node (n_api n') (n_cluster n') (n_repl n') (n_files n') (Datatypes.S i)).

(** [edb_shard_invalidate] on the directory. *)
Definition invalidate_shard (partition keyspace : string) : nst bool :=
  match edb_shard_path path partition keyspace 1024 with
  | None => mret false
  | Some (file, _) =>
      _ ← on_files (fun fs => delete (file +:+ "-wal") (delete (file +:+ "-shm") fs));
      data ← peek (fun n => n_files n !! file);
      in_engine (reopen partition keyspace data)
  end.

(** [edb_shard_validate]. *)
Definition validate_shard (fs : files) (partition keyspace : string) : bool :=
  match edb_shard_path path partition keyspace 1024 with
  | None => false
  | Some (file, _) => match fs !! file with Some data => (0 <? size_of data) && integrity_ok data | None => false end
  end.

Definition fetch_shard (t : transfer) (required : bool) (addr : string) (port : Z) (key : string) : nst bool := fun n =>
  let '(ok, s) := (if required then edb_snap_fetch_required else edb_snap_fetch)
                    (tr_space t) (tr_writable t) (tr_dialled t) (tr_suffix t) (tr_reply t) (tr_renamed t) (Some addr) port key path
                    (Side (n_files n) [] (tr_sends t)) in
  (ok, Node (n_api n) (n_cluster n) (n_repl n) (sd_files s) (n_turn n)).

Definition repl_catchup (addr : string) (port : Z) (partition keyspace : string) (required : bool) : nst bool :=
  _ ← on_repl (fun rp => edb_repl_set_syncing rp true);
  match edb_shard_path path partition keyspace 1024 with
  | None => _ ← on_repl (fun rp => edb_repl_set_syncing rp false); mret false
  | Some (_, key) =>
      i ← await;
      fetched ← fetch_shard (transfers i) required addr port key;
      ok ← (if fetched : bool then invalidate_shard partition keyspace else mret false);
      _ ← on_repl (fun rp => edb_repl_set_syncing rp false);
      if negb ok then mret false
      else self ← peek (fun n => repl_self (n_repl n)); in_engine (edb_repl_flush self (tr_rounds (transfers i)))
  end.

Definition edb_repl_catchup addr port partition keyspace : nst bool := repl_catchup addr port partition keyspace false.
Definition edb_repl_catchup_required addr port partition keyspace : nst bool := repl_catchup addr port partition keyspace true.

(** From the peers of that id, and from the holders in turn. *)
Fixpoint catchup_from_peers (id partition keyspace : string) (ps : list edb_peer_info) : nst bool :=
  match ps with
  | [] => mret false
  | p :: ps =>
      ok ← (if String.eqb (p_id p) id && negb (String.eqb (p_addr p) "") && (0 <? p_port p)
            then edb_repl_catchup_required (p_addr p) (p_port p) partition keyspace else mret false);
      if ok : bool then mret true else catchup_from_peers id partition keyspace ps
  end.

Fixpoint catchup_from_holders (self partition keyspace : string) (ps : list edb_peer_info) (holders : list string) : nst bool :=
  match holders with
  | [] => mret false
  | h :: holders =>
      ok ← (if String.eqb h self then mret false else catchup_from_peers h partition keyspace ps);
      if ok : bool then mret true else catchup_from_holders self partition keyspace ps holders
  end.

Definition catchup_from_holder (cl : edb_cluster) (key partition keyspace : string) : nst bool :=
  catchup_from_holders (self_id cl) partition keyspace (edb_cluster_peers cl 64) (edb_cluster_holders cl key 64).

(** ** Mesh keys and the wave *)

Definition mesh_key_path : string := snprintf 1024 (path +:+ "/mesh.key").

(** [written]: how much of it could be written, [None] without a file. *)
Definition edb_cluster_persist_keys (written : option nat) (enc mac : bytes) : nst bool :=
  match written with
  | None => mret false
  | Some n => _ ← on_files <[mesh_key_path := take n (enc ++ mac)]>; mret (64 <=? n)%nat
  end.

Definition edb_cluster_load_keys (fs : files) : option (bytes * bytes) :=
  buf ← fs !! mesh_key_path;
  if (64 <=? length buf)%nat then Some (take 32 buf, take 32 (drop 32 buf)) else None.

(** Asks the leader to void the wave, or voids it without one to ask.
    [reply]: the leader's answer, if it could be reached. *)
Definition edb_cluster_request_void (reply : option json) : nst bool :=
  c ← peek n_cluster;
  match c with
  | None => mret false
  | Some cl =>
      let p := find_peer (leader cl) (peers cl) in
      let reachable := match p with Some p => negb (String.eqb (p_addr p) "") && (0 <? p_port p) | None => false end in
      if String.eqb (leader cl) "" || negb reachable || String.eqb (leader cl) (self_id cl)
      then on_cluster (edb_cluster_void_target cfg) false
      else mret (is_true (reply ≫= fun j => get_item j "ok"))
  end.

(** ** Joining *)

(** [frames]: what the seed sends, if it can be dialled. *)
Definition edb_cluster_join (frames : option (list join_frame)) (addr : string) (port : Z) (cl : edb_cluster) : st S (Z * edb_cluster) :=
  if String.eqb addr "" || (port <=? 0) || (65535 <? port) then mret (-1, cl)
  else match frames with None => mret (-1, cl) | Some fs => join_exchange cfg now cl false fs end.

(** The system keyspaces, from the seed; what failed. *)
Fixpoint sync_system (addr : string) (port : Z) (keyspaces : list string) : nst (option string) :=
  match keyspaces with
  | [] => mret None
  | ks :: keyspaces =>
      ok ← edb_repl_catchup addr port EDB_SYSTEM_DB ks;
      if ok : bool then sync_system addr port keyspaces
      else mret (Some (snprintf 128 ("config sync failed for " +:+ ks)))
  end.

Definition pending_generation : nst Z :=
  peek (fun n => match n_cluster n with Some cl => target_generation cl | None => 0 end).

(** A target is looked for every 100 ms. *)
Fixpoint wait_for_target (tries : nat) : nst bool :=
  match tries with
  | O => mret false
  | Datatypes.S tries =>
      g ← pending_generation;
      if 0 <? g then mret true else _ ← await; wait_for_target tries
  end.

(** The shards the target gives this node; what failed. *)
Fixpoint sync_shards (kss : list edb_keyspace_info) : nst (option string) :=
  match kss with
  | [] => mret None
  | k :: kss =>
      c ← peek n_cluster;
      match c, edb_shard_path path (k_partition k) (k_name k) 1024 with
      | Some cl, Some (_, key) =>
          if edb_config_is_system_key path key
             || negb (bool_decide (edb_cluster_target_owner cl key = Some (self_id cl))) then sync_shards kss
          else
            fetched ← catchup_from_holder cl key (k_partition k) (k_name k);
            valid ← peek (fun n => validate_shard (n_files n) (k_partition k) (k_name k));
            if fetched && valid : bool then sync_shards kss
            else mret (Some (snprintf 128 ("sync failed for " +:+ k_partition k +:+ "/" +:+ k_name k)))
      | _, _ => sync_shards kss
      end
  end.

Definition sync_assigned : nst (option string) :=
  fs ← peek n_files;
  needed ← on_cluster (fun cl => r ← edb_cluster_needs_sync cl path (validate_shard fs); mret (r, cl)) false;
  if needed : bool then kss ← in_engine edb_keyspace_list; sync_shards kss else mret None.

Definition set_auto_compliant (b : bool) : nst unit :=
  on_cluster (fun cl => mret (tt, edb_cluster_set_auto_compliant b cl)) tt.
Definition mark_compliant : nst unit :=
  on_cluster (fun cl => cl ← edb_cluster_mark_compliant cfg cl; mret (tt, cl)) tt.

Definition JOINED : edb_http_response :=
  Response 200 JSON_TYPE (Some ("{" +:+ dquote +:+ "joined" +:+ dquote +:+ ":true," +:+ dquote +:+ "synced" +:+ dquote +:+ ":true}")).

(** The rebalance of this node, after the seed let it in. *)
Definition join_rebalance (reply : option json) (addr : string) (port : Z) : nst edb_http_response :=
  _ ← set_auto_compliant false;
  system ← sync_system addr port (edb_config_system_keyspaces 9).1;
  pending ← wait_for_target 100;
  failed ← match system with
           | Some why => mret (Some why)
           | None => if pending : bool then sync_assigned else mret None
           end;
  _ ← match failed with
      | None => mark_compliant
      | Some _ => _ ← edb_cluster_request_void reply; mret tt
      end;
  _ ← set_auto_compliant true;
  mret (match failed with None => JOINED | Some why => respond_error 500 why end).

Definition join_request (body : json) : option (string * Z) :=
  match get_string body "addr", get_int body "port" with
  | Some addr, Some port => if (port <=? 0) || (65535 <? port) then None else Some (addr, port)
  | _, _ => None
  end.

Definition NO_BODY (fields : string) : edb_http_response := respond_error 400 ("JSON body required: {" +:+ fields +:+ "}").

Definition use_mesh_key (k : option (bytes * bytes)) : nst unit := in_api (set_mesh_key k).

(** [frames], [written] and [reply] are what the seed sends, how the key file
    turns out and what the leader answers. *)
Definition handle_admin_join (frames : option (list join_frame)) (written : option nat) (reply : option json)
    (req : edb_http_request) : nst edb_http_response :=
  node_route "POST" req
    (with_cluster (fun _ =>
       match body_object req with
       | None => mret (NO_BODY "addr, port")
       | Some body =>
           match join_request body with
           | None => mret (respond_error 400 "addr (string) and port (1-65535) required")
           | Some (addr, port) =>
               let secret := get_string body "secret" ≫= not_empty in
               match secret, secret ≫= edb_cluster_derive_keys with
               | Some _, None => mret (respond_error 400 "invalid cluster secret")
               | _, keys =>
                   _ ← match keys with Some k => use_mesh_key (Some k) | None => mret tt end;
                   rc ← on_cluster (edb_cluster_join frames addr port) (-1);
                   if negb (rc =? 0) then
                     _ ← match keys with Some _ => use_mesh_key None | None => mret tt end;
                     mret (if rc =? -2 then
                             respond_error 409 "rebalance in progress: one node may join at a time; retry later"
                           else if rc =? -3 then
                             respond_error 410 "this node has been removed from the cluster; re-join to be re-admitted"
                           else respond_error 502 "cannot reach seed peer (wrong secret?)")
                   else
                     _ ← match keys with
                         | Some (enc, mac) => _ ← edb_cluster_persist_keys written enc mac; mret tt
                         | None => mret tt
                         end;
                     join_rebalance reply (snprintf EDB_ADDR_MAX addr) port
               end
           end
       end)).

(** ** Removing a node *)

Definition handle_admin_remove_node (req : edb_http_request) : nst edb_http_response :=
  node_route "POST" req
    (with_cluster (fun _ =>
       match body_object req with
       | None => mret (NO_BODY "node_id")
       | Some body =>
           match get_string body "node_id" ≫= not_empty with
           | None => mret (respond_error 400 "node_id (string) required")
           | Some id =>
               ok ← on_cluster (fun cl => edb_cluster_remove_node cfg now cl id) false;
               mret (if ok : bool then respond_flag 200 "removed"
                     else respond_error 404 "node not found (or cannot remove self)")
           end
       end)).

End routes.

(** ** The server of a node *)

Section server.
Context {V : Lua.LuaVM} {S : Type} `{RecordStore S} `{JsonCodec} `{DataEngine S} `{LocalWrites S} `{Sqlite} `{Maintenance S}.
Context `{ShardFiles S} `{Network S}.
Context (cfg : edb_config S) (repl : option (api_repl S)) (now : Z) (path : string).

(** What the other handlers take: random text, scripts, recording, how
    integers are printed, the members as the console shows them, the keyspaces
    of a listing, whether analytics runs, and [edb_benchmark_run]. *)
Context (junk salt token : string).
Context (before : edb_lua_event -> string -> string -> string -> string -> option json -> Z -> st S lua_outcome).
Context (fire : edb_lua_event -> string -> string -> string -> string -> option json -> st S unit).
Context (record : analytics_event -> st S unit) (raw_u64 : Z -> json) (members : option edb_cluster).
Context (wild : option spec_float -> Z) (running : bool) (benchmark_run : Z -> Z -> Z -> Z -> st S (option json)).

(** How the calls of the handlers of this file turn out. *)
Context (others : nat -> node S -> node S) (transfers : nat -> transfer).
Context (frames : option (list join_frame)) (key_written : option nat) (void_reply : option json).
Context (suffix : option string) (readable : bool) (unlinks : string -> bool) (upload : upload_outcome).

(** [(int)d]: undefined for numbers that are not in range. *)
Definition to_int (d : spec_float) : Z :=
  match d with
  | S754_zero _ => 0
  | S754_finite s m e =>
      let z := Z_of_double (S754_finite s m e) in
      if (- 2 ^ 31 <=? z) && (z <? 2 ^ 31) then z else wild (Some d)
  | _ => wild (Some d)
  end.

Definition benchmark_number (body : option json) (name : string) (preset : Z) : Z :=
  match body ≫= fun j => get_item j name with Some (JNumber d) => to_int d | _ => preset end.

(** src/api/epsilon_api_admin.c. *)
Definition handle_admin_benchmark (req : edb_http_request) : st (api S) edb_http_response :=
  if negb (String.eqb (rq_method req) "POST") then mret NOT_ALLOWED
  else
    admin_only now req
      (if negb (String.eqb (rq_body req) "") && bool_decide (body_json req = None)
       then mret (respond_error 400 "body must be valid JSON")
       else
         let number := benchmark_number (body_object req) in
         report ← on_store (benchmark_run (number "replication_factor"%string 1) (number "partitions"%string 10)
                                          (number "records"%string 100000) (number "threads"%string 0));
         mret (respond_json 200 (Some (default (JObject []) report)))).

Definition other_handler (name : string) : edb_http_request -> st (api S) edb_http_response :=
  if String.eqb name "handle_admin_code" then ApiLua.handle_admin_code cfg now
  else if String.eqb name "handle_admin_code_validate" then ApiLua.handle_admin_code_validate now
  else if String.eqb name "handle_admin_code_item" then ApiLua.handle_admin_code_item cfg now
  else if String.eqb name "handle_admin_analytics" then Analytics.handle_admin_analytics wild now running
  else handle_admin_benchmark.

Definition cluster_handler (method prefix : string) : option (edb_http_request -> st (node S) edb_http_response) :=
  if String.eqb prefix "/admin/cluster" then Some (handle_admin_cluster now)
  else if String.eqb prefix "/admin/join" then Some (handle_admin_join cfg now path others transfers frames key_written void_reply)
  else if String.eqb prefix "/admin/remove-node" then Some (handle_admin_remove_node cfg now)
  else if String.eqb prefix "/admin/backup/manifest" then Some (handle_backup_manifest now path)
  else if String.eqb prefix "/admin/backup/" then Some (handle_backup_shard_download now path suffix readable)
  else if String.eqb prefix "/admin/restore/lock" then Some (handle_restore_lock cfg now)
  else if String.eqb prefix "/admin/restore/unlock" then Some (handle_restore_unlock cfg now)
  else if String.eqb prefix "/admin/restore/wipe" then Some (handle_restore_wipe now path unlinks)
  else if String.eqb prefix "/admin/restore/" then Some (handle_restore_shard_upload now path upload)
  else None.

(** The table of routes, the handlers of this file in their places. *)
Definition node_routes : list (string * string * (edb_http_request -> st (node S) edb_http_response)) :=
  map (fun r => (r.1, match cluster_handler r.1.1 r.1.2 with Some h => h | None => fun req => in_api (r.2 req) end))
    (api_routes cfg repl now junk fire record raw_u64 members before salt token other_handler).

Definition node_handler (h : edb_http_request -> st (node S) edb_http_response) : edb_http_handler (node S) :=
  fun req => res ← h req; mret (true, res).

Definition node_server : edb_http_server (node S) :=
  fold_left (fun srv r => (edb_http_add_handler srv r.1.1 r.1.2 (node_handler r.2)).2) node_routes edb_http_start.
End server.

End ApiCluster.
