(* ===== verification/BackupTool.v ===== *)
(** src/epsilonbkup.c and src/epsilonbkup_http.c: the tool that gathers the
    shards of a cluster into an archive and pushes an archive back. The nodes
    are an interface that answers the text of a request; zip and unzip are
    arguments, the file system of the tool works. Printing, allocation and the
    options of [main] are left out. *)

From S2P Require Import Prelude Json Manager Store Config Wire Cluster Http Snap ApiCluster.

Module BackupTool.

Import Json Manager Store Config Wire Cluster Http Snap ApiCluster.

(** ** HTTP *)

(** [g_host], [g_port], [g_user] and [g_password]; without a host requests go
    to the admin socket. *)
Record http_client := Client { g_host : option string; g_port : Z; g_user : string; g_password : string }.

Definition at_node (c : http_client) (addr : string) (port : Z) : http_client := Client (Some addr) port (g_user c) (g_password c).

(** What comes back, until the connection is closed, for a text sent to an
    endpoint; [None] when it cannot be reached. *)
Class HttpNodes (W : Type) := {
  talk : forall (endpoint : option (string * Z)) (sent : text), st W (option text);
}.

(** The nodes, the files of the tool, and how often a mesh transfer was tried. *)
Record tool (W : Type) := Tool { t_world : W; t_files : files; t_turn : nat }.
Arguments Tool {W}.
Arguments t_world {W}.
Arguments t_files {W}.
Arguments t_turn {W}.

Definition in_world {W A} (m : st W A) : st (tool W) A := fun t =>
  let '(r, w) := m (t_world t) in (r, Tool w (t_files t) (t_turn t)).
Definition local {W A} (f : files -> A) : st (tool W) A := fun t => (f (t_files t), t).
Definition on_local {W} (f : files -> files) : st (tool W) unit := fun t =>
  (tt, Tool (t_world t) (f (t_files t)) (t_turn t)).

Definition request_head (c : http_client) (method path : string) (body_len : Z) : string :=
  method +:+ " " +:+ path +:+ " HTTP/1.1" +:+ CRLF +:+
  "Host: " +:+ default "local" (g_host c) +:+ ":" +:+ print_i64 (g_port c) +:+ CRLF +:+
  "Authorization: Bearer " +:+ g_user c +:+ CRLF +:+
  "X-Epsilon-Password: " +:+ g_password c +:+ CRLF +:+
  "Content-Length: " +:+ print_u64 body_len +:+ CRLF +:+
  "Connection: close" +:+ CRLF +:+ CRLF.

(** A line as it was read, the last character first, with its end removed. *)
Definition line_text (line : text) : string :=
  str (cstr (reverse (match line with c :: l => if decide (c = CR) then l else line | [] => [] end))).

(** What a line of the head tells: the status and the length. *)
Definition head_line (line : string) (r : Z * Z) : Z * Z :=
  if has_prefix "HTTP/" line then ((strtoll (skip_chars 9 line)).1.1, r.2)
  else if strcasecmp_eq (String.substring 0 15 line) "Content-Length:" then (r.1, (strtoull (skip_chars 15 line)).1.1)
  else r.

(** Status, length and what follows the head; the line buffer holds 1023. *)
Fixpoint response_head (l line : text) (r : Z * Z) : option (Z * Z * text) :=
  match l with
  | [] => None
  | c :: l =>
      if decide (c = LF) then
        if String.eqb (line_text line) "" then Some (r, l) else response_head l [] (head_line (line_text line) r)
      else response_head l (if (length line <? 1023)%nat then c :: line else line) r
  end.

Definition read_response (l : text) : option string * Z :=
  match response_head l [] (0, 0) with
  | None => (None, 0)
  | Some (status, len, rest) => (Some (str (if 0 <? len then take (Z.to_nat len) rest else rest)), status)
  end.

Section tool.
Context {W : Type} `{HttpNodes W} `{JsonCodec}.

Abbreviation tst := (st (tool W)).

Definition endpoint (c : http_client) : option (string * Z) := (fun h => (h, g_port c)) <$> g_host c.

(** The body and the status; without an answer there is no body. *)
Definition http_request_raw (c : http_client) (method path body : string) : tst (option string * Z) :=
  answer ← in_world (talk (endpoint c)
             (chars (request_head c method path (Z.of_nat (String.length body))) ++ chars body));
  mret (match answer with Some l => read_response l | None => (None, 0) end).

Definition http_json (c : http_client) (method path : string) : tst (option json * Z) :=
  r ← http_request_raw c method path "";
  mret (r.1 ≫= (fun body => json_parse (str (cstr (chars body)))), r.2).

(** The items of an array. *)
Definition array_of (j : option json) : list json := match j with Some (JArray l) => l | _ => [] end.

Definition json_error (j : option json) : option string := j ≫= fun j => get_string j "error".

(** ** The cluster *)

Definition MAX_SHARDS : nat := 8192.
Definition MAX_NODES : nat := 64.

(** The partition's key as the engine makes it. *)
Definition shard_key_for (partition keyspace : string) : string :=
  md5_of_string (md5_of_string partition +:+ ":" +:+ md5_of_string keyspace).

Record shard_entry := ShardEntry {
  e_key : string; e_size : Z; e_system : bool;
  e_names : option (string * string * string);   (* database, partition, keyspace *)
  e_holders : list nat;
}.

Record cluster_node := ClusterNode {
  cn_id : string; cn_addr : string; cn_mesh_port : Z; cn_http_port : Z; cn_online : bool; cn_local : bool;
}.

Definition no_more {A} (f : A -> string) (x y : A) : Prop := strcmp (f x) (f y) <> Gt.
#[local] Instance no_more_dec {A} (f : A -> string) : RelDecision (no_more f).
Proof. intros x y. unfold no_more. apply _. Defined.

(** [qsort] by id and by key. *)
Definition sort_nodes : list cluster_node -> list cluster_node := merge_sort (no_more cn_id).
Definition sort_shards : list shard_entry -> list shard_entry := merge_sort (no_more e_key).

Definition node_of (n : json) : option cluster_node :=
  match get_string n "id" with
  | None => None
  | Some id =>
      if is_true_item n "removed" then None
      else Some (ClusterNode (snprintf EDB_NODE_ID_MAX id) (snprintf EDB_ADDR_MAX (default "" (get_string n "addr")))
                   (default 0 (get_int n "port")) (default 0 (get_int n "http_port")) (is_true_item n "online") false)
  end.

Definition cluster_nodes (cluster : json) : list cluster_node :=
  take MAX_NODES (omap node_of (array_of (get_item cluster "nodes"))).

(** ** Backup *)

(** The archive program, its inverse, and the mesh transfers. *)
Context (zip_dir : files -> string -> option bytes) (unzip_dir : bytes -> string -> option files).
Context (cwd : option string) (transfers : nat -> transfer).

Definition under (dir path : string) : bool := has_prefix (dir +:+ "/") path || String.eqb path dir.
Definition remove_tree (dir : string) (fs : files) : files := filter (fun f => under dir f.1 = false) fs.

Definition name_of (k : json) : option (string * (string * string * string)) :=
  match get_string k "partition", get_string k "name" with
  | Some part, Some ks =>
      Some (shard_key_for part ks,
            (snprintf 128 (default "" (get_string k "database")), snprintf 256 part, snprintf 128 ks))
  | _, _ => None
  end.

(** An entry of a manifest of node [n], added to what is known of its key. *)
Definition merge_entry (n : nat) (s : json) (names : list (string * (string * string * string))) (e : shard_entry) : shard_entry :=
  ShardEntry (e_key e)
    (match get_ll s "size" with Some z => if e_size e =? 0 then z else e_size e | None => e_size e end)
    (e_system e || is_true_item s "system")
    (match list_find (fun m => m.1 = e_key e) names with Some (_, m) => Some m.2 | None => e_names e end)
    (if (length (e_holders e) <? MAX_NODES)%nat then e_holders e ++ [n] else e_holders e).

Fixpoint update_first (key : string) (f : shard_entry -> shard_entry) (l : list shard_entry) : option (list shard_entry) :=
  match l with
  | [] => None
  | e :: l => if String.eqb (e_key e) key then Some (f e :: l) else (fun l => e :: l) <$> update_first key f l
  end.

Definition add_shard (n : nat) (names : list (string * (string * string * string))) (shards : list shard_entry) (s : json)
    : list shard_entry :=
  if (MAX_SHARDS <=? length shards)%nat then shards
  else
    match get_string s "key" with
    | None => shards
    | Some key =>
        let f := merge_entry n s names in
        match update_first key f shards with
        | Some shards => shards
        | None => shards ++ [f (ShardEntry (snprintf 33 key) 0 false None [])]
        end
    end.

Definition add_manifest (n : nat) (names : list (string * (string * string * string))) (manifest : json) (shards : list shard_entry)
    : list shard_entry :=
  foldl (add_shard n names) shards (array_of (get_item manifest "shards")).

Definition client_of (c : http_client) (single : bool) (node : cluster_node) : http_client :=
  if single then c else at_node c (cn_addr node) (cn_http_port node).

(** The union of the manifests of the nodes that are online. *)
Fixpoint gather (c : http_client) (single : bool) (names : list (string * (string * string * string)))
    (n : nat) (nodes : list cluster_node) (shards : list shard_entry) : tst (list shard_entry) :=
  match nodes with
  | [] => mret shards
  | node :: nodes =>
      if negb (cn_online node) || negb (cn_local node) && (cn_http_port node <=? 0)
      then gather c single names (S n) nodes shards
      else
        m ← http_json (client_of c single node) "GET" "/admin/backup/manifest";
        gather c single names (S n) nodes
          (match m.1 with
           | Some manifest => if 400 <=? m.2 then shards else add_manifest n names manifest shards
           | None => shards
           end)
  end.

Definition staged (staging key : string) : string := snprintf 1100 (staging +:+ "/" +:+ key +:+ ".sqlite").

(** [edb_snap_fetch] into the staging directory. *)
Definition mesh_fetch (node : cluster_node) (key staging : string) : tst bool := fun t =>
  let tr := transfers (t_turn t) in
  let '(ok, s) := edb_snap_fetch (tr_space tr) (tr_writable tr) (tr_dialled tr) (tr_suffix tr) (tr_reply tr) (tr_renamed tr)
                    (Some (cn_addr node)) (cn_mesh_port node) key staging (Side (t_files t) [] (tr_sends tr)) in
  (ok, Tool (t_world t) (sd_files s) (S (t_turn t))).

Definition http_fetch (c : http_client) (single : bool) (node : cluster_node) (key staging : string) : tst bool :=
  r ← http_request_raw (client_of c single node) "GET" (snprintf 1100 ("/admin/backup/shard/" +:+ key)) "";
  match r.1 with
  | Some body =>
      if r.2 =? 200 then _ ← on_local <[staged staging key := bytes_of_string body]>; mret true else mret false
  | None => mret false
  end.

(** From the holders in turn, over the mesh and then over HTTP. *)
Fixpoint fetch_from (c : http_client) (single : bool) (nodes : list cluster_node) (staging key : string) (holders : list nat) : tst bool :=
  match holders with
  | [] => mret false
  | h :: holders =>
      got ← match nodes !! h with
            | None => mret false
            | Some node =>
                if negb (cn_online node) then mret false
                else
                  meshed ← (if (0 <? cn_mesh_port node) && negb (String.eqb (cn_addr node) "")
                            then mesh_fetch node key staging else mret false);
                  if meshed : bool then mret true
                  else if cn_local node || (0 <? cn_http_port node) then http_fetch c single node key staging
                  else mret false
            end;
      if got : bool then mret true else fetch_from c single nodes staging key holders
  end.

(** The entries with the sizes of what was fetched, and how many failed. *)
Fixpoint fetch_all (c : http_client) (single : bool) (nodes : list cluster_node) (staging : string) (shards : list shard_entry)
    : tst (list shard_entry * nat) :=
  match shards with
  | [] => mret ([], O)
  | e :: shards =>
      got ← fetch_from c single nodes staging (e_key e) (e_holders e);
      data ← local (fun fs => fs !! staged staging (e_key e));
      let size := match data with Some d => if got : bool then size_of d else e_size e | None => e_size e end in
      r ← fetch_all c single nodes staging shards;
      mret (ShardEntry (e_key e) size (e_system e) (e_names e) (e_holders e) :: r.1, if got then r.2 else S r.2)
  end.

Definition archive_shard (e : shard_entry) : json :=
  JObject ([("key", JString (e_key e)); ("size", jnum (e_size e))] ++
           match e_names e with
           | Some (db, part, ks) => [("database", JString db); ("partition", JString part); ("keyspace", JString ks)]
           | None => []
           end).

Definition archive_manifest (created source : string) (shards : list shard_entry) : json :=
  JObject [("created", JString created); ("tool", JString "epsilonbkup"); ("source_node", JString source);
           ("shards", JArray (map archive_shard shards))].

Definition absolute_path (path : string) : option string :=
  let full := match path with
              | EmptyString => None
              | String c _ => if decide (c = "/"%char) then Some path else (fun d => d +:+ "/" +:+ path) <$> cwd
              end in
  p ← full; if (String.length p <? 4096)%nat then Some p else None.

Definition local_node (c : http_client) : cluster_node :=
  ClusterNode (snprintf EDB_NODE_ID_MAX (default "local" (g_host c))) "" 0 (match g_host c with Some _ => g_port c | None => 0 end) true true.

(** The nodes, whether there is only one, and the id of the node asked;
    [None] when the cluster cannot be read. *)
Definition backup_nodes (c : http_client) (cluster : option json * Z) : option (list cluster_node * bool * option string) :=
  match cluster.1 with
  | Some j =>
      if cluster.2 <? 400 then Some (sort_nodes (cluster_nodes j), false, get_string j "node_id")
      else match json_error (Some j) with
           | Some err => if contains "clustering disabled" err then Some ([local_node c], true, None) else None
           | None => None
           end
  | None => None
  end.

(** The exit status; [created] is the time stamp. *)
Definition cmd_backup (c : http_client) (out_zip created : string) (keep_staging : bool) : tst Z :=
  cluster ← http_json c "GET" "/admin/cluster";
  keyspaces ← http_json c "GET" "/admin/keyspaces";
  match backup_nodes c cluster, keyspaces.1 with
  | Some (nodes, single, self), Some keyspaces =>
      let staging := out_zip +:+ ".staging" in
      if (4096 <=? String.length staging)%nat then mret 1
      else
        _ ← on_local (remove_tree staging);
        let names := omap name_of (array_of (Some keyspaces)) in
        all ← gather c single names 0 nodes [];
        let shards := List.filter (fun e => negb (e_system e)) (sort_shards all) in
        match shards with
        | [] => _ ← on_local (remove_tree staging); mret 0
        | _ =>
            r ← fetch_all c single nodes staging shards;
            let manifest := archive_manifest created (default "single" self) r.1 in
            _ ← on_local <[snprintf 1100 (staging +:+ "/manifest.json") := bytes_of_string (json_print manifest)]>;
            match absolute_path out_zip with
            | None => mret 1
            | Some zip_abs =>
                archive ← local (fun fs => zip_dir fs staging);
                match archive with
                | None => mret 1
                | Some data =>
                    _ ← on_local <[zip_abs := data]>;
                    _ ← (if keep_staging then mret tt else on_local (remove_tree staging));
                    mret (if (0 <? r.2)%nat then 1 else 0)
                end
            end
        end
  | _, _ => mret 1
  end.

(** ** Restore *)

(** The keys the manifest of an unpacked archive lists. *)
Definition unpacked_shards (text : option bytes) : list shard_entry :=
  let manifest :=
    match text with
    | Some data =>
        if (0 <? size_of data) && (size_of data <? 64 * 1024 * 1024)
        then json_parse (str (cstr (chars (string_of_bytes data)))) else None
    | None => None
    end in
  take MAX_SHARDS
    (omap (fun s => (fun key => ShardEntry (snprintf 33 key) (default 0 (get_ll s "size")) false None []) <$> get_string s "key")
          (array_of (manifest ≫= fun m => get_item m "shards"))).

Definition restore_nodes (c : http_client) (cluster : option json * Z) : list cluster_node :=
  let nodes := match cluster.1 with Some j => if cluster.2 <? 400 then cluster_nodes j else [] | None => [] end in
  match nodes with
  | [] => let name := default "local" (g_host c) in
          [ClusterNode (snprintf EDB_NODE_ID_MAX name) (snprintf EDB_ADDR_MAX name) 0
             (match g_host c with Some _ => g_port c | None => 0 end) true false]
  | _ => sort_nodes nodes
  end.

Definition seed_addr (c : http_client) : string := default "local" (g_host c).
Definition seed_port (c : http_client) : Z := match g_host c with Some _ => g_port c | None => 0 end.

(** How many nodes took the lock. *)
Fixpoint lock_nodes (c : http_client) (nodes : list cluster_node) : tst nat :=
  match nodes with
  | [] => mret O
  | node :: nodes =>
      ok ← (if negb (cn_online node) then mret false
            else if 0 <? cn_http_port node then
              r ← http_json (at_node c (cn_addr node) (cn_http_port node)) "POST" "/admin/restore/lock";
              mret (r.2 =? 200)
            else if String.eqb (cn_addr node) (seed_addr c) && ((seed_port c =? 0) || (cn_mesh_port node =? 0)) then
              r ← http_json c "POST" "/admin/restore/lock"; mret (r.2 =? 200)
            else mret false);
      locked ← lock_nodes c nodes;
      mret (if ok : bool then S locked else locked)
  end.

(** A request to every node that is online. *)
Definition node_request (c : http_client) (node : cluster_node) (path : string) : tst (option json * Z) :=
  if 0 <? cn_http_port node then http_json (at_node c (cn_addr node) (cn_http_port node)) "POST" path
  else if String.eqb (cn_addr node) (seed_addr c) then http_json c "POST" path
  else mret (None, 0).

Fixpoint all_nodes (c : http_client) (path : string) (nodes : list cluster_node) : tst unit :=
  match nodes with
  | [] => mret tt
  | node :: nodes => _ ← (if cn_online node then _ ← node_request c node path; mret tt else mret tt); all_nodes c path nodes
  end.

(** [sizeof(chunk)], the size of the pointer. *)
Definition CHUNK : nat := 8.

(** [data] is what is left of the file from [offset] on. *)
Fixpoint push_chunks (fuel : nat) (c : http_client) (key : string) (offset : Z) (data : bytes) : tst bool :=
  match fuel, data with
  | _, [] => mret true
  | O, _ => mret false
  | S fuel, _ =>
      let chunk := take CHUNK data in
      let rest := drop CHUNK data in
      let last := match rest with [] => "&final=1"%string | _ => "" end in
      r ← http_request_raw c "PUT"
            (snprintf 1200 ("/admin/restore/shard/" +:+ key +:+ "?offset=" +:+ print_i64 offset +:+ last))
            (string_of_bytes chunk);
      if negb (r.2 =? 200) then mret false else push_chunks fuel c key (offset + size_of chunk) rest
  end.

Definition push_file (c : http_client) (node : cluster_node) (key : string) (data : bytes) : tst bool :=
  push_chunks (length data) (at_node c (cn_addr node) (cn_http_port node)) key 0 data.

(** How many pushes failed. *)
Fixpoint push_to (c : http_client) (nodes : list cluster_node) (key : string) (data : bytes) : tst nat :=
  match nodes with
  | [] => mret O
  | node :: nodes =>
      ok ← (if negb (cn_online node) || (cn_http_port node <=? 0) then mret true else push_file c node key data);
      failed ← push_to c nodes key data;
      mret (if ok : bool then failed else S failed)
  end.

Fixpoint push_all (c : http_client) (dir : string) (nodes : list cluster_node) (shards : list shard_entry) : tst nat :=
  match shards with
  | [] => mret O
  | e :: shards =>
      let path := dir +:+ "/" +:+ e_key e +:+ ".sqlite" in
      data ← local (fun fs => if (4096 <=? String.length path)%nat then None else fs !! path);
      failed ← match data with Some d => push_to c nodes (e_key e) d | None => mret 1%nat end;
      more ← push_all c dir nodes shards;
      mret (failed + more)%nat
  end.

Definition cmd_restore (c : http_client) (zip_path : string) : tst Z :=
  let dir := zip_path +:+ ".unpacked" in
  if (4096 <=? String.length dir)%nat then mret 1
  else
    _ ← on_local (remove_tree dir);
    unpacked ← local (fun fs => fs !! zip_path ≫= fun data => unzip_dir data dir);
    match unpacked with
    | None => mret 1
    | Some tree =>
        _ ← on_local (fun fs => tree ∪ fs);
        let mpath := dir +:+ "/manifest.json" in
        if (4096 <=? String.length mpath)%nat then mret 1
        else
          text ← local (fun fs => fs !! mpath);
          match sort_shards (unpacked_shards text) with
          | [] => mret 1
          | shards =>
              cluster ← http_json c "GET" "/admin/cluster";
              let nodes := restore_nodes c cluster in
              locked ← lock_nodes c nodes;
              if (locked =? 0)%nat then mret 1
              else
                _ ← all_nodes c "/admin/restore/wipe" nodes;
                failed ← push_all c dir nodes shards;
                _ ← all_nodes c "/admin/restore/unlock" nodes;
                _ ← on_local (remove_tree dir);
                mret (if (0 <? failed)%nat then 1 else 0)
          end
    end.

End tool.
End BackupTool.
