(* ===== verification/ApiClusterFacts.v ===== *)
(** What the routes of [ApiCluster] do to the data directory: an upload
    touches one shard, pieces sent in order add up, a wipe spares the system;
    and what joining reports. *)

From S2P Require Import Prelude Json Manager EngineFacts Store MapStore Config ConfigFacts Wire Cluster Repl ReplHandlers EqlExec Http HttpFacts Api ApiAdmin ApiFacts Snap ApiCluster.

Module ApiClusterFacts.

Import Json Manager Store Config Wire Cluster Repl ReplHandlers EqlExec Http HttpFacts Api ApiAdmin ApiFacts Snap ApiCluster.

Section state.
Context {S : Type}.

(** Steps of the API or the engine leave the directory and the cluster. *)
Lemma in_api_run {A} (m : st (api S) A) (n : node S) :
  (in_api m n).1 = (m (n_api n)).1 /\ n_api (in_api m n).2 = (m (n_api n)).2 /\ n_files (in_api m n).2 = n_files n /\
  n_cluster (in_api m n).2 = n_cluster n.
Proof. unfold in_api. by destruct (m (n_api n)). Qed.

Lemma in_engine_run {A} (m : st S A) (n : node S) :
  (in_engine m n).1 = (m (a_store (n_api n))).1 /\ n_files (in_engine m n).2 = n_files n /\
  n_cluster (in_engine m n).2 = n_cluster n /\ a_restore_locked (n_api (in_engine m n).2) = a_restore_locked (n_api n).
Proof. unfold in_engine, in_api, on_store. by destruct (m (a_store (n_api n))). Qed.
End state.

Section files.
Context {S : Type} {RS : RecordStore S} {JC : JsonCodec} {SF : ShardFiles S} {NW : Network S}.
Context (cfg : edb_config S) (now : Z) (path : string).

(** A request from an administrator that is let in without a trace. *)
Definition admin_request (req : edb_http_request) (n : node S) : Prop :=
  exists g, authenticate now req (n_api n) = ((true, g), n_api n) /\ is_admin g = true.

Lemma trusted_admin req n : rq_trusted req = true -> admin_request req n.
Proof. intros H. exists ALL_GROUPS. unfold authenticate. by rewrite H. Qed.

Lemma node_admin_run req k n : admin_request req n -> node_admin now req k n = k n.
Proof.
  intros (g & E & Hg).
  assert (Er : in_api (authenticate now req) n = ((true, g), n)) by (unfold in_api; rewrite E; by destruct n).
  unfold node_admin. rewrite st_bind_run, Er. cbn [fst snd negb]. by rewrite Hg.
Qed.

Lemma node_route_run method req k n : rq_method req = method -> admin_request req n -> node_route now method req k n = k n.
Proof. intros <- H. unfold node_route. rewrite String.eqb_refl. cbn [negb]. by apply node_admin_run. Qed.

Lemma under_lock_run k (n : node S) : a_restore_locked (n_api n) = true -> under_lock k n = k n.
Proof. intros H. unfold under_lock. rewrite st_bind_run. cbn [peek fst snd]. by rewrite H. Qed.

(** A route answers without the handler or runs it on the node after authentication. *)
Lemma node_route_cases method req k n :
  (exists res, node_route now method req k n = (res, n) \/ node_route now method req k n = (res, (in_api (authenticate now req) n).2)) \/
  (authenticate now req (n_api n)).1.1 = true /\ is_admin (authenticate now req (n_api n)).1.2 = true /\
  node_route now method req k n = k (in_api (authenticate now req) n).2.
Proof.
  unfold node_route. destruct (negb _); [left; eexists; by left|]. unfold node_admin. rewrite st_bind_run.
  destruct (in_api_run (authenticate now req) n) as [E _]. rewrite E.
  destruct (authenticate now req (n_api n)).1 as [ok g]. cbn [fst snd]. destruct ok; cbn [negb]; [|left; eexists; by right].
  destruct (is_admin g); [by right|left; eexists; by right].
Qed.

(** ** Uploads *)

(** A change of the directory within what an upload of [key] may touch. *)
Definition confined (key : string) (fs fs' : files) : Prop := forall f, fs' !! f <> fs !! f ->
  f = upload_path path key \/ f ∈ side_files (local_path path key) \/
  f = local_path path key /\ exists data, fs' !! f = Some data /\ integrity_ok data = true.

Lemma confined_tmp key fs fs' fs'' : (forall f, f <> upload_path path key -> fs' !! f = fs !! f) ->
  confined key fs' fs'' -> confined key fs fs''.
Proof.
  intros H Hc f Hf. destruct (decide (f = upload_path path key)) as [->|Hne]; [by left|]. apply Hc. by rewrite H.
Qed.

Lemma confined_only key fs fs' : (forall f, f <> upload_path path key -> fs' !! f = fs !! f) -> confined key fs fs'.
Proof. intros H f Hf. left. destruct (decide (f = upload_path path key)); [done|]. by rewrite H in Hf. Qed.

Lemma lookup_foldr_delete (l : list string) (fs : files) f : f ∉ l -> foldr delete fs l !! f = fs !! f.
Proof.
  induction l as [|x l IH]; [done|]. intros [Hx Hl]%not_elem_of_cons. cbn [foldr].
  rewrite lookup_delete_ne by done. by apply IH.
Qed.

Lemma place_confined o key (n : node S) : confined key (n_files n) (n_files (place_shard path o key n).2).
Proof.
  assert (Hdel : forall res, confined key (n_files n) (n_files ((_ ← on_files (delete (upload_path path key)); mret res : st (node S) edb_http_response) n).2)).
  { intros res. apply confined_only. intros f Hf. rewrite st_bind_run. cbn [on_files fst snd mret st_ret n_files].
    by rewrite lookup_delete_ne. }
  unfold place_shard. rewrite st_bind_run. cbn [peek fst snd]. destruct (integrity_ok _) eqn:Ei; cbn [negb]; [|apply Hdel].
  destruct (up_renamed o); cbn [negb]; [|apply Hdel]. rewrite st_bind_run. cbn [on_files fst snd mret st_ret n_files].
  intros f Hf. destruct (decide (f ∈ side_files (local_path path key))) as [|Hs]; [by right; left|].
  rewrite lookup_foldr_delete in Hf |- * by done. destruct (decide (f = local_path path key)) as [->|Hl].
  - right. right. split; [done|]. eexists. split; [apply lookup_insert_eq|done].
  - rewrite lookup_insert_ne in Hf by done. left. destruct (decide (f = upload_path path key)); [done|].
    by rewrite lookup_delete_ne in Hf.
Qed.

Lemma upload_confined o req key (n : node S) : confined key (n_files n) (n_files (upload_chunk path o req key n).2).
Proof.
  unfold upload_chunk. set (offset := match query_param req "offset" 32 with Some t => _ | None => 0 end). clearbody offset.
  set (final := match query_param req "final" 8 with Some t => _ | None => false end). clearbody final.
  destruct (up_opened o); cbn [negb]; [|by intros f]. rewrite st_bind_run. cbn [on_files fst snd].
  match goal with |- context [(if offset <? 0 then _ else _) ?x] => set (n0 := x) end.
  apply confined_tmp with (fs' := n_files n0); [intros f Hf; subst n0; cbn [n_files]; by rewrite lookup_insert_ne|].
  destruct (offset <? 0); [by intros f|]. rewrite st_bind_run.
  match goal with |- context [(if ?b then mret tt else ?m) n0] => set (n1 := ((if b then mret tt else m) n0).2) end.
  assert (H1 : forall f, f <> upload_path path key -> n_files n1 !! f = n_files n0 !! f).
  { intros f Hf. subst n1. destruct (_ =? 0)%nat; [done|]. cbn [on_files snd n_files]. rewrite lookup_alter_ne; [done|]. by apply not_eq_sym. }
  apply confined_tmp with (fs' := n_files n1); [exact H1|].
  match goal with |- context [if ?b then mret (respond_error 500 _) else _] => destruct b end; [by intros f|]. destruct final; [apply place_confined|].
  rewrite st_bind_run. by intros f.
Qed.
End files.

(** ** Wiping *)

Section wipe.
Context {S : Type} {RS : RecordStore S} {JC : JsonCodec} {SF : ShardFiles S} {NW : Network S}.
Context (path : string) (unlinks : string -> bool).

Definition wipeable (keys : list string) (f : string) : Prop := exists key, key ∈ keys /\
  String.length key = 32%nat /\ edb_config_is_system_key path key = false /\ unlinks key = true /\ f = shard_path path key.

Lemma gc_shard_run key (n : node S) :
  let n' := (gc_shard path unlinks key n).2 in
  n_cluster n' = n_cluster n /\ a_restore_locked (n_api n') = a_restore_locked (n_api n) /\
  n_files n' = if (String.length key =? 32)%nat && unlinks key then delete (shard_path path key) (n_files n) else n_files n.
Proof.
  unfold gc_shard. destruct (String.length key =? 32)%nat; cbn [negb andb]; [|done]. rewrite st_bind_run.
  destruct (in_engine_run (drop_handle key) n) as (_ & Hf & Hc & Hl). destruct (unlinks key); [|done].
  rewrite st_bind_run. cbn [on_files fst snd mret st_ret n_files n_cluster n_api]. by rewrite Hf.
Qed.

Lemma wipe_run keys w (n : node S) :
  let n' := (wipe_keys path unlinks keys w n).2 in
  n_cluster n' = n_cluster n /\ a_restore_locked (n_api n') = a_restore_locked (n_api n) /\
  forall f, (wipeable keys f -> n_files n' !! f = None) /\ (~ wipeable keys f -> n_files n' !! f = n_files n !! f).
Proof.
  revert w n. induction keys as [|key keys IH]; intros w n; cbn [wipe_keys].
  - split_and!; [done..|]. intros f. split; [by intros (k & ?%elem_of_nil & _)|done].
  - assert (Htail : forall f, wipeable (key :: keys) f <-> wipeable [key] f \/ wipeable keys f).
    { intros f. unfold wipeable. split.
      - intros (k & [->|Hk]%elem_of_cons & H); [left|right]; eexists; (split; [|exact H]); [by apply list_elem_of_singleton|done].
      - intros [(k & ->%list_elem_of_singleton & H)|(k & Hk & H)]; eexists; (split; [|exact H]); by constructor. }
    destruct (edb_config_is_system_key path key) eqn:Es.
    + destruct (IH w n) as (Hc & Hl & Hf). split_and!; [done..|]. intros f. rewrite Htail. destruct (Hf f) as [H1 H2].
      split; [|intros H; apply H2; tauto]. intros [(k & ->%list_elem_of_singleton & _ & E & _)|H]; [congruence|by apply H1].
    + rewrite st_bind_run. destruct (gc_shard_run key n) as (Gc & Gl & Gf). set (n1 := (gc_shard path unlinks key n).2) in *.
      destruct (IH (if (gc_shard path unlinks key n).1 then Datatypes.S w else w) n1) as (Hc & Hl & Hf).
      split_and!; [by etrans|by etrans|]. intros f. rewrite Htail. destruct (Hf f) as [H1 H2].
      assert (Hkey : wipeable [key] f <-> (String.length key =? 32)%nat && unlinks key = true /\ f = shard_path path key).
      { unfold wipeable. rewrite andb_true_iff, Nat.eqb_eq. split.
        - by intros (k & ->%list_elem_of_singleton & ? & _ & ? & ->).
        - intros [[? ?] ->]. exists key. by rewrite list_elem_of_singleton. }
      rewrite Hkey. split.
      * intros [[E ->]|H]; [|by apply H1]. rewrite E in Gf.
        destruct (decide (n_files (wipe_keys path unlinks keys (if (gc_shard path unlinks key n).1 then Datatypes.S w else w) n1).2 !! shard_path path key = None)) as [|Hn]; [done|].
        rewrite H2 by (intros Hw; by apply Hn, H1). rewrite Gf. apply lookup_delete_eq.
      * intros H. rewrite H2 by tauto. rewrite Gf. destruct (_ && _); [|done]. rewrite lookup_delete_ne; [done|]. intros <-. tauto.
Qed.

(** All keys are found: the buffer grows until it is not full. *)
Lemma keys_within_all fuel cap entries : (Datatypes.S (length entries) < cap + fuel)%nat -> (0 < cap)%nat -> (0 < fuel)%nat ->
  keys_within fuel cap entries = omap shard_file_key entries.
Proof.
  assert (Hle : (length (omap shard_file_key entries) <= length entries)%nat).
  { clear. induction entries as [|e l IH]; [done|]. cbn [omap list_omap length]. destruct (shard_file_key e); simpl; lia. }
  revert cap. induction fuel as [|fuel IH]; intros cap Hf Hc Hp; [lia|cbn [keys_within]].
  unfold edb_engine_shard_keys. rewrite length_take.
  destruct (Nat.ltb_spec (Nat.min cap (length (omap shard_file_key entries))) cap) as [Hlt|Hge].
  - apply take_ge. lia.
  - apply IH; lia.
Qed.
End wipe.

(** ** Pieces *)

Section pieces.
Context {S : Type} {RS : RecordStore S} {JC : JsonCodec} {SF : ShardFiles S} {NW : Network S}.
Context (path : string).

Definition with_dir (fs : files) (n : node S) : node S := Node (n_api n) (n_cluster n) (n_repl n) fs (n_turn n).

Lemma pwrite_end old data : pwrite data (length old) old = old ++ data.
Proof.
  unfold pwrite. rewrite Nat.sub_diag. cbn [repeat]. rewrite app_nil_r, take_ge by lia.
  rewrite drop_ge by lia. by rewrite app_nil_r.
Qed.

(** What is in the temporary file before a piece at an offset. *)
Definition pieces_before (key : string) (off : nat) (n : node S) : bytes :=
  if (off =? 0)%nat then [] else default [] (n_files n !! upload_path path key).

Definition offset_of (req : edb_http_request) : Z := match query_param req "offset" 32 with Some t => (strtoll t).1.1 | None => 0 end.
Definition is_final (req : edb_http_request) : bool := match query_param req "final" 8 with Some t => String.eqb t "1" | None => false end.

(** The system calls work. *)
Definition upload_works (o : upload_outcome) (len : nat) : Prop :=
  up_opened o = true /\ up_renamed o = true /\ exists w, up_written o = Some w /\ (len <= w)%nat.

Lemma piece_written o req key off n : upload_works o (length (bytes_of_string (rq_body req))) ->
  offset_of req = Z.of_nat off -> length (pieces_before key off n) = off ->
  let content := pieces_before key off n ++ bytes_of_string (rq_body req) in
  let n' := with_dir (<[upload_path path key := content]> (n_files n)) n in
  upload_chunk path o req key n =
    if is_final req then place_shard path o key n'
    else (respond_json 200 (Some (JObject [("offset", jnum (size_of content))])), n').
Proof.
  intros (Ho & _ & w & Hw & Hlen) Hoff Hbefore. cbv zeta. unfold upload_chunk. fold (offset_of req). fold (is_final req).
  rewrite Ho, Hoff, Hw. cbn [negb]. rewrite st_bind_run. cbn [on_files fst snd].
  destruct (Z.ltb_spec (Z.of_nat off) 0); [lia|]. rewrite Nat.min_r by done.
  rewrite Nat.eqb_refl. cbn [negb]. set (data := bytes_of_string (rq_body req)) in *. rewrite take_ge by lia.
  assert (Hold : (if Z.of_nat off =? 0 then [] else default [] (n_files n !! upload_path path key)) = pieces_before key off n).
  { unfold pieces_before. by destruct (Z.eqb_spec (Z.of_nat off) 0), (Nat.eqb_spec off 0); try lia. }
  rewrite Hold. set (old := pieces_before key off n) in *.
  assert (Ew : forall k, ((_ ← (if (length data =? 0)%nat then mret tt
       else on_files (alter (pwrite data (Z.to_nat (Z.of_nat off))) (upload_path path key))); k : st (node S) edb_http_response)
      (with_dir (<[upload_path path key := old]> (n_files n)) n)) = k (with_dir (<[upload_path path key := old ++ data]> (n_files n)) n)).
  { intros k. rewrite st_bind_run. destruct (Nat.eqb_spec (length data) 0) as [E0|_].
    - apply length_zero_iff_nil in E0. by rewrite E0, app_nil_r.
    - unfold on_files, with_dir. cbn [fst snd n_files n_api n_cluster n_repl n_turn]. f_equal. f_equal.
      rewrite alter_insert_eq. by rewrite Nat2Z.id, <-Hbefore, pwrite_end. }
  change (Node (n_api n) (n_cluster n) (n_repl n) (<[upload_path path key := old]> (n_files n)) (n_turn n))
    with (with_dir (<[upload_path path key := old]> (n_files n)) n).
  rewrite Ew. destruct (is_final req); [done|]. rewrite st_bind_run. unfold with_dir. cbn [peek fst snd mret st_ret n_files].
  by rewrite lookup_insert_eq.
Qed.

Lemma shard_placed o key content n : upload_works o 0 -> integrity_ok content = true ->
  n_files n !! upload_path path key = Some content ->
  let file := local_path path key in
  place_shard path o key n = (respond_json 200 (Some (JObject [("restored", JBool true)])),
    with_dir (foldr delete (<[file := content]> (delete (upload_path path key) (n_files n))) (side_files file)) n).
Proof.
  intros (_ & Hr & _) Hi Hc. cbv zeta. unfold place_shard. rewrite st_bind_run. cbn [peek fst snd]. rewrite Hc.
  change (default [] (Some content)) with content. rewrite Hi, Hr. cbn [negb]. by rewrite st_bind_run.
Qed.
End pieces.

(** ** The routes *)

Section routes.
Context {S : Type} {RS : RecordStore S} {JC : JsonCodec} {RL : RecordStoreLaws S} {SF : ShardFiles S} {NW : Network S}.
Context (cfg : edb_config S) (now : Z) (path : string).
Hypothesis covers : forall ks, ks ∈ system_keyspaces -> ks ∈ rs_keyspaces (S := S).

(** C20: Whatever a request to restore a shard asks and however the
    system calls turn out, a file changes only if the restore lock is held and
    the caller is an administrator by the records, and then it belongs to the
    upload of one shard that is not a system shard: its temporary file, its
    side files, or the shard itself, which then passes the integrity check. *)
Theorem restore_touches_one_shard o req n f (Hs : rs_ok (a_store (n_api n)))
  (Hf : n_files (handle_restore_shard_upload now path o req n).2 !! f <> n_files n !! f) :
  a_restore_locked (n_api n) = true /\ (identify now (n_api n) req).1 && is_admin (identify now (n_api n) req).2 = true /\
  exists key, valid_key key = true /\ edb_config_is_system_key path key = false /\
    (f = upload_path path key \/ f ∈ side_files (local_path path key) \/
     f = local_path path key /\ exists data, n_files (handle_restore_shard_upload now path o req n).2 !! f = Some data /\ integrity_ok data = true).
Proof using RL covers.
  unfold handle_restore_shard_upload in *.
  match type of Hf with context [node_route now "PUT" req ?k n] =>
    destruct (node_route_cases now "PUT" req k n) as [(res & [E|E])|(Hok & Hadm & E)]; rewrite E in Hf |- *; clear E; set (body := k) in * end.
  - by destruct Hf.
  - destruct (in_api_run (authenticate now req) n) as (_ & _ & E & _). cbn [snd] in Hf. by rewrite E in Hf.
  - destruct (authenticate_spec now covers req (n_api n) Hs) as [Eid [_ Hl]]. rewrite Eid in Hok, Hadm. rewrite Hok, Hadm.
    destruct (in_api_run (authenticate now req) n) as (_ & Ea & Ef & _). set (n1 := (in_api (authenticate now req) n).2) in *.
    rewrite <-Ea in Hl. rewrite <-Ef in Hf. subst body. cbv beta in *. unfold under_lock in *. rewrite st_bind_run in *.
    cbn [peek fst snd] in *. destruct (a_restore_locked (n_api n1)); [|by destruct Hf]. split; [by symmetry|]. split; [done|].
    exists (skip_chars 21 (rq_path req)). destruct (valid_key _); [|by destruct Hf]. cbn [negb] in *.
    destruct (edb_config_is_system_key _ _); [by destruct Hf|]. split; [done|]. split; [done|].
    by apply (upload_confined path o req _ n1).
Qed.
End routes.

(** ** Joining *)

Section joining.
Context {S : Type} {RS : RecordStore S} {JC : JsonCodec} {SF : ShardFiles S} {NW : Network S}.
Context (cfg : edb_config S) (now : Z) (path : string) (others : nat -> node S -> node S) (transfers : nat -> transfer).

Definition no_target (n : node S) : Prop := match n_cluster n with Some cl => target_generation cl = 0 | None => True end.

Lemma wait_in_vain tries n : (forall i n, no_target n -> no_target (others i n) /\ n_files (others i n) = n_files n) -> no_target n ->
  (wait_for_target others tries n).1 = false /\ no_target (wait_for_target others tries n).2 /\
  n_files (wait_for_target others tries n).2 = n_files n.
Proof.
  intros Ho. revert n. induction tries as [|tries IH]; intros n Hn; [done|]. cbn [wait_for_target]. rewrite st_bind_run.
  assert (Eg : (pending_generation n).1 = 0) by (unfold pending_generation, peek, no_target in *; cbn; by destruct (n_cluster n)).
  rewrite Eg. cbn [Z.ltb Z.compare pending_generation peek fst snd]. rewrite st_bind_run.
  destruct (Ho (n_turn n) n Hn) as [Hn' Hf]. destruct (IH (await others n).2 Hn') as (H1 & H2 & H3).
  split_and!; [done..|]. by rewrite H3.
Qed.

Lemma on_cluster_files {A} (m : edb_cluster -> st S (A * edb_cluster)) none n : n_files (on_cluster m none n).2 = n_files n.
Proof.
  unfold on_cluster. rewrite st_bind_run. cbn [peek fst snd]. destruct (n_cluster n); [|done]. rewrite !st_bind_run.
  by destruct (in_engine_run (m e) n) as (_ & Hf & _).
Qed.

(** When no target is published within ten seconds, a join answers that the
    node is in sync: no shard was fetched but the system's. *)
Theorem unsynced_join reply addr port n n1
  (Hothers : forall i n, no_target n -> no_target (others i n) /\ n_files (others i n) = n_files n)
  (Hsystem : sync_system path others transfers addr port (edb_config_system_keyspaces 9).1 (set_auto_compliant false n).2 = (None, n1))
  (Hnone : no_target n1) :
  (join_rebalance cfg path others transfers reply addr port n).1 = JOINED /\
  n_files (join_rebalance cfg path others transfers reply addr port n).2 = n_files n1.
Proof.
  unfold join_rebalance. rewrite !st_bind_run, Hsystem. cbn [fst snd].
  destruct (wait_in_vain 100 n1 Hothers Hnone) as (E & _ & Hf). rewrite E. cbn [fst snd mret st_ret]. split; [done|].
  unfold set_auto_compliant, mark_compliant. by rewrite !on_cluster_files.
Qed.

(** A join with a secret that fails turns the encryption of the mesh off,
    also when the node had a key. *)
Theorem failed_join_drops_key frames written reply req n cl body addr port secret keys
  (Hmethod : rq_method req = "POST"%string) (Hadmin : admin_request now req n) (Hcluster : n_cluster n = Some cl)
  (Hbody : body_object req = Some body) (Hjoin : join_request body = Some (addr, port))
  (Hsecret : get_string body "secret" ≫= not_empty = Some secret) (Hkeys : edb_cluster_derive_keys secret = Some keys)
  (Hfail : (edb_cluster_join cfg now frames addr port cl (a_store (n_api n))).1.1 <> 0) :
  a_mesh_key (n_api (handle_admin_join cfg now path others transfers frames written reply req n).2) = None.
Proof.
  unfold handle_admin_join. rewrite node_route_run by done. unfold with_cluster. rewrite st_bind_run. cbn [peek fst snd].
  rewrite Hcluster. cbn iota beta. rewrite Hbody, Hjoin, Hsecret. cbn [mbind option_bind]. rewrite Hkeys. cbn iota beta. rewrite !st_bind_run.
  set (n1 := (use_mesh_key (Some keys) n).2). assert (Hc1 : n_cluster n1 = Some cl /\ a_store (n_api n1) = a_store (n_api n)).
  { subst n1. unfold use_mesh_key, in_api, set_mesh_key. by destruct n as [[] ? ? ? ?]. }
  assert (Er : (on_cluster (edb_cluster_join cfg now frames addr port) (-1) n1).1 <> 0).
  { unfold on_cluster. rewrite st_bind_run. cbn [peek fst snd]. rewrite (proj1 Hc1). cbn iota beta. rewrite !st_bind_run. cbn [mret st_ret fst].
    destruct (in_engine_run (edb_cluster_join cfg now frames addr port cl) n1) as (E & _). by rewrite E, (proj2 Hc1). }
  destruct (Z.eqb_spec (on_cluster (edb_cluster_join cfg now frames addr port) (-1) n1).1 0); [done|]. cbn [negb].
  rewrite st_bind_run. set (n2 := (on_cluster _ _ n1).2). unfold use_mesh_key, in_api, set_mesh_key. by destruct n2 as [[] ? ? ? ?].
Qed.
End joining.

(** ** A join that was told to synchronize *)

Section synced.
Context {S : Type} {RS : RecordStore S} {JC : JsonCodec} {RL : RecordStoreLaws S} {SF : ShardFiles S} {NW : Network S}.
Context (cfg : edb_config S) (path : string) (others : nat -> node S -> node S) (transfers : nat -> transfer).
Hypothesis covers : forall ks, ks ∈ system_keyspaces -> ks ∈ rs_keyspaces (S := S).

Definition target_of (n : node S) : option (string * list edb_range_info) := (fun cl => (self_id cl, target_ranges cl)) <$> n_cluster n.
Definition intact (p k : string) (n : node S) : Prop := validate_shard path (n_files n) p k = true.

(** What the target gives the node. *)
Definition assigned (target : option (string * list edb_range_info)) (k : edb_keyspace_info) : bool :=
  match target, edb_shard_path path (k_partition k) (k_name k) 1024 with
  | Some (self, ranges), Some (_, key) => negb (edb_config_is_system_key path key) && bool_decide (table_owner ranges key = Some self)
  | _, _ => false
  end.

(** While the request waits other threads keep the target and the shards that
    are there. *)
Hypothesis others_keep : forall i n, target_of (others i n) = target_of n /\ forall p k, intact p k n -> intact p k (others i n).

Lemma validate_same fs fs' p k : fs' !! shard_path path (shard_key p k) = fs !! shard_path path (shard_key p k) ->
  validate_shard path fs' p k = validate_shard path fs p k.
Proof.
  intros H. unfold validate_shard, edb_shard_path. destruct (_ <=? _)%nat; [done|].
  change (path +:+ "/" +:+ shard_file (shard_key p k)) with (shard_path path (shard_key p k)). by rewrite H.
Qed.

Lemma validate_key fs p k p' k' : shard_key p k = shard_key p' k' -> validate_shard path fs p k = validate_shard path fs p' k'.
Proof. intros H. unfold validate_shard, edb_shard_path. by rewrite H. Qed.

(** The node keeps its target and the shards of other keys. *)
Definition keeps_others (key : string) (n n' : node S) : Prop := target_of n' = target_of n /\
  forall p k, shard_key p k <> key -> intact p k n -> intact p k n'.

Lemma keeps_trans key n n' n'' : keeps_others key n n' -> keeps_others key n' n'' -> keeps_others key n n''.
Proof. intros [E H] [E' H']. split; [by etrans|]. intros p k Hk Hi. by apply H', H. Qed.

Lemma keeps_same key n n' : target_of n' = target_of n -> n_files n' = n_files n -> keeps_others key n n'.
Proof. intros E Hf. split; [done|]. intros p k _. unfold intact. by rewrite Hf. Qed.

Lemma keeps_engine {A} key (m : st S A) n : keeps_others key n (in_engine m n).2.
Proof. destruct (in_engine_run m n) as (_ & Hf & Hc & _). apply keeps_same; [|done]. unfold target_of. by rewrite Hc. Qed.

Lemma snap_fetch_files space writable dialled suffix reply renamed addr port key am s f :
  f <> shard_path path key -> (forall sx, f <> incoming_name path key sx) ->
  sd_files (snap_fetch space writable dialled suffix reply renamed addr port key path am s).2 !! f = sd_files s !! f.
Proof.
  intros H1 H2. unfold snap_fetch. destruct addr; [|done]. destruct (_ || _); [done|]. destruct (_ || _); [done|].
  assert (Hsend : forall fr x, sd_files (send fr x).2 = sd_files x) by (intros fr x; unfold send; by destruct (sd_outcomes x) as [|[] ?]).
  rewrite st_bind_run. destruct (send HELLO_EPHEMERAL s) as [ok s1] eqn:E1. cbn [fst snd].
  pose proof (Hsend HELLO_EPHEMERAL s) as F1. rewrite E1 in F1. cbn [snd] in F1. destruct ok; cbn [negb]; [|cbn; by rewrite F1].
  rewrite st_bind_run. destruct (send _ s1) as [ok s2] eqn:E2. cbn [fst snd].
  pose proof (Hsend (request_frame key am) s1) as F2. rewrite E2 in F2. cbn [snd] in F2. rewrite F1 in F2.
  destruct ok; cbn [negb]; [|cbn; by rewrite F2]. destruct suffix as [sx|]; [|cbn; by rewrite F2].
  rewrite st_bind_run. cbn [with_files fst snd]. specialize (H2 sx).
  destruct (fetch_loop _ _ _ _); rewrite st_bind_run; cbn [with_files fst snd sd_files mret st_ret].
  - destruct renamed; [rewrite lookup_insert_ne by done|]; rewrite lookup_delete_ne, lookup_insert_ne by done; by rewrite F2.
  - rewrite lookup_delete_ne, lookup_insert_ne by done. by rewrite F2.
Qed.

Lemma fetch_shard_files t required addr port key (n : node S) :
  n_cluster (fetch_shard path t required addr port key n).2 = n_cluster n /\
  forall f, f <> shard_path path key -> (forall sx, f <> incoming_name path key sx) ->
    n_files (fetch_shard path t required addr port key n).2 !! f = n_files n !! f.
Proof.
  pose proof (fun am f => snap_fetch_files (tr_space t) (tr_writable t) (tr_dialled t) (tr_suffix t) (tr_reply t) (tr_renamed t)
    (Some addr) port key am (Side (n_files n) [] (tr_sends t)) f) as H.
  unfold fetch_shard. destruct required; unfold edb_snap_fetch_required, edb_snap_fetch.
  - specialize (H false). by destruct (snap_fetch _ _ _ _ _ _ _ _ _ _ _ _).
  - specialize (H true). by destruct (snap_fetch _ _ _ _ _ _ _ _ _ _ _ _).
Qed.

Lemma file_length key : String.length key = 32%nat -> String.length (shard_path path key) = (String.length path + 40)%nat.
Proof. intros H. unfold shard_path. rewrite !length_append, H. simpl. lia. Qed.

Lemma shard_path_inj a b : shard_path path a = shard_path path b -> a = b.
Proof.
  unfold shard_path. intros H. assert (Hc : forall s x y, s +:+ x = s +:+ y -> x = y)
    by (clear; intros s x y; induction s as [|c s IH]; [done|]; intros [= ?]; by apply IH).
  apply (Hc path) in H. apply (Hc "/"%string) in H. by apply EngineFacts.append_inj_r in H.
Qed.

Lemma catchup_keeps addr port p0 k0 required n :
  keeps_others (shard_key p0 k0) n (repl_catchup path others transfers addr port p0 k0 required n).2.
Proof using others_keep.
  assert (Hrepl : forall f n, keeps_others (shard_key p0 k0) n (on_repl f n).2) by (intros; by apply keeps_same).
  unfold repl_catchup. rewrite st_bind_run. set (n1 := (on_repl _ n).2). apply keeps_trans with n1; [apply Hrepl|]. clearbody n1.
  destruct (edb_shard_path path p0 k0 1024) as [[file key]|] eqn:Ep; [|rewrite st_bind_run; by apply keeps_same].
  assert (Ek : file = shard_path path (shard_key p0 k0) /\ key = shard_key p0 k0)
    by (unfold edb_shard_path in Ep; destruct (_ <=? _)%nat; [done|]; by injection Ep as <- <-).
  destruct Ek as [-> ->]. rewrite st_bind_run. set (n2 := (await others n1).2).
  apply keeps_trans with n2. { destruct (others_keep (n_turn n1) n1) as [H1 H2]. split; [exact H1|]. intros p k _. apply H2. }
  set (i := (await others n1).1). clearbody n2 i. rewrite st_bind_run.
  set (n3 := (fetch_shard path (transfers i) required addr port (shard_key p0 k0) n2).2).
  apply keeps_trans with n3.
  { subst n3. destruct (fetch_shard_files (transfers i) required addr port (shard_key p0 k0) n2) as [Hc Hff].
    split; [unfold target_of; by rewrite Hc|]. intros p k Hk Hi. unfold intact in *. erewrite validate_same; [exact Hi|]. apply Hff.
    - intros E. by apply Hk, shard_path_inj.
    - intros sx E. apply (f_equal String.length) in E. rewrite file_length in E by apply EngineFacts.length_shard_key.
      unfold incoming_name in E. rewrite !length_append, EngineFacts.length_shard_key in E. simpl in E. lia. }
  clearbody n3. rewrite st_bind_run. set (ok := (fetch_shard _ _ _ _ _ _ n2).1). clearbody ok.
  set (n4 := ((if ok then invalidate_shard path p0 k0 else mret false) n3).2).
  apply keeps_trans with n4.
  { subst n4. destruct ok; [|by apply keeps_same]. unfold invalidate_shard. rewrite Ep, st_bind_run. cbn [on_files fst snd].
    rewrite st_bind_run. cbn [peek fst snd]. eapply keeps_trans; [|apply keeps_engine]. split; [done|]. intros p k Hk Hi.
    unfold intact in *. cbn [n_files]. erewrite validate_same; [exact Hi|].
    rewrite !lookup_delete_ne; [done|..]; intros E; apply (f_equal String.length) in E;
      rewrite length_append, !file_length in E by apply EngineFacts.length_shard_key; simpl in E; lia. }
  set (ok' := ((if ok then invalidate_shard path p0 k0 else mret false) n3).1). clearbody n4 ok'. rewrite st_bind_run.
  set (n5 := (on_repl _ n4).2). apply keeps_trans with n5; [apply Hrepl|]. clearbody n5. destruct ok'; cbn [negb]; [|by apply keeps_same].
  rewrite st_bind_run. cbn [peek fst snd]. apply keeps_engine.
Qed.

Lemma holder_keeps cl key p0 k0 n : keeps_others (shard_key p0 k0) n (catchup_from_holder path others transfers cl key p0 k0 n).2.
Proof using others_keep.
  assert (Hpeers : forall id ps n, keeps_others (shard_key p0 k0) n (catchup_from_peers path others transfers id p0 k0 ps n).2).
  { intros id ps. induction ps as [|p ps IH]; intros x; [by apply keeps_same|]. cbn [catchup_from_peers]. rewrite st_bind_run.
    set (m := if String.eqb (p_id p) id && _ && _ then _ else _).
    apply keeps_trans with (m x).2; [subst m; destruct (_ && _ && _); [apply catchup_keeps|by apply keeps_same]|].
    destruct (m x).1; [by apply keeps_same|apply IH]. }
  unfold catchup_from_holder. set (hs := edb_cluster_holders cl key 64). clearbody hs. revert n.
  induction hs as [|h hs IH]; intros n; [by apply keeps_same|]. cbn [catchup_from_holders]. rewrite st_bind_run.
  set (m := if String.eqb h (self_id cl) then _ else _).
  apply keeps_trans with (m n).2; [subst m; destruct (String.eqb _ _); [by apply keeps_same|apply Hpeers]|].
  destruct (m n).1; [by apply keeps_same|apply IH].
Qed.

Lemma sync_shards_intact kss n n' : sync_shards path others transfers kss n = (None, n') ->
  target_of n' = target_of n /\ (forall p k, intact p k n -> intact p k n') /\
  forall k, k ∈ kss -> assigned (target_of n) k = true -> intact (k_partition k) (k_name k) n'.
Proof using others_keep.
  revert n. induction kss as [|k kss IH]; intros n; cbn [sync_shards].
  { intros [= <-]. split_and!; [done..|]. by intros k ?%elem_of_nil. }
  rewrite st_bind_run. cbn [peek fst snd]. intros E.
  assert (Hskip : assigned (target_of n) k = false -> sync_shards path others transfers kss n = (None, n') ->
    target_of n' = target_of n /\ (forall p k, intact p k n -> intact p k n') /\
    forall j, j ∈ k :: kss -> assigned (target_of n) j = true -> intact (k_partition j) (k_name j) n').
  { intros Hno E'. destruct (IH n E') as (H1 & H2 & H3). split_and!; [done..|]. intros j [->|Hj]%elem_of_cons Ha; [congruence|by apply H3]. }
  unfold assigned in Hskip at 1. unfold target_of in Hskip at 1.
  destruct (n_cluster n) as [cl|] eqn:Ecl; [|by apply Hskip]. cbn [fmap option_fmap option_map] in Hskip.
  destruct (edb_shard_path path (k_partition k) (k_name k) 1024) as [[file key]|] eqn:Ep; [|by apply Hskip].
  assert (Ek : key = shard_key (k_partition k) (k_name k))
    by (unfold edb_shard_path in Ep; destruct (_ <=? _)%nat; [done|]; by injection Ep as _ <-).
  change (edb_cluster_target_owner cl key) with (table_owner (target_ranges cl) key) in E.
  destruct (edb_config_is_system_key path key); [by apply Hskip|]. cbn [negb orb andb] in *.
  destruct (bool_decide (table_owner (target_ranges cl) key = Some (self_id cl))); cbn [negb] in *; [|by apply Hskip].
  rewrite st_bind_run in E. set (n1 := (catchup_from_holder path others transfers cl key (k_partition k) (k_name k) n).2) in *.
  destruct (holder_keeps cl key (k_partition k) (k_name k) n) as [Ht Hkeep]. fold n1 in Ht, Hkeep.
  rewrite st_bind_run in E. cbn [peek fst snd] in E. destruct (_ && _) eqn:Eok in E; [|done].
  apply andb_prop in Eok as [_ Hvalid]. destruct (IH n1 E) as (H1 & H2 & H3). rewrite Ht in *.
  split_and!; [done|..].
  - intros p j Hi. apply H2. destruct (decide (shard_key p j = shard_key (k_partition k) (k_name k))) as [Es|Es]; [|by apply Hkeep].
    unfold intact. by rewrite (validate_key _ _ _ _ _ Es).
  - intros j [->|Hj]%elem_of_cons Ha; [by apply H2|]. by apply H3.
Qed.

Lemma keyspaces_read s : rs_ok s -> rs_ok (edb_keyspace_list s).2 /\
  (edb_keyspace_list (edb_keyspace_list s).2).1 ≡ₚ (edb_keyspace_list s).1.
Proof using RL covers.
  assert (Hin : CFG_KEYSPACE_KEYSPACES ∈ system_keyspaces) by (repeat constructor).
  assert (Hread : forall s, rs_ok s -> exists l, (edb_keyspace_list s).1 =
      List.filter (fun k => negb (String.eqb (k_name k) "")) (map keyspace_info l) /\ l ≡ₚ (map_to_list (rs_view s CFG_KEYSPACE_KEYSPACES)).*2 /\
      ConfigFacts.unchanged s (edb_keyspace_list s).2).
  { intros x Hx. destruct (ConfigFacts.collect_spec covers CFG_KEYSPACE_KEYSPACES x Hx Hin) as (l & s' & Hc & Hu & Hp).
    exists l. unfold edb_keyspace_list. rewrite st_bind_run, Hc. by cbn [fst snd mret st_ret array_items]. }
  intros Hs. destruct (Hread s Hs) as (l & E & Hp & [Hs' Hv]). split; [done|]. destruct (Hread _ Hs') as (l' & -> & Hp' & _). rewrite E.
  assert (Hl : l' ≡ₚ l) by (rewrite Hp', Hp; by rewrite Hv).
  clear -Hl. induction Hl as [|a l l' _ IH|a b l|l1 l2 l3 _ IH1 _ IH2]; cbn [map List.filter]; [done|..].
  - destruct (negb _); [by constructor|done].
  - destruct (negb _), (negb _); [by constructor|done..].
  - by etrans.
Qed.
End synced.

Section joined.
Context {S : Type} {RS : RecordStore S} {JC : JsonCodec} {RL : RecordStoreLaws S} {SF : ShardFiles S} {NW : Network S}.
Context (cfg : edb_config S) (path : string) (others : nat -> node S -> node S) (transfers : nat -> transfer).
Hypothesis covers : forall ks, ks ∈ system_keyspaces -> ks ∈ rs_keyspaces (S := S).
Hypothesis others_keep : forall i n, target_of (others i n) = target_of n /\ forall p k, intact path p k n -> intact path p k (others i n).

Lemma target_found tries n : (wait_for_target others tries n).1 = true ->
  exists cl, n_cluster (wait_for_target others tries n).2 = Some cl /\ 0 < target_generation cl.
Proof.
  revert n. induction tries as [|tries IH]; intros n; [done|]. cbn [wait_for_target]. rewrite st_bind_run.
  cbn [pending_generation peek fst snd]. destruct (Z.ltb_spec 0 (match n_cluster n with Some cl => target_generation cl | None => 0 end)) as [Hg|_].
  - intros _. cbn [mret st_ret snd]. destruct (n_cluster n) as [cl|]; [|lia]. by exists cl.
  - rewrite st_bind_run. apply IH.
Qed.

(** Synchronizing succeeds only with every assigned shard in place. *)
Lemma sync_assigned_intact n n' cl : n_cluster n = Some cl -> 0 < target_generation cl -> rs_ok (a_store (n_api n)) ->
  sync_assigned path others transfers n = (None, n') ->
  forall k, k ∈ (edb_keyspace_list (a_store (n_api n))).1 -> assigned path (target_of n) k = true ->
    intact path (k_partition k) (k_name k) n'.
Proof using covers others_keep RL.
  intros Hcl Hgen Hs E k Hk Ha. unfold sync_assigned in E. rewrite !st_bind_run in E. cbn [peek fst snd] in E.
  set (needs := fun cl => r ← edb_cluster_needs_sync cl path (validate_shard path (n_files n)); mret (r, cl)) in E.
  assert (Hrun : on_cluster needs false n =
    (existsb (shard_needed cl path (validate_shard path (n_files n))) (edb_keyspace_list (a_store (n_api n))).1,
     Node (on_store edb_keyspace_list (n_api n)).2 (Some cl) (n_repl n) (n_files n) (n_turn n))).
  { unfold on_cluster. rewrite st_bind_run. cbn [peek fst snd]. rewrite Hcl. cbn iota beta. rewrite !st_bind_run.
    unfold needs, in_engine, in_api, on_store, edb_cluster_needs_sync. destruct (Z.eqb_spec (target_generation cl) 0); [lia|].
    rewrite !st_bind_run. by destruct (edb_keyspace_list (a_store (n_api n))). }
  rewrite Hrun in E. cbn [fst snd] in E. set (n1 := Node _ (Some cl) _ _ _) in *.
  assert (Ht : target_of n1 = target_of n) by (unfold target_of; by rewrite Hcl).
  destruct (existsb _ _) eqn:Eneed.
  - rewrite st_bind_run in E. destruct (in_engine_run edb_keyspace_list n1) as (El & Hf & Hc & _). rewrite El in E.
    destruct (sync_shards_intact path others transfers others_keep _ _ _ E) as (_ & _ & H). apply H.
    + destruct (keyspaces_read covers (a_store (n_api n)) Hs) as [_ Hp].
      assert (Ea : a_store (n_api n1) = (edb_keyspace_list (a_store (n_api n))).2)
        by (subst n1; cbn [n_api]; unfold on_store; by destruct (edb_keyspace_list (a_store (n_api n)))).
      rewrite Ea. by rewrite Hp.
    + unfold target_of at 1. rewrite Hc. fold (target_of n1). by rewrite Ht.
  - injection E as <-. unfold intact. cbn [n_files].
    destruct (validate_shard path (n_files n) (k_partition k) (k_name k)) eqn:Ev; [done|exfalso].
    apply Bool.not_true_iff_false in Eneed. apply Eneed. apply List.existsb_exists. exists k. split; [by apply list_elem_of_In|].
    unfold assigned, target_of in Ha. rewrite Hcl in Ha. cbn [fmap option_fmap option_map] in Ha. unfold shard_needed.
    destruct (edb_shard_path _ _ _ _) as [[file key]|]; [|done]. apply andb_prop in Ha as [-> Ho].
    apply bool_decide_eq_true in Ho. unfold edb_cluster_target_owner. by rewrite Ho, String.eqb_refl, Ev.
Qed.

(** C19: A join that found a target answers that the node is in sync
    only when every shard the target gives the node is in its directory and
    passes the integrity check, whatever the transfers brought, in whatever
    order the holders were asked (other threads keeping the target and the
    shards in place while it waits). *)
Theorem joined_shards_present reply addr port n
  (n1 := (sync_system path others transfers addr port (edb_config_system_keyspaces 9).1 (set_auto_compliant false n).2).2)
  (n2 := (wait_for_target others 100 n1).2)
  (Hpending : (wait_for_target others 100 n1).1 = true) (Hs : rs_ok (a_store (n_api n2)))
  (Hjoined : (join_rebalance cfg path others transfers reply addr port n).1 = JOINED) k
  (Hk : k ∈ (edb_keyspace_list (a_store (n_api n2))).1) (Ha : assigned path (target_of n2) k = true) :
  intact path (k_partition k) (k_name k) (join_rebalance cfg path others transfers reply addr port n).2.
Proof using covers others_keep RL.
  destruct (target_found 100 n1 Hpending) as (cl & Hcl & Hgen). fold n2 in Hcl. subst n1.
  unfold join_rebalance in *. rewrite !st_bind_run in *. cbn [fst snd mret st_ret] in *.
  destruct (sync_system path others transfers addr port (edb_config_system_keyspaces 9).1 (set_auto_compliant false n).2) as [system n1].
  cbn [fst snd] in *. fold n2 in Hjoined |- *. destruct system as [why|]; [done|]. rewrite Hpending in *.
  destruct (sync_assigned path others transfers n2) as [failed n3] eqn:E. cbn [fst snd] in *. destruct failed; [done|].
  pose proof (sync_assigned_intact n2 n3 cl Hcl Hgen Hs E k Hk Ha) as Hi. unfold intact in *.
  unfold set_auto_compliant at 1, mark_compliant. by rewrite !on_cluster_files.
Qed.
End joined.

(** ** Witnesses *)

Section witnesses.
Import MapStore.
#[local] Existing Instance digit_codec.
#[local] Instance system_laws : RecordStoreLaws map_store := map_store_laws system_keyspaces.

Lemma system_covered : forall ks, ks ∈ system_keyspaces -> ks ∈ rs_keyspaces (S := map_store).
Proof. done. Qed.

(** A directory whose files are sound when they are not empty; no peer answers. *)
#[local] Instance toy_files : ShardFiles map_store := {|
  readdir fs dir := omap (fun f => if String.prefix (dir +:+ "/") f then Some (skip_chars (Datatypes.S (String.length dir)) f) else None)
    (map_to_list fs).*1;
  sqlite_backup fs f := fs !! f;
  integrity_ok data := negb (length data =? 0)%nat;
  drop_handle _ := mret tt;
  reopen _ _ data := mret (match data with Some _ => true | None => false end);
|}.
#[local] Instance toy_network : Network map_store := {| exchange _ _ _ := mret [] |}.

Definition some_shard : string := "0123456789abcdef0123456789abcdef".
Definition upload : edb_http_request :=
  Request "PUT" ("/admin/restore/shard/" +:+ some_shard) "offset=0&final=1" [] "abc" "" true.
Definition works : upload_outcome := Upload true (Some 3%nat) true.
Definition locked_node : node map_store :=
  Node (ApiState [] [] true None ∅) None (Repl.MkRepl "" 0 None false "") ∅ 0.

Lemma restore_touches_one_shard_witness :
  n_files (handle_restore_shard_upload 100 "/d" works upload locked_node).2 !! local_path "/d" some_shard <> None /\
  exists key, valid_key key = true /\ edb_config_is_system_key "/d" key = false.
Proof.
  assert (Hf : n_files (handle_restore_shard_upload 100 "/d" works upload locked_node).2 !! local_path "/d" some_shard <>
    n_files locked_node !! local_path "/d" some_shard) by (vm_compute; discriminate).
  split; [exact Hf|].
  destruct (restore_touches_one_shard 100 "/d" system_covered works upload locked_node _ I Hf) as (_ & _ & key & H1 & H2 & _).
  by exists key.
Defined.

(** Two nodes: a joins, b holds everything and the target gives a the upper
    half of the keys. *)
Definition low_key : string := "00000000000000000000000000000000".
Definition mid_key : string := "80000000000000000000000000000000".
Definition high_key : string := "ffffffffffffffffffffffffffffffff".
Definition two_nodes : edb_cluster :=
  MkCluster "a" "10.0.0.1" 7400 0
    [Peer "a" "10.0.0.1" 7400 0 true 0 false 0; Peer "b" "10.0.0.2" 7400 0 true 0 false 0]
    1 0 [Range "b" low_key high_key] 2 [Range "b" low_key mid_key; Range "a" mid_key high_key] true "b".
Definition alone : edb_cluster := MkCluster "a" "10.0.0.1" 7400 0 [] 0 0 [] 0 [] true "".
Definition shard_frames : list message := [meta_frame 3; (ESTP_SNAP_DATA, [1; 2; 3]); EOF_FRAME; ack_frame true].
Definition a_transfer (_ : nat) : transfer :=
  Transfer true [true; true] (Some "abcdef"%string) shard_frames (Some 100) (fun _ _ => true) true [alone].
Definition nothing_happens (_ : nat) (n : node map_store) : node map_store := n.
Definition joining_store : map_store :=
  (store edb_config_open CFG_KEYSPACE_KEYSPACES (keyspace_path "db" "p" "ks2") (keyspace_record "db" "p" "ks2") ∅).2.
Definition joining_node : node map_store :=
  Node (ApiState [] [] false None joining_store) (Some two_nodes) (Repl.MkRepl "a" 0 None false "") ∅ 0.
Definition ks_info : edb_keyspace_info := keyspace_info (keyspace_record "db" "p" "ks2").

(** The shard of [ks2] is in the upper half; it comes from b. *)
Lemma joined_shards_present_witness :
  let n' := (join_rebalance edb_config_open "/d" nothing_happens a_transfer None "10.0.0.2" 7400 joining_node).2 in
  n_files joining_node = ∅ /\ intact "/d" "p" "ks2" n'.
Proof.
  intros n'. split; [reflexivity|].
  pose proof (joined_shards_present edb_config_open "/d" nothing_happens a_transfer system_covered
    (fun i n => conj eq_refl (fun p k H => H)) None "10.0.0.2" 7400 joining_node) as H. cbv zeta in H.
  refine (H _ I _ ks_info _ _).
  - vm_compute. reflexivity.
  - vm_compute. reflexivity.
  - vm_compute. left.
  - vm_compute. reflexivity.
Defined.

End witnesses.

End ApiClusterFacts.
