(* ===== verification/BackupFacts.v ===== *)
(** The backup tool of [BackupTool] against the server of [ApiCluster]: what
    the tool sends is what the handlers get, what they answer is what it reads;
    a file that is pushed in pieces is installed whole; and a restore over the
    admin socket of a single node ends with nothing. *)

From S2P Require Import Prelude Json Manager EngineFacts Store MapStore Config ConfigFacts Wire Cluster Repl ReplHandlers EqlExec EqlNode Http HttpFacts Api ApiAdmin ApiFacts Snap Analytics Lua LuaFacts ApiCluster ApiClusterFacts BackupTool.

Module BackupFacts.

Import Json Manager Store Config ConfigFacts Wire Cluster Repl ReplHandlers EqlExec Http HttpFacts Api ApiAdmin ApiFacts Snap ApiCluster ApiClusterFacts BackupTool.

(** ** Responses *)

Lemma line_end l : NUL ∉ l -> line_text (reverse (l ++ [CR])) = str l.
Proof.
  intros H. unfold line_text. rewrite reverse_snoc. rewrite decide_True by done. by rewrite reverse_involutive, cstr_id.
Qed.

Lemma head_skip l line rest r : LF ∉ l -> (length line + length l <= 1023)%nat ->
  response_head (l ++ rest) line r = response_head rest (reverse l ++ line) r.
Proof.
  revert line. induction l as [|c l IH]; intros line Hl Hn; [done|]. cbn [app response_head].
  rewrite decide_False by (intros ->; apply Hl; by left). cbn [length] in Hn. destruct (Nat.ltb_spec (length line) 1023); [|lia].
  rewrite IH; [|by intros ?; apply Hl; right|simpl; lia]. by rewrite reverse_cons, <-app_assoc.
Qed.

(** A line of a head: no end of line in it, and it fits the buffer. *)
Definition head_text_ok (s : string) : Prop := Forall in_line (chars s) /\ (String.length s <= 1000)%nat /\ s <> ""%string.

Lemma head_text_read s rest r : head_text_ok s ->
  response_head (chars (s +:+ CRLF) ++ rest) [] r = response_head rest [] (head_line s r).
Proof.
  intros (Hl & Hn & Hne). rewrite Forall_forall in Hl. rewrite chars_app, <-app_assoc.
  change (chars CRLF ++ rest) with ([CR] ++ LF :: rest). rewrite app_assoc, head_skip.
  - cbn [response_head]. rewrite (decide_True (P := LF = LF)) by done. rewrite app_nil_r, line_end.
    + rewrite str_chars. destruct (String.eqb_spec s ""); [done|]. done.
    + intros Hin. by destruct (Hl _ Hin).
  - intros [Hin|Hin%list_elem_of_singleton]%elem_of_app; [|done]. by destruct (Hl _ Hin) as (_ & _ & ?).
  - rewrite length_app, length_chars. simpl. lia.
Qed.

Lemma head_end_read rest r : response_head (CR :: LF :: rest) [] r = Some (r, rest).
Proof. done. Qed.

(** Numbers with something behind them. *)
Lemma decimal_app fuel n a b : decimal fuel n a +:+ b = decimal fuel n (a +:+ b) \/ fuel = O.
Proof.
  revert n a. induction fuel as [|fuel IH]; intros n a; [by right|left]. cbn [decimal]. destruct (n <? 10); [done|].
  by destruct (IH (n / 10) (String (digit_char (n mod 10)) a)) as [->| ->].
Qed.

Lemma strtoll_printed v rest : 0 <= v < 2 ^ 63 -> (forall c s, rest = String c s -> digit_of c = None) ->
  (strtoll (print_i64 v +:+ rest)).1.1 = v.
Proof.
  intros Hv Hr. unfold print_i64. destruct (Z.ltb_spec v 0); [lia|].
  destruct (decimal_app 20 v "" rest) as [->|]; [|done]. change ("" +:+ rest) with rest.
  pose proof (read_decimal 20 v rest ltac:(lia) ltac:(lia)) as Hd.
  destruct (decimal_head 20 v rest ltac:(lia) ltac:(lia)) as (d & s & Hdd & Hs). rewrite Hs in *.
  destruct (digit_char_spec d Hdd) as (Hdig & Hsp & Hm & Hp).
  assert (Hread : read_digits v rest = (v, rest)) by (destruct rest as [|c t]; [done|]; cbn [read_digits]; by rewrite (Hr c t eq_refl)).
  rewrite Hread in Hd. unfold strtoll, read_number. cbn [skip_space]. rewrite Hsp.
  set (c := digit_char d) in *. clearbody c.
  destruct c as [[] [] [] [] [] [] [] []]; try discriminate Hm; try discriminate Hp; cbn iota beta;
    rewrite ?Hdig, ?Hd; cbn [fst snd]; try (destruct (Z.leb_spec (2 ^ 63) v); [lia|done]).
Qed.

Lemma strtoull_spaced v : 0 <= v < 2 ^ 63 -> (strtoull (" " +:+ print_i64 v)).1.1 = v.
Proof.
  intros Hv. pose proof (text_print_u64 v ltac:(lia)) as Ht. unfold print_i64. destruct (Z.ltb_spec v 0); [lia|].
  fold (print_u64 v). assert (E : strtoull (" " +:+ print_u64 v) = strtoull (print_u64 v) \/ (strtoull (print_u64 v)).1.2 <> ""%string).
  { unfold strtoull, print_u64. change (read_number (" " +:+ decimal 20 v "")) with (read_number (decimal 20 v "")).
    left. by rewrite (proj1 (read_number_decimal v ltac:(lia))). }
  unfold text_u64 in Ht. destruct (strtoull (print_u64 v)) as [[a b] e]. destruct (negb e && String.eqb b "") eqn:Eb; [|done].
  apply andb_prop in Eb as [_ ->%String.eqb_eq]. destruct E as [->|E]; [|done]. by injection Ht.
Qed.

Lemma in_line_app a b : Forall in_line (chars a) -> Forall in_line (chars b) -> Forall in_line (chars (a +:+ b)).
Proof. intros. rewrite chars_app. by apply Forall_app_2. Qed.

Ltac in_line_literal := repeat (apply Forall_cons_2; [by repeat split; intros [=]|]); apply Forall_nil_2.

Lemma print_i64_line v : 0 <= v -> Forall in_line (chars (print_i64 v)) /\ (String.length (print_i64 v) <= 20)%nat.
Proof.
  intros Hv. unfold print_i64. destruct (Z.ltb_spec v 0); [lia|]. split.
  - apply digits_shape, all_digits_decimal; [done|done].
  - assert (Hd : forall fuel n acc, (String.length (decimal fuel n acc) <= fuel + String.length acc)%nat).
    { induction fuel as [|fuel IH]; intros n acc; cbn [decimal]; [lia|]. destruct (n <? 10); [simpl; lia|].
      etrans; [apply IH|]. simpl. lia. }
    etrans; [apply Hd|]. simpl. lia.
Qed.

Lemma status_text_line st : Forall in_line (chars (status_text st)) /\ (String.length (status_text st) <= 30)%nat.
Proof.
  unfold status_text. repeat match goal with |- context [if ?b then _ else _] => destruct b end.
  all: split; [in_line_literal|simpl; lia].
Qed.

(** What the servers of these files answer. *)
Definition answerable (res : edb_http_response) : Prop := 0 <= res_status res < 2 ^ 63 /\ head_text_ok (res_content_type res) /\
  (String.length (res_content_type res) <= 900)%nat.

(** A response that was printed is read back: its status, and its body if that
    is of less than 2^63 bytes. *)
Lemma response_read res keep : answerable res ->
  (read_response (chars (write_response res keep))).2 = res_status res /\
  (Z.of_nat (String.length (default ""%string (res_body res))) < 2 ^ 63 ->
   (read_response (chars (write_response res keep))).1 = Some (default ""%string (res_body res))).
Proof.
  intros (Hst & (Hct & _) & Hctl). unfold write_response. set (body := default ""%string (res_body res)).
  destruct (print_i64_line (res_status res) ltac:(lia)) as [Hp Hpl]. destruct (status_text_line (res_status res)) as [Ht Htl].
  set (len := Z.of_nat (String.length body)). destruct (print_i64_line len ltac:(lia)) as [Hn Hnl].
  set (l1 := "HTTP/1.1 " +:+ print_i64 (res_status res) +:+ " " +:+ status_text (res_status res)).
  set (l2 := "Content-Type: " +:+ res_content_type res). set (l3 := "Content-Length: " +:+ print_i64 len).
  set (l4 := "Connection: " +:+ (if keep then "keep-alive" else "close")).
  assert (O1 : head_text_ok l1).
  { split_and!; [|subst l1; rewrite !length_append; simpl; lia|done]. subst l1. repeat apply in_line_app; try done; in_line_literal. }
  assert (O2 : head_text_ok l2).
  { split_and!; [|subst l2; rewrite !length_append; simpl; lia|done]. subst l2. apply in_line_app; [in_line_literal|done]. }
  assert (O3 : head_text_ok l3).
  { split_and!; [|subst l3; rewrite !length_append; simpl; lia|done]. subst l3. apply in_line_app; [in_line_literal|done]. }
  assert (O4 : head_text_ok l4).
  { split_and!; [|subst l4; rewrite !length_append; destruct keep; simpl; lia|done].
    subst l4. destruct keep; apply in_line_app; in_line_literal. }
  match goal with |- context [chars ?w] =>
    replace (chars w) with (chars (l1 +:+ CRLF) ++ chars (l2 +:+ CRLF) ++ chars (l3 +:+ CRLF) ++ chars (l4 +:+ CRLF) ++ CR :: LF :: chars body)
  end.
  2: { subst l1 l2 l3 l4. rewrite !chars_app, <-!app_assoc. done. }
  unfold read_response. rewrite !head_text_read by done. rewrite head_end_read.
  assert (E1 : head_line l1 (0, 0) = (res_status res, 0)).
  { unfold head_line. change (has_prefix "HTTP/" l1) with true. cbn iota. f_equal.
    change (skip_chars 9 l1) with (print_i64 (res_status res) +:+ " " +:+ status_text (res_status res)).
    apply strtoll_printed; [done|]. by intros c s [= <- _]. }
  assert (E2 : forall r, head_line l2 r = r).
  { intros r. unfold head_line. subst l2. cbn. done. }
  assert (E4 : forall r, head_line l4 r = r).
  { intros r. unfold head_line. subst l4. by destruct keep. }
  assert (E3 : forall r, head_line l3 r = (r.1, (strtoull (" " +:+ print_i64 len)).1.1)).
  { intros r. unfold head_line. change (has_prefix "HTTP/" l3) with false. done. }
  rewrite E1, E2, E3, E4. cbn [fst snd]. split; [done|]. intros Hlen. rewrite strtoull_spaced by lia.
  destruct (0 <? len); [|by rewrite str_chars]. rewrite take_ge, str_chars; [done|]. rewrite length_chars. lia.
Qed.

(** ** An exchange *)

(** What the tool sends, as the server cuts it out. *)
Definition tool_request (c : http_client) (method target body : string) : sent :=
  Sent method target
    [("Host", default "local" (g_host c) +:+ ":" +:+ print_i64 (g_port c)); ("Authorization", "Bearer " +:+ g_user c);
     ("X-Epsilon-Password", g_password c)]%string
    [("Connection", "close")]%string body.

Lemma request_printed c method target body :
  chars (request_head c method target (Z.of_nat (String.length body))) ++ chars body = print_request (tool_request c method target body).
Proof.
  unfold print_request. f_equal. unfold head_text, tool_request, request_text, sent_headers, length_header, ended, request_head.
  cbn [s_method s_target s_first s_headers s_body app map concat]. unfold header_text. cbn [fst snd].
  generalize (print_i64 (g_port c)) (print_u64 (Z.of_nat (String.length body))) (default "local"%string (g_host c)) (g_user c) (g_password c).
  intros port len host user password. rewrite !chars_app. cbn [chars]. simpl String.list_ascii_of_string.
  repeat (rewrite <-app_assoc || cbn [app]). done.
Qed.

(** The names of the tool fit on lines of the head. *)
Record plain_client (c : http_client) : Prop := {
  pc_host : Forall in_line (chars (default "local"%string (g_host c)));
  pc_port : 0 <= g_port c;
  pc_user : Forall in_line (chars (g_user c));
  pc_password : Forall in_line (chars (g_password c));
  pc_room : Z.of_nat (String.length (default "local"%string (g_host c)) + String.length (g_user c) + String.length (g_password c)) <= 8000;
}.

(** A target the server takes as it is. *)
Definition plain_target (target : string) : Prop := word_ok 1000 target.

Lemma target_parts target : (String.length (target_path target) <= String.length target)%nat /\
  (String.length (target_query target) <= String.length target)%nat.
Proof.
  unfold target_path, target_query. rewrite !length_str, <-!length_chars.
  assert (H : forall l a b, split_at "?"%char l = Some (a, b) -> (length a <= length l)%nat /\ (length b <= length l)%nat).
  { induction l as [|c l IH]; intros a b; cbn [split_at]; [done|]. destruct (decide _); [intros [= <- <-]; simpl; lia|].
    destruct (split_at _ l) as [[a' b']|]; [|done]. intros [= <- <-]. destruct (IH a' b' eq_refl). simpl. lia. }
  destruct (split_at "?"%char (chars target)) as [[a b]|] eqn:E; cbn [from_option default fst snd]; [by apply H|simpl; lia].
Qed.

Lemma plain_well_formed c method target body : plain_client c -> word_ok 15 method -> plain_target target ->
  Z.of_nat (String.length body) <= 1000000 -> well_formed (tool_request c method target body).
Proof.
  intros Hc Hm (Ht1 & Ht2 & Ht3) Hb. destruct (target_parts target) as [Hp Hq].
  pose proof (print_i64_line (g_port c) (pc_port c Hc)) as [Hport Hportl].
  assert (Hhost : Forall in_line (chars (default "local"%string (g_host c) +:+ ":" +:+ print_i64 (g_port c)))).
  { apply in_line_app; [apply Hc|]. apply in_line_app; [in_line_literal|done]. }
  assert (Huser : Forall in_line (chars ("Bearer " +:+ g_user c))) by (apply in_line_app; [in_line_literal|apply Hc]).
  pose proof (pc_room c Hc) as Hroom.
  constructor; unfold tool_request; cbn [s_method s_target s_first s_headers s_body app].
  - exact Hm.
  - split_and!; [done|lia|done].
  - lia.
  - lia.
  - repeat apply Forall_cons_2; [..|by constructor].
    all: (split; [|by split]); split_and!; cbn [fst snd]; try done; try in_line_literal; try apply Hc;
      by apply (bool_decide_unpack _).
  - by apply Nat.ltb_lt.
  - unfold head_text, blen, ended, sent_headers, length_header, request_text. cbn [s_method s_target s_first s_headers s_body app map concat].
    unfold header_text, print_u64. cbn [fst snd]. repeat (rewrite length_app || cbn [length]).
    rewrite !length_chars, !length_append. pose proof (print_i64_line (Z.of_nat (String.length body)) ltac:(lia)) as [_ Hlen].
    unfold print_i64 in Hlen at 1. destruct (Z.ltb_spec (Z.of_nat (String.length body)) 0); [lia|].
    assert (String.length method <= 15)%nat by apply Hm. unfold EDB_HTTP_MAX_HEADER_BYTES.
    set (digits := String.length (decimal 20 _ _)) in *. set (port := String.length (print_i64 _)) in *. clearbody digits port.
    simpl String.length. lia.
  - unfold EDB_HTTP_MAX_BODY_BYTES. lia.
Qed.

Section exchange.
Context {G : Type} (srv : edb_http_server G) (static : string -> option string) (peer_ip : string).
Context (stale : list (string * string) -> list (string * string)).

(** The node behind each endpoint answers what comes as one connection; the
    admin socket is trusted. *)
Definition answered (e : option (string * Z)) (sent : text) : st (gmap (option (string * Z)) G) (option text) := fun nodes =>
  match nodes !! e with
  | None => (None, nodes)
  | Some g =>
      let '(out, g) := conn_main static stale srv (bool_decide (e = None)) peer_ip [sent] g in
      (Some (concat (map chars out)), <[e := g]> nodes)
  end.
#[local] Instance answering : HttpNodes (gmap (option (string * Z)) G) := {| talk := answered |}.

(** The request as its handler gets it. *)
Definition at_handler (c : http_client) (method target body : string) : edb_http_request :=
  from_peer (bool_decide (endpoint c = None)) peer_ip (received (tool_request c method target body)).

Lemma closes c method target body : wants_close (at_handler c method target body) = true.
Proof.
  unfold wants_close, edb_http_header, at_handler, from_peer, received, tool_request. cbn [rq_headers].
  rewrite sent_headers_trimmed. cbn [s_first s_headers map app]. unfold trimmed. cbn [fst snd].
  unfold length_header. cbn [find_header List.find fst]. reflexivity.
Qed.

(** A request of the tool is dispatched as it was sent, and the tool reads the
    answer of the handler. *)
Lemma exchange_run (c : http_client) (method target body : string) (g : G) (t : tool (gmap (option (string * Z)) G))
  (Hc : plain_client c) (Hm : word_ok 15 method) (Ht : plain_target target) (Hb : Z.of_nat (String.length body) <= 1000000)
  (Hg : t_world t !! endpoint c = Some g)
  (Hans : answerable (dispatch static srv (at_handler c method target body) g).1.2) :
  let r := dispatch static srv (at_handler c method target body) g in
  http_request_raw c method target body t =
    (read_response (chars (write_response r.1.2 false)), Tool (<[endpoint c := r.2]> (t_world t)) (t_files t) (t_turn t)).
Proof.
  intros r. unfold http_request_raw. rewrite st_bind_run. unfold in_world. cbn [talk answering]. unfold answered. rewrite Hg.
  rewrite request_printed. pose proof (plain_well_formed c method target body Hc Hm Ht Hb) as Hwf.
  assert (Hlen : blen (print_request (tool_request c method target body)) < 2 ^ 60).
  { pose proof (wf_head _ Hwf) as H. unfold print_request, blen in *. rewrite length_app, length_chars.
    unfold EDB_HTTP_MAX_HEADER_BYTES in H. cbn [tool_request s_body]. lia. }
  assert (Hrun : conn_main static stale srv (bool_decide (endpoint c = None)) peer_ip [print_request (tool_request c method target body)] g =
    ([write_response r.1.2 false], r.2)).
  { rewrite conn_main_whole by done. cbn [serve]. fold (at_handler c method target body). rewrite st_bind_run. fold r.
    rewrite closes, andb_false_r. by rewrite !st_bind_run. }
  rewrite Hrun. cbn [fst snd map concat]. rewrite app_nil_r. done.
Qed.
End exchange.

(** Characters of literals. *)
Ltac in_literal := repeat (apply Forall_cons_2; [by repeat split; intros [=]|]); apply Forall_nil_2.

(** ** Routing by names *)

(** The place of the route a request goes to, by methods and prefixes alone. *)
Fixpoint route_place (method path : string) (names : list (string * string)) (best_len : nat) : option nat :=
  match names with
  | [] => None
  | (m, p) :: names =>
      if has_prefix p path && String.eqb method m && (best_len <=? String.length p)%nat
      then Some (match route_place method path names (String.length p) with Some j => Datatypes.S j | None => O end)
      else Datatypes.S <$> route_place method path names best_len
  end.

Definition route_name {G} (r : http_route G) : string * string := (rt_method r, rt_prefix r).

Lemma best_route_place {G} req i (rs : list (http_route G)) best best_len :
  best_route req None i rs best best_len =
    match route_place (rq_method req) (rq_path req) (map route_name rs) best_len with Some j => rs !! j | None => best end.
Proof.
  revert i best best_len. induction rs as [|r rs IH]; intros i best best_len; [done|]. cbn [best_route map route_place route_name].
  change (negb (bool_decide (Some i = None))) with true. cbn [andb]. unfold route_matches.
  destruct (has_prefix (rt_prefix r) (rq_path req) && String.eqb (rq_method req) (rt_method r) && (best_len <=? String.length (rt_prefix r))%nat).
  - rewrite IH. by destruct (route_place _ _ _ (String.length (rt_prefix r))).
  - rewrite IH. by destruct (route_place _ _ _ best_len).
Qed.

Definition route_of {A G} (h : A -> edb_http_handler G) (r : string * string * A) : http_route G :=
  Route (snprintf 16 r.1.1) (snprintf 256 r.1.2) (Some (h r.2)).

Lemma handlers_added {A G} (h : A -> edb_http_handler G) (rs : list (string * string * A)) (srv : edb_http_server G) :
  (length (routes srv) + length rs <= EDB_HTTP_MAX_ROUTES)%nat ->
  let srv' := fold_left (fun s r => (edb_http_add_handler s r.1.1 r.1.2 (h r.2)).2) rs srv in
  routes srv' = routes srv ++ map (route_of h) rs /\ static_route srv' = static_route srv.
Proof.
  revert srv. induction rs as [|r rs IH]; intros srv Hlen; cbn [fold_left map]; [by rewrite app_nil_r|].
  cbn [length] in Hlen. set (srv1 := (edb_http_add_handler srv r.1.1 r.1.2 (h r.2)).2).
  assert (E : routes srv1 = routes srv ++ [route_of h r] /\ static_route srv1 = static_route srv).
  { subst srv1. unfold edb_http_add_handler. destruct (Nat.leb_spec EDB_HTTP_MAX_ROUTES (length (routes srv))); [lia|done]. }
  destruct E as [E1 E2]. destruct (IH srv1) as [H1 H2]; [rewrite E1, length_app; cbn [length]; lia|].
  rewrite H1, H2, E1, E2, <-app_assoc. done.
Qed.

(** ** The pieces of a file *)

Lemma bytes_of_string_of_bytes l : bytes_ok l -> bytes_of_string (string_of_bytes l) = l.
Proof.
  intros H. induction H as [|b l Hb _ IH]; [done|]. cbn [string_of_bytes bytes_of_string]. rewrite IH. f_equal.
  unfold byte_ok in Hb. rewrite Ascii.N_ascii_embedding by lia. lia.
Qed.

Lemma length_string_of_bytes l : String.length (string_of_bytes l) = length l.
Proof. induction l as [|b l IH]; [done|]. cbn. by rewrite IH. Qed.

Lemma split_on_skip c a s acc : c ∉ chars a -> split_on c (a +:+ s) acc = split_on c s (acc +:+ a).
Proof.
  revert acc. induction a as [|x a IH]; intros acc H; [by rewrite append_nil|].
  change (String x a +:+ s) with (String x (a +:+ s)). cbn [split_on]. rewrite decide_False by (intros ->; apply H; by left).
  rewrite IH by (intros Hin; apply H; by right). f_equal. by rewrite append_assoc.
Qed.

Lemma key_char_visible c : is_key_char c = true -> visible c /\ c <> "?"%char /\ c <> "&"%char.
Proof. intros H. split_and!; [split|..]; try (intros ->; discriminate H). by destruct c as [[] [] [] [] [] [] [] []]. Qed.

Lemma key_chars key : all_chars is_key_char key = true -> Forall (fun c => visible c /\ c <> "?"%char /\ c <> "&"%char) (chars key).
Proof.
  induction key as [|c key IH]; [constructor|]. cbn [all_chars]. intros [Hc Hk]%andb_prop. constructor; [by apply key_char_visible|by apply IH].
Qed.

Lemma print_i64_key v : 0 <= v -> all_chars is_key_char (print_i64 v) = true.
Proof.
  intros Hv. assert (H : all_digits (print_i64 v) = true).
  { unfold print_i64. destruct (Z.ltb_spec v 0); [lia|]. by apply all_digits_decimal. }
  revert H. generalize (print_i64 v). intros s. induction s as [|c s IH]; [done|]. cbn [all_digits all_chars]. intros [Hc Hs]%andb_prop.
  unfold is_key_char. rewrite Hc. by apply IH.
Qed.

Definition last_piece (b : bool) : string := if b then "&final=1" else "".
Definition piece_target (key : string) (off : Z) (last : bool) : string :=
  "/admin/restore/shard/" +:+ key +:+ "?offset=" +:+ print_i64 off +:+ last_piece last.

(** The target of a piece as the server reads it. *)
Lemma piece_target_read key off last : valid_key key = true -> 0 <= off < 2 ^ 63 ->
  plain_target (piece_target key off last) /\ (String.length (piece_target key off last) < 1200)%nat /\
  target_path (piece_target key off last) = "/admin/restore/shard/" +:+ key /\
  target_query (piece_target key off last) = "offset=" +:+ print_i64 off +:+ last_piece last.
Proof.
  intros [Hkl Hk]%andb_prop Hoff. apply Nat.eqb_eq in Hkl.
  pose proof (key_chars key Hk) as Hkc. pose proof (key_chars _ (print_i64_key off ltac:(lia))) as Hoc.
  pose proof (print_i64_line off ltac:(lia)) as [_ Hol].
  assert (Hlen : (String.length (piece_target key off last) <= 100)%nat).
  { unfold piece_target. rewrite !length_append, Hkl. destruct last; simpl String.length; lia. }
  assert (Hsplit : split_at "?"%char (chars (piece_target key off last)) =
    Some (chars ("/admin/restore/shard/" +:+ key), chars ("offset=" +:+ print_i64 off +:+ last_piece last))).
  { unfold piece_target. rewrite !chars_app. rewrite app_assoc.
    change (chars "?offset=" ++ chars (print_i64 off) ++ chars (last_piece last))
      with ("?"%char :: chars "offset=" ++ chars (print_i64 off) ++ chars (last_piece last)).
    rewrite split_at_app; [done|]. intros [Hin|Hin]%elem_of_app.
    - revert Hin. apply (bool_decide_unpack _). vm_compute. done.
    - rewrite Forall_forall in Hkc. by destruct (Hkc _ Hin) as (_ & ? & _). }
  split_and!.
  - split_and!; [done|lia|]. unfold piece_target. rewrite !chars_app.
    repeat apply Forall_app_2; [in_literal|eapply Forall_impl; [exact Hkc|]; by intros c (? & _)|in_literal|
      eapply Forall_impl; [exact Hoc|]; by intros c (? & _)|]. destruct last; in_literal.
  - lia.
  - unfold target_path. rewrite Hsplit. cbn [default from_option fst]. apply str_chars.
  - unfold target_query. rewrite Hsplit. cbn [default from_option snd]. apply str_chars.
Qed.

(** ** The node behind an endpoint *)

Section node.
Context {V : Lua.LuaVM} {S : Type} {RS : RecordStore S} {JC : JsonCodec} {DE : DataEngine S} {LW : LocalWrites S} {SQ : Sqlite} {MT : Maintenance S}.
Context {SF : ShardFiles S} {NW : Network S}.
Context (cfg : edb_config S) (repl : option (api_repl S)) (now : Z) (path : string).
Context (junk salt token : string).
Context (before : edb_lua_event -> string -> string -> string -> string -> option json -> Z -> st S lua_outcome).
Context (fire : edb_lua_event -> string -> string -> string -> string -> option json -> st S unit).
Context (record : analytics_event -> st S unit) (raw_u64 : Z -> json) (members : option edb_cluster).
Context (wild : option SpecFloat.spec_float -> Z) (running : bool) (benchmark_run : Z -> Z -> Z -> Z -> st S (option json)).
Context (others : nat -> node S -> node S) (transfers : nat -> transfer).
Context (frames : option (list join_frame)) (key_written : option nat) (void_reply : option json).
Context (suffix : option string) (readable : bool) (unlinks : string -> bool) (upload : upload_outcome).
Context (static : string -> option string) (peer_ip : string) (stale : list (string * string) -> list (string * string)).

Abbreviation table := (node_routes cfg repl now path junk salt token before fire record raw_u64 members wild running benchmark_run
  others transfers frames key_written void_reply suffix readable unlinks upload).
Abbreviation server := (node_server cfg repl now path junk salt token before fire record raw_u64 members wild running benchmark_run
  others transfers frames key_written void_reply suffix readable unlinks upload).

Definition table_names : list (string * string) := map fst table.

Lemma server_routes : routes server = map (route_of node_handler) table /\ static_route server = None.
Proof. apply (handlers_added node_handler table edb_http_start). apply Nat.leb_le. vm_compute. reflexivity. Qed.

Lemma server_names : map route_name (routes server) = table_names.
Proof.
  rewrite (proj1 server_routes), map_map. unfold table_names.
  assert (H : Forall (fun r => (String.length r.1.1 < 16)%nat /\ (String.length r.1.2 < 256)%nat) table).
  { apply (Forall_impl (fun r => (String.length r.1.1 <? 16)%nat && (String.length r.1.2 <? 256)%nat = true)).
    - apply List.Forall_forall. intros r Hr. pose proof (proj1 (List.forallb_forall (fun r => (String.length r.1.1 <? 16)%nat && (String.length r.1.2 <? 256)%nat) table)) as Hf.
      apply Hf; [vm_compute; reflexivity|done].
    - intros r [?%Nat.ltb_lt ?%Nat.ltb_lt]%andb_prop. done. }
  induction H as [|[[m p] h] rs [Hm Hp] _ IH]; [done|]. cbn [map]. rewrite IH. f_equal. unfold route_name, route_of. cbn [rt_method rt_prefix fst snd] in *.
  by rewrite !snprintf_short.
Qed.

Lemma node_dispatch (req : edb_http_request) (j : nat) (m p : string) (h : edb_http_request -> st (node S) edb_http_response) (n : node S) :
  route_place (rq_method req) (rq_path req) table_names 0 = Some j -> table !! j = Some (m, p, h) ->
  dispatch static server req n = ((true, (h req n).1), (h req n).2).
Proof.
  intros Hj Hh. unfold dispatch, find_route. destruct server_routes as [Er Es]. rewrite Es, best_route_place, server_names, Hj, Er.
  rewrite list_lookup_fmap, Hh. cbn [fmap option_fmap option_map route_of fst snd rt_handler]. unfold route_of. cbn [fst snd].
  unfold node_handler. rewrite st_bind_run. done.
Qed.

(** A request of the tool to the node at an endpoint, handled by the route at
    place [j] of the table. *)
Lemma call_run (c : http_client) (method target body : string) (j : nat) (m p : string)
  (h : edb_http_request -> st (node S) edb_http_response) (n : node S) (t : tool (gmap (option (string * Z)) (node S)))
  (Hc : plain_client c) (Hm : word_ok 15 method) (Ht : plain_target target) (Hb : Z.of_nat (String.length body) <= 1000000)
  (Hn : t_world t !! endpoint c = Some n) (Hj : route_place method (target_path target) table_names 0 = Some j)
  (Hh : table !! j = Some (m, p, h)) (req := at_handler peer_ip c method target body) (Hans : answerable (h req n).1) :
  (http_request_raw (H := answering server static peer_ip stale) c method target body t).1.2 = res_status (h req n).1 /\
  (http_request_raw (H := answering server static peer_ip stale) c method target body t).2 =
    Tool (<[endpoint c := (h req n).2]> (t_world t)) (t_files t) (t_turn t).
Proof.
  assert (Hd : dispatch static server req n = ((true, (h req n).1), (h req n).2)) by (by apply (node_dispatch req j m p)).
  rewrite (exchange_run server static peer_ip stale c method target body n t Hc Hm Ht Hb Hn); fold req; rewrite Hd; [|exact Hans].
  cbn [fst snd]. split; [|done]. apply response_read, Hans.
Qed.

Lemma json_answerable st o : 0 <= st < 2 ^ 63 -> answerable (respond_json st o).
Proof. intros H. split; [exact H|]. split; [split_and!; [in_line_literal|apply Nat.leb_le; reflexivity|done]|apply Nat.leb_le; reflexivity]. Qed.

(** *** Pushing a file *)

Definition piece_request (c : http_client) (key : string) (off : Z) (last : bool) (chunk : bytes) : edb_http_request :=
  at_handler peer_ip c "PUT" (piece_target key off last) (string_of_bytes chunk).

Lemma piece_query c key off last chunk : valid_key key = true -> 0 <= off < 2 ^ 63 ->
  offset_of (piece_request c key off last chunk) = off /\ is_final (piece_request c key off last chunk) = last.
Proof.
  intros Hk Hoff. destruct (piece_target_read key off last Hk Hoff) as (_ & _ & _ & Hq).
  set (req := piece_request c key off last chunk).
  assert (Er : rq_query req = "offset=" +:+ print_i64 off +:+ last_piece last) by exact Hq.
  pose proof (key_chars _ (print_i64_key off ltac:(lia))) as Hoc. pose proof (print_i64_line off ltac:(lia)) as [_ Hol].
  assert (Hne : String.eqb (print_i64 off) "" = false).
  { unfold print_i64. destruct (Z.ltb_spec off 0); [lia|]. by destruct (decimal_head 20 off "" ltac:(lia) ltac:(lia)) as (d & s & _ & ->). }
  assert (Hparts : split_on "&"%char (rq_query req) "" = ("offset=" +:+ print_i64 off) :: (if last then ["final=1"%string] else [])).
  { rewrite Er, (split_on_skip _ "offset=") by (apply (bool_decide_unpack _); vm_compute; done).
    rewrite split_on_skip by (intros Hin; rewrite Forall_forall in Hoc; by destruct (Hoc _ Hin) as (_ & _ & ?)).
    by destruct last. }
  assert (Hval : param_value "offset" ("offset=" +:+ print_i64 off) = Some (print_i64 off)).
  { unfold param_value. change (has_prefix ("offset" +:+ "=") ("offset=" +:+ print_i64 off)) with (has_prefix "" (print_i64 off)).
    change (skip_chars (Datatypes.S (String.length "offset")) ("offset=" +:+ print_i64 off)) with (print_i64 off). rewrite Hne.
    by destruct (print_i64 off). }
  assert (Hnone : param_value "final" ("offset=" +:+ print_i64 off) = None) by done.
  unfold offset_of, is_final, query_param. rewrite Hparts. cbn [omap list_omap]. rewrite Hval, Hnone. cbn [head fmap option_fmap option_map].
  rewrite snprintf_short by lia. split.
  - rewrite <-(append_nil (print_i64 off)). by apply strtoll_printed.
  - by destruct last.
Qed.

(** The file of a shard in place, the temporary file and the side files gone. *)
Definition installed (key : string) (data : bytes) (n : node S) : node S :=
  with_dir (foldr delete (<[local_path path key := data]> (delete (upload_path path key) (n_files n))) (side_files (local_path path key))) n.

Definition RESTORED : edb_http_response := respond_json 200 (Some (JObject [("restored", JBool true)])).

(** A request with a piece: it is added behind the earlier ones, and the last
    one installs the file. *)
Lemma piece_handled c key off last chunk pre n :
  valid_key key = true -> edb_config_is_system_key path key = false -> Z.of_nat off < 2 ^ 63 ->
  upload_works upload (length chunk) -> bytes_ok chunk -> a_restore_locked (n_api n) = true ->
  admin_request now (piece_request c key (Z.of_nat off) last chunk) n ->
  pieces_before path key off n = pre -> length pre = off -> (last = true -> integrity_ok (pre ++ chunk) = true) ->
  exists res, handle_restore_shard_upload now path upload (piece_request c key (Z.of_nat off) last chunk) n =
      (res, if last then installed key (pre ++ chunk) n
            else with_dir (<[upload_path path key := pre ++ chunk]> (n_files n)) n) /\
    res_status res = 200 /\ answerable res.
Proof.
  intros Hk Hsys Hoff Hup Hb Hl Hadm Hpre Hlen Hi. set (req := piece_request c key (Z.of_nat off) last chunk) in *.
  destruct (piece_target_read key (Z.of_nat off) last Hk ltac:(lia)) as (_ & _ & Hp & _).
  destruct (piece_query c key (Z.of_nat off) last chunk Hk ltac:(lia)) as [Ho Hf]. fold req in Ho, Hf.
  assert (Hbody : bytes_of_string (rq_body req) = chunk) by (by apply bytes_of_string_of_bytes).
  assert (Hkey : skip_chars 21 (rq_path req) = key).
  { change (rq_path req) with (target_path (piece_target key (Z.of_nat off) last)). by rewrite Hp. }
  unfold handle_restore_shard_upload. rewrite node_route_run by done. rewrite under_lock_run by done.
  rewrite Hkey, Hk, Hsys. cbn [negb]. rewrite (piece_written path upload req key off n); [|by rewrite Hbody|done|by rewrite Hpre].
  rewrite Hbody, Hf, Hpre. destruct last.
  - exists RESTORED. split; [|split; [done|by apply json_answerable]].
    rewrite (shard_placed path upload key (pre ++ chunk)).
    + unfold installed, with_dir. cbn [n_files n_api n_cluster n_repl n_turn]. by rewrite delete_insert_eq.
    + destruct Hup as (? & ? & w & ? & _). split_and!; [done..|]. exists w. split; [done|lia].
    + by apply Hi.
    + unfold with_dir. cbn [n_files]. by rewrite lookup_insert_eq.
  - eexists. split; [done|]. split; [done|]. by apply json_answerable.
Qed.

(** The tool may do what it does on the node. *)
Definition admitted (c : http_client) (key : string) (n : node S) : Prop :=
  forall off last chunk, admin_request now (piece_request c key off last chunk) n.

Lemma upload_place key : route_place "PUT" ("/admin/restore/shard/" +:+ key) table_names 0 = Some 33%nat.
Proof. vm_compute. reflexivity. Qed.

Lemma upload_handler : table !! 33%nat = Some ("PUT", "/admin/restore/", handle_restore_shard_upload now path upload)%string.
Proof. reflexivity. Qed.

Abbreviation answers := (answering server static peer_ip stale).

Lemma pieces_pushed (fuel : nat) (c : http_client) (key : string) (data pre : bytes) (n : node S) (t : tool (gmap (option (string * Z)) (node S))) :
  plain_client c -> valid_key key = true -> edb_config_is_system_key path key = false ->
  upload_works upload CHUNK -> bytes_ok data -> Z.of_nat (length (pre ++ data)) < 2 ^ 63 ->
  integrity_ok (pre ++ data) = true -> data <> [] -> (length data <= fuel)%nat ->
  a_restore_locked (n_api n) = true -> admitted c key n -> pieces_before path key (length pre) n = pre ->
  t_world t !! endpoint c = Some n ->
  push_chunks (H := answers) fuel c key (Z.of_nat (length pre)) data t =
    (true, Tool (<[endpoint c := installed key (pre ++ data) n]> (t_world t)) (t_files t) (t_turn t)).
Proof.
  intros Hc Hk Hsys Hup Hb Hsize Hi. revert data pre n t Hb Hsize Hi.
  induction fuel as [|fuel IH]; intros data pre n t Hb Hsize Hi Hne Hf Hl Hadm Hpre Hn.
  { destruct data; [done|simpl in Hf; lia]. }
  destruct data as [|b data]; [done|]. set (all := b :: data) in *. cbn [push_chunks]. fold all.
  change (match all with [] => mret true | _ => ?x end) with x.
  rewrite st_bind_run. set (chunk := take CHUNK all). set (rest := drop CHUNK all).
  assert (Hall : chunk ++ rest = all) by apply take_drop.
  assert (Hchunk : (0 < length chunk <= CHUNK)%nat) by (subst chunk; rewrite length_take; subst all; cbn [length]; unfold CHUNK; lia).
  rewrite length_app in Hsize. rewrite <-Hall in Hb. apply Forall_app in Hb as [Hb1 Hb2].
  set (last := match rest with [] => true | _ => false end).
  destruct (piece_target_read key (Z.of_nat (length pre)) last Hk ltac:(lia)) as (Hplain & Hshort & Hpath & _).
  assert (Et : snprintf 1200 ("/admin/restore/shard/" +:+ key +:+ "?offset=" +:+ print_i64 (Z.of_nat (length pre)) +:+
      match rest with [] => "&final=1" | _ => "" end) = piece_target key (Z.of_nat (length pre)) last).
  { rewrite <-(snprintf_short 1200) by exact Hshort. unfold piece_target, last_piece. subst last. by destruct rest. }
  rewrite Et. destruct (piece_handled c key (length pre) last chunk pre n) as (res & Eh & Hst & Hans); try done.
  { lia. }
  { destruct Hup as (? & ? & w & ? & ?). split_and!; [done..|]. exists w. split; [done|lia]. }
  { subst last. destruct rest; [|done]. rewrite app_nil_r in Hall. intros _. by rewrite Hall. }
  edestruct (call_run c "PUT" (piece_target key (Z.of_nat (length pre)) last) (string_of_bytes chunk) 33 "PUT" "/admin/restore/")
    as [Ecode Estate]; [done| |done| |done|by rewrite Hpath; apply upload_place|apply upload_handler| |].
  { by apply (bool_decide_unpack _). }
  { rewrite length_string_of_bytes. unfold CHUNK in *. lia. }
  { fold (piece_request c key (Z.of_nat (length pre)) last chunk). by rewrite Eh. }
  fold (piece_request c key (Z.of_nat (length pre)) last chunk) in Ecode, Estate. rewrite Eh in Ecode, Estate. cbn [fst snd] in Ecode, Estate.
  rewrite Ecode, Hst, Estate. change (negb (200 =? 200)) with false. cbn iota. subst last. destruct rest as [|r rest'] eqn:Er.
  - rewrite app_nil_r in Hall. rewrite Hall. by destruct fuel.
  - rewrite <-Er in *. assert (Elen : Z.of_nat (length pre) + size_of chunk = Z.of_nat (length (pre ++ chunk)))
      by (unfold size_of; rewrite length_app; lia).
    rewrite Elen. set (n1 := with_dir (<[upload_path path key := pre ++ chunk]> (n_files n)) n).
    rewrite (IH rest (pre ++ chunk) n1).
    + rewrite <-(app_assoc pre), Hall. cbn [t_world t_files t_turn]. rewrite insert_insert_eq.
      subst n1. unfold installed, with_dir. cbn [n_files n_api n_cluster n_repl n_turn]. by rewrite delete_insert_eq.
    + done.
    + rewrite <-app_assoc, Hall, length_app. done.
    + by rewrite <-app_assoc, Hall.
    + by rewrite Er.
    + rewrite <-Hall, length_app in Hf. lia.
    + done.
    + done.
    + unfold pieces_before. rewrite length_app. destruct (Nat.eqb_spec (length pre + length chunk) 0); [lia|].
      subst n1. unfold with_dir. cbn [n_files]. by rewrite lookup_insert_eq.
    + cbn [t_world]. by rewrite lookup_insert_eq.
Qed.

(** C24: A file, not empty and sound by the integrity check, that the
    tool pushes as an administrator to a node under the restore lock, in pieces
    of eight bytes, one connection each, is installed as the shard exactly as it
    was in the archive, the temporary file and the side
    files are gone, and nothing else is changed: an end-to-end statement over
    the text of the requests, the parser and the routes of the server, the
    handler and the text of the responses. *)
Theorem pushed_file_installed (c : http_client) (target : cluster_node) (key : string) (data : bytes) (n : node S)
  (t : tool (gmap (option (string * Z)) (node S))) (at_target := at_node c (cn_addr target) (cn_http_port target))
  (Hc : plain_client at_target) (Hk : valid_key key = true) (Hsys : edb_config_is_system_key path key = false)
  (Hup : upload_works upload CHUNK) (Hb : bytes_ok data) (Hsize : size_of data < 2 ^ 63) (Hi : integrity_ok data = true)
  (Hne : data <> []) (Hl : a_restore_locked (n_api n) = true) (Hadm : admitted at_target key n)
  (Hn : t_world t !! endpoint at_target = Some n) :
  (push_file (H := answers) c target key data t).1 = true /\
  t_world (push_file (H := answers) c target key data t).2 = <[endpoint at_target := installed key data n]> (t_world t) /\
  n_files (installed key data n) !! local_path path key = Some data.
Proof.
  unfold push_file. fold at_target.
  pose proof (pieces_pushed (length data) at_target key data [] n t Hc Hk Hsys Hup Hb Hsize Hi Hne (le_n _) Hl Hadm eq_refl Hn) as Hp.
  change (Z.of_nat (length [])) with 0 in Hp. rewrite Hp. cbn [fst snd t_world app].
  split; [done|]. split; [done|]. unfold installed, with_dir. cbn [n_files]. rewrite lookup_foldr_delete; [apply lookup_insert_eq|].
  intros Hin. unfold side_files in Hin. assert (Hd : forall s x, x <> ""%string -> s <> (s +:+ x)).
  { clear. intros s x Hx E. apply (f_equal String.length) in E. rewrite length_append in E. destruct x; [done|]. simpl in E. lia. }
  rewrite !elem_of_cons in Hin. destruct Hin as [E|[E|[E|?%elem_of_nil]]]; [..|done]; (eapply Hd; [|exact E]); done.
Qed.

(** *** A restore over the admin socket *)

(** An administrative request over the admin socket, from the tool. *)
Lemma socket_request (c : http_client) method target body (n : node S) : g_host c = None ->
  admin_request now (at_handler peer_ip c method target body) n.
Proof. intros H. apply trusted_admin. unfold at_handler, endpoint. by rewrite H. Qed.

Lemma locked_run (b : bool) (req : edb_http_request) (n : node S) : rq_method req = "POST"%string -> admin_request now req n ->
  exists n', (if b then handle_restore_lock cfg now req else handle_restore_unlock cfg now req) n =
    (respond_json 200 (Some (JString (if b then "locked" else "unlocked"))), n') /\
    a_restore_locked (n_api n') = b /\ n_files n' = n_files n.
Proof.
  intros Hm (g & E & Hg). assert (Ea : handle_restore cfg now b req (n_api n) =
    (respond_json 200 (Some (JString (if b then "locked" else "unlocked"))), (restore_set_locked cfg b (n_api n)).2)).
  { unfold handle_restore. rewrite Hm, String.eqb_refl. cbn [negb].
    unfold admin_only. rewrite st_bind_run, E. cbn [fst snd negb]. rewrite Hg. by rewrite st_bind_run. }
  assert (El : a_restore_locked (restore_set_locked cfg b (n_api n)).2 = b).
  { unfold restore_set_locked. rewrite !st_bind_run. apply on_store_run. }
  exists (Node (restore_set_locked cfg b (n_api n)).2 (n_cluster n) (n_repl n) (n_files n) (n_turn n)).
  split; [|done]. destruct b; unfold handle_restore_lock, handle_restore_unlock, in_api; by rewrite Ea.
Qed.

(** A request over the admin socket by a client without a host. *)
Lemma socket_call (c : http_client) (method target : string) (j : nat) (m p : string)
  (h : edb_http_request -> st (node S) edb_http_response) (n : node S) (t : tool (gmap (option (string * Z)) (node S))) :
  g_host c = None -> plain_client c -> word_ok 15 method -> plain_target target ->
  route_place method (target_path target) table_names 0 = Some j -> table !! j = Some (m, p, h) ->
  t_world t !! None = Some n -> answerable (h (at_handler peer_ip c method target "") n).1 ->
  (http_json (H := answers) c method target t).1.2 = res_status (h (at_handler peer_ip c method target "") n).1 /\
  (http_json (H := answers) c method target t).2 =
    Tool (<[None := (h (at_handler peer_ip c method target "") n).2]> (t_world t)) (t_files t) (t_turn t).
Proof.
  intros Hh Hc Hm Ht Hj Htab Hn Hans. assert (He : endpoint c = None) by (unfold endpoint; by rewrite Hh).
  assert (Hn' : t_world t !! endpoint c = Some n) by (by rewrite He).
  assert (Hb : Z.of_nat (String.length "") <= 1000000) by done.
  destruct (call_run c method target "" j m p h n t Hc Hm Ht Hb Hn' Hj Htab Hans) as [E1 E2].
  rewrite He in E2. unfold http_json. rewrite !st_bind_run. split; [exact E1|exact E2].
Qed.

(** The node as the tool sees it when it has no host. *)
Definition socket_node : cluster_node := ClusterNode "local" "local" 0 0 true false.

Lemma nothing_pushed (c : http_client) (dir : string) (shards : list shard_entry) (t : tool (gmap (option (string * Z)) (node S))) :
  (forall e, e ∈ shards -> (String.length (dir +:+ "/" +:+ e_key e +:+ ".sqlite") <? 4096)%nat = true /\
     is_Some (t_files t !! (dir +:+ "/" +:+ e_key e +:+ ".sqlite"))) ->
  push_all (H := answers) c dir [socket_node] shards t = (O, t).
Proof.
  induction shards as [|e shards IH]; intros Hs; [done|]. cbn [push_all]. rewrite st_bind_run. cbn [local fst snd].
  destruct (Hs e ltac:(by left)) as [Hl [d Hd]]. apply Nat.ltb_lt in Hl.
  destruct (Nat.leb_spec 4096 (String.length (dir +:+ "/" +:+ e_key e +:+ ".sqlite"))); [lia|]. rewrite Hd.
  rewrite st_bind_run. cbn [push_to socket_node cn_online cn_http_port negb orb Z.leb Z.compare]. rewrite !st_bind_run.
  cbn [mret st_ret fst snd]. rewrite IH; [done|]. intros e' He'. apply Hs. by right.
Qed.

Lemma socket_restore_nodes (c : http_client) (j : option json) : g_host c = None -> restore_nodes c (j, 400) = [socket_node].
Proof. intros H. unfold restore_nodes. rewrite H. by destruct j. Qed.

Lemma socket_all (c : http_client) (target : string) (t : tool (gmap (option (string * Z)) (node S))) : g_host c = None ->
  all_nodes (H := answers) c target [socket_node] t = (tt, (http_json (H := answers) c "POST" target t).2).
Proof.
  intros H. cbn [all_nodes socket_node cn_online]. rewrite !st_bind_run. unfold node_request, seed_addr. rewrite H. done.
Qed.

Lemma socket_lock (c : http_client) (t : tool (gmap (option (string * Z)) (node S))) : g_host c = None ->
  (http_json (H := answers) c "POST" "/admin/restore/lock" t).1.2 = 200 ->
  lock_nodes (H := answers) c [socket_node] t = (1%nat, (http_json (H := answers) c "POST" "/admin/restore/lock" t).2).
Proof.
  intros H E. cbn [lock_nodes socket_node cn_online cn_http_port cn_addr negb Z.ltb Z.compare].
  unfold seed_addr, seed_port. rewrite H. cbn [default from_option].
  change (String.eqb "local" "local" && ((0 =? 0) || (cn_mesh_port socket_node =? 0))) with true. cbn iota.
  rewrite !st_bind_run, E. done.
Qed.

(** The requests of a restore over the admin socket. *)
Lemma socket_cluster (c : http_client) (n : node S) (t : tool (gmap (option (string * Z)) (node S))) :
  plain_client c -> g_host c = None -> n_cluster n = None -> t_world t !! None = Some n ->
  (http_json (H := answers) c "GET" "/admin/cluster" t).1.2 = 400 /\
  (http_json (H := answers) c "GET" "/admin/cluster" t).2 = Tool (<[None := n]> (t_world t)) (t_files t) (t_turn t).
Proof.
  intros Hc Hs Hcl Hn. set (req := at_handler peer_ip c "GET" "/admin/cluster" "").
  assert (E : handle_admin_cluster now req n = (CLUSTERING_DISABLED, n)).
  { unfold handle_admin_cluster. rewrite node_route_run; [|done|by apply socket_request]. unfold with_cluster.
    rewrite st_bind_run. cbn [peek fst snd]. by rewrite Hcl. }
  destruct (socket_call c "GET" "/admin/cluster" 25 "GET" "/admin/cluster" (handle_admin_cluster now) n t) as [E1 E2]; try done.
  all: try (by apply (bool_decide_unpack _)).
  - fold req. rewrite E. by apply json_answerable.
  - fold req in E1, E2. rewrite E in E1, E2. done.
Qed.

Lemma socket_restore_lock (b : bool) (c : http_client) (n : node S) (t : tool (gmap (option (string * Z)) (node S))) :
  plain_client c -> g_host c = None -> t_world t !! None = Some n ->
  exists n', a_restore_locked (n_api n') = b /\ n_files n' = n_files n /\
    let target := if b then "/admin/restore/lock"%string else "/admin/restore/unlock"%string in
    (http_json (H := answers) c "POST" target t).1.2 = 200 /\
    (http_json (H := answers) c "POST" target t).2 = Tool (<[None := n']> (t_world t)) (t_files t) (t_turn t).
Proof.
  intros Hc Hs Hn. set (target := if b then "/admin/restore/lock"%string else "/admin/restore/unlock"%string).
  set (req := at_handler peer_ip c "POST" target "").
  destruct (locked_run b req n) as (n' & E & H1 & H2); [done|by apply socket_request|].
  exists n'. split; [done|]. split; [done|]. cbv zeta.
  destruct (socket_call c "POST" target (if b then 30 else 31) "POST" target
    (if b then handle_restore_lock cfg now else handle_restore_unlock cfg now) n t) as [E1 E2]; try done.
  - by apply (bool_decide_unpack _).
  - subst target. destruct b; by apply (bool_decide_unpack _).
  - by destruct b.
  - by destruct b.
  - fold req. destruct b; rewrite E; by apply json_answerable.
  - fold req in E1, E2. destruct b; rewrite E in E1, E2; done.
Qed.

Lemma socket_wipe (c : http_client) (n : node S) (t : tool (gmap (option (string * Z)) (node S))) :
  plain_client c -> g_host c = None -> a_restore_locked (n_api n) = true -> t_world t !! None = Some n ->
  exists n', (http_json (H := answers) c "POST" "/admin/restore/wipe" t).2 = Tool (<[None := n']> (t_world t)) (t_files t) (t_turn t) /\
    forall f, (wipeable path unlinks (local_shard_keys path (n_files n)) f -> n_files n' !! f = None) /\
              (~ wipeable path unlinks (local_shard_keys path (n_files n)) f -> n_files n' !! f = n_files n !! f).
Proof.
  intros Hc Hs Hl Hn. set (req := at_handler peer_ip c "POST" "/admin/restore/wipe" "").
  set (keys := local_shard_keys path (n_files n)). exists (wipe_keys path unlinks keys 0 n).2.
  split; [|apply (wipe_run path unlinks keys 0 n)].
  assert (E : handle_restore_wipe now path unlinks req n =
    (respond_json 200 (Some (JObject [("wiped", jnum (Z.of_nat (wipe_keys path unlinks keys 0 n).1))])), (wipe_keys path unlinks keys 0 n).2)).
  { unfold handle_restore_wipe. rewrite node_route_run; [|done|by apply socket_request]. rewrite under_lock_run by done.
    rewrite st_bind_run. cbn [peek fst snd]. by rewrite st_bind_run. }
  destruct (socket_call c "POST" "/admin/restore/wipe" 32 "POST" "/admin/restore/wipe" (handle_restore_wipe now path unlinks) n t) as [E1 E2]; try done.
  all: try (by apply (bool_decide_unpack _)).
  - fold req. rewrite E. by apply json_answerable.
  - fold req in E2. rewrite E in E2. done.
Qed.

(** C39: A restore through the admin socket of a node that is not in
    a cluster wipes the node and pushes nothing, because the node it makes up
    for itself has no HTTP port: whatever shards the archive has, the tool
    reports success and what the wipe removed is gone. *)
Theorem local_restore_loses_data (c : http_client) (zip_path : string) (unzip : bytes -> string -> option files)
  (n : node S) (t : tool (gmap (option (string * Z)) (node S))) (data : bytes) (tree : files)
  (dir := zip_path +:+ ".unpacked") (unpacked := tree ∪ remove_tree dir (t_files t)) (text := unpacked !! (dir +:+ "/manifest.json"))
  (Hc : plain_client c) (Hsocket : g_host c = None) (Hn : t_world t !! None = Some n) (Hsingle : n_cluster n = None)
  (Hzip : remove_tree dir (t_files t) !! zip_path = Some data) (Hunzip : unzip data dir = Some tree)
  (Hlength : (String.length dir < 4000)%nat) (Hsome : unpacked_shards text <> [])
  (Hfiles : forall e, e ∈ unpacked_shards text -> is_Some (unpacked !! (dir +:+ "/" +:+ e_key e +:+ ".sqlite"))) :
  (cmd_restore (H := answers) unzip c zip_path t).1 = 0 /\
  exists n', t_world (cmd_restore (H := answers) unzip c zip_path t).2 !! None = Some n' /\ a_restore_locked (n_api n') = false /\
    forall f, (wipeable path unlinks (local_shard_keys path (n_files n)) f -> n_files n' !! f = None) /\
              (~ wipeable path unlinks (local_shard_keys path (n_files n)) f -> n_files n' !! f = n_files n !! f).
Proof.
  assert (Hdir : (String.length (dir +:+ "/manifest.json") < 4096)%nat) by (rewrite length_append; simpl; lia).
  assert (Hkeys : forall e, e ∈ unpacked_shards text -> (String.length (dir +:+ "/" +:+ e_key e +:+ ".sqlite") < 4096)%nat).
  { intros e He. assert (Hk : (String.length (e_key e) < 33)%nat).
    { unfold unpacked_shards in He. apply elem_of_take in He as (i & Hi & _). apply list_elem_of_lookup_2, list_elem_of_omap in Hi as (s & _ & Hs).
      destruct (get_string s "key"); [|done]. injection Hs as <-. apply length_snprintf. lia. }
    rewrite !length_append. simpl String.length. lia. }
  unfold cmd_restore. fold dir. destruct (Nat.leb_spec 4096 (String.length dir)); [lia|].
  rewrite st_bind_run. cbn [on_local fst snd]. rewrite st_bind_run. cbn [local fst snd t_files]. rewrite Hzip. cbn [mbind option_bind].
  rewrite Hunzip. cbn iota beta. rewrite st_bind_run. cbn [on_local fst snd t_files t_world t_turn].
  destruct (Nat.leb_spec 4096 (String.length (dir +:+ "/manifest.json"))); [lia|]. rewrite st_bind_run. cbn [local fst snd t_files].
  fold unpacked. fold text.
  assert (Hperm : sort_shards (unpacked_shards text) ≡ₚ unpacked_shards text) by apply merge_sort_Permutation.
  destruct (sort_shards (unpacked_shards text)) as [|e0 shards] eqn:Es; [by apply Permutation_nil_l in Hperm|].
  rewrite <-Es in Hperm |- *. set (all := sort_shards (unpacked_shards text)) in *. clear e0 shards Es.
  set (t0 := Tool (t_world t) unpacked (t_turn t)). rewrite st_bind_run.
  destruct (socket_cluster c n t0 Hc Hsocket Hsingle Hn) as [C1 C2]. set (answer := (http_json c "GET" "/admin/cluster" t0).1) in *.
  assert (Enodes : restore_nodes c answer = [socket_node]).
  { destruct answer as [j st]. cbn [snd] in C1. subst st. by apply socket_restore_nodes. }
  rewrite C2, Enodes. cbn [t_world t_files t_turn t0].
  set (t1 := Tool (<[None := n]> (t_world t)) unpacked (t_turn t)). rewrite st_bind_run.
  destruct (socket_restore_lock true c n t1 Hc Hsocket) as (n1 & L1 & L2 & L3 & L4); [apply lookup_insert_eq|].
  rewrite (socket_lock c t1 Hsocket L3), L4. cbn [fst snd Nat.eqb]. rewrite st_bind_run.
  set (t2 := Tool (<[None := n1]> (t_world t1)) (t_files t1) (t_turn t1)).
  destruct (socket_wipe c n1 t2 Hc Hsocket L1) as (n2 & W1 & W2); [apply lookup_insert_eq|].
  rewrite socket_all, W1 by done. cbn [fst snd]. rewrite st_bind_run.
  set (t3 := Tool (<[None := n2]> (t_world t2)) (t_files t2) (t_turn t2)).
  rewrite nothing_pushed. 2: { intros e He. rewrite Hperm in He. split; [by apply Nat.ltb_lt, Hkeys|]. by apply Hfiles. }
  cbn [fst snd]. rewrite st_bind_run.
  destruct (socket_restore_lock false c n2 t3 Hc Hsocket) as (n3 & U1 & U2 & U3 & U4); [apply lookup_insert_eq|].
  rewrite socket_all, U4 by done. cbn [fst snd]. rewrite st_bind_run. cbn [on_local fst snd mret st_ret t_world Nat.ltb Nat.leb].
  split; [done|]. exists n3. split; [apply lookup_insert_eq|]. split; [done|]. intros f. rewrite U2, <-L2. apply W2.
Qed.

End node.

(** ** Witnesses *)

Section witnesses.
Import MapStore.
#[local] Existing Instance digit_codec.
#[local] Existing Instance toy_files.
#[local] Existing Instance toy_network.
#[local] Existing Instance EqlNode.toy_sqlite.
#[local] Existing Instance LuaFacts.toy_data.
#[local] Existing Instance LuaFacts.toy_writes.
#[local] Instance no_maintenance : Maintenance map_store := {| eng_vacuum_partition _ := mret 0; eng_reindex_partition _ := mret 0 |}.
#[local] Instance no_scripts : Lua.LuaVM := LuaFacts.toy_vm "" (fun entity _ => Lua.Ret entity).

Definition keep_document (_ : edb_lua_event) (_ _ _ _ : string) (doc : option json) (_ : Z) : st map_store lua_outcome := mret (LuaOk doc).
Definition nothing_fires (_ : edb_lua_event) (_ _ _ _ : string) (_ : option json) : st map_store unit := mret tt.
Definition nothing_recorded (_ : analytics_event) : st map_store unit := mret tt.
Definition no_benchmark (_ _ _ _ : Z) : st map_store (option json) := mret None.
Definition eight : upload_outcome := Upload true (Some 8%nat) true.

Definition the_shard : string := "0123456789abcdef0123456789abcdef".
Definition shard_data : bytes := [1; 2; 3; 4; 5; 6; 7; 8; 9; 10].
Definition the_client : http_client := Client None 8123 "" "".
Definition lone_node : node map_store :=
  Node (ApiState [] [] false None ∅) None (Repl.MkRepl "" 0 None false "") {[ shard_path "/d" the_shard := shard_data ]} 0.

(** An archive with that shard. *)
Definition archive_tree (dir : string) : files :=
  <[dir +:+ "/manifest.json" := bytes_of_string (json_print (archive_manifest "" "single" [ShardEntry the_shard 10 false None []]))]>
  {[ dir +:+ "/" +:+ the_shard +:+ ".sqlite" := shard_data ]}.
Definition toy_unzip (_ : bytes) (dir : string) : option files := Some (archive_tree dir).
Definition the_tool : tool (gmap (option (string * Z)) (node map_store)) := Tool {[ None := lone_node ]} {[ "b.zip"%string := [0] ]} 0.

Abbreviation sample_server := (node_server (S := map_store) edb_config_open None 100 "/d" "" "" "" keep_document nothing_fires nothing_recorded
  (fun _ => JNull) None (fun _ => 0) false no_benchmark nothing_happens a_transfer None None None None true (fun _ => true) eight).

Lemma the_client_plain : plain_client the_client.
Proof. constructor; cbn; [in_line_literal|lia|constructor|constructor|lia]. Qed.

Lemma local_restore_loses_data_witness :
  let r := cmd_restore (H := answering sample_server (fun _ => None) "" HttpFacts.freed) toy_unzip the_client "b.zip" the_tool in
  r.1 = 0 /\ n_files lone_node !! shard_path "/d" the_shard = Some shard_data /\
  exists n', t_world r.2 !! None = Some n' /\ n_files n' !! shard_path "/d" the_shard = None.
Proof.
  intros r.
  pose proof (local_restore_loses_data (S := map_store) edb_config_open None 100 "/d" "" "" "" keep_document nothing_fires nothing_recorded
    (fun _ => JNull) None (fun _ => 0) false no_benchmark nothing_happens a_transfer None None None None true (fun _ => true) eight
    (fun _ => None) "" HttpFacts.freed the_client "b.zip" toy_unzip lone_node the_tool [0] (archive_tree "b.zip.unpacked")
    the_client_plain eq_refl eq_refl eq_refl) as H.
  cbv zeta in H. destruct H as [H1 (n' & H2 & _ & H3)].
  - vm_compute. reflexivity.
  - reflexivity.
  - apply Nat.ltb_lt. reflexivity.
  - vm_compute. discriminate.
  - intros e He.
    assert (E : e = ShardEntry the_shard 10 false None []) by (revert He; vm_compute; intros He; by apply list_elem_of_singleton in He).
    subst e. exists shard_data. vm_compute. reflexivity.
  - split; [exact H1|]. split; [reflexivity|]. exists n'. split; [exact H2|]. apply H3. exists the_shard.
    split_and!; [vm_compute; left|reflexivity|vm_compute; reflexivity|reflexivity|reflexivity].
Defined.

(** A node under the lock where "cafe" is the session of an administrator. *)
Definition locked_target : node map_store :=
  Node (ApiState [] (session_create (repeat no_session EDB_SESSION_CAPACITY) "ann" 1 "cafe" 90) true None ∅) None (Repl.MkRepl "" 0 None false "") ∅ 0.
Definition the_target : cluster_node := ClusterNode "b" "10.0.0.2" 7400 8123 true false.
Definition with_session : http_client := Client None 8123 "cafe" "secret".
Definition pushing_tool : tool (gmap (option (string * Z)) (node map_store)) := Tool {[ Some ("10.0.0.2"%string, 8123) := locked_target ]} ∅ 0.

Lemma with_session_plain : plain_client (at_node with_session "10.0.0.2" 8123).
Proof. constructor; cbn; [in_line_literal|lia|in_line_literal|in_line_literal|lia]. Qed.

Lemma session_admitted : admitted 100 "" (at_node with_session "10.0.0.2" 8123) the_shard locked_target.
Proof. intros off last chunk. exists 1. split; [lazy; reflexivity|reflexivity]. Qed.

(** Ten bytes, in two pieces. *)
Lemma pushed_file_installed_witness :
  let r := push_file (H := answering sample_server (fun _ => None) "" HttpFacts.freed) with_session the_target the_shard shard_data pushing_tool in
  r.1 = true /\ n_files locked_target !! local_path "/d" the_shard = None /\
  exists n', t_world r.2 !! Some ("10.0.0.2"%string, 8123) = Some n' /\ n_files n' !! local_path "/d" the_shard = Some shard_data.
Proof.
  intros r.
  pose proof (pushed_file_installed (S := map_store) edb_config_open None 100 "/d" "" "" "" keep_document nothing_fires nothing_recorded
    (fun _ => JNull) None (fun _ => 0) false no_benchmark nothing_happens a_transfer None None None None true (fun _ => true) eight
    (fun _ => None) "" HttpFacts.freed with_session the_target the_shard shard_data locked_target pushing_tool
    with_session_plain) as H.
  cbv zeta in H. destruct H as (H1 & H2 & H3).
  - reflexivity.
  - vm_compute. reflexivity.
  - split_and!; [done..|]. exists 8%nat. split; [done|]. unfold CHUNK. lia.
  - by repeat constructor.
  - reflexivity.
  - reflexivity.
  - discriminate.
  - reflexivity.
  - exact session_admitted.
  - reflexivity.
  - split; [exact H1|]. split; [reflexivity|]. eexists. split; [|exact H3]. etrans; [exact (f_equal (fun w => w !! Some ("10.0.0.2"%string, 8123)) H2)|reflexivity].
Defined.

End witnesses.

End BackupFacts.
