(* ===== verification/BackupArchive.v ===== *)
(** What a backup of [BackupTool] has when it reports success: a file for every
    shard that a node listed and no node called a system shard. *)

From S2P Require Import Prelude Json Manager Store MapStore Config Wire Cluster Repl Http HttpFacts Api Snap SnapFacts ApiCluster BackupTool.

Module BackupArchive.

Import Json Manager Store Config Wire Cluster Http HttpFacts Api Snap SnapFacts ApiCluster BackupTool.

(** ** The union of the manifests *)

Section union.

(** The shards a manifest lists, with their keys. *)
Definition listed (m : json) : list (string * json) :=
  omap (fun s => (fun key => (key, s)) <$> get_string s "key") (array_of (get_item m "shards")).

Lemma update_first_keys key f l l' : (forall e, e_key (f e) = e_key e) -> update_first key f l = Some l' ->
  map e_key l' = map e_key l /\ key ∈ map e_key l.
Proof.
  intros Hf. revert l'. induction l as [|e l IH]; intros l'; [done|]. cbn [update_first map].
  destruct (String.eqb_spec (e_key e) key) as [<-|Hne].
  - intros [= <-]. cbn [map]. rewrite Hf. split; [done|by left].
  - destruct (update_first key f l) as [k|]; [|done]. intros [= <-]. destruct (IH k eq_refl) as [E Hin].
    cbn [map]. rewrite E. split; [done|by right].
Qed.

Lemma update_first_system key f l l' : update_first key f l = Some l' ->
  forall e, e ∈ l' -> e ∈ l \/ exists e0, e0 ∈ l /\ e_key e0 = key /\ e = f e0.
Proof.
  revert l'. induction l as [|e0 l IH]; intros l'; [done|]. cbn [update_first].
  destruct (String.eqb_spec (e_key e0) key) as [Hk|Hne].
  - intros [= <-] e [->|He]%elem_of_cons; [right; exists e0; split_and!; [by left|done..]|left; by right].
  - destruct (update_first key f l) as [k|]; [|done]. intros [= <-] e [->|He]%elem_of_cons; [left; by left|].
    destruct (IH k eq_refl e He) as [?|(e1 & ? & ? & ?)]; [left; by right|right; exists e1; split_and!; [by right|done..]].
Qed.

(** What is known of the union after some listings [ls]: it has them all, and
    calls an entry a system shard only if one of them does. *)
Definition union_of (ls : list (string * json)) (shards : list shard_entry) : Prop :=
  (forall key s, (key, s) ∈ ls -> key ∈ map e_key shards) /\ (length shards <= length ls)%nat /\
  (forall e, e ∈ shards -> (exists s, (e_key e, s) ∈ ls) /\ (e_system e = true -> exists s, (e_key e, s) ∈ ls /\ is_true_item s "system" = true)).

Lemma shard_added n names shards s ls : union_of ls shards ->
  (forall key, get_string s "key" = Some key -> valid_key key = true /\ (length ls < MAX_SHARDS)%nat) ->
  union_of (ls ++ match get_string s "key" with Some key => [(key, s)] | None => [] end) (add_shard n names shards s).
Proof.
  intros (Hall & Hlen & Hsys) Hs. unfold add_shard. destruct (get_string s "key") as [key|] eqn:Ek.
  2: { rewrite app_nil_r. by destruct (MAX_SHARDS <=? length shards)%nat. }
  destruct (Hs key eq_refl) as [[Hkl _]%andb_prop Hroom]. apply Nat.eqb_eq in Hkl.
  destruct (Nat.leb_spec MAX_SHARDS (length shards)); [lia|].
  set (f := merge_entry n s names). assert (Hf : forall e, e_key (f e) = e_key e) by done.
  assert (Hf2 : forall e, e_system (f e) = e_system e || is_true_item s "system") by done.
  assert (Hold : forall k x, (k, x) ∈ ls -> (k, x) ∈ ls ++ [(key, s)]) by (intros; apply elem_of_app; by left).
  assert (Hnew : (key, s) ∈ ls ++ [(key, s)]) by (apply elem_of_app; right; by apply list_elem_of_singleton).
  destruct (update_first key f shards) as [shards'|] eqn:Eu.
  - destruct (update_first_keys key f shards shards' Hf Eu) as [Em Hin].
    assert (El : length shards' = length shards) by (rewrite <-(length_map e_key shards'), Em; apply length_map).
    split_and!.
    + intros k x [Hkx|[= -> ->]%list_elem_of_singleton]%elem_of_app; rewrite Em; [by eapply Hall|done].
    + rewrite El, length_app. simpl. lia.
    + intros e He. destruct (update_first_system key f shards shards' Eu e He) as [Hin'|(e0 & Hin' & Hk & ->)].
      * destruct (Hsys e Hin') as [[x Hx] Hy]. split; [by exists x; apply Hold|]. intros H1. destruct (Hy H1) as (y & ? & ?). exists y. split; [by apply Hold|done].
      * rewrite Hf, Hf2, Hk. split; [by exists s|]. intros [H1|H1]%orb_prop; [|by exists s].
        destruct (Hsys e0 Hin') as [_ Hy]. destruct (Hy H1) as (y & Hy1 & Hy2). exists y. rewrite Hk in Hy1. split; [by apply Hold|done].
  - rewrite snprintf_short by (rewrite Hkl; lia). split_and!.
    + intros k x Hkx. rewrite map_app. apply elem_of_app in Hkx as [Hkx|[= -> ->]%list_elem_of_singleton]; apply elem_of_app.
      * left. by eapply Hall.
      * right. cbn [map]. rewrite Hf. by apply list_elem_of_singleton.
    + rewrite !length_app. simpl. lia.
    + intros e [He|He%list_elem_of_singleton]%elem_of_app.
      * destruct (Hsys e He) as [[x Hx] Hy]. split; [by exists x; apply Hold|]. intros H1. destruct (Hy H1) as (y & ? & ?). exists y. split; [by apply Hold|done].
      * subst e. rewrite Hf, Hf2. cbn [e_key e_system orb]. split; [by exists s|]. intros H1. by exists s.
Qed.

Lemma manifest_added n names m shards ls : union_of ls shards -> Forall (fun l => valid_key l.1 = true) (listed m) ->
  (length ls + length (listed m) <= MAX_SHARDS)%nat -> union_of (ls ++ listed m) (add_manifest n names m shards).
Proof.
  unfold listed, add_manifest. generalize (array_of (get_item m "shards")). intros items. revert ls shards.
  induction items as [|s items IH]; intros ls shards Hu Hv Hlen; [cbn; by rewrite app_nil_r|].
  cbn [foldl]. pose proof (shard_added n names shards s ls Hu) as Ha.
  assert (Eo : omap (fun s => (fun key => (key, s)) <$> get_string s "key") (s :: items) =
    match get_string s "key" with Some key => [(key, s)] | None => [] end ++ omap (fun s => (fun key => (key, s)) <$> get_string s "key") items).
  { cbn [omap list_omap]. by destruct (get_string s "key"). }
  rewrite Eo in Hv, Hlen |- *. apply Forall_app in Hv as [Hv1 Hv2]. rewrite length_app in Hlen. rewrite app_assoc. apply IH; [|done|].
  - apply Ha. intros key Ek. rewrite Ek in Hv1, Hlen. apply Forall_cons_1 in Hv1 as [Hv1 _]. cbn [length] in Hlen. split; [exact Hv1|]. revert Hlen. generalize MAX_SHARDS. lia.
  - rewrite length_app. lia.
Qed.
End union.

Section backup.
Context {W : Type} {HN : HttpNodes W} {JC : JsonCodec}.
Context (zip_dir : files -> string -> option bytes) (cwd : option string) (transfers : nat -> transfer).

Abbreviation tst := (st (tool W)).

(** The manifests of the nodes that answer, by the requests [gather] makes. *)
Fixpoint manifests (c : http_client) (single : bool) (nodes : list cluster_node) : tst (list json) :=
  match nodes with
  | [] => mret []
  | node :: nodes =>
      if negb (cn_online node) || negb (cn_local node) && (cn_http_port node <=? 0) then manifests c single nodes
      else
        m ← http_json (client_of c single node) "GET" "/admin/backup/manifest";
        ms ← manifests c single nodes;
        mret (match m.1 with Some j => if 400 <=? m.2 then ms else j :: ms | None => ms end)
  end.

Definition listings (ms : list json) : list (string * json) := concat (map listed ms).

Lemma gathered c single names n nodes shards ls (t : tool W) : union_of ls shards ->
  Forall (fun l => valid_key l.1 = true) (listings (manifests c single nodes t).1) ->
  (length ls + length (listings (manifests c single nodes t).1) <= MAX_SHARDS)%nat ->
  union_of (ls ++ listings (manifests c single nodes t).1) (gather c single names n nodes shards t).1 /\
  (gather c single names n nodes shards t).2 = (manifests c single nodes t).2.
Proof.
  revert n shards ls t. induction nodes as [|node nodes IH]; intros n shards ls t Hu; cbn [manifests gather]; [by rewrite app_nil_r|].
  destruct (_ || _); [by apply IH|]. rewrite !st_bind_run. set (m := (http_json _ _ _ t).1). set (t1 := (http_json _ _ _ t).2).
  cbn [mret st_ret fst snd]. destruct m.1 as [j|]; [|by apply IH]. destruct (400 <=? m.2); [by apply IH|].
  unfold listings. cbn [map concat]. rewrite length_app, app_assoc. intros [Hv1 Hv2]%Forall_app Hlen. apply IH; [|done|].
  - apply manifest_added; [done|done|lia].
  - rewrite length_app. unfold listings. lia.
Qed.

(** ** Fetching *)

(** A transfer leaves the files that are there, and leaves the shard it reports. *)
Lemma snap_fetch_effect space writable dialled suffix reply renamed addr port key dir am s :
  let r := snap_fetch space writable dialled suffix reply renamed addr port key dir am s in
  (forall f, (forall sx, f <> incoming_name dir key sx) -> is_Some (sd_files s !! f) -> is_Some (sd_files r.2 !! f)) /\
  (r.1 = true -> valid_key key = true /\ (String.length (shard_path dir key) < 1100)%nat /\ is_Some (sd_files r.2 !! shard_path dir key)).
Proof.
  cbv zeta. unfold snap_fetch. destruct addr; [|done]. destruct (valid_key key) eqn:Ek; cbn [negb orb]; [|done].
  destruct (_ || _); [done|]. destruct (Nat.leb_spec 1100 (String.length (incoming_name dir key "XXXXXX"))); [done|].
  destruct (Nat.leb_spec 1100 (String.length (shard_path dir key))); [done|]. cbn [orb].
  assert (Hsend : forall fr x, sd_files (send fr x).2 = sd_files x) by (intros fr x; unfold send; by destruct (sd_outcomes x) as [|[] ?]).
  rewrite st_bind_run. destruct (send HELLO_EPHEMERAL s) as [ok s1] eqn:E1. cbn [fst snd].
  pose proof (Hsend HELLO_EPHEMERAL s) as F1. rewrite E1 in F1. cbn [snd] in F1. destruct ok; cbn [negb]; [|by cbn; rewrite F1].
  rewrite st_bind_run. destruct (send _ s1) as [ok s2] eqn:E2. cbn [fst snd].
  pose proof (Hsend (request_frame key am) s1) as F2. rewrite E2 in F2. cbn [snd] in F2. rewrite F1 in F2.
  destruct ok; cbn [negb]; [|by cbn; rewrite F2]. destruct suffix as [sx|]; [|by cbn; rewrite F2].
  rewrite st_bind_run. cbn [with_files fst snd].
  destruct (fetch_loop _ _ _ _); rewrite st_bind_run; cbn [with_files fst snd sd_files mret st_ret]; rewrite F2.
  - destruct renamed.
    + split; [|intros _; split_and!; [done|done|rewrite lookup_insert_eq; by eexists]]. intros f Hf Hs.
      destruct (decide (f = shard_path dir key)) as [->|Hne]; [rewrite lookup_insert_eq; by eexists|].
      rewrite lookup_insert_ne, lookup_delete_ne, lookup_insert_ne by done. done.
    + split; [|done]. intros f Hf Hs. rewrite lookup_delete_ne, lookup_insert_ne by done. done.
  - split; [|done]. intros f Hf Hs. rewrite lookup_delete_ne, lookup_insert_ne by done. done.
Qed.

(** The staged files of good keys. *)
Definition good_key (staging key : string) : Prop := valid_key key = true /\ (String.length (shard_path staging key) < 1100)%nat.
Definition is_staged (staging key : string) (t : tool W) : Prop := is_Some (t_files t !! staged staging key).
Definition keeps_staged (staging : string) (t t' : tool W) : Prop :=
  forall key, good_key staging key -> is_staged staging key t -> is_staged staging key t'.

#[local] Instance keeps_staged_preorder staging : PreOrder (keeps_staged staging).
Proof. split; [by intros t key|]. intros t t' t'' H1 H2 key Hk Hs. by apply H2, H1. Qed.

Lemma staged_path staging key : (String.length (shard_path staging key) < 1100)%nat -> staged staging key = shard_path staging key.
Proof. intros H. unfold staged. by apply snprintf_short. Qed.

Lemma same_files_keep staging (t t' : tool W) : t_files t' = t_files t -> keeps_staged staging t t'.
Proof. intros E key _. unfold is_staged. by rewrite E. Qed.

Lemma request_files c method path body (t : tool W) : t_files (http_request_raw c method path body t).2 = t_files t.
Proof. unfold http_request_raw. rewrite st_bind_run. unfold in_world. by destruct (talk _ _ _). Qed.

Lemma valid_length key : valid_key key = true -> String.length key = 32%nat.
Proof. intros [H _]%andb_prop. by apply Nat.eqb_eq. Qed.

Lemma mesh_fetched node key staging (t : tool W) : 
  keeps_staged staging t (mesh_fetch transfers node key staging t).2 /\
  ((mesh_fetch transfers node key staging t).1 = true -> is_staged staging key (mesh_fetch transfers node key staging t).2).
Proof.
  unfold mesh_fetch, edb_snap_fetch. set (tr := transfers (t_turn t)).
  pose proof (snap_fetch_effect (tr_space tr) (tr_writable tr) (tr_dialled tr) (tr_suffix tr) (tr_reply tr) (tr_renamed tr)
    (Some (cn_addr node)) (cn_mesh_port node) key staging true (Side (t_files t) [] (tr_sends tr))) as [H1 H2].
  destruct (snap_fetch _ _ _ _ _ _ _ _ _ _ _ _) as [ok s]. cbn [fst snd] in *. split.
  - intros k [Hk Hlen] Hs. unfold is_staged in *. cbn [t_files]. apply H1; [|exact Hs]. intros sx E.
    rewrite staged_path in E by done. unfold shard_path, incoming_name in E.
    assert (Hc : forall s x y, s +:+ x = s +:+ y -> x = y) by (clear; intros s x y; induction s as [|c s IH]; [done|]; intros [= ?]; by apply IH).
    apply Hc in E. change ("/." +:+ key +:+ ".incoming." +:+ sx) with ("/" +:+ ("." +:+ key +:+ ".incoming." +:+ sx)) in E. apply Hc in E.
    pose proof (valid_length k Hk) as Hl. apply andb_prop in Hk as [_ Hk]. destruct k as [|c k]; [done|]. injection E as -> _. discriminate Hk.
  - intros Hok. destruct (H2 Hok) as (_ & Hlen & Hs). unfold is_staged. cbn [t_files]. by rewrite staged_path.
Qed.

Lemma http_fetched c single node key staging (t : tool W) :
  keeps_staged staging t (http_fetch c single node key staging t).2 /\
  ((http_fetch c single node key staging t).1 = true -> is_staged staging key (http_fetch c single node key staging t).2).
Proof.
  unfold http_fetch. rewrite st_bind_run. set (r := (http_request_raw _ _ _ _ t).1). set (t1 := (http_request_raw _ _ _ _ t).2).
  assert (Hf : t_files t1 = t_files t) by apply request_files.
  destruct r.1 as [body|]; [|split; [by apply same_files_keep|done]]. destruct (r.2 =? 200); [|split; [by apply same_files_keep|done]].
  rewrite st_bind_run. cbn [on_local fst snd mret st_ret]. split.
  - intros k _ Hs. unfold is_staged in *. cbn [t_files]. rewrite Hf.
    destruct (decide (staged staging key = staged staging k)) as [->|Hne]; [rewrite lookup_insert_eq; by eexists|by rewrite lookup_insert_ne].
  - intros _. unfold is_staged. cbn [t_files]. rewrite lookup_insert_eq. by eexists.
Qed.

Lemma fetched c single nodes staging key holders (t : tool W) :
  keeps_staged staging t (fetch_from transfers c single nodes staging key holders t).2 /\
  ((fetch_from transfers c single nodes staging key holders t).1 = true ->
     is_staged staging key (fetch_from transfers c single nodes staging key holders t).2).
Proof.
  revert t. induction holders as [|h holders IH]; intros t; [by split; [reflexivity|]|]. cbn [fetch_from]. rewrite st_bind_run.
  match goal with |- context [(?m t).1] => set (body := m) end.
  assert (Hb : keeps_staged staging t (body t).2 /\ ((body t).1 = true -> is_staged staging key (body t).2)).
  { subst body. destruct (nodes !! h) as [node|]; [|by split; [reflexivity|]]. destruct (negb (cn_online node)); [by split; [reflexivity|]|].
    rewrite st_bind_run. set (m := if _ && _ then _ else _).
    assert (Hm : keeps_staged staging t (m t).2 /\ ((m t).1 = true -> is_staged staging key (m t).2))
      by (subst m; destruct (_ && _); [apply mesh_fetched|by split; [reflexivity|]]).
    destruct Hm as [M1 M2]. destruct (m t).1; [by split; [|intros _; apply M2]|].
    destruct (_ || _); [|by split]. destruct (http_fetched c single node key staging (m t).2) as [H1 H2]. split; [by etrans|done]. }
  destruct Hb as [B1 B2]. destruct (body t).1; [by split; [|intros _; apply B2]|].
  destruct (IH (body t).2) as [I1 I2]. split; [by etrans|done].
Qed.

(** When none failed there is a file for each. *)
Lemma all_fetched c single nodes staging shards (t : tool W) :
  keeps_staged staging t (fetch_all transfers c single nodes staging shards t).2 /\
  ((fetch_all transfers c single nodes staging shards t).1.2 = O ->
   forall e, e ∈ shards -> good_key staging (e_key e) -> is_staged staging (e_key e) (fetch_all transfers c single nodes staging shards t).2).
Proof.
  revert t. induction shards as [|e shards IH]; intros t; [split; [reflexivity|]; by intros _ e ?%elem_of_nil|]. cbn [fetch_all].
  rewrite !st_bind_run. destruct (fetched c single nodes staging (e_key e) (e_holders e) t) as [F1 F2].
  set (got := (fetch_from _ _ _ _ _ _ _ t).1) in *. set (t1 := (fetch_from _ _ _ _ _ _ _ t).2) in *. cbn [local fst snd mret st_ret].
  destruct (IH t1) as [I1 I2]. split; [by etrans|]. destruct got; [|done]. intros Hz e' [->|He]%elem_of_cons Hg; [|by apply I2].
  apply I1; [done|by apply F2].
Qed.

(** C25: When a backup ends with status 0, the directory it packed
    has a file for every shard that a node listed in the manifest it answered
    and that no node called a system shard, whoever holds it and however its
    transfers went, and the archive is left at its absolute path (for at most
    8192 listings of well-formed keys). *)
Theorem backup_complete c out_zip created keep_staging (t : tool W) nodes single self
  (staging := out_zip +:+ ".staging")
  (cluster := http_json c "GET" "/admin/cluster" t) (keyspaces := http_json c "GET" "/admin/keyspaces" cluster.2)
  (t1 := Tool (t_world keyspaces.2) (remove_tree staging (t_files keyspaces.2)) (t_turn keyspaces.2))
  (ms := (manifests c single nodes t1).1)
  (Hok : (cmd_backup zip_dir cwd transfers c out_zip created keep_staging t).1 = 0)
  (Hnodes : backup_nodes c cluster.1 = Some (nodes, single, self))
  (Hgood : forall l, l ∈ listings ms -> good_key staging l.1) (Hroom : (length (listings ms) <= MAX_SHARDS)%nat)
  key s (Hkey : (key, s) ∈ listings ms) (Hsystem : forall s', (key, s') ∈ listings ms -> is_true_item s' "system" = false) :
  exists fs data zip_abs, absolute_path cwd out_zip = Some zip_abs /\ zip_dir fs staging = Some data /\
    is_Some (fs !! staged staging key) /\
    t_files (cmd_backup zip_dir cwd transfers c out_zip created keep_staging t).2 =
      (if keep_staging then id else remove_tree staging) (<[zip_abs := data]> fs).
Proof.
  unfold cmd_backup in *. rewrite st_bind_run in *. fold cluster in Hok |- *. rewrite st_bind_run in *. fold keyspaces in Hok |- *.
  rewrite Hnodes in *. destruct keyspaces.1.1 as [kss|]; [|done]. fold staging in Hok |- *.
  destruct (4096 <=? String.length staging)%nat; [done|]. rewrite st_bind_run in *. cbn [on_local fst snd] in *. fold t1 in Hok |- *.
  rewrite st_bind_run in *. set (names := omap name_of (array_of (Some kss))) in *.
  destruct (gathered c single names 0 nodes [] [] t1) as [(Hall & _ & Hsys) Hst].
  { split_and!; [by intros k x ?%elem_of_nil|done|by intros e ?%elem_of_nil]. }
  { apply Forall_forall. intros l Hl. by apply Hgood. }
  { exact Hroom. }
  fold ms in Hall, Hsys. cbn [app] in Hall, Hsys. set (all := (gather c single names 0 nodes [] t1).1) in *.
  set (t2 := (gather c single names 0 nodes [] t1).2) in *.
  set (shards := List.filter (fun e => negb (e_system e)) (sort_shards all)) in *.
  destruct (proj1 (list_elem_of_fmap _ _ _) (Hall key s Hkey)) as (e & -> & He).
  assert (Hin : e ∈ shards).
  { assert (Hp : sort_shards all ≡ₚ all) by apply merge_sort_Permutation.
    apply list_elem_of_In, List.filter_In. split; [apply list_elem_of_In; by rewrite Hp|].
    destruct (e_system e) eqn:Ee; [|done]. destruct (Hsys e He) as [_ Hy]. destruct (Hy Ee) as (s' & H1 & H2).
    by rewrite (Hsystem s' H1) in H2. }
  destruct shards as [|e0 rest] eqn:Es; [by apply elem_of_nil in Hin|]. rewrite <-Es in *. clear e0 rest Es.
  rewrite st_bind_run in *. destruct (all_fetched c single nodes staging shards t2) as [_ Hf].
  set (r := (fetch_all transfers c single nodes staging shards t2).1) in *. set (t3 := (fetch_all transfers c single nodes staging shards t2).2) in *.
  rewrite st_bind_run in *. cbn [on_local fst snd] in *. set (fs := <[_ := _]> (t_files t3)) in *.
  destruct (absolute_path cwd out_zip) as [zip_abs|]; [|done]. rewrite st_bind_run in *. cbn [local fst snd t_files] in *.
  destruct (zip_dir fs staging) as [data|] eqn:Ez; [|done]. exists fs, data, zip_abs.
  rewrite !st_bind_run in *. cbn [on_local fst snd t_files t_world t_turn] in *. destruct (Nat.ltb_spec 0 r.2) as [|Hz]; [by destruct keep_staging|].
  split; [done|]. split; [done|]. split.
  - specialize (Hf ltac:(lia) e Hin (Hgood _ Hkey)). unfold is_staged in Hf. subst fs.
    destruct (decide (snprintf 1100 (staging +:+ "/manifest.json") = staged staging (e_key e))) as [->|Hne];
      [rewrite lookup_insert_eq; by eexists|by rewrite lookup_insert_ne].
  - by destruct keep_staging.
Qed.
End backup.

(** ** Witness *)

Section witness.
#[local] Existing Instance MapStore.digit_codec.

Definition listed_key : string := "0123456789abcdef0123456789abcdef".

(** A single node with one shard, of two bytes. *)
Definition one_answer (sent : text) : edb_http_response :=
  if contains "/admin/cluster" (str sent) then respond_error 400 "clustering disabled (start with -n <peer_port>)"
  else if contains "/admin/keyspaces" (str sent) then respond_json 200 (Some (JArray []))
  else if contains "/admin/backup/manifest" (str sent) then
    respond_json 200 (Some (JObject [("shards", JArray [JObject [("key", JString listed_key); ("system", JBool false)]])]))
  else Response 200 "application/octet-stream" (Some "ab"%string).
#[local] Instance one_node : HttpNodes unit := {| talk _ sent := mret (Some (chars (write_response (one_answer sent) false))) |}.

Definition local_client : http_client := Client None 8123 "" "".
Definition no_transfer (_ : nat) : transfer := Transfer false [] None [] None (fun _ _ => false) false [].
Definition pack (fs : files) (_ : string) : option bytes := Some [Z.of_nat (size fs)].

Lemma backup_complete_witness :
  let r := cmd_backup pack (Some "/w"%string) no_transfer local_client "b.zip" "now" true (Tool tt ∅ 0) in
  r.1 = 0 /\ exists fs data, pack fs "b.zip.staging" = Some data /\ is_Some (fs !! staged "b.zip.staging" listed_key) /\
    t_files r.2 = <["/w/b.zip"%string := data]> fs.
Proof.
  intros r. split; [vm_compute; reflexivity|].
  pose proof (backup_complete pack (Some "/w"%string) no_transfer local_client "b.zip" "now" true (Tool tt ∅ 0) [local_node local_client] true None) as H.
  cbv zeta in H. specialize (fun H1 H2 H3 H4 => H H1 H2 H3 H4 listed_key (JObject [("key", JString listed_key); ("system", JBool false)])) as H'.
  destruct H' as (fs & data & zip_abs & E & H1 & H2 & H3).
  - vm_compute. reflexivity.
  - vm_compute. reflexivity.
  - intros l Hl. assert (El : l.1 = listed_key) by (revert Hl; vm_compute; intros Hl; apply list_elem_of_singleton in Hl; by subst l).
    rewrite El. split; [reflexivity|]. apply Nat.ltb_lt. reflexivity.
  - apply Nat.leb_le. vm_compute. reflexivity.
  - vm_compute. left.
  - intros s' Hs'. revert Hs'. vm_compute. intros Hs'. apply list_elem_of_singleton in Hs'. by injection Hs' as ->.
  - exists fs, data. split; [exact H1|]. split; [exact H2|]. injection E as <-. exact H3.
Defined.
End witness.

End BackupArchive.
